(* ===== verification/_CoqProject ===== *)
-Q . S2P
Prelude.v
GoStrings.v
GoCodec.v
ConfigModel.v
Value.v
Json.v
GoTime.v
Http.v
JsonStruct.v
GoFloat.v
Echo.v
Names.v
Selector.v
Catalog.v
Store.v
StoreFacts.v
StoreProps.v
Listing.v
Patch.v
JsonPatch.v
World.v
Controllers.v
ControllerProps.v
Seed.v
SeedProps.v
Proto.v
Request.v
OpenApi.v
OpenApiProps.v
Table.v
TableProps.v
Api.v
ApiProps.v
ApiContracts.v
Watch.v
WatchProps.v
Netlimit.v
Sink.v
Netip.v
NetipProps.v
Config.v
ConfigEnv.v
ConfigProps.v
ConfigSeed.v
Redact.v
RedactProps.v
Logger.v
LoggerProps.v
Shipping.v
ShippingProps.v
Ai.v
AiProps.v
Docker.v
DockerProps.v
Kubelet.v
KubeletProps.v
Sensors.v
SensorsProps.v
Server.v
ServerProps.v
Startup.v
StartupProps.v
