(* ===== verification/Prelude.v ===== *)
(** * Helix honeypot: verification library

    Helix is a honeypot: decoy servers that answer like the real thing and
    record what clients do.  This library models the program under src/ and
    proves what its parts promise to each other: the simulated Kubernetes API
    server, which holds most of the logic, the other sensors, the
    configuration, and the event records with the sinks they are shipped to.

    ** The parts and their files

    - Foundations.  [Prelude] (machine integers, map iteration order, shared
      lemmas and tactics), [GoStrings] (bytes, runes, [strings], [strconv],
      [fmt]), [GoCodec] (base64, SHA-256, dates), [GoTime], [GoFloat]
      ([strconv.ParseFloat]), [Value] and [Json] (dynamic values,
      [encoding/json] both ways), [JsonStruct] (decoding into structs), [Http]
      (bodies and queries), [Netip] and [NetipProps] (addresses and prefixes of
      [net] and [net/netip]), [Echo] (the router as an interface).
    - [Names], [Selector]: the validators of names (config.go, api.go, state.go)
      and the selectors of list requests (api.go).
    - [Catalog]: the table of served resources, what each minor release moves
      or adds, and the discovery documents (api.go, schema.go).
    - [Store], [StoreFacts], [StoreProps]: the object store of state.go.  The Go
      struct is the record [objectStore]; its mutex makes a method atomic, so a
      method is a function on states and an interleaving a list of them.
      Watchers are part of the state, with buffered channels; a send on a closed
      channel is recorded, so its absence can be proved.
    - [Listing]: pages, continue tokens and [list] (api.go).
    - [Patch], [JsonPatch]: merge patches on values; JSON patches on a heap of
      maps, because [copy] and [move] store the map itself (api.go).
    - [World], [Controllers], [ControllerProps]: a handler is an action, a
      function on worlds (store, slots, recorded events, clock) that returns or
      panics; controller.go is a set of actions.
    - [Seed], [SeedProps]: the decoys of a fresh cluster (state.go).
    - [Proto], [Request], [Api], [ApiProps], [ApiContracts]: request bodies,
      handlers and replies (api.go).  A reply keeps its rendering symbolic: the
      document, or the list that [Table], [TableProps] turn into a table
      (table.go).
    - [Watch], [WatchProps]: the stream of a watch, step by step between the
      steps of other requests (api.go).
    - [OpenApi], [OpenApiProps]: the OpenAPI documents, their negotiation and
      cache (api.go), and where the schema comes from (schema.go).
    - [Server], [ServerProps]: [NewAPIContext], the whole of [ServeHTTP] with
      the documents of discovery (api.go), and the chain of handlers around it
      (k8s.go, the middleware of logger.go).
    - [Ai], [AiProps] (ai.go, replies.go), [Docker], [DockerProps] (docker.go),
      [Kubelet], [KubeletProps] (kubelet.go), [Sensors], [SensorsProps] (tcp.go,
      udp.go, http.go, defense.go, the dispatcher of server.go): a sensor with
      state is a function on it, the goroutines of TCP a step function.
    - [Startup], [StartupProps]: the [Start...Honeypot] functions as what they
      open, close and serve, with [defer]; tlsgen.go; main.go.
    - [ConfigModel], [Config], [ConfigEnv], [ConfigProps], [ConfigSeed]: the
      records of model/, config.go, and what validation promises to the seeding
      and to the redaction.
    - [Redact], [RedactProps], [Logger], [LoggerProps]: logger.go: sanitizing,
      line formats, trusted proxies.
    - [Sink], [Shipping], [ShippingProps]: the batch shipper of sink.go as a
      step relation over the atomic steps of its goroutines; the registry, the
      file sink and the requests of the HTTP sinks (sink_http.go).
    - [Netlimit]: the capped listener of internal/netlimit, likewise.

    ** What the theorems show

    - The store: bounds and watcher discipline in every reachable state, the
      contract of each method on every branch, exact byte accounting and where
      it is lost, delivery to watchers, unique generated names.
    - The handlers: a failed request writes nothing; a request writes its own
      kind and those of the controllers; what 201 and 200 mean; reads are
      reads; pagination ends and shows every selected object once; a watch
      skips no event; every row of a table fits its columns.
    - The controllers: which pods exist after reconciliation, which keys may
      change, when a count makes a handler panic.
    - The server: what validation accepts it starts with, what it advertises it
      serves, from a schema that was checked; which requests are recorded.
    - The other sensors: the tables of the Docker daemon agree and its changes
      are recorded; the AI sensor answers within its bounds and records nothing
      a client chose; each TCP connection is recorded once; streaming is
      refused; a sensor that fails to start leaves nothing open.
    - Configuration: validation accepts exactly a declarative specification,
      and what it accepts is seeded in full within the budgets of the store.
    - Event records: one line each, no configured credential in the fields that
      clients fill, a client address that a client cannot choose; batches that
      account for every event in every interleaving and that a collector reads
      back.

    ** Conventions

    Integers are [Z] with their wrap-around written out ([u64], [u32], [i64]);
    strings are bytes.  A Go map that is only read in key order is a sorted
    association list; where a loop ranges over a map the order is asked of
    [RangeOrder], whose only law is that it permutes the entries, so a theorem
    holds for every order.  Time, random identifiers and the order of map
    iteration are the environment [Env] (or [LogEnv] for the records).

    Code that is not under src/ and whose behaviour matters is an interface:
    [UnicodeTables] (case mapping and printing beyond ASCII), [Protowire] (the
    wire format reader, whose law is that it consumes between one byte and all
    of them), [Yaml] (the YAML decoder), [UrlPackage] ([url.Parse] and
    [URL.String]), [Gzip] (with its round trip), [EchoRouter] (a route that
    takes the request, the longest), the TOML decoder, the OpenAPI parser and
    the protobuf encoder, the HTTP client, and the files, sockets and
    environment that the program reads.  Each has an instance with which
    witnesses evaluate.

    Fuel bounds recursion that is not structural; each bound is the size of what
    is consumed, and the theorems that use such a function show that the fuel is
    enough: [splitList_exact], [each_event_is_one_line] (a write loop consumes a
    byte a turn), [pagination_complete] (a request a page).

    ** Not modelled

    What the operating system and the libraries do: sockets, the HTTP server
    and its timeouts, TLS and the making of keys, signals, the parser of the
    OpenAPI schema.  The object generators of package generator are dead code:
    nothing imports them. *)
From stdpp Require Export prelude strings gmap list sorting fin_maps.
From Stdlib Require Export ZArith Lia.

#[local] Open Scope string_scope.
#[local] Open Scope list_scope.
#[local] Open Scope Z_scope.
#[global] Set Default Goal Selector "!".

#[global] Arguments String.append : simpl nomatch.

(** ** Machine integers *)

(** [uint64], [uint32] and [int]/[int64] arithmetic wraps. *)
Definition u64 (z : Z) : Z := z mod 2 ^ 64.
Definition u32 (z : Z) : Z := z mod 2 ^ 32.
Definition i64 (z : Z) : Z := (z + 2 ^ 63) mod 2 ^ 64 - 2 ^ 63.

Definition max_int64 : Z := 2 ^ 63 - 1.
Definition min_int64 : Z := - 2 ^ 63.

Lemma u64_small z : 0 <= z < 2 ^ 64 -> u64 z = z.
Proof. intros. by apply Z.mod_small. Qed.

Lemma u64_range z : 0 <= u64 z < 2 ^ 64.
Proof. apply Z.mod_pos_bound. lia. Qed.

Lemma u32_range z : 0 <= u32 z < 2 ^ 32.
Proof. apply Z.mod_pos_bound. lia. Qed.

Lemma i64_small z : - 2 ^ 63 <= z < 2 ^ 63 -> i64 z = z.
Proof. intros. unfold i64. rewrite Z.mod_small; lia. Qed.

(** ** Iteration over a Go map

    The order in which [range] visits a map is unspecified and may differ from
    one loop to the next.  A loop whose effect can depend on it asks this
    interface; [site] tells the loops apart.  The only law is the documented
    one: every entry is visited exactly once. *)
Class RangeOrder := {
  range_entries : forall {A : Type} (site : nat), list A -> list A;
  range_entries_perm : forall {A : Type} (site : nat) (l : list A), range_entries site l ≡ₚ l;
}.

(** Visiting in key order, the order used to evaluate examples. *)
Definition key_order : RangeOrder.
Proof. refine {| range_entries := fun _ _ l => l |}. done. Defined.

(** ** Computations that thread a state *)
Definition st (S A : Type) : Type := S -> S * A.
Definition st_ret {S A} (a : A) : st S A := fun s => (s, a).
Definition st_bind {S A B} (m : st S A) (k : A -> st S B) : st S B :=
  fun s => let '(s', a) := m s in k a s'.

Declare Scope st_scope.
Delimit Scope st_scope with st.
Notation "'let!' x := m 'in' k" := (st_bind m (fun x => k))
  (at level 10, x name, m at level 100, k at level 200) : st_scope.
Notation "'let!' ' p := m 'in' k" := (st_bind m (fun x => let 'p := x in k))
  (at level 10, p pattern, m at level 100, k at level 200) : st_scope.
Notation "m ;;; k" := (st_bind m (fun _ => k))
  (at level 100, right associativity) : st_scope.

(** A loop over a slice: the body runs once per element, in order. *)
Fixpoint st_for {S A} (l : list A) (body : A -> st S unit) : st S unit :=
  match l with
  | [] => st_ret tt
  | a :: l' => st_bind (body a) (fun _ => st_for l' body)
  end.

Section st_lemmas.
Context {S : Type}.

(** A relation between the states before and after that a loop body
    establishes is established by the loop, when it is a preorder. *)
Lemma st_for_rel {A} (R : S -> S -> Prop) (l : list A) (body : A -> st S unit) :
  (forall s, R s s) ->
  (forall s1 s2 s3, R s1 s2 -> R s2 s3 -> R s1 s3) ->
  (forall a s, a ∈ l -> R s (fst (body a s))) ->
  forall s, R s (fst (st_for l body s)).
Proof.
  intros Hrefl Htrans. induction l as [|a l IH]; intros Hbody s; [apply Hrefl|].
  simpl. unfold st_bind. destruct (body a s) as [s' u] eqn:E.
  eapply Htrans; [|apply IH].
  - pose proof (Hbody a s) as H. rewrite E in H. apply H. set_solver.
  - intros b t Hb. apply Hbody. set_solver.
Qed.

Lemma st_for_inv {A} (P : S -> Prop) (l : list A) (body : A -> st S unit) :
  (forall a s, a ∈ l -> P s -> P (fst (body a s))) ->
  forall s, P s -> P (fst (st_for l body s)).
Proof.
  intros Hb. apply (st_for_rel (fun s s' => P s -> P s')); naive_solver.
Qed.
End st_lemmas.

(** ** Lists *)
Definition sum_Z (l : list Z) : Z := foldr Z.add 0 l.

Lemma sum_Z_app l1 l2 : sum_Z (l1 ++ l2) = sum_Z l1 + sum_Z l2.
Proof. induction l1; simpl; lia. Qed.

Lemma sum_Z_nonneg l : Forall (fun z => 0 <= z) l -> 0 <= sum_Z l.
Proof. induction 1; simpl; lia. Qed.

#[export] Instance sum_Z_perm : Proper ((≡ₚ) ==> (=)) sum_Z.
Proof.
  intros l1 l2 Hl. induction Hl as [| | |l1 l2 l3 _ IH1 _ IH2]; simpl; [done|lia|lia|congruence].
Qed.

(** The sum of a measure over the values of a map. *)
Definition map_sum `{Countable K} {A} (f : A -> Z) (m : gmap K A) : Z :=
  map_fold (fun _ a n => f a + n) 0 m.

Section map_sum.
Context `{Countable K} {A : Type} (f : A -> Z).

Lemma map_sum_empty : map_sum f (∅ : gmap K A) = 0.
Proof. apply map_fold_empty. Qed.

Lemma map_sum_insert (m : gmap K A) k a :
  m !! k = None -> map_sum f (<[k:=a]> m) = f a + map_sum f m.
Proof. intros. unfold map_sum. rewrite map_fold_insert_L; [done|intros; lia|done]. Qed.

Lemma map_sum_delete (m : gmap K A) k a :
  m !! k = Some a -> map_sum f m = f a + map_sum f (delete k m).
Proof.
  intros Hk. rewrite <- (insert_id m k a Hk) at 1. rewrite <- insert_delete_eq.
  apply map_sum_insert, lookup_delete_eq.
Qed.

Lemma map_sum_overwrite (m : gmap K A) k a b :
  m !! k = Some a -> map_sum f (<[k:=b]> m) = map_sum f m - f a + f b.
Proof.
  intros Hk. rewrite (map_sum_delete m k a Hk), <- insert_delete_eq, map_sum_insert.
  - lia.
  - apply lookup_delete_eq.
Qed.

Lemma map_sum_nonneg (m : gmap K A) : (forall a, 0 <= f a) -> 0 <= map_sum f m.
Proof.
  intros Hf. induction m as [|k a m Hk IH] using map_ind.
  - by rewrite map_sum_empty.
  - rewrite map_sum_insert by done. specialize (Hf a). lia.
Qed.
End map_sum.

(** ** Automation *)

(** Case analysis on the next test of the goal, or of a hypothesis, keeping
    the equation. *)
Ltac case_test :=
  match goal with
  | |- context [if ?b then _ else _] => destruct b eqn:?
  | |- context [match ?x with _ => _ end] => destruct x eqn:?
  end.
Ltac case_hyp H :=
  match type of H with
  | context [if ?b then _ else _] => destruct b eqn:?
  | context [match ?x with _ => _ end] => destruct x eqn:?
  end.

(** [lia] with division and remainder by constants. *)
Ltac dlia := Z.to_euclidean_division_equations; lia.

(** Turn boolean tests in the context into propositions. *)
Ltac bool_to_prop :=
  repeat match goal with
  | H : (_ && _)%bool = true |- _ => apply andb_true_iff in H; destruct H
  | H : (_ || _)%bool = false |- _ => apply orb_false_iff in H; destruct H
  | H : negb _ = true |- _ => apply negb_true_iff in H
  | H : negb _ = false |- _ => apply negb_false_iff in H
  | H : bool_decide _ = true |- _ => apply bool_decide_eq_true_1 in H
  | H : bool_decide _ = false |- _ => apply bool_decide_eq_false_1 in H
  | H : (_ =? _) = true |- _ => apply Z.eqb_eq in H
  | H : (_ =? _) = false |- _ => apply Z.eqb_neq in H
  | H : (_ <? _) = true |- _ => apply Z.ltb_lt in H
  | H : (_ <? _) = false |- _ => apply Z.ltb_ge in H
  | H : (_ <=? _) = true |- _ => apply Z.leb_le in H
  | H : (_ <=? _) = false |- _ => apply Z.leb_gt in H
  | H : String.eqb _ _ = true |- _ => apply String.eqb_eq in H
  | H : String.eqb _ _ = false |- _ => apply String.eqb_neq in H
  end.

(** A property of a number below a small bound, by evaluation. *)
Lemma forall_lt_decide (n : nat) (P : Z -> Prop) (dec : forall z, Decision (P z)) :
  forallb (fun z => bool_decide (P z)) (Z.of_nat <$> seq 0 n) = true ->
  forall z, 0 <= z < Z.of_nat n -> P z.
Proof.
  intros Hb z Hz. rewrite forallb_forall in Hb. apply (bool_decide_eq_true_1 (P z)), Hb.
  apply list_elem_of_In, list_elem_of_fmap. exists (Z.to_nat z). split; [lia|].
  apply elem_of_seq. lia.
Qed.

Ltac by_evaluation n :=
  match goal with
  | |- forall z, _ -> @?P z => apply (forall_lt_decide n P _); vm_compute; reflexivity
  end.

Create HintDb helix.
#[export] Hint Resolve u64_range u32_range : helix.
