(* ===== verification/GoStrings.v ===== *)
(** * Strings

    Go strings are byte sequences: [string] of the Standard Library.  This file
    gives the operations of the packages [strings], [strconv] and [fmt] that the
    sources use, UTF-8 decoding as [range] performs it, and their lemmas.  The
    Unicode tables are the one part that is not reproduced: case mapping and
    printability of characters outside ASCII are an interface. *)
From S2P Require Import Prelude.
From Stdlib Require Export Ascii.
From Stdlib Require DecimalString DecimalZ.

#[local] Open Scope string_scope.
#[local] Open Scope list_scope.
#[local] Open Scope Z_scope.

(** ** Bytes *)
Definition code (a : ascii) : Z := Z.of_N (N_of_ascii a).
Definition chr (z : Z) : ascii := ascii_of_N (Z.to_N z).
Definition slen (s : string) : Z := Z.of_nat (String.length s).
Definition str1 (a : ascii) : string := String a "".

Definition quote : string := str1 (chr 34).
Definition newline : string := str1 (chr 10).

Fixpoint str_take (n : nat) (s : string) : string :=
  match n, s with
  | S n, String c s => String c (str_take n s)
  | _, _ => ""
  end.
Fixpoint str_drop (n : nat) (s : string) : string :=
  match n, s with
  | S n, String _ s => str_drop n s
  | _, _ => s
  end.
Fixpoint all_bytes (p : ascii -> bool) (s : string) : bool :=
  match s with "" => true | String c s => p c && all_bytes p s end.
Fixpoint any_byte (p : ascii -> bool) (s : string) : bool :=
  match s with "" => false | String c s => p c || any_byte p s end.
Fixpoint str_last (s : string) : option ascii :=
  match s with
  | "" => None
  | String c "" => Some c
  | String _ s => str_last s
  end.
Fixpoint str_rev_onto (acc s : string) : string :=
  match s with "" => acc | String c s => str_rev_onto (String c acc) s end.
Definition str_rev (s : string) : string := str_rev_onto "" s.
Fixpoint str_concat (l : list string) : string :=
  match l with [] => "" | s :: l => s +:+ str_concat l end.
Fixpoint str_repeat (s : string) (n : nat) : string :=
  match n with O => "" | S n => s +:+ str_repeat s n end.

Definition is_byte (z : Z) : Prop := 0 <= z < 256.

Lemma code_range c : 0 <= code c < 256.
Proof. unfold code. pose proof (N_ascii_bounded c). lia. Qed.
Lemma chr_code c : chr (code c) = c.
Proof. unfold chr, code. rewrite N2Z.id. apply ascii_N_embedding. Qed.
Lemma code_chr z : is_byte z -> code (chr z) = z.
Proof.
  intros [? ?]. unfold chr, code. rewrite N_ascii_embedding by lia. lia.
Qed.
Definition is_lower (c : ascii) : bool := (97 <=? code c) && (code c <=? 122).
Definition is_upper (c : ascii) : bool := (65 <=? code c) && (code c <=? 90).
Definition is_digit (c : ascii) : bool := (48 <=? code c) && (code c <=? 57).

(** ** Package [strings] *)
Definition has_prefix (s p : string) : bool := String.prefix p s.
Definition trim_prefix (s p : string) : string :=
  if has_prefix s p then str_drop (String.length p) s else s.
Definition has_suffix (s p : string) : bool := has_prefix (str_rev s) (str_rev p).
Definition trim_suffix (s p : string) : string :=
  if has_suffix s p then str_take (String.length s - String.length p) s else s.
Fixpoint index (s sub : string) : option nat :=
  if has_prefix s sub then Some O
  else match s with "" => None | String _ s => S <$> index s sub end.
Definition contains (s sub : string) : bool :=
  match index s sub with Some _ => true | None => false end.
Definition contains_any (s chars : string) : bool :=
  any_byte (fun c => any_byte (Ascii.eqb c) chars) s.
Definition cut (s sep : string) : option (string * string) :=
  match index s sep with
  | Some i => Some (str_take i s, str_drop (i + String.length sep) s)
  | None => None
  end.
(** [strings.Split] with a one-byte separator. *)
Fixpoint split (c : ascii) (s : string) : list string :=
  match s with
  | "" => [""]
  | String a s =>
      if Ascii.eqb a c then "" :: split c s
      else match split c s with
           | [] => [str1 a]
           | w :: l => String a w :: l
           end
  end.
Fixpoint join (l : list string) (sep : string) : string :=
  match l with
  | [] => ""
  | [w] => w
  | w :: l => w +:+ sep +:+ join l sep
  end.
Fixpoint count_byte (c : ascii) (s : string) : Z :=
  match s with "" => 0 | String a s => (if Ascii.eqb a c then 1 else 0) + count_byte c s end.
(** [strings.ReplaceAll] of a non-empty pattern; [skip] bytes of the last
    match are still to be passed over. *)
Fixpoint replace_from (old new : string) (skip : nat) (s : string) : string :=
  match s with
  | "" => ""
  | String c s' =>
      match skip with
      | S k => replace_from old new k s'
      | O => if has_prefix s old then new +:+ replace_from old new (String.length old - 1) s'
             else String c (replace_from old new O s')
      end
  end.
Definition replace_all (s old new : string) : string := replace_from old new O s.

(** ** UTF-8 *)
Definition is_cont (c : ascii) : bool := (128 <=? code c) && (code c <=? 191).
Definition in_range (lo hi : Z) (c : ascii) : bool := (lo <=? code c) && (code c <=? hi).
Definition rune_error : Z := 65533.

(** The characters [range] yields, each with the bytes it was decoded from;
    a byte that starts no valid encoding gives U+FFFD and is passed alone. *)
Fixpoint runes (s : string) : list (Z * string) :=
  match s with
  | "" => []
  | String a s1 =>
      if code a <? 128 then (code a, str1 a) :: runes s1
      else match s1 with
      | "" => (rune_error, str1 a) :: runes s1
      | String b s2 =>
          if in_range 194 223 a then
            if is_cont b then
              ((code a - 192) * 64 + (code b - 128), String a (str1 b)) :: runes s2
            else (rune_error, str1 a) :: runes s1
          else match s2 with
          | "" => (rune_error, str1 a) :: runes s1
          | String c s3 =>
              if in_range 224 239 a then
                if in_range (if code a =? 224 then 160 else 128)
                            (if code a =? 237 then 159 else 191) b && is_cont c then
                  ((code a - 224) * 4096 + (code b - 128) * 64 + (code c - 128),
                   String a (String b (str1 c))) :: runes s3
                else (rune_error, str1 a) :: runes s1
              else match s3 with
              | "" => (rune_error, str1 a) :: runes s1
              | String d s4 =>
                  if in_range 240 244 a then
                    if in_range (if code a =? 240 then 144 else 128)
                                (if code a =? 244 then 143 else 191) b && is_cont c && is_cont d then
                      ((code a - 240) * 262144 + (code b - 128) * 4096
                         + (code c - 128) * 64 + (code d - 128),
                       String a (String b (String c (str1 d)))) :: runes s4
                    else (rune_error, str1 a) :: runes s1
                  else (rune_error, str1 a) :: runes s1
              end
          end
      end
  end.

Definition encode_rune (r : Z) : string :=
  if r <? 128 then str1 (chr r)
  else if r <? 2048 then String (chr (192 + r / 64)) (str1 (chr (128 + r mod 64)))
  else if r <? 65536 then
    String (chr (224 + r / 4096)) (String (chr (128 + (r / 64) mod 64)) (str1 (chr (128 + r mod 64))))
  else String (chr (240 + r / 262144)) (String (chr (128 + (r / 4096) mod 64))
         (String (chr (128 + (r / 64) mod 64)) (str1 (chr (128 + r mod 64))))).

Definition is_space (r : Z) : bool :=
  ((9 <=? r) && (r <=? 13)) || (r =? 32) || (r =? 133) || (r =? 160) || (r =? 5760)
  || ((8192 <=? r) && (r <=? 8202)) || (r =? 8232) || (r =? 8233) || (r =? 8239)
  || (r =? 8287) || (r =? 12288).

Fixpoint drop_spaces (l : list (Z * string)) : list (Z * string) :=
  match l with
  | (r, b) :: l' => if is_space r then drop_spaces l' else l
  | [] => []
  end.
Definition trim_space (s : string) : string :=
  str_concat (map snd (reverse (drop_spaces (reverse (drop_spaces (runes s)))))).

(** ** Case mapping and printability *)

(** The tables of package [unicode] beyond ASCII.  The laws are the documented
    ones: [ToLower] yields a character, and one that is already lower case. *)
Class UnicodeTables := {
  uc_lower : Z -> Z;
  uc_print : Z -> bool;
  uc_lower_range : forall r, 128 <= r < 1114112 -> 0 <= uc_lower r < 1114112;
}.

(** Tables that treat every character outside ASCII as caseless and printable,
    used to evaluate examples. *)
Definition ascii_tables : UnicodeTables.
Proof. refine {| uc_lower := fun r => r; uc_print := fun _ => true |}. lia. Defined.

Definition ascii_lower (r : Z) : Z := if (65 <=? r) && (r <=? 90) then r + 32 else r.

Section unicode.
Context `{UnicodeTables}.

Definition lower_rune (r : Z) : Z := if r <? 128 then ascii_lower r else uc_lower r.
Definition to_lower (s : string) : string :=
  str_concat (map (fun rb => encode_rune (lower_rune rb.1)) (runes s)).

(** [strings.EqualFold] is only applied to ASCII header names. *)
Definition equal_fold (a b : string) : bool := String.eqb (to_lower a) (to_lower b).
End unicode.

(** ** Package [strconv] and the verbs of [fmt] *)
Definition digit_char (d : Z) : ascii := chr (if d <? 10 then 48 + d else 87 + d).

Fixpoint to_base_go (fuel : nat) (b n : Z) (acc : string) : string :=
  match fuel with
  | O => acc
  | S fuel =>
      let acc := String (digit_char (n mod b)) acc in
      if n <? b then acc else to_base_go fuel b (n / b) acc
  end.
(** The digits of a natural number; a number has at most as many digits as
    bits, so the fuel is enough in every base. *)
Definition to_base (b n : Z) : string := to_base_go (S (Z.to_nat (Z.log2 n))) b n "".
Definition itoa (z : Z) : string :=
  if z <? 0 then String (chr 45) (to_base 10 (- z)) else to_base 10 z.
Definition to_hex (n : Z) : string := to_base 16 n.
Definition pad_left (c : ascii) (w : nat) (s : string) : string :=
  str_repeat (str1 c) (w - String.length s) +:+ s.
Definition zero_pad (w : nat) (n : Z) : string := pad_left (chr 48) w (to_base 10 n).
Definition hex_byte (z : Z) : string := str1 (digit_char (z / 16)) +:+ str1 (digit_char (z mod 16)).
Definition hex_bytes (l : list Z) : string := str_concat (map hex_byte l).

Fixpoint digits_from (acc : Z) (s : string) : option Z :=
  match s with
  | "" => Some acc
  | String c s => if is_digit c then digits_from (10 * acc + (code c - 48)) s else None
  end.
Definition parse_digits (s : string) : option Z :=
  match s with "" => None | _ => digits_from 0 s end.
(** [strconv.Atoi], equally [strconv.ParseInt(s, 10, 64)]: an optional sign and
    decimal digits, within the range of [int64]. *)
Definition atoi (s : string) : option Z :=
  let r := match s with
           | String c s' =>
               if Ascii.eqb c (chr 45) then Z.opp <$> parse_digits s'
               else if Ascii.eqb c (chr 43) then parse_digits s'
               else parse_digits s
           | "" => None
           end in
  match r with
  | Some z => if (min_int64 <=? z) && (z <=? max_int64) then Some z else None
  | None => None
  end.
Definition parse_bool (s : string) : option bool :=
  if bool_decide (s ∈ ["1"; "t"; "T"; "TRUE"; "true"; "True"]) then Some true
  else if bool_decide (s ∈ ["0"; "f"; "F"; "FALSE"; "false"; "False"]) then Some false
  else None.

Definition format_bool (b : bool) : string := if b then "true" else "false".

Section quote.
Context `{UnicodeTables}.

Definition quote_rune (rb : Z * string) : string :=
  let '(r, b) := rb in
  if (r =? rune_error) && (slen b =? 1) then
    match b with String c _ => "\x" +:+ hex_byte (code c) | "" => "" end
  else if r =? 34 then "\" +:+ quote
  else if r =? 92 then "\\"
  else if (if r <? 128 then (32 <=? r) && (r <? 127) else uc_print r) then b
  else if r =? 7 then "\a" else if r =? 8 then "\b" else if r =? 12 then "\f"
  else if r =? 10 then "\n" else if r =? 13 then "\r" else if r =? 9 then "\t"
  else if r =? 11 then "\v"
  else if (r <? 32) || (r =? 127) then "\x" +:+ hex_byte r
  else if r <? 65536 then "\u" +:+ pad_left (chr 48) 4 (to_hex r)
  else "\U" +:+ pad_left (chr 48) 8 (to_hex r).
(** [strconv.Quote], the verb [%q]. *)
Definition go_quote (s : string) : string :=
  quote +:+ str_concat (map quote_rune (runes s)) +:+ quote.
End quote.

(** ** Lemmas on bytes *)
Lemma str_app_nil s : s +:+ "" = s.
Proof. induction s as [|c s IH]; simpl; [done|]. by rewrite IH. Qed.
Lemma str_app_assoc a b c : a +:+ (b +:+ c) = (a +:+ b) +:+ c.
Proof. induction a as [|x a IH]; simpl; [done|]. by rewrite IH. Qed.
Lemma str_app_length a b : String.length (a +:+ b) = (String.length a + String.length b)%nat.
Proof. induction a as [|c a IH]; simpl; [done|]. by rewrite IH. Qed.
Lemma slen_app a b : slen (a +:+ b) = slen a + slen b.
Proof. unfold slen. rewrite str_app_length. lia. Qed.
Lemma slen_nonneg s : 0 <= slen s.
Proof. unfold slen. lia. Qed.
Lemma str_concat_app l1 l2 : str_concat (l1 ++ l2) = str_concat l1 +:+ str_concat l2.
Proof. induction l1 as [|s l1 IH]; simpl; [done|]. by rewrite IH, str_app_assoc. Qed.
Lemma code_inj a b : code a = code b -> a = b.
Proof. intros E. by rewrite <- (chr_code a), E, chr_code. Qed.
Lemma all_bytes_app p a b : all_bytes p (a +:+ b) = all_bytes p a && all_bytes p b.
Proof. induction a as [|c a IH]; simpl; [done|]. by rewrite IH, andb_assoc. Qed.
Lemma eqb_code a b : Ascii.eqb a b = (code a =? code b).
Proof.
  destruct (Ascii.eqb_spec a b) as [->|Hn]; [by rewrite Z.eqb_refl|].
  symmetry. apply Z.eqb_neq. intros E. by apply Hn, code_inj.
Qed.
Lemma has_prefix_cons a s b p : has_prefix (String a s) (String b p) = Ascii.eqb a b && has_prefix s p.
Proof.
  unfold has_prefix. cbn [String.prefix]. rewrite eqb_code. destruct (ascii_dec b a) as [->|Hn].
  - by rewrite Z.eqb_refl.
  - destruct (code a =? code b) eqn:E; [|done]. apply Z.eqb_eq, code_inj in E. congruence.
Qed.
Lemma has_prefix_nil s : has_prefix s "" = true.
Proof. by destruct s. Qed.
Lemma has_prefix_app p s : has_prefix (p +:+ s) p = true.
Proof.
  unfold has_prefix. induction p as [|c p IH]; simpl; [by destruct s|].
  by destruct (ascii_dec c c).
Qed.
Lemma str_drop_length n s : String.length (str_drop n s) = (String.length s - n)%nat.
Proof. revert s. induction n as [|n IH]; intros [|a s]; cbn; done. Qed.
Lemma str_take_all n s : (String.length s <= n)%nat -> str_take n s = s.
Proof. revert s. induction n as [|n IH]; intros [|a s]; cbn; intros Hl; try done; try lia. by rewrite IH by lia. Qed.
Lemma str_drop_drop n m s : str_drop n (str_drop m s) = str_drop (m + n) s.
Proof. revert s. induction m as [|m IH]; intros s; [done|]. destruct s as [|a s]; cbn; [by destruct n|apply IH]. Qed.
Lemma str_take_drop n s : s = str_take n s +:+ str_drop n s.
Proof. revert s. induction n as [|n IH]; intros [|c s]; [done..|]. cbn [str_take str_drop String.append]. by rewrite <- IH. Qed.
Lemma str_drop_app p s : str_drop (String.length p) (p +:+ s) = s.
Proof. induction p as [|c p IH]; simpl; [by destruct s|done]. Qed.
Lemma str_take_app p s : str_take (String.length p) (p +:+ s) = p.
Proof. induction p as [|c p IH]; simpl; [by destruct s|]. by rewrite IH. Qed.
Lemma trim_prefix_app p s : trim_prefix (p +:+ s) p = s.
Proof. unfold trim_prefix. by rewrite has_prefix_app, str_drop_app. Qed.

(** ** Lemmas on UTF-8 *)

(** The bytes [b] are the valid encoding of the character [r]. *)
Definition is_chunk (r : Z) (b : string) : bool :=
  match b with
  | String a "" => (code a <? 128) && (r =? code a)
  | String a (String b "") =>
      in_range 194 223 a && is_cont b && (r =? (code a - 192) * 64 + (code b - 128))
  | String a (String b (String c "")) =>
      in_range 224 239 a && (in_range (if code a =? 224 then 160 else 128)
                                      (if code a =? 237 then 159 else 191) b && is_cont c)
      && (r =? (code a - 224) * 4096 + (code b - 128) * 64 + (code c - 128))
  | String a (String b (String c (String d ""))) =>
      in_range 240 244 a && (in_range (if code a =? 240 then 144 else 128)
                                      (if code a =? 244 then 143 else 191) b && is_cont c && is_cont d)
      && (r =? (code a - 240) * 262144 + (code b - 128) * 4096
                + (code c - 128) * 64 + (code d - 128))
  | _ => false
  end.
Definition bad_chunk (r : Z) (b : string) : Prop :=
  r = rune_error /\ exists a, b = str1 a /\ 128 <= code a.

Lemma in_range_ge lo hi a : in_range lo hi a = true -> lo <= code a <= hi.
Proof. unfold in_range. intros. bool_to_prop. lia. Qed.
Lemma in_range_above lo hi a : hi < code a -> in_range lo hi a = false.
Proof. intros. unfold in_range. rewrite (proj2 (Z.leb_gt (code a) hi)) by lia. apply andb_false_r. Qed.
Lemma in_range_below lo hi a : code a < lo -> in_range lo hi a = false.
Proof. intros. unfold in_range. by rewrite (proj2 (Z.leb_gt lo (code a))) by lia. Qed.

Lemma runes_chunk r b s : is_chunk r b = true -> runes (b +:+ s) = (r, b) :: runes s.
Proof.
  unfold is_chunk. intros H.
  destruct b as [|a [|b [|c [|d [|? ?]]]]]; try done; bool_to_prop; subst; simpl.
  - by rewrite (proj2 (Z.ltb_lt _ _)) by lia.
  - pose proof (in_range_ge _ _ _ H). rewrite (proj2 (Z.ltb_ge _ _)) by lia.
    by rewrite H, H1.
  - pose proof (in_range_ge _ _ _ H). rewrite (proj2 (Z.ltb_ge (code a) 128)) by lia.
    rewrite in_range_above by lia. by rewrite H, H1, H2.
  - pose proof (in_range_ge _ _ _ H). rewrite (proj2 (Z.ltb_ge (code a) 128)) by lia.
    rewrite in_range_above by lia. rewrite in_range_above by lia. by rewrite H, H1, H2, H3.
Qed.

Lemma runes_spec s :
  Forall (fun rb => is_chunk rb.1 rb.2 = true \/ bad_chunk rb.1 rb.2) (runes s) /\
  str_concat (map snd (runes s)) = s.
Proof.
  remember (String.length s) as n eqn:Hn. revert s Hn.
  induction n as [n IH] using lt_wf_ind. intros s ->.
  assert (Hrec : forall r b s', s = b +:+ s' -> (0 < String.length b)%nat ->
    (is_chunk r b = true \/ bad_chunk r b) ->
    Forall (fun rb => is_chunk rb.1 rb.2 = true \/ bad_chunk rb.1 rb.2) ((r, b) :: runes s') /\
    str_concat (map snd ((r, b) :: runes s')) = s).
  { intros r b s' -> Hb Hc. destruct (IH (String.length s')) with (s := s') as [HF HC];
      [rewrite str_app_length; lia|done|].
    split; [by constructor|]. simpl. by rewrite HC. }
  destruct s as [|a s1]; [done|]. simpl.
  assert (Hbad : (code a <? 128) = false ->
    Forall (fun rb => is_chunk rb.1 rb.2 = true \/ bad_chunk rb.1 rb.2) ((rune_error, str1 a) :: runes s1) /\
    str_concat (map snd ((rune_error, str1 a) :: runes s1)) = String a s1).
  { intros Ha. bool_to_prop. apply Hrec; [done|simpl; lia|]. right. split; eauto. }
  destruct (code a <? 128) eqn:Ha.
  { apply Hrec; [done|simpl; lia|]. left. simpl. by rewrite Ha, Z.eqb_refl. }
  repeat (case_test; try (by apply Hbad)); subst;
    (apply Hrec; [done|simpl; lia|]); left; unfold is_chunk, str1;
    repeat match goal with
    | H : ?x = true |- context [?x] => rewrite H
    | H : ?x = false |- context [?x] => rewrite H
    end; by rewrite Z.eqb_refl.
Qed.

Lemma runes_concat s : str_concat (map snd (runes s)) = s.
Proof. apply runes_spec. Qed.

(** The characters that have an encoding: everything but the surrogates. *)
Definition scalar (r : Z) : Prop := 0 <= r < 55296 \/ 57344 <= r < 1114112.

Lemma chunk_scalar r b : is_chunk r b = true ->
  scalar r /\ encode_rune r = b /\
  (r < 128 /\ b = str1 (chr r) \/ 128 <= r /\ all_bytes (fun c => 128 <=? code c) b = true).
Proof.
  unfold is_chunk, scalar. intros H.
  destruct b as [|a [|b [|c [|d [|? ?]]]]]; try done; bool_to_prop; subst.
  - pose proof (code_range a). unfold encode_rune. rewrite (proj2 (Z.ltb_lt _ _)) by lia.
    rewrite chr_code. split; [lia|]. split; [done|left; split; [lia|done]].
  - unfold is_cont, in_range in *. bool_to_prop. unfold encode_rune.
    rewrite (proj2 (Z.ltb_ge _ 128)) by lia. rewrite (proj2 (Z.ltb_lt _ 2048)) by lia.
    split; [lia|]. split.
    { apply f_equal2; [|apply (f_equal str1)]; apply code_inj; rewrite code_chr; unfold is_byte; dlia. }
    right. split; [lia|]. simpl. rewrite !(proj2 (Z.leb_le 128 _)) by lia. done.
  - unfold is_cont, in_range in *. bool_to_prop. unfold encode_rune.
    destruct (code a =? 224) eqn:?, (code a =? 237) eqn:?; bool_to_prop; try lia.
    all: rewrite (proj2 (Z.ltb_ge _ 128)) by lia; rewrite (proj2 (Z.ltb_ge _ 2048)) by lia;
      rewrite (proj2 (Z.ltb_lt _ 65536)) by lia; split; [lia|]; split;
      [apply f_equal2; [|apply f_equal2; [|apply (f_equal str1)]]; apply code_inj;
         rewrite code_chr; unfold is_byte; dlia
      |right; split; [lia|]; simpl; rewrite !(proj2 (Z.leb_le 128 _)) by lia; done].
  - unfold is_cont, in_range in *. bool_to_prop. unfold encode_rune.
    destruct (code a =? 240) eqn:?, (code a =? 244) eqn:?; bool_to_prop; try lia.
    all: rewrite (proj2 (Z.ltb_ge _ 128)) by lia; rewrite (proj2 (Z.ltb_ge _ 2048)) by lia;
      rewrite (proj2 (Z.ltb_ge _ 65536)) by lia; split; [lia|]; split;
      [apply f_equal2; [|apply f_equal2; [|apply f_equal2; [|apply (f_equal str1)]]]; apply code_inj;
         rewrite code_chr; unfold is_byte; dlia
      |right; split; [lia|]; simpl; rewrite !(proj2 (Z.leb_le 128 _)) by lia; done].
Qed.

Lemma encode_rune_chunk r : scalar r -> is_chunk r (encode_rune r) = true.
Proof.
  unfold scalar, encode_rune. intros Hr.
  destruct (r <? 128) eqn:E1; [|destruct (r <? 2048) eqn:E2; [|destruct (r <? 65536) eqn:E3]];
    bool_to_prop; simpl; unfold in_range, is_cont; rewrite ?code_chr by (unfold is_byte; dlia).
  - rewrite (proj2 (Z.ltb_lt r 128)) by lia. by rewrite Z.eqb_refl.
  - rewrite !andb_true_iff, !Z.leb_le, Z.eqb_eq. dlia.
  - rewrite !andb_true_iff, !Z.leb_le, Z.eqb_eq.
    destruct (_ =? 224) eqn:?, (_ =? 237) eqn:?; bool_to_prop; dlia.
  - rewrite !andb_true_iff, !Z.leb_le, Z.eqb_eq.
    destruct (_ =? 240) eqn:?, (_ =? 244) eqn:?; bool_to_prop; dlia.
Qed.

Lemma bad_chunk_high r b : bad_chunk r b -> all_bytes (fun c => 128 <=? code c) b = true.
Proof. intros [_ (a & -> & Ha)]. simpl. by rewrite (proj2 (Z.leb_le 128 _)) by lia. Qed.

(** [range] over the string of a list of valid characters. *)
Lemma runes_encode_app r s : scalar r -> runes (encode_rune r +:+ s) = (r, encode_rune r) :: runes s.
Proof. intros. by apply runes_chunk, encode_rune_chunk. Qed.
Lemma runes_ascii c s : code c < 128 -> runes (String c s) = (code c, str1 c) :: runes s.
Proof. intros. simpl. by rewrite (proj2 (Z.ltb_lt _ _)) by lia. Qed.

(** What [range] over a string and re-encoding yields: invalid bytes become
    U+FFFD. *)
Definition to_valid (s : string) : string :=
  str_concat (map (fun rb => if (rb.1 =? rune_error) then encode_rune rune_error else rb.2) (runes s)).
Definition utf8_valid (s : string) : bool :=
  forallb (fun rb => negb ((rb.1 =? rune_error) && (slen rb.2 =? 1))) (runes s).

Lemma runes_to_valid s : runes (to_valid s) = map (fun rb => (rb.1, encode_rune rb.1)) (runes s).
Proof.
  unfold to_valid. destruct (runes_spec s) as [HF _]. revert HF. generalize (runes s).
  induction 1 as [|[r b] l H HF IH]; [done|]. simpl in *.
  destruct (r =? rune_error) eqn:E; bool_to_prop.
  - subst. rewrite runes_encode_app by (unfold scalar, rune_error; lia). by rewrite IH.
  - destruct H as [H|[-> _]]; [|done]. destruct (chunk_scalar _ _ H) as (Hs & <- & _).
    rewrite runes_encode_app by done. by rewrite IH.
Qed.

Lemma to_valid_idemp s : to_valid (to_valid s) = to_valid s.
Proof.
  unfold to_valid at 1. rewrite runes_to_valid. unfold to_valid. rewrite map_map. f_equal.
  destruct (runes_spec s) as [HF _]. revert HF. generalize (runes s).
  induction 1 as [|[r b] l H HF IH]; [done|]. simpl in *. f_equal; [|done].
  destruct (r =? rune_error) eqn:E; [done|]. bool_to_prop.
  destruct H as [H|[-> _]]; [|done]. by destruct (chunk_scalar _ _ H) as (_ & -> & _).
Qed.

Lemma to_valid_ok s : utf8_valid s = true -> to_valid s = s.
Proof.
  intros Hv. rewrite <- (runes_concat s) at 2. unfold to_valid, utf8_valid in *. f_equal.
  destruct (runes_spec s) as [HF _]. revert HF Hv. generalize (runes s).
  induction 1 as [|[r b] l H HF IH]; [done|]. simpl in *. intros Hv. bool_to_prop.
  f_equal; [|by apply IH]. destruct (r =? rune_error) eqn:E; [|done]. bool_to_prop. subst.
  destruct H as [H|[_ (a & -> & ?)]]; [|done]. by destruct (chunk_scalar _ _ H) as (_ & -> & _).
Qed.

(** ** Lemmas on decimal numbers *)
Definition str_head (s : string) : option ascii :=
  match s with String c _ => Some c | "" => None end.

Lemma digit_char_code d : 0 <= d < 10 -> code (digit_char d) = 48 + d.
Proof. revert d. by_evaluation 10%nat. Qed.
Lemma digit_char_digit d : 0 <= d < 10 -> is_digit (digit_char d) = true.
Proof. revert d. by_evaluation 10%nat. Qed.

(** [p] is the decimal writing of [n]. *)
Record decimal (n : Z) (p : string) : Prop := {
  dec_nonempty : p <> "";
  dec_digits : all_bytes is_digit p = true;
  dec_value : forall a t, digits_from a (p +:+ t) = digits_from (a * 10 ^ slen p + n) t;
  dec_head : str_head p = Some (chr 48) -> n = 0 /\ p = "0";
  dec_bound : n < 10 ^ slen p;
}.

Lemma slen_cons c s : slen (String c s) = 1 + slen s.
Proof. unfold slen. simpl. lia. Qed.

Lemma decimal_digit d : 0 <= d < 10 -> decimal d (str1 (digit_char d)).
Proof.
  intros Hd. split.
  - done.
  - simpl. by rewrite digit_char_digit.
  - intros a t. simpl. rewrite digit_char_digit, digit_char_code by done.
    f_equal. change (slen (str1 (digit_char d))) with 1. lia.
  - simpl. intros [= E]. assert (d = 0) as ->; [|done].
    pose proof (digit_char_code d Hd). rewrite E, code_chr in H by (unfold is_byte; lia). lia.
  - change (slen (str1 (digit_char d))) with 1. lia.
Qed.

Lemma digits_from_digit a d t : 0 <= d < 10 ->
  digits_from a (String (digit_char d) t) = digits_from (10 * a + d) t.
Proof.
  intros. simpl. rewrite digit_char_digit, digit_char_code by done. f_equal. lia.
Qed.

Lemma decimal_snoc n p d : 0 < n -> 0 <= d < 10 -> decimal n p ->
  decimal (10 * n + d) (p +:+ str1 (digit_char d)).
Proof.
  intros Hn Hd [Hne Hdig Hval Hhead Hb]. pose proof (slen_nonneg p).
  assert (E : 10 ^ slen (p +:+ str1 (digit_char d)) = 10 * 10 ^ slen p).
  { rewrite slen_app. change (slen (str1 (digit_char d))) with 1. rewrite Z.pow_add_r by lia. lia. }
  split.
  - by destruct p.
  - rewrite all_bytes_app, Hdig. simpl. by rewrite digit_char_digit.
  - intros a t. rewrite <- str_app_assoc, Hval, E. change (str1 (digit_char d) +:+ t) with (String (digit_char d) t).
    rewrite digits_from_digit by done. f_equal. lia.
  - destruct p as [|c p]; [done|]. simpl in *. intros Hc. destruct (Hhead Hc). lia.
  - rewrite E. lia.
Qed.

Lemma to_base_go_decimal fuel n acc : 0 <= n -> Z.log2 n < Z.of_nat fuel ->
  exists p, to_base_go fuel 10 n acc = p +:+ acc /\ decimal n p.
Proof.
  revert n acc. induction fuel as [|fuel IH]; intros n acc Hn Hl.
  { pose proof (Z.log2_nonneg n). lia. }
  simpl. destruct (n <? 10) eqn:E; bool_to_prop.
  - exists (str1 (digit_char (n mod 10))). split; [done|].
    rewrite Z.mod_small by lia. apply decimal_digit. lia.
  - destruct (IH (n / 10) (String (digit_char (n mod 10)) acc)) as (p & Hp & Hd); [dlia| |].
    { assert (Z.log2 (n / 10) <= Z.log2 (n / 2)).
      { apply Z.log2_le_mono. dlia. }
      rewrite <- Z.div2_div in H. change (Z.div2 n) with (Z.shiftr n 1) in H.
      rewrite Z.log2_shiftr in H by lia. pose proof (Z.log2_pos n). lia. }
    exists (p +:+ str1 (digit_char (n mod 10))). split.
    { rewrite Hp, <- str_app_assoc. done. }
    rewrite (Z.div_mod n 10) at 1 by lia. apply decimal_snoc; [dlia|dlia|done].
Qed.

Lemma to_base_decimal n : 0 <= n -> decimal n (to_base 10 n).
Proof.
  intros Hn. destruct (to_base_go_decimal (S (Z.to_nat (Z.log2 n))) n "") as (p & E & Hp); [done| |].
  - pose proof (Z.log2_nonneg n). lia.
  - unfold to_base. by rewrite E, str_app_nil.
Qed.

Lemma parse_digits_to_base n : 0 <= n -> parse_digits (to_base 10 n) = Some n.
Proof.
  intros Hn. destruct (to_base_decimal n Hn) as [Hne _ Hval _ _].
  unfold parse_digits. specialize (Hval 0 ""). rewrite str_app_nil in Hval.
  destruct (to_base 10 n); [done|]. rewrite Hval. done.
Qed.

(** [strconv.Atoi] reads back what [strconv.Itoa] writes. *)
Lemma atoi_itoa z : min_int64 <= z <= max_int64 -> atoi (itoa z) = Some z.
Proof.
  intros Hz. unfold atoi, itoa. destruct (z <? 0) eqn:E; bool_to_prop.
  - replace (Ascii.eqb (chr 45) (chr 45)) with true by done.
    rewrite parse_digits_to_base by lia. simpl.
    rewrite (proj2 (Z.leb_le _ _)), (proj2 (Z.leb_le _ _)) by lia. simpl. f_equal. lia.
  - pose proof (to_base_decimal z E) as Hd. pose proof (parse_digits_to_base z E) as Hp.
    destruct (to_base 10 z) as [|c s] eqn:Es; [by destruct Hd|].
    assert (is_digit c = true). { destruct Hd as [_ Hdig _ _ _]. simpl in Hdig. by bool_to_prop. }
    rewrite !eqb_code. change (code (chr 45)) with 45. change (code (chr 43)) with 43.
    unfold is_digit in H. bool_to_prop.
    rewrite !(proj2 (Z.eqb_neq (code c) _)) by lia. rewrite Hp.
    by rewrite (proj2 (Z.leb_le _ _)), (proj2 (Z.leb_le _ _)) by lia.
Qed.

Lemma itoa_decimal z : 0 <= z -> decimal z (itoa z).
Proof.
  intros. unfold itoa. rewrite (proj2 (Z.ltb_ge _ _)) by lia. by apply to_base_decimal.
Qed.
Lemma itoa_inj a b : 0 <= a -> 0 <= b -> itoa a = itoa b -> a = b.
Proof.
  intros Ha Hb E. unfold itoa in E. rewrite !(proj2 (Z.ltb_ge _ _)) in E by lia.
  pose proof (parse_digits_to_base a Ha) as P. rewrite E, parse_digits_to_base in P by done. congruence.
Qed.

(** *** Padded numbers *)
Lemma zero_pad_value w n : 0 <= n -> parse_digits (zero_pad w n) = Some n.
Proof.
  intros Hn. unfold zero_pad, pad_left. destruct (to_base_decimal n Hn) as [Hne Hd Hv _ _].
  assert (G : forall k a, digits_from a (str_repeat (str1 (chr 48)) k +:+ to_base 10 n) =
    digits_from (a * 10 ^ Z.of_nat k) (to_base 10 n)).
  { induction k as [|k IH]; intros a; [cbn [str_repeat]; change (10 ^ Z.of_nat 0) with 1; by rewrite Z.mul_1_r|].
    change (str_repeat (str1 (chr 48)) (S k) +:+ to_base 10 n)
      with (String (digit_char 0) (str_repeat (str1 (chr 48)) k +:+ to_base 10 n)).
    rewrite digits_from_digit, IH by lia. f_equal. rewrite Nat2Z.inj_succ, Z.pow_succ_r by lia. ring. }
  unfold parse_digits. specialize (G (w - String.length (to_base 10 n))%nat 0).
  assert (Hend : digits_from 0 (to_base 10 n) = Some n).
  { pose proof (parse_digits_to_base n Hn) as Hp. unfold parse_digits in Hp. by destruct (to_base 10 n). }
  rewrite Z.mul_0_l, Hend in G.
  destruct (str_repeat _ _ +:+ to_base 10 n) eqn:E; [|done].
  exfalso. apply Hne. destruct (str_repeat _ _) in E; [done|done].
Qed.
Lemma zero_pad_length w n : 0 <= n < 10 ^ Z.of_nat w -> String.length (zero_pad w n) = w \/ w = O.
Proof.
  intros Hn. destruct w as [|w]; [by right|left]. unfold zero_pad, pad_left. rewrite str_app_length.
  assert (Hr : forall k, String.length (str_repeat (str1 (chr 48)) k) = k).
  { induction k as [|k IH]; [done|]. cbn [str_repeat]. by rewrite str_app_length, IH. }
  rewrite Hr. assert (Hl : (String.length (to_base 10 n) <= S w)%nat); [|lia].
  assert (G : forall fuel m acc k, 0 <= m < 10 ^ Z.of_nat (S k) ->
    (String.length (to_base_go fuel 10 m acc) <= S k + String.length acc)%nat).
  { induction fuel as [|fuel IH]; intros m acc k Hm; [simpl; lia|]. cbn [to_base_go].
    destruct (m <? 10) eqn:E; [simpl; lia|]. bool_to_prop. destruct k as [|k].
    - change (10 ^ Z.of_nat 1) with 10 in Hm. lia.
    - specialize (IH (m / 10) (String (digit_char (m mod 10)) acc) k). simpl in IH |- *.
      rewrite (Nat2Z.inj_succ (S k)), Z.pow_succ_r in Hm by lia.
      assert (0 <= m / 10 < 10 ^ Z.of_nat (S k)) by dlia. simpl in *. lia. }
  specialize (G (S (Z.to_nat (Z.log2 n))) n "" w Hn). unfold to_base. simpl in G |- *. lia.
Qed.

(** ** [Split] and [Join] *)
Lemma join_split c s : join (split c s) (str1 c) = s.
Proof.
  induction s as [|a s IH]; [done|]. cbn [split]. destruct (Ascii.eqb_spec a c) as [->|Hne].
  - destruct (split c s) as [|w l] eqn:E; [by destruct s as [|b s]; [|cbn in E; destruct (Ascii.eqb b c); [|destruct (split c s)]]|].
    change (join ("" :: w :: l) (str1 c)) with (str1 c +:+ join (w :: l) (str1 c)). by rewrite IH.
  - destruct (split c s) as [|w l] eqn:E; [by destruct s as [|b s]; [|cbn in E; destruct (Ascii.eqb b c); [|destruct (split c s)]]|].
    destruct l as [|w2 l]; cbn [join] in *; [by rewrite <- IH|]. by rewrite <- IH.
Qed.
Lemma split_free c s : Forall (fun t => all_bytes (fun x => negb (Ascii.eqb x c)) t = true) (split c s).
Proof.
  induction s as [|x s IH]; cbn [split]; [by repeat constructor|]. destruct (Ascii.eqb x c) eqn:E; [by constructor|].
  destruct (split c s) as [|t l]; [constructor; [|done]; unfold str1; cbn [all_bytes]; by rewrite E|].
  inversion IH; subst. constructor; [|done]. cbn [all_bytes]. by rewrite E.
Qed.
Lemma split_join c l : l <> [] -> Forall (fun w => all_bytes (fun x => negb (Ascii.eqb x c)) w = true) l ->
  split c (join l (str1 c)) = l.
Proof.
  intros Hne HF. assert (Hw : forall w t, all_bytes (fun x => negb (Ascii.eqb x c)) w = true ->
    split c (w +:+ String c t) = w :: split c t /\ split c w = [w]).
  { intros w t. induction w as [|x w IH]; cbn [all_bytes].
    - intros _. simpl. by rewrite eqb_code, Z.eqb_refl.
    - intros Hx. apply andb_true_iff in Hx as [Hx Hw]. apply negb_true_iff in Hx. simpl. rewrite Hx. destruct (IH Hw) as [-> ->]. done. }
  induction HF as [|w l Hwok HF IH]; [done|]. destruct l as [|w2 l].
  - by apply (Hw w "").
  - change (join (w :: w2 :: l) (str1 c)) with (w +:+ str1 c +:+ join (w2 :: l) (str1 c)).
    change (str1 c +:+ ?s) with (String c s). rewrite (proj1 (Hw w _ Hwok)). by rewrite IH.
Qed.
