(* ===== verification/GoCodec.v ===== *)
(** * Encodings and digests of the standard library

    [encoding/base64] (the standard and the unpadded URL-safe alphabets),
    [crypto/sha256] and the civil-date formatting of package [time], as
    executable functions. *)
From S2P Require Import Prelude GoStrings.

#[local] Open Scope string_scope.
#[local] Open Scope list_scope.
#[local] Open Scope Z_scope.

(** ** Bytes of a string *)
Fixpoint bytes_of (s : string) : list Z :=
  match s with "" => [] | String c s => code c :: bytes_of s end.
Fixpoint of_bytes (l : list Z) : string :=
  match l with [] => "" | z :: l => String (chr z) (of_bytes l) end.

(** ** [encoding/base64] *)
Definition b64_char (url : bool) (v : Z) : ascii :=
  if v <? 26 then chr (65 + v)
  else if v <? 52 then chr (71 + v)
  else if v <? 62 then chr (v - 4)
  else if v =? 62 then (if url then chr 45 else chr 43)
  else (if url then chr 95 else chr 47).
Definition b64_val (url : bool) (a : ascii) : option Z :=
  let c := code a in
  if is_upper a then Some (c - 65)
  else if is_lower a then Some (c - 71)
  else if is_digit a then Some (c + 4)
  else if c =? (if url then 45 else 43) then Some 62
  else if c =? (if url then 95 else 47) then Some 63
  else None.

Fixpoint b64_encode (url pad : bool) (l : list Z) : string :=
  match l with
  | [] => ""
  | [a] =>
      String (b64_char url (a / 4)) (String (b64_char url ((a mod 4) * 16))
        (if pad then "==" else ""))
  | [a; b] =>
      String (b64_char url (a / 4)) (String (b64_char url ((a mod 4) * 16 + b / 16))
        (String (b64_char url ((b mod 16) * 4)) (if pad then "=" else "")))
  | a :: b :: c :: l =>
      String (b64_char url (a / 4)) (String (b64_char url ((a mod 4) * 16 + b / 16))
        (String (b64_char url ((b mod 16) * 4 + c / 64)) (String (b64_char url (c mod 64))
          (b64_encode url pad l))))
  end.
Definition base64_std (s : string) : string := b64_encode false true (bytes_of s).
Definition base64_raw_url (s : string) : string := b64_encode true false (bytes_of s).

(** Decoding without padding ignores line breaks, refuses a group of one
    character and does not look at the unused low bits of the last one. *)
Fixpoint b64_decode_vals (l : list Z) : option (list Z) :=
  match l with
  | [] => Some []
  | [_] => None
  | [p; q] => Some [p * 4 + q / 16]
  | [p; q; r] => Some [p * 4 + q / 16; (q mod 16) * 16 + r / 4]
  | p :: q :: r :: s :: l =>
      rest ← b64_decode_vals l;
      Some (p * 4 + q / 16 :: (q mod 16) * 16 + r / 4 :: (r mod 4) * 64 + s :: rest)
  end.
Fixpoint b64_values (url : bool) (s : string) : option (list Z) :=
  match s with
  | "" => Some []
  | String c s =>
      if (code c =? 10) || (code c =? 13) then b64_values url s
      else v ← b64_val url c; l ← b64_values url s; Some (v :: l)
  end.
Definition base64_raw_url_decode (s : string) : option string :=
  of_bytes <$> (b64_values true s ≫= b64_decode_vals).

(** [EncodedLen] of the padded encoding. *)
Definition base64_encoded_len (n : Z) : Z := (n + 2) / 3 * 4.

(** ** [crypto/sha256] *)
Definition rotr32 (x n : Z) : Z := Z.lor (Z.shiftr x n) (u32 (Z.shiftl x (32 - n))).
Definition sha_k : list Z :=
  [1116352408; 1899447441; 3049323471; 3921009573; 961987163; 1508970993; 2453635748; 2870763221;
   3624381080; 310598401; 607225278; 1426881987; 1925078388; 2162078206; 2614888103; 3248222580;
   3835390401; 4022224774; 264347078; 604807628; 770255983; 1249150122; 1555081692; 1996064986;
   2554220882; 2821834349; 2952996808; 3210313671; 3336571891; 3584528711; 113926993; 338241895;
   666307205; 773529912; 1294757372; 1396182291; 1695183700; 1986661051; 2177026350; 2456956037;
   2730485921; 2820302411; 3259730800; 3345764771; 3516065817; 3600352804; 4094571909; 275423344;
   430227734; 506948616; 659060556; 883997877; 958139571; 1322822218; 1537002063; 1747873779;
   1955562222; 2024104815; 2227730452; 2361852424; 2428436474; 2756734187; 3204031479; 3329325298].
Definition sha_h0 : list Z :=
  [1779033703; 3144134277; 1013904242; 2773480762; 1359893119; 2600822924; 528734635; 1541459225].

(** The message schedule is kept newest word first: [w] holds the last sixteen. *)
Definition sha_next (w : list Z) : Z :=
  let g i := nth i w 0 in
  let s0 := Z.lxor (Z.lxor (rotr32 (g 14%nat) 7) (rotr32 (g 14%nat) 18)) (Z.shiftr (g 14%nat) 3) in
  let s1 := Z.lxor (Z.lxor (rotr32 (g 1%nat) 17) (rotr32 (g 1%nat) 19)) (Z.shiftr (g 1%nat) 10) in
  u32 (g 15%nat + s0 + g 6%nat + s1).
Definition sha_round (st : list Z) (kw : Z) : list Z :=
  match st with
  | [a; b; c; d; e; f; g; h] =>
      let s1 := Z.lxor (Z.lxor (rotr32 e 6) (rotr32 e 11)) (rotr32 e 25) in
      let ch := Z.lxor (Z.land e f) (Z.land (4294967295 - e) g) in
      let t1 := h + s1 + ch + kw in
      let s0 := Z.lxor (Z.lxor (rotr32 a 2) (rotr32 a 13)) (rotr32 a 22) in
      let maj := Z.lxor (Z.lxor (Z.land a b) (Z.land a c)) (Z.land b c) in
      [u32 (t1 + s0 + maj); a; b; c; u32 (d + t1); e; f; g]
  | _ => st
  end.
(** [ws]: words of the block still to be used; [w]: the schedule so far. *)
Fixpoint sha_rounds (ks ws w st : list Z) : list Z :=
  match ks with
  | [] => st
  | k :: ks =>
      let '(x, ws) := match ws with x :: ws => (x, ws) | [] => (sha_next w, []) end in
      sha_rounds ks ws (x :: take 15 w) (sha_round st (k + x))
  end.
Fixpoint be_words (l : list Z) : list Z :=
  match l with
  | a :: b :: c :: d :: l => ((a * 256 + b) * 256 + c) * 256 + d :: be_words l
  | _ => []
  end.
Fixpoint be_bytes (n : nat) (z : Z) : list Z :=
  match n with O => [] | S n => be_bytes n (z / 256) ++ [z mod 256] end.
Fixpoint sha_blocks (fuel : nat) (l : list Z) (st : list Z) : list Z :=
  match fuel, l with
  | S fuel, _ :: _ =>
      sha_blocks fuel (drop 64 l)
        (zip_with (fun x y => u32 (x + y)) st (sha_rounds sha_k (be_words (take 64 l)) [] st))
  | _, _ => st
  end.
Definition sha256 (s : string) : list Z :=
  let m := bytes_of s in
  let n := length m in
  let padding := 128 :: repeat 0 (Z.to_nat ((55 - Z.of_nat n) mod 64)) in
  let l := m ++ padding ++ be_bytes 8 (8 * Z.of_nat n) in
  concat (map (be_bytes 4) (sha_blocks (S (length l / 64)) l sha_h0)).

(** ** [time]: seconds since the epoch, in the layouts the sources use *)
Definition civil_from_days (z : Z) : Z * Z * Z :=
  let z := z + 719468 in
  let era := z / 146097 in
  let doe := z - era * 146097 in
  let yoe := (doe - doe / 1460 + doe / 36524 - doe / 146096) / 365 in
  let doy := doe - (365 * yoe + yoe / 4 - yoe / 100) in
  let mp := (5 * doy + 2) / 153 in
  let d := doy - (153 * mp + 2) / 5 + 1 in
  let m := if mp <? 10 then mp + 3 else mp - 9 in
  (yoe + era * 400 + (if m <=? 2 then 1 else 0), m, d).
Definition date_time (sec : Z) : string :=
  let '(y, m, d) := civil_from_days (sec / 86400) in
  let t := sec mod 86400 in
  zero_pad 4 y +:+ "-" +:+ zero_pad 2 m +:+ "-" +:+ zero_pad 2 d +:+ "T"
    +:+ zero_pad 2 (t / 3600) +:+ ":" +:+ zero_pad 2 (t / 60 mod 60) +:+ ":" +:+ zero_pad 2 (t mod 60).
(** [UTC().Format(time.RFC3339)] *)
Definition rfc3339 (sec : Z) : string := date_time sec +:+ "Z".
(** The layout "2006-01-02T15:04:05.000000Z07:00" of a whole second, in UTC. *)
Definition rfc3339_micro (sec : Z) : string := date_time sec +:+ ".000000Z".

Example sha256_abc :
  hex_bytes (sha256 "abc") = "ba7816bf8f01cfea414140de5dae2223b00361a396177a9cb410ff61f20015ad".
Proof. vm_compute. reflexivity. Qed.
Example base64_ex : base64_std "hello" = "aGVsbG8=" /\ base64_raw_url_decode "aGVsbG8" = Some "hello".
Proof. vm_compute. done. Qed.
Example rfc3339_ex : rfc3339 1790254262 = "2026-09-24T12:51:02Z".
Proof. vm_compute. reflexivity. Qed.

(** ** Round trip *)
Lemma of_bytes_of s : of_bytes (bytes_of s) = s.
Proof. induction s as [|c s IH]; simpl; [done|]. by rewrite chr_code, IH. Qed.
Lemma bytes_of_bytes s : Forall is_byte (bytes_of s).
Proof. induction s; simpl; constructor; [apply code_range|done]. Qed.

Lemma b64_val_char url v : 0 <= v < 64 -> b64_val url (b64_char url v) = Some v.
Proof.
  revert v. destruct url; by_evaluation 64%nat.
Qed.
Lemma b64_char_no_break url v : 0 <= v < 64 ->
  (code (b64_char url v) =? 10) || (code (b64_char url v) =? 13) = false.
Proof.
  revert v. destruct url; by_evaluation 64%nat.
Qed.
Lemma b64_values_cons url v s : 0 <= v < 64 ->
  b64_values url (String (b64_char url v) s) = (l ← b64_values url s; Some (v :: l)).
Proof. intros. simpl. by rewrite b64_char_no_break, b64_val_char. Qed.

Ltac byte_eqs :=
  apply (f_equal Some); repeat (apply f_equal2; [dlia|]); reflexivity.

Lemma b64_round_trip l : Forall is_byte l ->
  exists vs, b64_values true (b64_encode true false l) = Some vs /\ b64_decode_vals vs = Some l.
Proof.
  unfold is_byte. remember (length l) as n eqn:Hn. revert l Hn.
  induction n as [n IH] using lt_wf_ind. intros l -> Hl. destruct l as [|a [|b [|c l]]]; 
    repeat match goal with HF : Forall _ (_ :: _) |- _ => apply Forall_cons in HF as [? ?] end;
    cbn [b64_encode].
  - by exists [].
  - exists [a / 4; (a mod 4) * 16]. rewrite !b64_values_cons by dlia. split; [done|].
    simpl. byte_eqs.
  - exists [a / 4; (a mod 4) * 16 + b / 16; (b mod 16) * 4]. rewrite !b64_values_cons by dlia.
    split; [done|]. simpl. byte_eqs.
  - destruct (IH (length l)) with (l := l) as (vs & Hv & Hd); [simpl; lia|done|done|].
    exists (a / 4 :: (a mod 4) * 16 + b / 16 :: (b mod 16) * 4 + c / 64 :: c mod 64 :: vs).
    rewrite !b64_values_cons by dlia. rewrite Hv. split; [done|]. simpl. rewrite Hd. simpl. byte_eqs.
Qed.

Lemma base64_raw_url_round_trip s : base64_raw_url_decode (base64_raw_url s) = Some s.
Proof.
  unfold base64_raw_url_decode, base64_raw_url.
  destruct (b64_round_trip (bytes_of s) (bytes_of_bytes s)) as (vs & -> & Hd).
  simpl. rewrite Hd. simpl. by rewrite of_bytes_of.
Qed.
