(* ===== verification/ConfigModel.v ===== *)
(** * Configuration and event records

    model/config.go and model/event.go: the records, and the credentials that
    [SensitiveValues] collects for the redaction of event records. *)
From S2P Require Import Prelude GoStrings.

#[local] Set Warnings "-clear-no-such-hyp,-notation-for-abbreviation".
#[local] Open Scope string_scope.
#[local] Open Scope list_scope.
#[local] Open Scope Z_scope.

(** A map of strings, in key order. *)
Definition strmap : Type := list (string * string).

Record HTTPConfig := { http_Host : string; http_Port : string }.
Record UDPConfig := { udp_Host : string; udp_Port : string }.
Record TCPConfig := { tcp_Host : string; tcp_Port : string }.
Record DockerConfig := { docker_Host : string; docker_Port : string }.
Record AIConfig := { ai_Host : string; ai_Port : string; ai_Token : string }.
Record KubeletConfig := {
  kl_Host : string; kl_Port : string; kl_NodeName : string; kl_TLSEnabled : option bool;
  kl_TLSCertFile : string; kl_TLSKeyFile : string;
}.
Record RunModeConfig := { rm_RunMode : string }.
Record K8SHoneytoken := {
  ht_Name : string; ht_Namespace : string; ht_Type : string; ht_Data : strmap;
}.
Record K8SConfig := {
  k_APIVersion : string; k_SchemaOffline : bool; k_IPBase : string; k_GenerateKubeSys : bool; k_GenerateRand : bool;
  k_Host : string; k_Port : string; k_TLSEnabled : bool; k_TLSCertFile : string; k_TLSKeyFile : string;
  k_Namespaces : list string; k_Honeytokens : list K8SHoneytoken; k_TokenValues : list string; k_TokenNames : list string;
}.
Record LogSinkConfig := {
  ls_Type : string; ls_URL : string; ls_Path : string; ls_Index : string; ls_Source : string; ls_Sourcetype : string;
  ls_Token : string; ls_Username : string; ls_Password : string; ls_Headers : strmap;
}.
Record LoggingConfig := {
  lg_Format : string; lg_IncludeUserAgent : bool; lg_TrustedProxyCIDRs : list string; lg_Sinks : list LogSinkConfig;
}.
Record Config := {
  c_AI : AIConfig; c_Docker : DockerConfig; c_HTTP : HTTPConfig; c_UDP : UDPConfig; c_TCP : TCPConfig;
  c_Kubelet : KubeletConfig; c_K8S : K8SConfig; c_RunMode : RunModeConfig; c_Logging : LoggingConfig;
}.

(** ** Credentials

    The closure [add] of both methods: the values collected, whether the value
    was added. *)
Definition total_bytes (values : list string) : Z := sum_Z (map slen values).
Definition add_value (maxValues : Z) (values : list string) (value : string) : list string * bool :=
  if String.eqb value "" || (maxValues <=? Z.of_nat (length values)) || (2 ^ 14 <? total_bytes values + slen value)
  then (values, false) else (values ++ [value], true).

Section sensitive.
Context `{RangeOrder}.

(** The loops of [K8SConfig.SensitiveValues]: [true] where it returned early. *)
Definition k8s_max : Z := 320.
Fixpoint k8s_add_all (l : list string) (values : list string) : list string * bool :=
  match l with
  | [] => (values, false)
  | value :: l =>
      let '(values, added) := add_value k8s_max values value in
      if negb added && (k8s_max <=? Z.of_nat (length values)) then (values, true) else k8s_add_all l values
  end.
Fixpoint k8s_add_tokens (l : list K8SHoneytoken) (values : list string) : list string :=
  match l with
  | [] => values
  | h :: l =>
      let '(values, stop) := k8s_add_all (range_entries 30 (ht_Data h)).*2 values in
      if stop : bool then values else k8s_add_tokens l values
  end.
Definition K8SConfig_SensitiveValues (k : K8SConfig) : list string :=
  let '(values, stop) := k8s_add_all (k_TokenValues k) [] in
  if stop : bool then values else k8s_add_tokens (k_Honeytokens k) values.

(** [LoggingConfig.SensitiveValues]: the first value that is not added ends it. *)
Definition logging_max : Z := 64.
Fixpoint logging_add_all (l : list string) (values : list string) : list string * bool :=
  match l with
  | [] => (values, false)
  | value :: l =>
      let '(values, added) := add_value logging_max values value in
      if added : bool then logging_add_all l values else (values, true)
  end.
Fixpoint logging_add_sinks (l : list LogSinkConfig) (values : list string) : list string :=
  match l with
  | [] => values
  | sink :: l =>
      let '(values, stop) := logging_add_all (ls_Token sink :: ls_Password sink :: (range_entries 31 (ls_Headers sink)).*2) values in
      if stop : bool then values else logging_add_sinks l values
  end.
Definition LoggingConfig_SensitiveValues (l : LoggingConfig) : list string := logging_add_sinks (lg_Sinks l) [].

Definition mergeSensitive (base extra : list string) : list string :=
  let maxValues := 320 in
  if maxValues <? Z.of_nat (length base) + Z.of_nat (length extra) then
    let keep := maxValues - Z.of_nat (length base) in
    if 0 <? keep then base ++ take (Z.to_nat keep) extra else base
  else base ++ extra.
Definition SensitiveValues (c : Config) : list string :=
  let values := K8SConfig_SensitiveValues (c_K8S c) in
  let values := if String.eqb (ai_Token (c_AI c)) "" then values else ai_Token (c_AI c) :: values in
  mergeSensitive values (LoggingConfig_SensitiveValues (c_Logging c)).
End sensitive.

(** ** Events (model/event.go) *)
Record Event := {
  ev_Timestamp : string; ev_EventID : string; ev_Sensor : string; ev_SessionID : string; ev_Action : string; ev_Outcome : string;
  ev_Profile : string; ev_Target : string; ev_RemoteAddr : string; ev_ClientAddr : string; ev_Method : string; ev_Path : string;
  ev_StatusCode : Z; ev_BytesReceived : Z; ev_BytesSent : Z; ev_UserAgent : string; ev_Detail : string;
}.
