(* ===== verification/Value.v ===== *)
(** * Dynamic values

    The Go type [any] as the sources use it: what [encoding/json] decodes
    ([nil], [bool], [float64], [string], [[]any], [map[string]any]) and what the
    program itself puts into objects (the integer types, [map[string]string],
    [[]string], [[]map[string]any]).  A map is an association list in strictly
    increasing key order, so equal maps are equal terms. *)
From S2P Require Import Prelude GoStrings.
From Stdlib Require Export Floats.SpecFloat.

#[local] Open Scope string_scope.
#[local] Open Scope list_scope.
#[local] Open Scope Z_scope.

#[local] Set Warnings "-clear-no-such-hyp,-register-all,-notation-for-abbreviation".

(** ** Values *)
Inductive val :=
  | VNil
  | VBool (b : bool)
  | VInt (z : Z)
  | VFloat (f : spec_float)
  | VStr (s : string)
  | VList (l : list val)
  | VMap (m : list (string * val))
  | VStrMap (m : list (string * string))
  | VStrList (l : list string)
  | VMapList (l : list (list (string * val))).

(** [map[string]any] *)
Notation object := (list (string * val)).

Section val_rect.
Variable P : val -> Prop.
Hypothesis Hnil : P VNil.
Hypothesis Hbool : forall b, P (VBool b).
Hypothesis Hint : forall z, P (VInt z).
Hypothesis Hfloat : forall f, P (VFloat f).
Hypothesis Hstr : forall s, P (VStr s).
Hypothesis Hlist : forall l, Forall P l -> P (VList l).
Hypothesis Hmap : forall m, Forall (fun kv => P kv.2) m -> P (VMap m).
Hypothesis Hstrmap : forall m, P (VStrMap m).
Hypothesis Hstrlist : forall l, P (VStrList l).
Hypothesis Hmaplist : forall l, Forall (fun m : object => Forall (fun kv => P kv.2) m) l -> P (VMapList l).

(** Induction that reaches the values inside lists and maps. *)
Fixpoint val_ind' (v : val) : P v :=
  let on_map := fix on_map (m : object) : Forall (fun kv => P kv.2) m :=
    match m with
    | [] => Forall_nil_2 _
    | kv :: m => Forall_cons_2 _ _ _ (val_ind' kv.2) (on_map m)
    end in
  match v with
  | VNil => Hnil
  | VBool b => Hbool b
  | VInt z => Hint z
  | VFloat f => Hfloat f
  | VStr s => Hstr s
  | VList l => Hlist l ((fix on_list (l : list val) : Forall P l :=
      match l with
      | [] => Forall_nil_2 _
      | v :: l => Forall_cons_2 _ _ _ (val_ind' v) (on_list l)
      end) l)
  | VMap m => Hmap m (on_map m)
  | VStrMap m => Hstrmap m
  | VStrList l => Hstrlist l
  | VMapList l => Hmaplist l ((fix on_maps (l : list object) : Forall _ l :=
      match l with
      | [] => Forall_nil_2 _
      | m :: l => Forall_cons_2 _ _ _ (on_map m) (on_maps l)
      end) l)
  end.
End val_rect.

(** ** Maps with string keys *)
Section assoc.
Context {A : Type}.
Implicit Types m : list (string * A).

Fixpoint oget m (k : string) : option A :=
  match m with
  | [] => None
  | (k', a) :: m => if String.eqb k k' then Some a else oget m k
  end.
Fixpoint oset m (k : string) (a : A) : list (string * A) :=
  match m with
  | [] => [(k, a)]
  | (k', a') :: m' =>
      match String.compare k k' with
      | Eq => (k, a) :: m'
      | Lt => (k, a) :: m
      | Gt => (k', a') :: oset m' k a
      end
  end.
Fixpoint odel m (k : string) : list (string * A) :=
  match m with
  | [] => []
  | (k', a) :: m => if String.eqb k k' then odel m k else (k', a) :: odel m k
  end.
Definition of_pairs (l : list (string * A)) : list (string * A) :=
  foldl (fun m kv => oset m kv.1 kv.2) [] l.
Definition okeys m : list string := map fst m.
End assoc.

Lemma str_compare_refl s : String.compare s s = Eq.
Proof.
  induction s as [|c s IH]; [done|]. simpl.
  assert (Ascii.compare c c = Eq) as -> by apply N.compare_refl. done.
Qed.
Lemma str_compare_eq a b : String.compare a b = Eq <-> a = b.
Proof. split; [apply String.compare_eq_iff|intros ->; apply str_compare_refl]. Qed.
Definition str_lt (a b : string) : Prop := String.compare a b = Lt.
Lemma str_lt_trans a b c : str_lt a b -> str_lt b c -> str_lt a c.
Proof.
  unfold str_lt. revert b c. induction a as [|x a IH]; intros [|y b] [|z c]; simpl; try done.
  destruct (Ascii.compare x y) eqn:E1; [apply Ascii.compare_eq_iff in E1 as ->| |done].
  - destruct (Ascii.compare y z) eqn:E2; [apply IH|done|done].
  - intros _. destruct (Ascii.compare y z) eqn:E2; [|intros _|done].
    + apply Ascii.compare_eq_iff in E2 as ->. by rewrite E1.
    + assert (Ascii.compare x z = Lt) as ->; [|done]. apply N.compare_lt_iff.
      by etrans; apply N.compare_lt_iff.
Qed.
Lemma str_lt_irrefl a : ~ str_lt a a.
Proof. unfold str_lt. by rewrite str_compare_refl. Qed.
Lemma str_gt a b : String.compare a b = Gt -> str_lt b a.
Proof. unfold str_lt. rewrite String.compare_antisym. by destruct (String.compare b a). Qed.

(** Strictly increasing keys. *)
Fixpoint keys_above {A} (k : string) (m : list (string * A)) : Prop :=
  match m with [] => True | (k', _) :: m => str_lt k k' /\ keys_above k' m end.
Definition omap_sorted {A} (m : list (string * A)) : Prop :=
  match m with [] => True | (k, _) :: m => keys_above k m end.

#[export] Instance str_lt_dec : RelDecision str_lt.
Proof. intros a b. unfold str_lt. apply _. Defined.
#[export] Instance keys_above_dec {A} k (m : list (string * A)) : Decision (keys_above k m).
Proof. revert k. induction m as [|[k' a] m IH]; intros k; simpl; apply _. Defined.
#[export] Instance omap_sorted_dec {A} (m : list (string * A)) : Decision (omap_sorted m).
Proof. destruct m as [|[k a] m]; simpl; apply _. Defined.

Section assoc_lemmas.
Context {A : Type}.
Implicit Types m : list (string * A).

Lemma oget_oset_eq m k a : oget (oset m k a) k = Some a.
Proof.
  induction m as [|[k' b] m IH]; simpl; [by rewrite String.eqb_refl|].
  destruct (String.compare k k') eqn:E; simpl.
  - by rewrite String.eqb_refl.
  - by rewrite String.eqb_refl.
  - destruct (String.eqb_spec k k') as [->|_]; [by rewrite str_compare_refl in E|done].
Qed.
Lemma oget_oset_ne m k k' a : k' <> k -> oget (oset m k a) k' = oget m k'.
Proof.
  intros Hne. induction m as [|[j b] m IH]; simpl.
  - by rewrite (proj2 (String.eqb_neq _ _)).
  - destruct (String.compare k j) eqn:E; simpl; rewrite ?(proj2 (String.eqb_neq k' k) Hne); try done.
    + apply str_compare_eq in E as ->. by rewrite (proj2 (String.eqb_neq k' j)).
    + by rewrite IH.
Qed.
Lemma oget_oset m k k' a : oget (oset m k a) k' = if String.eqb k' k then Some a else oget m k'.
Proof.
  destruct (String.eqb_spec k' k) as [->|Hne]; [apply oget_oset_eq|by apply oget_oset_ne].
Qed.
Lemma oget_odel m k k' : oget (odel m k) k' = if String.eqb k' k then None else oget m k'.
Proof.
  induction m as [|[j b] m IH]; simpl; [by case_test|].
  destruct (String.eqb_spec k j) as [<-|Hj]; rewrite ?IH.
  - by destruct (String.eqb_spec k' k).
  - simpl. rewrite IH. destruct (String.eqb_spec k' j) as [->|]; [|done].
    by rewrite (proj2 (String.eqb_neq _ _)).
Qed.

Lemma keys_above_weaken m k k' : str_lt k k' -> keys_above k' m -> keys_above k m.
Proof. destruct m as [|[j b] m]; simpl; [done|]. intros ? [? ?]. eauto using str_lt_trans. Qed.
Lemma keys_above_sorted m k : keys_above k m -> omap_sorted m.
Proof. destruct m as [|[j b] m]; [done|]. by intros [_ ?]. Qed.
Lemma keys_above_oget m k : keys_above k m -> oget m k = None.
Proof.
  revert k. induction m as [|[j b] m IH]; intros k; simpl; [done|]. intros [Hlt Hm].
  destruct (String.eqb_spec k j) as [->|]; [by apply str_lt_irrefl in Hlt|].
  apply IH. by eapply keys_above_weaken.
Qed.
Lemma oset_above m k j a : keys_above j m -> str_lt j k -> keys_above j (oset m k a).
Proof.
  revert j. induction m as [|[j' b] m IH]; intros j; simpl; [done|]. intros [H1 H2] Hlt.
  destruct (String.compare k j') eqn:E; simpl.
  - apply str_compare_eq in E as ->. done.
  - done.
  - split; [done|]. apply IH; [done|]. by apply str_gt.
Qed.
Lemma oset_sorted m k a : omap_sorted m -> omap_sorted (oset m k a).
Proof.
  destruct m as [|[j b] m]; simpl; [done|]. intros Hm.
  destruct (String.compare k j) eqn:E; simpl.
  - apply str_compare_eq in E as ->. done.
  - done.
  - apply oset_above; [done|]. by apply str_gt.
Qed.
Lemma odel_above m k j : keys_above j m -> keys_above j (odel m k).
Proof.
  revert j. induction m as [|[j' b] m IH]; intros j; simpl; [done|]. intros [H1 H2].
  destruct (String.eqb k j'); [|by split; auto].
  apply IH. by eapply keys_above_weaken.
Qed.
Lemma odel_sorted m k : omap_sorted m -> omap_sorted (odel m k).
Proof.
  induction m as [|[j b] m IH]; simpl; [done|]. intros Hm.
  destruct (String.eqb k j); [|by apply odel_above].
  by apply IH, keys_above_sorted with j.
Qed.
Lemma of_pairs_sorted (l : list (string * A)) : omap_sorted (of_pairs l).
Proof.
  unfold of_pairs. assert (H : omap_sorted (@nil (string * A))) by done.
  revert H. generalize (@nil (string * A)).
  induction l as [|[k a] l IH]; intros m Hm; simpl; [done|]. apply IH. by apply oset_sorted.
Qed.

(** Two sorted maps with the same lookups are the same. *)
Lemma omap_ext m1 m2 :
  omap_sorted m1 -> omap_sorted m2 -> (forall k, oget m1 k = oget m2 k) -> m1 = m2.
Proof.
  assert (Hhead : forall k a (m : list (string * A)), keys_above k m ->
    forall j, oget ((k, a) :: m) j <> None -> j = k \/ str_lt k j).
  { intros k a m. revert k a. induction m as [|[j' b] m IH]; intros k a Ha j; simpl.
    - destruct (String.eqb_spec j k); naive_solver.
    - destruct Ha as [Ha1 Ha2]. specialize (IH _ b Ha2 j). simpl in IH.
      destruct (String.eqb_spec j k); [by left|]. intros Hn. right.
      destruct (IH Hn) as [->|]; [done|]. by eapply str_lt_trans. }
  revert m2. induction m1 as [|[k a] m1 IH]; intros [|[j b] m2] H1 H2 Heq.
  - done.
  - specialize (Heq j). simpl in Heq. by rewrite String.eqb_refl in Heq.
  - specialize (Heq k). simpl in Heq. by rewrite String.eqb_refl in Heq.
  - simpl in H1, H2.
    assert (j = k \/ str_lt k j) as Hkj.
    { apply (Hhead k a m1 H1). rewrite Heq. simpl. by rewrite String.eqb_refl. }
    assert (k = j \/ str_lt j k) as Hjk.
    { apply (Hhead j b m2 H2). rewrite <- Heq. simpl. by rewrite String.eqb_refl. }
    assert (k = j) as ->.
    { destruct Hkj as [->|Hkj]; [done|]. destruct Hjk as [->|Hjk]; [done|].
      exfalso. by apply (str_lt_irrefl k), (str_lt_trans k j k). }
    pose proof (Heq j) as Hj. simpl in Hj. rewrite String.eqb_refl in Hj. simplify_eq.
    f_equal. apply IH.
    + by apply keys_above_sorted with j.
    + by apply keys_above_sorted with j.
    + intros i. specialize (Heq i). simpl in Heq.
      destruct (String.eqb_spec i j) as [Ei|_]; [|done].
      rewrite Ei. by rewrite !keys_above_oget.
Qed.

(** A sorted map is the fold of its own entries. *)
Lemma oset_snoc m k a : (forall kv, kv ∈ m -> str_lt kv.1 k) -> oset m k a = m ++ [(k, a)].
Proof.
  induction m as [|[j b] m IH]; intros Hm; simpl; [done|].
  assert (Hj : str_lt j k) by (apply (Hm (j, b)); set_solver).
  destruct (String.compare k j) eqn:E.
  - apply str_compare_eq in E as ->. by apply str_lt_irrefl in Hj.
  - exfalso. by apply (str_lt_irrefl k), (str_lt_trans k j k).
  - rewrite IH; [done|]. intros kv Hkv. apply Hm. set_solver.
Qed.
Lemma keys_above_elem m k kv : keys_above k m -> kv ∈ m -> str_lt k kv.1.
Proof.
  revert k. induction m as [|[j b] m IH]; intros k Hk Hin; [set_solver|].
  simpl in Hk. destruct Hk as [? ?]. apply elem_of_cons in Hin as [->|Hin]; [done|].
  eapply str_lt_trans; [done|by apply IH].
Qed.
Lemma of_pairs_id m : omap_sorted m -> of_pairs m = m.
Proof.
  unfold of_pairs. intros Hm.
  assert (G : forall (l acc : list (string * A)), omap_sorted l ->
    (forall x y, x ∈ acc -> y ∈ l -> str_lt x.1 y.1) ->
    foldl (fun m kv => oset m kv.1 kv.2) acc l = acc ++ l).
  { induction l as [|[k a] l IH]; intros acc Hl Hacc; simpl; [by rewrite app_nil_r|].
    rewrite oset_snoc by (intros kv Hkv; apply (Hacc kv (k, a)); set_solver).
    rewrite IH.
    - by rewrite <- app_assoc.
    - by apply keys_above_sorted with k.
    - intros x y Hx Hy. apply elem_of_app in Hx as [Hx|Hx].
      + apply Hacc; set_solver.
      + apply list_elem_of_singleton in Hx as ->. by apply (keys_above_elem l k y). }
  rewrite G; [done|done|set_solver].
Qed.
End assoc_lemmas.

(** ** Reading fields *)

(** [object[key]]: the zero value [nil] where the key is absent. *)
Definition idx (o : object) (k : string) : val := default VNil (oget o k).
Definition has_key (o : object) (k : string) : bool :=
  match oget o k with Some _ => true | None => false end.

(** [objectMap]: the map inside a value, or a fresh empty one. *)
Definition objectMap (v : val) : object :=
  match v with VMap m => m | _ => [] end.
Definition objectList (v : val) : list val :=
  match v with VList l => l | _ => [] end.
Definition stringField (o : object) (k : string) : string :=
  match idx o k with VStr s => s | _ => "" end.

(** [int(f)]: truncation towards zero; NaN and values outside [int64] give the
    least integer, as the conversion instruction of amd64 does (the language
    leaves them implementation-defined). *)
Definition trunc_float (f : spec_float) : Z :=
  match f with
  | S754_finite s m e =>
      let a := if 0 <=? e then Z.pos m * 2 ^ e else Z.pos m / 2 ^ (- e) in
      let z := if s then - a else a in
      if (min_int64 <=? z) && (z <=? max_int64) then z else min_int64
  | S754_zero _ => 0
  | _ => min_int64
  end.
(** [intField]; an unsigned value is reinterpreted as the conversion does. *)
Definition intField (o : object) (k : string) : Z :=
  match idx o k with
  | VInt z => i64 z
  | VFloat f => trunc_float f
  | _ => 0
  end.

Lemma idx_oset o k k' v : idx (oset o k v) k' = if String.eqb k' k then v else idx o k'.
Proof. unfold idx. rewrite oget_oset. by case_test. Qed.
Lemma idx_oset_eq o k v : idx (oset o k v) k = v.
Proof. by rewrite idx_oset, String.eqb_refl. Qed.
Lemma stringField_oset o k k' v :
  stringField (oset o k v) k' =
    if String.eqb k' k then match v with VStr s => s | _ => "" end else stringField o k'.
Proof. unfold stringField. rewrite idx_oset. by case_test. Qed.

Lemma oset_lookup_elem {A} (m : list (string * A)) k a kv : kv ∈ oset m k a -> kv = (k, a) \/ kv ∈ m.
Proof.
  induction m as [|[k' b] m IH]; simpl; [set_solver|].
  destruct (String.compare k k'); set_solver.
Qed.
Lemma oget_elem {A} (m : list (string * A)) k a : oget m k = Some a -> (k, a) ∈ m.
Proof.
  induction m as [|[k' b] m IH]; simpl; [done|].
  destruct (String.eqb_spec k k') as [->|]; [intros [= ->]; set_solver|]. intros. apply list_elem_of_further. auto.
Qed.

#[export] Hint Resolve oset_sorted odel_sorted of_pairs_sorted : helix.
