(* ===== verification/Json.v ===== *)
(** * JSON

    [encoding/json] as the sources use it: [Marshal] of a dynamic value (HTML
    characters escaped, keys sorted, invalid UTF-8 written as [\ufffd]),
    [Unmarshal] into [map[string]any] (nesting limit, surrogate pairs, numbers
    to [float64]), and [cloneObject] of state.go, which is one after the other.
    The main theorem gives [Unmarshal] after [Marshal] in closed form. *)
From S2P Require Import Prelude GoStrings Value.

#[local] Set Warnings "-clear-no-such-hyp".
#[local] Open Scope string_scope.
#[local] Open Scope list_scope.
#[local] Open Scope Z_scope.

(** ** Numbers *)

(** [float64] nearest to a non-negative ratio: a quotient of at least 56 bits
    whose last bit also stands for the remainder, rounded to even. *)
Definition float_of_ratio (neg : bool) (num den : Z) : spec_float :=
  if num =? 0 then S754_zero neg
  else
    let k := Z.max 0 (Z.log2 den - Z.log2 num + 56) in
    let q := num * 2 ^ k / den in
    let m := 2 * q + (if (num * 2 ^ k) mod den =? 0 then 0 else 1) in
    binary_normalize 53 1024 (if neg then - m else m) (- (k + 1)) neg.
(** The value of [d * 10 ^ e]. *)
Definition float_of_decimal (neg : bool) (d e : Z) : spec_float :=
  let n := slen (to_base 10 d) in
  if d =? 0 then S754_zero neg
  else if 310 <? n + e then S754_infinity neg
  else if n + e <? -330 then S754_zero neg
  else if 0 <=? e then float_of_ratio neg (d * 10 ^ e) 1
  else float_of_ratio neg d (10 ^ (- e)).

(** A number as the grammar of JSON writes it. *)
Record num_lit := { ln_neg : bool; ln_int : string; ln_frac : string; ln_exp : option Z }.

Definition frac_text (f : string) : string :=
  if String.eqb f "" then "" else "." +:+ f.
Definition exp_text (x : option Z) : string :=
  match x with
  | None => ""
  | Some e => "e" +:+ (if e <? 0 then "-" else "+") +:+ to_base 10 (Z.abs e)
  end.
Definition print_lit (l : num_lit) : string :=
  (if ln_neg l then "-" else "") +:+ ln_int l +:+ frac_text (ln_frac l) +:+ exp_text (ln_exp l).
Definition lit_float (l : num_lit) : option spec_float :=
  match digits_from 0 (ln_int l +:+ ln_frac l) with
  | None => None
  | Some d =>
      match float_of_decimal (ln_neg l) d (default 0 (ln_exp l) - slen (ln_frac l)) with
      | S754_infinity _ => None
      | f => Some f
      end
  end.

Definition sf_eqb (a b : spec_float) : bool :=
  match a, b with
  | S754_zero s, S754_zero s' => Bool.eqb s s'
  | S754_infinity s, S754_infinity s' => Bool.eqb s s'
  | S754_nan, S754_nan => true
  | S754_finite s m e, S754_finite s' m' e' => Bool.eqb s s' && (m =? m')%positive && (e =? e')
  | _, _ => false
  end.

(** [num / den < 10 ^ k] *)
Definition below_pow10 (num den k : Z) : bool :=
  if 0 <=? k then num <? den * 10 ^ k else num * 10 ^ (- k) <? den.
(** The least [k] with [num / den < 10 ^ k]. *)
Definition decimal_point (num den : Z) : Z :=
  let est := (Z.log2 num - Z.log2 den) * 30103 / 100000 in
  default (est + 2) (head (List.filter (below_pow10 num den) [est - 1; est; est + 1; est + 2])).

Fixpoint trim_zeros (fuel : nat) (d e : Z) : Z * Z :=
  match fuel with
  | S fuel => if (d mod 10 =? 0) && negb (d =? 0) then trim_zeros fuel (d / 10) (e + 1) else (d, e)
  | O => (d, e)
  end.
(** The shortest decimal that reads back as the number, the nearest one where
    there are two, as [strconv.FormatFloat(f, _, -1, 64)] chooses it; seventeen
    digits always suffice. *)
Fixpoint shortest_go (fuel : nat) (f : spec_float) (num den k p : Z) : option (Z * Z) :=
  match fuel with
  | O => None
  | S fuel =>
      let e := k - p in
      let n := if 0 <=? e then num else num * 10 ^ (- e) in
      let m := if 0 <=? e then den * 10 ^ e else den in
      let lo := n / m in
      let ok d := sf_eqb (float_of_decimal false d e) f in
      let near_lo := 2 * (n mod m) <=? m in
      if near_lo && ok lo then Some (lo, e)
      else if ok (lo + 1) then Some (lo + 1, e)
      else if ok lo then Some (lo, e)
      else shortest_go fuel f num den k (p + 1)
  end.
Definition shortest (m : positive) (e : Z) : Z * Z :=
  let num := if 0 <=? e then Z.pos m * 2 ^ e else Z.pos m in
  let den := if 0 <=? e then 1 else 2 ^ (- e) in
  match shortest_go 17 (S754_finite false m e) num den (decimal_point num den) 1 with
  | Some (d, x) => trim_zeros 20 d x
  | None => if 0 <=? e then (num, 0) else (Z.pos m * 5 ^ (- e), e)
  end.

(** [FormatFloat] with the verbs ['f'] and ['e'] and the shortest precision. *)
Definition fixed_lit (neg : bool) (d e : Z) : num_lit :=
  let ds := to_base 10 d in
  let dp := slen ds + e in
  if dp <=? 0 then
    {| ln_neg := neg; ln_int := "0"; ln_frac := str_repeat "0" (Z.to_nat (- dp)) +:+ ds; ln_exp := None |}
  else if dp <? slen ds then
    {| ln_neg := neg; ln_int := str_take (Z.to_nat dp) ds; ln_frac := str_drop (Z.to_nat dp) ds; ln_exp := None |}
  else {| ln_neg := neg; ln_int := ds +:+ str_repeat "0" (Z.to_nat e); ln_frac := ""; ln_exp := None |}.
Definition exp_lit (neg : bool) (d e : Z) : num_lit :=
  let ds := to_base 10 d in
  {| ln_neg := neg; ln_int := str_take 1 ds; ln_frac := str_drop 1 ds; ln_exp := Some (slen ds - 1 + e) |}.

(** The encoder of [float64] values: NaN and infinities are errors; ['f'],
    except below 1e-6 and from 1e21 on. *)
Definition float_lit (f : spec_float) : option num_lit :=
  match f with
  | S754_zero s => Some {| ln_neg := s; ln_int := "0"; ln_frac := ""; ln_exp := None |}
  | S754_finite s m e =>
      let '(d, x) := shortest m e in
      let a := S754_finite false m e in
      if SFltb a (float_of_decimal false 1 (-6)) || SFleb (float_of_decimal false 1 21) a
      then Some (exp_lit s d x) else Some (fixed_lit s d x)
  | _ => None
  end.
Definition int_lit (z : Z) : num_lit :=
  {| ln_neg := z <? 0; ln_int := to_base 10 (Z.abs z); ln_frac := ""; ln_exp := None |}.

Definition float_of_int (z : Z) : spec_float := float_of_decimal (z <? 0) (Z.abs z) 0.

Definition show_float (f : spec_float) : option string := print_lit <$> float_lit f.
Definition read_float (neg : bool) (d e : Z) : option string := show_float (float_of_decimal neg d e).
Example float_ex : map (fun '(d, e) => read_float false d e)
  [(1, 0); (15, -1); (1, -1); (3, -1); (9007199254740993, 0); (1, 21); (1, 22); (1, -6); (1, -7); (123456789, -15);
   (17976931348623157, 292); (5, -324); (18446744073709551615, 0); (40375, -3)] =
  Some <$> ["1"; "1.5"; "0.1"; "0.3"; "9007199254740992"; "1e+21"; "1e+22"; "0.000001"; "1e-7"; "1.23456789e-7";
   "1.7976931348623157e+308"; "5e-324"; "18446744073709552000"; "40.375"].
Proof. vm_compute. reflexivity. Qed.

(** ** Encoding *)

(** One character of a string: HTML characters and the two line separators
    are escaped, a byte that is not UTF-8 is written as an escape. *)
Definition esc_rune (rb : Z * string) : string :=
  let '(r, b) := rb in
  if (r =? rune_error) && (slen b =? 1) then "\ufffd"
  else if r =? 34 then "\" +:+ quote
  else if r =? 92 then "\\"
  else if r =? 8 then "\b" else if r =? 12 then "\f" else if r =? 10 then "\n"
  else if r =? 13 then "\r" else if r =? 9 then "\t"
  else if (r <? 32) || (r =? 60) || (r =? 62) || (r =? 38) then "\u00" +:+ hex_byte r
  else if r =? 8232 then "\u2028" else if r =? 8233 then "\u2029"
  else b.
Definition json_string (s : string) : string :=
  quote +:+ str_concat (map esc_rune (runes s)) +:+ quote.

Fixpoint all_some {A} (l : list (option A)) : option (list A) :=
  match l with
  | [] => Some []
  | Some a :: l => cons a <$> all_some l
  | None :: _ => None
  end.
Definition json_array (l : list (option string)) : option string :=
  (fun ts => "[" +:+ join ts "," +:+ "]") <$> all_some l.
Definition json_member (kt : string * option string) : option string :=
  (fun t => json_string kt.1 +:+ ":" +:+ t) <$> kt.2.
Definition json_object (l : list (string * option string)) : option string :=
  (fun ts => "{" +:+ join ts "," +:+ "}") <$> all_some (map json_member l).

(** [json.Marshal] *)
Fixpoint json_marshal (v : val) : option string :=
  match v with
  | VNil => Some "null"
  | VBool b => Some (if b then "true" else "false")
  | VInt z => Some (print_lit (int_lit z))
  | VFloat f => print_lit <$> float_lit f
  | VStr s => Some (json_string s)
  | VList l => json_array (map json_marshal l)
  | VMap m => json_object (map (fun kv => (kv.1, json_marshal kv.2)) m)
  | VStrMap m => json_object (map (fun kv => (kv.1, Some (json_string kv.2))) m)
  | VStrList l => json_array (map (fun s => Some (json_string s)) l)
  | VMapList l =>
      json_array (map (fun m => json_object (map (fun kv => (kv.1, json_marshal kv.2)) m)) l)
  end.

(** ** Decoding *)
Definition is_ws (c : ascii) : bool :=
  (code c =? 32) || (code c =? 9) || (code c =? 10) || (code c =? 13).
Fixpoint skip_ws (s : string) : string :=
  match s with String c s' => if is_ws c then skip_ws s' else s | "" => "" end.
Fixpoint span (p : ascii -> bool) (s : string) : string * string :=
  match s with
  | "" => ("", "")
  | String c s' => if p c then let '(a, b) := span p s' in (String c a, b) else ("", s)
  end.

Definition lex_frac (s : string) : option (string * string) :=
  match s with
  | String c s' =>
      if code c =? 46 then
        let '(f, r) := span is_digit s' in
        if String.eqb f "" then None else Some (f, r)
      else Some ("", s)
  | "" => Some ("", "")
  end.
Definition lex_sign (s : string) : bool * string :=
  match s with
  | String c s' => if code c =? 45 then (true, s') else if code c =? 43 then (false, s') else (false, s)
  | "" => (false, "")
  end.
Definition lex_exp (s : string) : option (option Z * string) :=
  match s with
  | String c s' =>
      if (code c =? 101) || (code c =? 69) then
        let '(neg, s'') := lex_sign s' in
        let '(ds, r) := span is_digit s'' in
        match parse_digits ds with
        | Some e => Some (Some (if neg then - e else e), r)
        | None => None
        end
      else Some (None, s)
  | "" => Some (None, "")
  end.
Definition lex_number (s : string) : option (num_lit * string) :=
  let '(neg, s) := match s with
                   | String c s' => if code c =? 45 then (true, s') else (false, s)
                   | "" => (false, "")
                   end in
  let '(ip, s) := span is_digit s in
  if String.eqb ip "" || (bool_decide (str_head ip = Some (chr 48)) && negb (String.eqb ip "0"))
  then None
  else
    '(fp, s) ← lex_frac s;
    '(ex, s) ← lex_exp s;
    Some ({| ln_neg := neg; ln_int := ip; ln_frac := fp; ln_exp := ex |}, s).

(** The bytes of a string up to its closing quote, escapes kept. *)
Fixpoint str_body (s : string) : option (string * string) :=
  match s with
  | "" => None
  | String c s' =>
      if code c =? 34 then Some ("", s')
      else if code c =? 92 then
        match s' with
        | "" => None
        | String d s'' => '(b, r) ← str_body s''; Some (String c (String d b), r)
        end
      else if code c <? 32 then None
      else '(b, r) ← str_body s'; Some (String c b, r)
  end.

Definition hex_val (r : Z) : option Z :=
  if (48 <=? r) && (r <=? 57) then Some (r - 48)
  else if (97 <=? r) && (r <=? 102) then Some (r - 87)
  else if (65 <=? r) && (r <=? 70) then Some (r - 55)
  else None.
Definition hex4 (l : list (Z * string)) : option (Z * list (Z * string)) :=
  match l with
  | (a, _) :: (b, _) :: (c, _) :: (d, _) :: l =>
      a ← hex_val a; b ← hex_val b; c ← hex_val c; d ← hex_val d;
      Some (a * 4096 + b * 256 + c * 16 + d, l)
  | _ => None
  end.
Definition short_escape (r : Z) : option Z :=
  if r =? 98 then Some 8 else if r =? 102 then Some 12 else if r =? 110 then Some 10
  else if r =? 114 then Some 13 else if r =? 116 then Some 9
  else if (r =? 34) || (r =? 92) || (r =? 47) then Some r else None.
Definition is_surrogate (r : Z) : bool := (55296 <=? r) && (r <? 57344).
(** The low half of a surrogate pair, when one follows. *)
Definition low_surrogate (hi : Z) (l : list (Z * string)) : option (Z * list (Z * string)) :=
  match l with
  | (a, _) :: (b, _) :: l' =>
      if (a =? 92) && (b =? 117) then
        '(lo, l'') ← hex4 l';
        if (hi <? 56320) && (56320 <=? lo) && (lo <? 57344)
        then Some (65536 + (hi - 55296) * 1024 + (lo - 56320), l'') else None
      else None
  | _ => None
  end.
(** A string with its escapes resolved and its bytes made valid UTF-8; every
    step consumes a character, so the number of characters is enough fuel. *)
Definition unquote_step (rest : list (Z * string) -> option string) (l : list (Z * string)) : option string :=
  match l with
  | [] => Some ""
  | (r, b) :: l =>
    if r =? 92 then
      match l with
      | [] => None
      | (e, _) :: l =>
        if e =? 117 then
          '(u, l) ← hex4 l;
          if is_surrogate u then
            match low_surrogate u l with
            | Some (c, l) => String.append (encode_rune c) <$> rest l
            | None => String.append (encode_rune rune_error) <$> rest l
            end
          else String.append (encode_rune u) <$> rest l
        else
          x ← short_escape e; String.append (str1 (chr x)) <$> rest l
      end
    else String.append (if r =? rune_error then encode_rune rune_error else b) <$> rest l
  end.
Fixpoint unquote_go (fuel : nat) (l : list (Z * string)) : option string :=
  match fuel with
  | O => None
  | S fuel => unquote_step (unquote_go fuel) l
  end.
Definition unquote (s : string) : option string :=
  let l := runes s in unquote_go (S (length l)) l.
(** The string that starts after an opening quote, and the text after it. *)
Definition parse_string (s : string) : option (string * string) :=
  '(b, r) ← str_body s; x ← unquote b; Some (x, r).

Definition max_json_depth : Z := 10000.

Definition next_byte (s : string) : option (ascii * string) :=
  match skip_ws s with String c s' => Some (c, s') | "" => None end.

(** The parser, for a conversion of number literals and a way to add a member
    to an object. *)
Section parser.
Variable num : num_lit -> option val.
Variable ins : object -> string -> val -> object.

Fixpoint parse_val (n : nat) (d : Z) (s : string) {struct n} : option (val * string) :=
  match n with
  | O => None
  | S n =>
      let s := skip_ws s in
      '(c, s') ← next_byte s;
      if code c =? 123 then
        if d <? max_json_depth then
          '(c', s'') ← next_byte s';
          if code c' =? 125 then Some (VMap [], s'')
          else '(m, r) ← parse_members n (d + 1) [] s'; Some (VMap m, r)
        else None
      else if code c =? 91 then
        if d <? max_json_depth then
          '(c', s'') ← next_byte s';
          if code c' =? 93 then Some (VList [], s'')
          else '(l, r) ← parse_elems n (d + 1) [] s'; Some (VList l, r)
        else None
      else if code c =? 34 then '(x, r) ← parse_string s'; Some (VStr x, r)
      else if has_prefix s "true" then Some (VBool true, str_drop 4 s)
      else if has_prefix s "false" then Some (VBool false, str_drop 5 s)
      else if has_prefix s "null" then Some (VNil, str_drop 4 s)
      else '(l, r) ← lex_number s; v ← num l; Some (v, r)
  end
with parse_members (n : nat) (d : Z) (acc : object) (s : string) {struct n} : option (object * string) :=
  match n with
  | O => None
  | S n =>
      '(c, s) ← next_byte s;
      if code c =? 34 then
        '(k, s) ← parse_string s;
        '(c, s) ← next_byte s;
        if code c =? 58 then
          '(v, s) ← parse_val n d s;
          '(c, s) ← next_byte s;
          if code c =? 44 then parse_members n d (ins acc k v) s
          else if code c =? 125 then Some (ins acc k v, s) else None
        else None
      else None
  end
with parse_elems (n : nat) (d : Z) (acc : list val) (s : string) {struct n} : option (list val * string) :=
  match n with
  | O => None
  | S n =>
      '(v, s) ← parse_val n d s;
      '(c, s) ← next_byte s;
      if code c =? 44 then parse_elems n d (v :: acc) s
      else if code c =? 93 then Some (reverse (v :: acc), s) else None
  end.
End parser.

Definition json_num (l : num_lit) : option val := VFloat <$> lit_float l.
(** [json.Unmarshal] into an [any]; every call of the parser but one per
    element consumes a byte, so twice the length is enough fuel. *)
Definition json_parse (s : string) : option val :=
  '(v, r) ← parse_val json_num oset (2 * String.length s + 1) 0 s;
  if String.eqb (skip_ws r) "" then Some v else None.
(** [json.Unmarshal] into a [map[string]any]; [null] leaves a nil map. *)
Definition json_unmarshal (s : string) : option object :=
  match json_parse s with
  | Some (VMap m) => Some m
  | Some VNil => Some []
  | _ => None
  end.

(** [cloneObject] of state.go, for a map that is not nil. *)
Definition cloneObject (o : object) : object :=
  match json_marshal (VMap o) with
  | None => []
  | Some encoded => default [] (json_unmarshal encoded)
  end.
(** The length of an object's encoding. *)
Definition encoded_len (o : object) : option Z := slen <$> json_marshal (VMap o).

Definition q (s : string) : string := replace_all s "'" quote.
Example json_ex2 :
  (json_parse (q "{ 'b' : [1, 2.50, -0, true, null, 'x\u00e9\ud83d\ude00\ud800<'], 'a':{}, 'b':'\n' }") ≫= json_marshal,
   json_parse (q "[1, 2.50, -0, true, null, 'x\u00e9\ud83d\ude00\ud800<'] ") ≫= json_marshal)
  = (Some (q "{'a':{},'b':'\n'}"), Some (q "[1,2.5,-0,true,null,'xé😀�\u003c']")).
Proof. vm_compute. reflexivity. Qed.

(** ** The number grammar *)

(** What may follow a value: the end, or a comma or closing bracket. *)
Definition stops (s : string) : Prop :=
  match s with "" => True | String c _ => code c = 44 \/ code c = 93 \/ code c = 125 end.

Record wf_lit (l : num_lit) : Prop := {
  wl_int : all_bytes is_digit (ln_int l) = true;
  wl_nonempty : ln_int l <> "";
  wl_head : str_head (ln_int l) = Some (chr 48) -> ln_int l = "0";
  wl_frac : all_bytes is_digit (ln_frac l) = true;
}.

Lemma span_app p a s :
  all_bytes p a = true -> match s with "" => True | String c _ => p c = false end ->
  span p (a +:+ s) = (a, s).
Proof.
  intros Ha Hs. induction a as [|c a IH]; simpl in *.
  - destruct s as [|c s]; simpl; [done|]. by rewrite Hs.
  - bool_to_prop. by rewrite H, IH.
Qed.

Lemma is_digit_false c : code c < 48 \/ 57 < code c -> is_digit c = false.
Proof.
  unfold is_digit. intros [?|?].
  - by rewrite (proj2 (Z.leb_gt _ _)) by lia.
  - by rewrite (proj2 (Z.leb_gt (code c) 57)), andb_false_r by lia.
Qed.
Lemma stops_digit s : stops s -> match s with "" => True | String c _ => is_digit c = false end.
Proof. destruct s as [|c s]; simpl; [done|]. intros. apply is_digit_false. lia. Qed.

Lemma parse_digits_dec n : 0 <= n -> parse_digits (to_base 10 n) = Some n.
Proof. apply parse_digits_to_base. Qed.

Lemma lex_exp_none s : stops s -> lex_exp s = Some (None, s).
Proof.
  destruct s as [|c s]; simpl; [done|]. intros. by rewrite !(proj2 (Z.eqb_neq (code c) _)) by lia.
Qed.
Lemma lex_exp_print e s : stops s ->
  lex_exp (String (chr 101) ((if e <? 0 then "-" else "+") +:+ to_base 10 (Z.abs e) +:+ s)) = Some (Some e, s).
Proof.
  intros Hs. pose proof (to_base_decimal (Z.abs e)) as Hd. simpl.
  destruct (e <? 0) eqn:E; bool_to_prop; simpl;
    rewrite span_app by (first [apply Hd; lia|by apply stops_digit]);
    rewrite parse_digits_dec by lia; do 3 f_equal; lia.
Qed.
Lemma lex_frac_print f s : all_bytes is_digit f = true ->
  (f = "" -> match s with "" => True | String c _ => code c <> 46 end) ->
  match s with "" => True | String c _ => is_digit c = false end ->
  lex_frac (frac_text f +:+ s) = Some (f, s).
Proof.
  intros Hf Hdot Hs. destruct f as [|c f].
  - specialize (Hdot eq_refl). destruct s as [|d s]; simpl; [done|].
    by rewrite (proj2 (Z.eqb_neq _ _)).
  - change (frac_text (String c f) +:+ s) with (String "." (String c f +:+ s)). unfold lex_frac.
    rewrite (span_app is_digit (String c f) s Hf Hs). by replace (code "." =? 46) with true by done.
Qed.

Lemma exp_text_head x s : stops s ->
  match exp_text x +:+ s with "" => True | String c _ => code c <> 46 /\ is_digit c = false end.
Proof.
  intros Hs. destruct x as [e|]; simpl; [done|]. destruct s as [|c s]; simpl; [done|].
  split; [simpl in Hs; lia|by apply (stops_digit (String c s))].
Qed.
Lemma lex_exp_text x s : stops s -> lex_exp (exp_text x +:+ s) = Some (x, s).
Proof.
  intros Hs. destruct x as [e|]; [|by apply lex_exp_none].
  unfold exp_text. rewrite <- !str_app_assoc. by apply lex_exp_print.
Qed.

Lemma lex_print l s : wf_lit l -> stops s -> lex_number (print_lit l +:+ s) = Some (l, s).
Proof.
  intros [Hi Hne Hh Hf] Hs. destruct l as [neg ip fp ex]; simpl in *.
  unfold print_lit; cbn [ln_neg ln_int ln_frac ln_exp].
  pose proof (exp_text_head ex s Hs) as Het.
  assert (Hcore : forall neg', 
    (let '(ip0, s0) := span is_digit
       (ip +:+ frac_text fp +:+ exp_text ex +:+ s) in
     if String.eqb ip0 "" || (bool_decide (str_head ip0 = Some (chr 48)) && negb (String.eqb ip0 "0"))
     then None
     else '(fp, s1) ← lex_frac s0; '(ex, s2) ← lex_exp s1;
          Some ({| ln_neg := neg'; ln_int := ip0; ln_frac := fp; ln_exp := ex |}, s2))
    = Some ({| ln_neg := neg'; ln_int := ip; ln_frac := fp; ln_exp := ex |}, s)).
  { intros neg'. rewrite span_app; [|done|].
    - rewrite (proj2 (String.eqb_neq ip "")) by done. simpl.
      replace (bool_decide (str_head ip = Some (chr 48)) && negb (String.eqb ip "0")) with false.
      + rewrite lex_frac_print; [|done| |].
        * simpl. by rewrite lex_exp_text.
        * intros _. by destruct (exp_text ex +:+ s); [|destruct Het].
        * by destruct (exp_text ex +:+ s); [|destruct Het].
      + symmetry. destruct (bool_decide_reflect (str_head ip = Some (chr 48))) as [Hc|]; [|done].
        by rewrite (Hh Hc).
    - destruct fp; [|done]. simpl. by destruct (exp_text ex +:+ s); [|destruct Het]. }
  rewrite <- !str_app_assoc. unfold lex_number. destruct neg.
  - cbn [String.append]. replace (code "-" =? 45) with true by done. apply Hcore.
  - cbn [String.append]. destruct ip as [|c ip]; [done|]. cbn [String.append].
    simpl in Hi. bool_to_prop. unfold is_digit in H. bool_to_prop.
    rewrite (proj2 (Z.eqb_neq (code c) 45)) by lia. apply Hcore.
Qed.

Lemma int_lit_wf z : wf_lit (int_lit z).
Proof.
  destruct (to_base_decimal (Z.abs z)) as [Hne Hd _ Hh _]; [lia|]. split; simpl; [done|done|apply Hh|done].
Qed.

Lemma all_bytes_repeat p s n : all_bytes p s = true -> all_bytes p (str_repeat s n) = true.
Proof. intros. induction n; simpl; [done|]. by rewrite all_bytes_app, H, IHn. Qed.
Lemma all_bytes_take p n s : all_bytes p s = true -> all_bytes p (str_take n s) = true.
Proof.
  revert s. induction n as [|n IH]; intros [|c s]; simpl; try done.
  intros. bool_to_prop. by rewrite H, IH.
Qed.
Lemma all_bytes_drop p n s : all_bytes p s = true -> all_bytes p (str_drop n s) = true.
Proof. revert s. induction n as [|n IH]; intros [|c s]; simpl; try done. intros. bool_to_prop. by apply IH. Qed.

Lemma fixed_lit_wf neg d e : 0 < d -> wf_lit (fixed_lit neg d e).
Proof.
  intros Hd. destruct (to_base_decimal d) as [Hne Hdig _ Hh _]; [lia|].
  assert (Hh' : str_head (to_base 10 d) <> Some (chr 48)) by (intros Hc; destruct (Hh Hc); lia).
  unfold fixed_lit. destruct (to_base 10 d) as [|c ds] eqn:Eds; [done|].
  case_test; bool_to_prop; [|case_test; bool_to_prop]; split; simpl.
  - done.
  - done.
  - done.
  - rewrite all_bytes_app, all_bytes_repeat by done. done.
  - by apply all_bytes_take.
  - destruct (Z.to_nat _) eqn:En; [lia|done].
  - destruct (Z.to_nat _) eqn:En; [lia|]. simpl. intros. by destruct Hh'.
  - by apply all_bytes_drop.
  - simpl in Hdig. apply andb_true_iff in Hdig as [-> Hds].
    by rewrite all_bytes_app, Hds, all_bytes_repeat.
  - done.
  - intros. by destruct Hh'.
  - done.
Qed.
Lemma exp_lit_wf neg d e : 0 < d -> wf_lit (exp_lit neg d e).
Proof.
  intros Hd. destruct (to_base_decimal d) as [Hne Hdig _ Hh _]; [lia|].
  unfold exp_lit. destruct (to_base 10 d) as [|c ds] eqn:Eds; [done|]. simpl in *. bool_to_prop.
  split; simpl.
  - by rewrite H.
  - done.
  - by intros [= ->].
  - by destruct ds.
Qed.

Lemma trim_zeros_pos fuel d e : 0 < d -> 0 < (trim_zeros fuel d e).1.
Proof.
  revert d e. induction fuel as [|fuel IH]; intros d e Hd; simpl; [done|].
  destruct (_ && _) eqn:E; simpl; [|done]. bool_to_prop. apply IH. dlia.
Qed.
Lemma shortest_go_pos fuel m e num den k p d x :
  0 <= num -> 0 < den ->
  shortest_go fuel (S754_finite false m e) num den k p = Some (d, x) -> 0 < d.
Proof.
  intros Hn Hden. revert p. induction fuel as [|fuel IH]; intros p; simpl; [done|].
  set (n := if 0 <=? k - p then num else num * 10 ^ (- (k - p))).
  set (mm := if 0 <=? k - p then den * 10 ^ (k - p) else den).
  assert (0 <= n) by (unfold n; case_match; bool_to_prop; nia).
  assert (0 < mm) by (unfold mm; case_match; bool_to_prop; nia).
  assert (0 <= n / mm) by (apply Z.div_pos; lia).
  assert (Hz : forall d e', sf_eqb (float_of_decimal false d e') (S754_finite false m e) = true -> d <> 0).
  { by intros d' e' Hd ->. }
  repeat case_match; bool_to_prop; intros; simplify_eq; try lia; eauto;
    match goal with H : sf_eqb _ _ = true |- _ => apply Hz in H end; lia.
Qed.
Lemma shortest_pos m e : 0 < (shortest m e).1.
Proof.
  unfold shortest. destruct (shortest_go _ _ _ _ _ _) as [[d x]|] eqn:E.
  - apply trim_zeros_pos. eapply shortest_go_pos; [| |exact E]; case_match; bool_to_prop; try lia; nia.
  - case_match; simpl; bool_to_prop; [|nia]. nia.
Qed.
Lemma float_lit_wf f l : float_lit f = Some l -> wf_lit l.
Proof.
  destruct f as [s| | |s m e]; unfold float_lit; [by intros [= <-]|done|done|].
  pose proof (shortest_pos m e) as Hpos. destruct (shortest m e) as [d x]. cbn [fst] in Hpos.
  destruct (_ || _); intros [= <-]; [by apply exp_lit_wf|by apply fixed_lit_wf].
Qed.

(** ** Strings *)
Definition plain (c : ascii) : bool := negb (code c =? 34) && negb (code c =? 92) && (32 <=? code c).
Definition plain_ascii (c : ascii) : bool := plain c && (code c <? 128).

Lemma str_body_plain w t : all_bytes plain w = true ->
  str_body (w +:+ t) = ('(b, r) ← str_body t; Some (w +:+ b, r)).
Proof.
  induction w as [|c w IH]; intros Hw.
  - simpl. by destruct (str_body t) as [[b r]|].
  - simpl in Hw. unfold plain in Hw. bool_to_prop. simpl.
    rewrite !(proj2 (Z.eqb_neq (code c) _)) by lia. rewrite (proj2 (Z.ltb_ge _ _)) by lia.
    rewrite IH by done. by destruct (str_body t) as [[b r]|].
Qed.
Lemma runes_ascii_app w t : all_bytes (fun c => code c <? 128) w = true ->
  runes (w +:+ t) = runes w ++ runes t.
Proof.
  induction w as [|c w IH]; intros Hw; [done|]. cbn [all_bytes] in Hw. bool_to_prop.
  cbn [String.append]. rewrite !runes_ascii by done. simpl. by rewrite IH.
Qed.
Lemma all_bytes_impl (p q : ascii -> bool) s :
  (forall c, p c = true -> q c = true) -> all_bytes p s = true -> all_bytes q s = true.
Proof. intros Hpq. induction s; simpl; [done|]. intros. bool_to_prop. by rewrite Hpq, IHs. Qed.

Lemma hex4_length l r l' : hex4 l = Some (r, l') -> length l = (4 + length l')%nat.
Proof.
  destruct l as [|[? ?] [|[? ?] [|[? ?] [|[? ?] l]]]]; simpl; intros; simplify_option_eq; done.
Qed.
Lemma low_surrogate_length hi l r l' : low_surrogate hi l = Some (r, l') -> (length l' < length l)%nat.
Proof.
  unfold low_surrogate. destruct l as [|[a ?] [|[b ?] l]]; [done|done|].
  destruct (_ && _); [|done]. destruct (hex4 l) as [[lo l2]|] eqn:Hh; [|done].
  apply hex4_length in Hh. simpl. case_match; [|done]. intros. simplify_eq. lia.
Qed.

Lemma unquote_fuel f1 f2 l : (length l < f1)%nat -> (length l < f2)%nat ->
  unquote_go f1 l = unquote_go f2 l.
Proof.
  revert f2 l. induction f1 as [|f1 IH]; intros [|f2] l H1 H2; try lia. cbn [unquote_go]. unfold unquote_step.
  destruct l as [|[r b] l]; [done|]. simpl in *.
  destruct (r =? 92); [|f_equal; apply IH; lia].
  destruct l as [|[e b'] l]; [done|]. simpl in *.
  destruct (e =? 117).
  - destruct (hex4 l) as [[u l']|] eqn:Eh; [|done]. apply hex4_length in Eh. simpl.
    destruct (is_surrogate u); [|f_equal; apply IH; lia].
    destruct (low_surrogate u l') as [[c l'']|] eqn:El; [|f_equal; apply IH; lia].
    apply low_surrogate_length in El. f_equal; apply IH; lia.
  - destruct (short_escape e); [|done]. simpl. f_equal; apply IH; lia.
Qed.
Definition unq (l : list (Z * string)) : option string := unquote_go (S (length l)) l.

Lemma unq_cons x l : unq (x :: l) = unquote_step (unquote_go (S (length l))) (x :: l).
Proof. done. Qed.
Lemma unq_raw r b l : r <> 92 ->
  unq ((r, b) :: l) = String.append (if r =? rune_error then encode_rune rune_error else b) <$> unq l.
Proof. intros. rewrite unq_cons. unfold unquote_step. by rewrite (proj2 (Z.eqb_neq r 92)). Qed.
Lemma unq_short b e b' x l : e <> 117 -> short_escape e = Some x ->
  unq ((92, b) :: (e, b') :: l) = String.append (str1 (chr x)) <$> unq l.
Proof.
  intros He Hx. rewrite unq_cons. unfold unquote_step. replace (92 =? 92) with true by done.
  rewrite (proj2 (Z.eqb_neq e 117)), Hx by done. cbn [mbind option_bind]. f_equal. apply unquote_fuel; simpl; lia.
Qed.
Lemma unq_hex b b' l u l' : hex4 l = Some (u, l') -> is_surrogate u = false ->
  unq ((92, b) :: (117, b') :: l) = String.append (encode_rune u) <$> unq l'.
Proof.
  intros Hu Hs. pose proof (hex4_length _ _ _ Hu). rewrite unq_cons. unfold unquote_step.
  replace (92 =? 92) with true by done. replace (117 =? 117) with true by done.
  rewrite Hu. cbn [mbind option_bind]. rewrite Hs. f_equal. apply unquote_fuel; simpl; lia.
Qed.

Lemma plain_ascii_plain w : all_bytes plain_ascii w = true -> all_bytes plain w = true.
Proof. apply all_bytes_impl. unfold plain_ascii. intros c Hc. by apply andb_true_iff in Hc as [? _]. Qed.
Lemma plain_ascii_ascii w : all_bytes plain_ascii w = true -> all_bytes (fun c => code c <? 128) w = true.
Proof. apply all_bytes_impl. unfold plain_ascii. intros c Hc. by apply andb_true_iff in Hc as [_ ?]. Qed.

(** [e] is an escape for the character [r]. *)
Definition esc_ok (e : string) (r : Z) : bool :=
  match e with
  | String a (String d w) =>
      (code a =? 92) && all_bytes plain_ascii w && (code d <? 128)
      && (if code d =? 117 then bool_decide (hex4 (runes w) = Some (r, [])) && negb (is_surrogate r)
          else String.eqb w "" && bool_decide (short_escape (code d) = Some r) && (r <? 128))
  | _ => false
  end.

Lemma esc_ok_sound e r t : esc_ok e r = true ->
  str_body (e +:+ t) = ('(b, x) ← str_body t; Some (e +:+ b, x)) /\
  unq (runes (e +:+ t)) = String.append (encode_rune r) <$> unq (runes t).
Proof.
  unfold esc_ok. destruct e as [|a [|d w]]; [done|done|]. intros H. bool_to_prop.
  assert (a = chr 92) as -> by (apply code_inj; rewrite code_chr; [done|unfold is_byte; lia]).
  split.
  - simpl. replace (code (chr 92)) with 92 by done. simpl.
    rewrite str_body_plain by by apply plain_ascii_plain.
    by destruct (str_body t) as [[? ?]|].
  - cbn [String.append]. rewrite !runes_ascii by done.
    rewrite runes_ascii_app by by apply plain_ascii_ascii.
    replace (code (chr 92)) with 92 by done.
    destruct (code d =? 117) eqn:Ed; bool_to_prop.
    + rewrite Ed. eapply unq_hex; [|done]. revert H0.
      destruct (runes w) as [|[? ?] [|[? ?] [|[? ?] [|[? ?] l]]]]; try done. simpl.
      intros. simplify_option_eq. done.
    + subst. simpl app. rewrite (unq_short _ _ _ r) by done. unfold encode_rune.
      by rewrite (proj2 (Z.ltb_lt _ _)).
Qed.

Lemma esc_rune_ascii r : 0 <= r < 128 ->
  esc_ok (esc_rune (r, str1 (chr r))) r = true \/
  (esc_rune (r, str1 (chr r)) = str1 (chr r) /\ all_bytes plain (str1 (chr r)) = true).
Proof. revert r. by_evaluation 128%nat. Qed.

Lemma esc_rune_sound r b t : is_chunk r b = true \/ bad_chunk r b ->
  str_body (esc_rune (r, b) +:+ t) = ('(b', x) ← str_body t; Some (esc_rune (r, b) +:+ b', x)) /\
  unq (runes (esc_rune (r, b) +:+ t)) =
    String.append (if r =? rune_error then encode_rune rune_error else b) <$> unq (runes t).
Proof.
  intros Hc. destruct Hc as [Hc|[-> (a & -> & Ha)]].
  2: { change (esc_rune (rune_error, str1 a)) with "\ufffd". by apply esc_ok_sound. }
  destruct (chunk_scalar _ _ Hc) as (Hsc & Henc & [[Hr ->]|[Hr Hb]]).
  - rewrite (proj2 (Z.eqb_neq r rune_error)) by (unfold rune_error; lia).
    destruct (esc_rune_ascii r) as [He|[He Hp]]; [unfold scalar in Hsc; lia| |].
    + pose proof (esc_ok_sound _ _ t He) as Hx. by rewrite Henc in Hx.
    + rewrite He. split; [by apply str_body_plain|].
      rewrite (runes_chunk r) by done. rewrite unq_raw.
      * by rewrite (proj2 (Z.eqb_neq r rune_error)) by (unfold rune_error; lia).
      * intros ->. done.
  - assert (Hraw : str_body (b +:+ t) = ('(b', x) ← str_body t; Some (b +:+ b', x)) /\
      unq (runes (b +:+ t)) =
        String.append (if r =? rune_error then encode_rune rune_error else b) <$> unq (runes t)).
    { split.
      - apply str_body_plain. eapply all_bytes_impl; [|done]. intros c Hcc. cbv beta in Hcc. unfold plain.
        bool_to_prop. rewrite !(proj2 (Z.eqb_neq (code c) _)) by lia.
        by rewrite (proj2 (Z.leb_le _ _)) by lia.
      - rewrite (runes_chunk r) by done. apply unq_raw. lia. }
    assert (Hesc : forall u, esc_ok u r = true -> r <> rune_error -> 
      str_body (u +:+ t) = ('(b', x) ← str_body t; Some (u +:+ b', x)) /\
      unq (runes (u +:+ t)) =
        String.append (if r =? rune_error then encode_rune rune_error else b) <$> unq (runes t)).
    { intros u Hu Hne. rewrite (proj2 (Z.eqb_neq _ _)) by done. rewrite <- Henc. by apply esc_ok_sound. }
    destruct (r =? rune_error) eqn:Er; bool_to_prop.
    + subst r b. apply Hraw.
    + unfold esc_rune. rewrite (proj2 (Z.eqb_neq r rune_error)) by done. simpl andb. cbv iota.
      rewrite !(proj2 (Z.eqb_neq r _)) by lia. rewrite (proj2 (Z.ltb_ge r 32)) by lia. cbv iota. simpl orb.
      destruct (r =? 8232) eqn:E1; bool_to_prop; [subst r; by apply Hesc|].
      destruct (r =? 8233) eqn:E2; bool_to_prop; [subst r; by apply Hesc|]. apply Hraw.
Qed.

Lemma json_string_spec s t :
  str_body (str_concat (map esc_rune (runes s)) +:+ quote +:+ t) =
    Some (str_concat (map esc_rune (runes s)), t) /\
  unq (runes (str_concat (map esc_rune (runes s)))) = Some (to_valid s).
Proof.
  unfold to_valid. destruct (runes_spec s) as [HF _]. revert HF. generalize (runes s) as l.
  induction 1 as [|[r b] l H HF IH]; [done|]. destruct IH as [IH1 IH2].
  cbn [map str_concat fst snd] in *. rewrite <- str_app_assoc.
  destruct (esc_rune_sound r b (str_concat (map esc_rune l) +:+ quote +:+ t) H) as [-> _].
  destruct (esc_rune_sound r b (str_concat (map esc_rune l)) H) as [_ ->].
  by rewrite IH1, IH2.
Qed.
Lemma parse_json_string s t :
  parse_string (str_concat (map esc_rune (runes s)) +:+ quote +:+ t) = Some (to_valid s, t).
Proof.
  destruct (json_string_spec s t) as [Hb Hu]. unfold parse_string. rewrite Hb. simpl.
  unfold unquote. unfold unq in Hu. by rewrite Hu.
Qed.


(** ** Decoding what was encoded *)

(** The value that decoding the encoding gives: integers have become floats,
    strings valid UTF-8, and keys that coincide then keep the last entry. *)
Definition norm_members (l : list (string * option val)) : option object :=
  of_pairs <$> all_some (map (fun kv => pair (to_valid kv.1) <$> kv.2) l).
Fixpoint norm (v : val) : option val :=
  match v with
  | VNil => Some VNil
  | VBool b => Some (VBool b)
  | VInt z => VFloat <$> lit_float (int_lit z)
  | VFloat f => VFloat <$> (float_lit f ≫= lit_float)
  | VStr s => Some (VStr (to_valid s))
  | VList l => VList <$> all_some (map norm l)
  | VMap m => VMap <$> norm_members (map (fun kv => (kv.1, norm kv.2)) m)
  | VStrMap m => VMap <$> norm_members (map (fun kv => (kv.1, Some (VStr (to_valid kv.2)))) m)
  | VStrList l => VList <$> all_some (map (fun s => Some (VStr (to_valid s))) l)
  | VMapList l =>
      VList <$> all_some (map (fun m => VMap <$> norm_members (map (fun kv => (kv.1, norm kv.2)) m)) l)
  end.

(** Nesting, and the number of calls of the parser, of a value. *)
Definition max_Z (l : list Z) : Z := foldr Z.max 0 l.
Definition depth_members (m : list (string * Z)) : Z := 1 + max_Z (map snd m).
Fixpoint vdepth (v : val) : Z :=
  match v with
  | VList l => 1 + max_Z (map vdepth l)
  | VMap m => 1 + max_Z (map (fun kv => vdepth kv.2) m)
  | VStrMap _ | VStrList _ => 1
  | VMapList l => 1 + max_Z (map (fun m => 1 + max_Z (map (fun kv => vdepth kv.2) m)) l)
  | _ => 0
  end.
Definition size_all (l : list nat) : nat := S (foldr (fun n k => S (n + k)) O l).
Fixpoint vsize (v : val) : nat :=
  match v with
  | VList l => size_all (map vsize l)
  | VMap m => size_all (map (fun kv => vsize kv.2) m)
  | VStrMap m => size_all (map (fun _ => 1%nat) m)
  | VStrList l => size_all (map (fun _ => 1%nat) l)
  | VMapList l => size_all (map (fun m => size_all (map (fun kv => vsize kv.2) m)) l)
  | _ => 1
  end.

(** An encoded value: its text, what it decodes to, its nesting and size. *)
Record item := { it_text : string; it_norm : option val; it_depth : Z; it_size : nat }.

Definition head_ok (t : string) : Prop :=
  match t with String c _ => is_ws c = false /\ code c <> 93 /\ code c <> 125 | "" => False end.
Record item_ok (i : item) : Prop := {
  io_head : head_ok (it_text i);
  io_size : (0 < it_size i <= 2 * String.length (it_text i))%nat;
  io_depth : 0 <= it_depth i;
  io_parse : forall n d rest, (it_size i <= n)%nat -> d + it_depth i <= max_json_depth -> stops rest ->
    parse_val json_num oset n d (it_text i +:+ rest) = (fun v => (v, rest)) <$> it_norm i;
}.

Lemma next_byte_char c s : is_ws c = false -> next_byte (String c s) = Some (c, s).
Proof. intros H. unfold next_byte. simpl. by rewrite H. Qed.
Lemma max_Z_ge z l : z ∈ l -> z <= max_Z l.
Proof. induction l as [|a l IH]; [set_solver|]. simpl. intros [->|Hz]%elem_of_cons; [lia|]. specialize (IH Hz). lia. Qed.
Lemma max_Z_nonneg l : 0 <= max_Z l.
Proof. induction l; simpl; lia. Qed.

(** One member of an object, for any conversion of numbers and members. *)
Lemma parse_member_step num ins n d acc k tail :
  parse_members num ins (S n) d acc (json_string k +:+ ":" +:+ tail) =
  ('(v, s) ← parse_val num ins n d tail;
   '(c, s) ← next_byte s;
   if code c =? 44 then parse_members num ins n d (ins acc (to_valid k) v) s
   else if code c =? 125 then Some (ins acc (to_valid k) v, s) else None).
Proof.
  cbn [parse_members]. unfold json_string.
  rewrite <- !str_app_assoc. unfold quote at 1, str1. cbn [String.append].
  rewrite next_byte_char by done. cbn [mbind option_bind].
  replace (code (chr 34) =? 34) with true by done. rewrite parse_json_string.
  cbn [mbind option_bind String.append]. by rewrite next_byte_char by done.
Qed.

#[local] Ltac item_side :=
  first [done|by left|by right; left|by right; right|unfold size_all in *; simpl in *; lia].

Lemma all_some_cons {A} (o : option A) l : all_some (o :: l) = (a ← o; cons a <$> all_some l).
Proof. by destruct o. Qed.

Section elems.
Variable d : Z.

Lemma parse_elems_spec (its : list item) n acc rest :
  its <> [] -> Forall item_ok its -> Forall (fun i => d + it_depth i <= max_json_depth) its ->
  (size_all (map it_size its) <= S n)%nat ->
  parse_elems json_num oset n d acc (join (map it_text its) "," +:+ String (chr 93) rest) =
    (fun vs => (reverse acc ++ vs, rest)) <$> all_some (map it_norm its).
Proof.
  revert n acc. induction its as [|i its IH]; [done|]. intros n acc _ Hok Hd Hn.
  apply Forall_cons in Hok as [Hi Hok]. apply Forall_cons in Hd as [Hdi Hd].
  destruct n as [|n]; [unfold size_all in Hn; simpl in Hn; lia|].
  destruct its as [|i2 its].
  - cbn [map join parse_elems all_some]. rewrite (io_parse i Hi) by
      item_side.
    destruct (it_norm i); [|done]. cbn [fmap option_fmap option_map mbind option_bind].
    rewrite next_byte_char by done. cbn [mbind option_bind].
    replace (code (chr 93) =? 44) with false by done. by rewrite reverse_cons.
  - change (join (map it_text (i :: i2 :: its)) ",")
      with (it_text i +:+ "," +:+ join (map it_text (i2 :: its)) ",").
    rewrite <- !str_app_assoc, (map_cons it_norm), all_some_cons. cbn [parse_elems].
    rewrite (io_parse i Hi) by item_side.
    destruct (it_norm i) as [v|]; [|done].
    cbn [fmap option_fmap option_map mbind option_bind].
    change ("," +:+ ?s) with (String "," s). rewrite next_byte_char by done.
    cbn [mbind option_bind]. replace (code "," =? 44) with true by done.
    rewrite IH; [|done|done|done|item_side].
    destruct (all_some (map it_norm (i2 :: its))) as [vs|]; [|done].
    simpl. by rewrite reverse_cons, <- app_assoc.
Qed.

Definition key_text (ki : string * item) : string := json_string ki.1 +:+ ":" +:+ it_text ki.2.

Lemma parse_members_spec (kis : list (string * item)) n acc rest :
  kis <> [] -> Forall (fun ki => item_ok ki.2) kis ->
  Forall (fun ki => d + it_depth ki.2 <= max_json_depth) kis ->
  (size_all (map (fun ki => it_size ki.2) kis) <= S n)%nat ->
  parse_members json_num oset n d acc (join (map key_text kis) "," +:+ String (chr 125) rest) =
    (fun kvs => (foldl (fun m kv => oset m kv.1 kv.2) acc kvs, rest)) <$>
      all_some (map (fun ki => pair (to_valid ki.1) <$> it_norm ki.2) kis).
Proof.
  revert n acc. induction kis as [|[k i] kis IH]; [done|]. intros n acc _ Hok Hd Hn.
  apply Forall_cons in Hok as [Hi Hok]. apply Forall_cons in Hd as [Hdi Hd]. cbn [snd] in *.
  destruct n as [|n]; [unfold size_all in Hn; simpl in Hn; lia|].
  assert (Hhead : forall tail,
    parse_members json_num oset (S n) d acc (key_text (k, i) +:+ tail) =
    ('(v, s) ← parse_val json_num oset n d (it_text i +:+ tail);
     '(c, s) ← next_byte s;
     if code c =? 44 then parse_members json_num oset n d (oset acc (to_valid k) v) s
     else if code c =? 125 then Some (oset acc (to_valid k) v, s) else None)).
  { intros tail. unfold key_text. cbn [fst snd]. rewrite <- !str_app_assoc. apply parse_member_step. }
  destruct kis as [|[k2 i2] kis].
  - cbn [map join all_some]. rewrite Hhead. rewrite (io_parse i Hi) by
      item_side.
    cbn [fst snd]. destruct (it_norm i); [|done]. cbn [fmap option_fmap option_map mbind option_bind].
    by rewrite next_byte_char by done.
  - change (join (map key_text ((k, i) :: (k2, i2) :: kis)) ",")
      with (key_text (k, i) +:+ "," +:+ join (map key_text ((k2, i2) :: kis)) ",").
    rewrite <- !str_app_assoc, Hhead, (map_cons (fun ki => pair (to_valid ki.1) <$> it_norm ki.2)), all_some_cons.
    rewrite (io_parse i Hi) by item_side. cbn [fst snd].
    destruct (it_norm i) as [v|]; [|done].
    cbn [fmap option_fmap option_map mbind option_bind].
    change ("," +:+ ?s) with (String "," s). rewrite next_byte_char by done.
    cbn [mbind option_bind]. replace (code "," =? 44) with true by done.
    rewrite IH; [|done|done|done|item_side].
    by destruct (all_some (map _ ((k2, i2) :: kis))).
Qed.
End elems.

Lemma join_length_ge (l : list string) (k : list nat) :
  Forall2 (fun t n => n <= 2 * String.length t)%nat l k ->
  (size_all k <= 2 * (String.length (join l ",") + 2))%nat.
Proof.
  unfold size_all. intros HF. destruct HF as [|t n l k Ht HF]; [simpl; lia|].
  assert (G : (foldr (fun n k => S (n + k)) 0 (n :: k) <= 2 * String.length (join (t :: l) ",") + 1)%nat).
  { revert t n Ht. induction HF as [|t2 n2 l k Ht2 HF IH]; intros t n Ht; [simpl; lia|].
    specialize (IH t2 n2 Ht2). change (join (t :: t2 :: l) ",") with (t +:+ "," +:+ join (t2 :: l) ",").
    rewrite !str_app_length. change (String.length ",") with 1%nat. simpl foldr in *. lia. }
  lia.
Qed.

Definition list_item (its : list item) : item :=
  {| it_text := "[" +:+ join (map it_text its) "," +:+ "]";
     it_norm := VList <$> all_some (map it_norm its);
     it_depth := 1 + max_Z (map it_depth its);
     it_size := size_all (map it_size its) |}.
Definition map_item (kis : list (string * item)) : item :=
  {| it_text := "{" +:+ join (map key_text kis) "," +:+ "}";
     it_norm := VMap <$> norm_members (map (fun ki => (ki.1, it_norm ki.2)) kis);
     it_depth := 1 + max_Z (map (fun ki => it_depth ki.2) kis);
     it_size := size_all (map (fun ki => it_size ki.2) kis) |}.

Lemma sizes_text (its : list item) : Forall item_ok its ->
  Forall2 (fun t n => n <= 2 * String.length t)%nat (map it_text its) (map it_size its).
Proof. induction 1 as [|i its Hi HF IH]; simpl; constructor; [apply Hi|done]. Qed.
Lemma sizes_key_text (kis : list (string * item)) : Forall (fun ki => item_ok ki.2) kis ->
  Forall2 (fun t n => n <= 2 * String.length t)%nat (map key_text kis) (map (fun ki => it_size ki.2) kis).
Proof.
  induction 1 as [|[k i] kis Hi HF IH]; simpl; constructor; [|done].
  unfold key_text. simpl. rewrite !str_app_length. pose proof (io_size _ Hi). simpl in *. lia.
Qed.
Lemma depths_below {A} (f : A -> Z) d (l : list A) : d + 1 + max_Z (map f l) <= max_json_depth ->
  Forall (fun a => d + 1 + f a <= max_json_depth) l.
Proof.
  intros Hd. apply Forall_forall. intros a Ha.
  assert (f a <= max_Z (map f l)); [|lia]. apply max_Z_ge, list_elem_of_fmap. eauto.
Qed.

Lemma head_text its : its <> [] -> Forall item_ok its -> forall s, exists c t,
  join (map it_text its) "," +:+ s = String c t /\ is_ws c = false /\ code c <> 93 /\ code c <> 125.
Proof.
  intros Hne Hok s. destruct Hok as [|i its [Hh _ _ _] _]; [done|].
  destruct (it_text i) as [|c t] eqn:E; simpl in Hh; [done|].
  destruct its as [|i2 its]; simpl; rewrite E; simpl; eauto.
Qed.

Lemma list_item_ok its : Forall item_ok its -> item_ok (list_item its).
Proof.
  intros Hok. split; cbn [list_item it_text it_norm it_depth it_size].
  - done.
  - pose proof (join_length_ge _ _ (sizes_text its Hok)).
    rewrite !str_app_length. change (String.length "[") with 1%nat. change (String.length "]") with 1%nat.
    unfold size_all in *. lia.
  - pose proof (max_Z_nonneg (map it_depth its)). lia.
  - intros n d rest Hn Hd _. pose proof (max_Z_nonneg (map it_depth its)).
    destruct n as [|n]; [unfold size_all in *; lia|].
    rewrite <- !str_app_assoc. change ("[" +:+ ?s) with (String (chr 91) s). cbn [parse_val].
    change (skip_ws (String (chr 91) ?s)) with (String (chr 91) s).
    rewrite next_byte_char by done. cbn [mbind option_bind].
    replace (code (chr 91) =? 123) with false by done. replace (code (chr 91) =? 91) with true by done.
    rewrite (proj2 (Z.ltb_lt _ _)) by lia.
    change ("]" +:+ rest) with (String (chr 93) rest).
    destruct (decide (its = [])) as [->|Hne]; [done|].
    destruct (head_text its Hne Hok (String (chr 93) rest)) as (c & t & E & Hw & H93 & _).
    rewrite E, next_byte_char by done. cbn [mbind option_bind].
    rewrite (proj2 (Z.eqb_neq (code c) 93)) by done. rewrite <- E.
    rewrite parse_elems_spec; [|done|done| |done].
    + by destruct (all_some (map it_norm its)).
    + apply depths_below. lia.
Qed.

Lemma map_item_ok kis : Forall (fun ki => item_ok ki.2) kis -> item_ok (map_item kis).
Proof.
  intros Hok. split; cbn [map_item it_text it_norm it_depth it_size].
  - done.
  - pose proof (join_length_ge _ _ (sizes_key_text kis Hok)).
    rewrite !str_app_length. change (String.length "{") with 1%nat. change (String.length "}") with 1%nat.
    unfold size_all in *. lia.
  - pose proof (max_Z_nonneg (map (fun ki => it_depth ki.2) kis)). lia.
  - intros n d rest Hn Hd _. pose proof (max_Z_nonneg (map (fun ki => it_depth ki.2) kis)).
    destruct n as [|n]; [unfold size_all in *; lia|].
    rewrite <- !str_app_assoc. change ("{" +:+ ?s) with (String (chr 123) s). cbn [parse_val].
    change (skip_ws (String (chr 123) ?s)) with (String (chr 123) s).
    rewrite next_byte_char by done. cbn [mbind option_bind].
    replace (code (chr 123) =? 123) with true by done.
    rewrite (proj2 (Z.ltb_lt _ _)) by lia.
    change ("}" +:+ rest) with (String (chr 125) rest).
    destruct (decide (kis = [])) as [->|Hne]; [done|].
    assert (exists t, join (map key_text kis) "," +:+ String (chr 125) rest = String (chr 34) t) as [t E].
    { destruct kis as [|[k i] [|ki2 kis]]; [done| |]; simpl; eauto. }
    rewrite E, next_byte_char by done. cbn [mbind option_bind].
    replace (code (chr 34) =? 125) with false by done. rewrite <- E.
    rewrite parse_members_spec; [|done|done| |done].
    + unfold norm_members. rewrite map_map. cbn [fst snd].
      by destruct (all_some (map (fun ki => pair (to_valid ki.1) <$> it_norm ki.2) kis)).
    + apply (depths_below (fun ki => it_depth ki.2)). lia.
Qed.

Definition leaf (t : string) (v : option val) : item :=
  {| it_text := t; it_norm := v; it_depth := 0; it_size := 1 |}.

Lemma parse_val_string num ins n d s rest :
  parse_val num ins (S n) d (json_string s +:+ rest) = Some (VStr (to_valid s), rest).
Proof.
  unfold json_string. rewrite <- !str_app_assoc.
  change (quote +:+ ?s) with (String (chr 34) s). cbn [parse_val].
  change (skip_ws (String (chr 34) ?s)) with (String (chr 34) s).
  rewrite next_byte_char by done. cbn [mbind option_bind].
  replace (code (chr 34) =? 123) with false by done. replace (code (chr 34) =? 91) with false by done.
  replace (code (chr 34) =? 34) with true by done.
  change (String (chr 34) rest) with (quote +:+ rest). by rewrite parse_json_string.
Qed.
Lemma leaf_string s : item_ok (leaf (json_string s) (Some (VStr (to_valid s)))).
Proof.
  split; cbn [leaf it_text it_norm it_depth it_size]; [done|simpl; lia|lia|].
  intros [|n] d rest Hn _ _; [lia|]. by rewrite parse_val_string.
Qed.

Lemma number_head l : wf_lit l -> exists c t, print_lit l = String c t /\
  (code c = 45 \/ is_digit c = true).
Proof.
  intros [Hd Hne _ _]. unfold print_lit. destruct (ln_neg l); simpl; [eauto|].
  destruct (ln_int l) as [|c t]; [done|]. simpl in *. bool_to_prop. eauto.
Qed.

Lemma number_first c : code c = 45 \/ is_digit c = true -> 45 <= code c <= 57.
Proof. unfold is_digit. intros [?|?]; bool_to_prop; lia. Qed.
Lemma number_not_ws c : 45 <= code c <= 57 -> is_ws c = false.
Proof. intros. unfold is_ws. by rewrite !(proj2 (Z.eqb_neq (code c) _)) by lia. Qed.
Lemma parse_val_number num ins n d l rest : wf_lit l -> stops rest ->
  parse_val num ins (S n) d (print_lit l +:+ rest) = (v ← num l; Some (v, rest)).
Proof.
  intros Hl Hs. destruct (number_head l Hl) as (c & t & E & Hc%number_first).
  assert (Hp : forall k ks r, code k <> code c -> has_prefix (String c r) (String k ks) = false).
  { intros k ks r Hk. rewrite has_prefix_cons, eqb_code. by rewrite (proj2 (Z.eqb_neq _ _)). }
  rewrite E. cbn [String.append parse_val skip_ws]. rewrite number_not_ws by done.
  rewrite next_byte_char by (by apply number_not_ws). cbn [mbind option_bind].
  rewrite !(proj2 (Z.eqb_neq (code c) _)) by lia.
  rewrite !Hp by (intros Hk; rewrite <- Hk in Hc; revert Hc; vm_compute; intuition congruence).
  change (String c (t +:+ rest)) with (String c t +:+ rest). rewrite <- E.
  by rewrite lex_print.
Qed.
Lemma leaf_number l : wf_lit l -> item_ok (leaf (print_lit l) (VFloat <$> lit_float l)).
Proof.
  intros Hl. destruct (number_head l Hl) as (c & t & E & Hc%number_first).
  split; cbn [leaf it_text it_norm it_depth it_size].
  - rewrite E. simpl. split; [by apply number_not_ws|lia].
  - rewrite E. simpl. lia.
  - done.
  - intros [|n] d rest Hn _ Hs; [lia|]. rewrite parse_val_number by done. unfold json_num.
    by destruct (lit_float l).
Qed.

Lemma leaf_null : item_ok (leaf "null" (Some VNil)).
Proof.
  split; cbn [leaf it_text it_norm it_depth it_size]; [done|simpl; lia|lia|].
  intros [|n] d rest Hn _ _; [lia|]. simpl. by destruct rest.
Qed.
Lemma leaf_bool (b : bool) : item_ok (leaf (if b then "true" else "false") (Some (VBool b))).
Proof.
  split; cbn [leaf it_text it_norm it_depth it_size]; [by destruct b|destruct b; simpl; lia|lia|].
  intros [|n] d rest Hn _ _; [lia|]. destruct b; simpl; by destruct rest.
Qed.

Lemma items_of {A} (m : A -> option string) (g : A -> option val) (dp : A -> Z) (sz : A -> nat) (l : list A) ts :
  Forall (fun a => forall t, m a = Some t ->
    item_ok {| it_text := t; it_norm := g a; it_depth := dp a; it_size := sz a |}) l ->
  all_some (map m l) = Some ts ->
  exists its, Forall item_ok its /\ map it_text its = ts /\ map it_norm its = map g l /\
    map it_depth its = map dp l /\ map it_size its = map sz l.
Proof.
  intros HF. revert ts. induction HF as [|a l Ha HF IH]; intros ts Hts; simpl in Hts.
  { simplify_eq. by exists []. }
  destruct (m a) as [t|] eqn:Em; [|done]. destruct (all_some (map m l)) as [ts'|]; [|done].
  simplify_eq/=. destruct (IH ts' eq_refl) as (its & Hok & Ht & Hn & Hd & Hs).
  exists ({| it_text := t; it_norm := g a; it_depth := dp a; it_size := sz a |} :: its).
  simpl. rewrite Ht, Hn, Hd, Hs. split; [constructor; auto|done].
Qed.

Definition val_ok (v : val) : Prop := forall t, json_marshal v = Some t ->
  item_ok {| it_text := t; it_norm := norm v; it_depth := vdepth v; it_size := vsize v |}.

Lemma members_ok {A} (m : A -> option string) (g : A -> option val) (dp : A -> Z) (sz : A -> nat)
    (l : list (string * A)) t :
  Forall (fun ka => forall t, m ka.2 = Some t ->
    item_ok {| it_text := t; it_norm := g ka.2; it_depth := dp ka.2; it_size := sz ka.2 |}) l ->
  json_object (map (fun ka => (ka.1, m ka.2)) l) = Some t ->
  item_ok {| it_text := t; it_norm := VMap <$> norm_members (map (fun ka => (ka.1, g ka.2)) l);
             it_depth := 1 + max_Z (map (fun ka => dp ka.2) l);
             it_size := size_all (map (fun ka => sz ka.2) l) |}.
Proof.
  intros HF. unfold json_object. rewrite map_map. unfold json_member. cbn [fst snd].
  destruct (all_some _) as [ts|] eqn:E; [|done]. cbn [fmap option_fmap option_map]. intros [= <-].
  assert (exists kis, Forall (fun ki => item_ok ki.2) kis /\ map key_text kis = ts /\
    map (fun ki => (ki.1, it_norm ki.2)) kis = map (fun ka => (ka.1, g ka.2)) l /\
    map (fun ki => it_depth ki.2) kis = map (fun ka => dp ka.2) l /\
    map (fun ki => it_size ki.2) kis = map (fun ka => sz ka.2) l) as (kis & Hok & Ht & Hn & Hd & Hs).
  { revert ts E. induction HF as [|[k a] l Ha HF IH]; intros ts E; simpl in E.
    { simplify_eq. by exists []. }
    simpl in Ha. destruct (m a) as [t|] eqn:Em; [|done]. simpl in E.
    destruct (all_some (map _ l)) as [ts'|] eqn:E'; [|done]. simplify_eq/=.
    destruct (IH ts' eq_refl) as (kis & Hok & Ht & Hn & Hd & Hs).
    exists ((k, {| it_text := t; it_norm := g a; it_depth := dp a; it_size := sz a |}) :: kis).
    simpl. rewrite Ht, Hn, Hd, Hs. split; [apply Forall_cons; split; [by apply Ha|done]|done]. }
  rewrite <- Ht, <- Hn, <- Hd, <- Hs. by apply (map_item_ok kis).
Qed.
Lemma elems_ok {A} (m : A -> option string) (g : A -> option val) (dp : A -> Z) (sz : A -> nat) (l : list A) t :
  Forall (fun a => forall t, m a = Some t ->
    item_ok {| it_text := t; it_norm := g a; it_depth := dp a; it_size := sz a |}) l ->
  json_array (map m l) = Some t ->
  item_ok {| it_text := t; it_norm := VList <$> all_some (map g l);
             it_depth := 1 + max_Z (map dp l); it_size := size_all (map sz l) |}.
Proof.
  intros HF. unfold json_array. destruct (all_some _) as [ts|] eqn:E; [|done].
  cbn [fmap option_fmap option_map]. intros [= <-].
  destruct (items_of m g dp sz l ts HF E) as (its & Hok & Ht & Hn & Hd & Hs).
  rewrite <- Ht, <- Hn, <- Hd, <- Hs. by apply (list_item_ok its).
Qed.

Lemma max_Z_zero {A} (l : list A) : max_Z (map (fun _ => 0) l) = 0.
Proof. induction l; simpl; lia. Qed.
Lemma Forall_all {A} (P : A -> Prop) l : (forall a, P a) -> Forall P l.
Proof. intros. apply Forall_forall. auto. Qed.

Lemma val_ok_all v : val_ok v.
Proof.
  induction v as [|b|z|f|s|l IH|m IH|m|l|l IH] using val_ind'; intros t; cbn [json_marshal norm vdepth vsize].
  - intros [= <-]. apply leaf_null.
  - intros [= <-]. apply leaf_bool.
  - intros [= <-]. apply (leaf_number (int_lit z)), int_lit_wf.
  - destruct (float_lit f) as [l|] eqn:E; [|done]. intros [= <-].
    by apply (leaf_number l), (float_lit_wf f).
  - intros [= <-]. apply (leaf_string s).
  - by apply (elems_ok json_marshal norm vdepth vsize).
  - by apply (members_ok json_marshal norm vdepth vsize).
  - rewrite <- (Z.add_0_r 1), <- (max_Z_zero m).
    apply (members_ok (fun s => Some (json_string s)) (fun s => Some (VStr (to_valid s))) (fun _ => 0) (fun _ => 1%nat)).
    apply Forall_all. intros [k s] t' [= <-]. apply (leaf_string s).
  - rewrite <- (Z.add_0_r 1), <- (max_Z_zero l).
    apply (elems_ok (fun s => Some (json_string s)) (fun s => Some (VStr (to_valid s))) (fun _ => 0) (fun _ => 1%nat)).
    apply Forall_all. intros s t' [= <-]. apply (leaf_string s).
  - apply (elems_ok (fun m => json_object (map (fun kv => (kv.1, json_marshal kv.2)) m))
      (fun m => VMap <$> norm_members (map (fun kv => (kv.1, norm kv.2)) m))
      (fun m => 1 + max_Z (map (fun kv => vdepth kv.2) m)) (fun m => size_all (map (fun kv => vsize kv.2) m))).
    eapply Forall_impl; [exact IH|]. intros m Hm t'.
    by apply (members_ok json_marshal norm vdepth vsize).
Qed.

(** [json.Unmarshal] of the output of [json.Marshal]: within the nesting limit
    it is the normal form of the value, whatever the value. *)
Lemma parse_marshal v t :
  vdepth v <= max_json_depth -> json_marshal v = Some t -> json_parse t = norm v.
Proof.
  intros Hd Ht. destruct (val_ok_all v t Ht) as [_ Hs _ Hp]. cbn [it_text it_norm it_depth it_size] in *.
  specialize (Hp (2 * String.length t + 1)%nat 0 ""). rewrite str_app_nil in Hp.
  unfold json_parse. rewrite Hp; [|lia|lia|done]. by destruct (norm v).
Qed.

(** ** [cloneObject] *)
Fixpoint floats_ok (v : val) : bool :=
  match v with
  | VFloat f => match float_lit f ≫= lit_float with Some g => sf_eqb g f | None => false end
  | VList l => forallb floats_ok l
  | VMap m => forallb (fun kv => floats_ok kv.2) m
  | VMapList l => forallb (forallb (fun kv => floats_ok kv.2)) l
  | _ => true
  end.

Lemma sf_eqb_eq a b : sf_eqb a b = true -> a = b.
Proof.
  destruct a as [s| | |s m e], b as [s'| | |s' m' e']; simpl; intros; bool_to_prop; try done;
    repeat match goal with
    | H : Bool.eqb _ _ = true |- _ => apply Bool.eqb_prop in H as ->
    | H : (_ =? _)%positive = true |- _ => apply Pos.eqb_eq in H as ->
    end; by subst.
Qed.

Lemma all_some_Some {A} (l : list (option A)) l' : all_some l = Some l' <-> l = map Some l'.
Proof.
  revert l'. induction l as [|[a|] l IH]; intros [|a' l']; simpl; try done.
  - destruct (all_some l); simpl; done.
  - destruct (all_some l) as [l2|] eqn:E; simpl; split; intros; simplify_eq.
    + by rewrite (proj1 (IH l' ) eq_refl).
    + f_equal. destruct (IH l') as [_ H2]. specialize (H2 eq_refl). congruence.
    + destruct (IH l') as [_ H2]. by specialize (H2 eq_refl).
Qed.
Lemma all_some_map {A B} (f : A -> option B) l l' : all_some (map f l) = Some l' <->
  Forall2 (fun a b => f a = Some b) l l'.
Proof.
  rewrite all_some_Some. revert l'. induction l as [|a l IH]; intros [|b l']; simpl.
  - split; [by constructor|done].
  - split; [done|intros H; inversion H].
  - split; [done|intros H; inversion H].
  - split.
    + intros [= Ha Hl]. constructor; [done|]. by apply IH.
    + intros H. inversion H; subst. f_equal; [done|]. by apply IH.
Qed.
Lemma all_some_None {A B C} (f : A -> option B) (g : A -> option C) l :
  (forall a, a ∈ l -> f a = None -> g a = None) -> all_some (map f l) = None -> all_some (map g l) = None.
Proof.
  induction l as [|a l IH]; intros Hfg; simpl; [done|].
  destruct (f a) eqn:Ef.
  - destruct (all_some (map f l)); [done|]. intros _. rewrite IH; [by destruct (g a)| |done].
    intros a2 Ha2. apply Hfg. set_solver.
  - intros _. rewrite Hfg; [done|set_solver|done].
Qed.

Lemma elem_of_pairs {A} (l : list (string * A)) kv : kv ∈ of_pairs l -> kv ∈ l.
Proof.
  unfold of_pairs. assert (G : forall acc, kv ∈ foldl (fun m kv => oset m kv.1 kv.2) acc l -> kv ∈ acc \/ kv ∈ l).
  { induction l as [|[k a] l IH]; intros acc; simpl; [set_solver|].
    intros [Hi|Hi]%IH; [|set_solver]. apply oset_lookup_elem in Hi. set_solver. }
  intros [?%not_elem_of_nil|?]%G; done.
Qed.

Lemma norm_members_Some {A} (f : A -> option val) (l : list (string * A)) m :
  norm_members (map (fun kv => (kv.1, f kv.2)) l) = Some m ->
  omap_sorted m /\ forall kv, kv ∈ m -> exists ka, ka ∈ l /\ kv.1 = to_valid ka.1 /\ f ka.2 = Some kv.2.
Proof.
  unfold norm_members. rewrite map_map. cbn [fst snd]. destruct (all_some _) as [kvs|] eqn:E; [|done].
  cbn [fmap option_fmap option_map]. intros [= <-]. split; [apply of_pairs_sorted|].
  intros kv Hkv%elem_of_pairs. apply all_some_map in E.
  apply list_elem_of_lookup in Hkv as [i Hi]. eapply Forall2_lookup_r in E as (ka & Hka & Hf); [|done].
  destruct (f ka.2) as [v|] eqn:Ef; simplify_eq/=. exists ka. split; [|done]. by eapply list_elem_of_lookup_2.
Qed.
Lemma norm_members_id (m : object) :
  omap_sorted m -> (forall kv, kv ∈ m -> to_valid kv.1 = kv.1 /\ norm kv.2 = Some kv.2) ->
  norm_members (map (fun kv => (kv.1, norm kv.2)) m) = Some m.
Proof.
  intros Hs Hm. unfold norm_members. rewrite map_map. cbn [fst snd].
  assert (E : all_some (map (fun kv => pair (to_valid kv.1) <$> norm kv.2) m) = Some m).
  { apply all_some_map, Forall_Forall2_diag, Forall_forall. intros [k v] Hkv.
    destruct (Hm _ Hkv) as [Hk Hv]. simpl in *. by rewrite Hk, Hv. }
  rewrite E. cbn [fmap option_fmap option_map]. by rewrite of_pairs_id.
Qed.

Lemma norm_map_id (m : object) :
  omap_sorted m -> (forall kv, kv ∈ m -> to_valid kv.1 = kv.1 /\ norm kv.2 = Some kv.2) ->
  norm (VMap m) = Some (VMap m).
Proof. intros. cbn [norm]. by rewrite norm_members_id. Qed.

Lemma marshal_none_norm v : json_marshal v = None -> norm v = None.
Proof.
  assert (Hmap : forall m : object, Forall (fun kv => json_marshal kv.2 = None -> norm kv.2 = None) m ->
    json_object (map (fun kv => (kv.1, json_marshal kv.2)) m) = None ->
    VMap <$> norm_members (map (fun kv => (kv.1, norm kv.2)) m) = None).
  { intros m IH. unfold json_object, norm_members. rewrite !map_map. unfold json_member. cbn [fst snd].
    destruct (all_some _) eqn:E; [done|]. intros _.
    erewrite (all_some_None _ _ m); [done| |exact E]. intros kv Hkv.
    rewrite Forall_forall in IH. specialize (IH kv Hkv). destruct (json_marshal kv.2); [done|].
    intros _. by rewrite IH. }
  induction v as [|b|z|f|s|l IH|m IH|m|l|l IH] using val_ind'; cbn [json_marshal norm]; try done.
  - by destruct (float_lit f).
  - unfold json_array. destruct (all_some _) eqn:E; [done|]. intros _.
    erewrite (all_some_None _ _ l); [done| |exact E]. by rewrite Forall_forall in IH.
  - by apply Hmap.
  - unfold json_object. rewrite map_map. unfold json_member. cbn [fst snd fmap option_fmap option_map].
    destruct (all_some _) eqn:E; [done|]. intros _. exfalso. revert E. clear.
    induction m as [|kv m IH]; simpl; [done|]. by destruct (all_some _).
  - unfold json_array. destruct (all_some _) eqn:E; [done|]. intros _. exfalso. revert E. clear.
    induction l as [|s l IH]; simpl; [done|]. by destruct (all_some _).
  - unfold json_array. destruct (all_some _) eqn:E; [done|]. intros _.
    erewrite (all_some_None _ _ l); [done| |exact E].
    intros m Hm. apply Hmap. rewrite Forall_forall in IH. by apply IH.
Qed.

Lemma max_Z_le l z : 0 <= z -> (forall a, a ∈ l -> a <= z) -> max_Z l <= z.
Proof.
  intros Hz. induction l as [|a l IH]; intros Hl; simpl; [done|].
  assert (a <= z) by (apply Hl; set_solver). assert (max_Z l <= z) by (apply IH; intros; apply Hl; set_solver). lia.
Qed.
Lemma max_Z_map_le {A B} (f : A -> Z) (g : B -> Z) (la : list A) (lb : list B) :
  (forall b, b ∈ lb -> exists a, a ∈ la /\ g b <= f a) -> max_Z (map g lb) <= max_Z (map f la).
Proof.
  intros H. apply max_Z_le; [apply max_Z_nonneg|]. intros z (b & -> & Hb)%list_elem_of_fmap.
  destruct (H b Hb) as (a & Ha & Hle). etrans; [exact Hle|]. apply max_Z_ge, list_elem_of_fmap. eauto.
Qed.
Lemma norm_depth v v' : norm v = Some v' -> vdepth v' <= vdepth v.
Proof.
  assert (Hmap : forall (m : object) v', Forall (fun kv => forall v', norm kv.2 = Some v' -> vdepth v' <= vdepth kv.2) m ->
    VMap <$> norm_members (map (fun kv => (kv.1, norm kv.2)) m) = Some v' ->
    vdepth v' <= 1 + max_Z (map (fun kv => vdepth kv.2) m)).
  { intros m v0 IH Hn. destruct (norm_members _) as [m'|] eqn:E; [|done]. simplify_eq/=.
    apply norm_members_Some in E as [_ Hel]. apply Zplus_le_compat_l, max_Z_map_le. intros kv Hkv.
    destruct (Hel _ Hkv) as (ka & Hin & _ & Hw). exists ka. split; [done|].
    rewrite Forall_forall in IH. by apply (IH _ Hin). }
  assert (Hlist : forall {A} (f : A -> option val) (g : A -> Z) (l : list A) v',
    Forall (fun a => forall v', f a = Some v' -> vdepth v' <= g a) l ->
    VList <$> all_some (map f l) = Some v' -> vdepth v' <= 1 + max_Z (map g l)).
  { intros A f g l v0 IH Hn. destruct (all_some _) as [l'|] eqn:E; [|done]. simplify_eq/=.
    apply all_some_map in E. apply Zplus_le_compat_l, max_Z_map_le. intros w Hw.
    apply list_elem_of_lookup in Hw as [i Hi]. eapply Forall2_lookup_r in E as (w0 & Hw0 & Hww); [|done].
    apply list_elem_of_lookup_2 in Hw0. exists w0. split; [done|].
    rewrite Forall_forall in IH. by apply (IH _ Hw0). }
  revert v'. induction v as [|b|z|f|s|l IH|m IH|m|l|l IH] using val_ind'; intros v' Hn; cbn [norm vdepth] in *.
  - by simplify_eq.
  - by simplify_eq.
  - by destruct (lit_float _); simplify_eq/=.
  - by destruct (float_lit f ≫= lit_float); simplify_eq/=.
  - by simplify_eq.
  - by eapply Hlist.
  - by eapply Hmap.
  - destruct (norm_members _) as [m'|] eqn:E; simplify_eq/=.
    apply (norm_members_Some (fun s => Some (VStr (to_valid s)))) in E as [_ Hel].
    assert (max_Z (map (fun kv : string * val => vdepth kv.2) m') <= 0); [|lia].
    apply max_Z_le; [done|]. intros z (kv & -> & Hkv)%list_elem_of_fmap.
    destruct (Hel _ Hkv) as (ka & _ & _ & [= <-]). done.
  - rewrite <- (Z.add_0_r 1), <- (max_Z_zero l). eapply Hlist; [|exact Hn].
    apply Forall_all. intros s v0 [= <-]. done.
  - eapply Hlist; [|exact Hn]. eapply Forall_impl; [exact IH|]. intros m Hm v0. by apply Hmap.
Qed.

Definition norm_object (o : object) : object :=
  match norm (VMap o) with Some (VMap m) => m | _ => [] end.

Lemma norm_map_shape o v : norm (VMap o) = Some v -> exists m, v = VMap m.
Proof. cbn [norm]. destruct (norm_members _); simpl; intros; simplify_eq. eauto. Qed.

(** [cloneObject] in closed form. *)
Lemma clone_norm o : vdepth (VMap o) <= max_json_depth -> cloneObject o = norm_object o.
Proof.
  intros Hd. unfold cloneObject, norm_object.
  destruct (json_marshal (VMap o)) as [t|] eqn:Et; [|by rewrite (marshal_none_norm _ Et)].
  unfold json_unmarshal. rewrite (parse_marshal _ _ Hd Et).
  destruct (norm (VMap o)) as [v|] eqn:E; [|done]. by destruct (norm_map_shape _ _ E) as [m ->].
Qed.

(** A value that decoding can have produced: only the types of the decoder,
    maps sorted, strings valid UTF-8, floats that print and read back. *)
Fixpoint normal_val (v : val) : bool :=
  match v with
  | VNil | VBool _ => true
  | VFloat _ => floats_ok v
  | VStr s => String.eqb (to_valid s) s
  | VList l => forallb normal_val l
  | VMap m => bool_decide (omap_sorted m) && forallb (fun kv => String.eqb (to_valid kv.1) kv.1 && normal_val kv.2) m
  | _ => false
  end.
Lemma forallb_elem {A} (p : A -> bool) l : forallb p l = true <-> forall a, a ∈ l -> p a = true.
Proof. rewrite forallb_forall. split; intros Hp a Ha; apply Hp; by apply list_elem_of_In. Qed.

Lemma normal_map (m : object) : normal_val (VMap m) = true <->
  omap_sorted m /\ forall kv, kv ∈ m -> to_valid kv.1 = kv.1 /\ normal_val kv.2 = true.
Proof.
  cbn [normal_val]. rewrite andb_true_iff, bool_decide_eq_true, forallb_elem.
  split; intros [Hs Hm]; (split; [done|]); intros kv Hkv; specialize (Hm kv Hkv).
  - apply andb_true_iff in Hm as [Hm ?]. by apply String.eqb_eq in Hm.
  - apply andb_true_iff. by rewrite String.eqb_eq.
Qed.
Lemma normal_val_norm v : normal_val v = true -> norm v = Some v.
Proof.
  induction v as [|b|z|f|s|l IH|m IH|m|l|l IH] using val_ind'; intros Hn; try done.
  - cbn [normal_val floats_ok] in Hn. cbn [norm]. destruct (float_lit f ≫= lit_float) as [g|]; [|done].
    by apply sf_eqb_eq in Hn as ->.
  - cbn [normal_val norm] in *. apply String.eqb_eq in Hn. by rewrite Hn.
  - cbn [normal_val norm] in *. rewrite forallb_elem in Hn. rewrite Forall_forall in IH.
    assert (all_some (map norm l) = Some l) as ->; [|done].
    apply all_some_map, Forall_Forall2_diag, Forall_forall. auto.
  - apply normal_map in Hn as [Hs Hm]. apply norm_map_id; [done|]. rewrite Forall_forall in IH.
    intros kv Hkv. destruct (Hm kv Hkv). auto.
Qed.
Lemma norm_normal v v' : norm v = Some v' -> floats_ok v' = true -> normal_val v' = true.
Proof.
  assert (Hmap : forall (m : object) v', Forall (fun kv => forall v', norm kv.2 = Some v' -> floats_ok v' = true -> normal_val v' = true) m ->
    VMap <$> norm_members (map (fun kv => (kv.1, norm kv.2)) m) = Some v' -> floats_ok v' = true -> normal_val v' = true).
  { intros m v0 IH Hn Hf. destruct (norm_members _) as [m'|] eqn:E; [|done]. injection Hn as <-.
    apply norm_members_Some in E as [Hs Hel]. apply normal_map. split; [done|]. intros [k w] Hkv.
    destruct (Hel _ Hkv) as ([k0 w0] & Hin & Hk & Hw). cbn [fst snd] in *. subst k.
    split; [apply to_valid_idemp|]. rewrite Forall_forall in IH. apply (IH _ Hin); [done|].
    cbn [floats_ok] in Hf. rewrite forallb_elem in Hf. by apply (Hf (to_valid k0, w)). }
  assert (Hlist : forall {A} (f : A -> option val) (l : list A) v',
    Forall (fun a => forall v', f a = Some v' -> floats_ok v' = true -> normal_val v' = true) l ->
    VList <$> all_some (map f l) = Some v' -> floats_ok v' = true -> normal_val v' = true).
  { intros A f l v0 IH Hn Hf. destruct (all_some _) as [l'|] eqn:E; [|done]. injection Hn as <-.
    apply all_some_map in E. cbn [normal_val floats_ok] in *. rewrite forallb_elem in *. intros w Hw.
    pose proof (Hf w Hw) as Hfw. apply list_elem_of_lookup in Hw as [i Hi].
    eapply Forall2_lookup_r in E as (w0 & Hw0 & Hww); [|done].
    rewrite Forall_forall in IH. eapply IH; [by eapply list_elem_of_lookup_2|done|done]. }
  revert v'. induction v as [|b|z|f|s|l IH|m IH|m|l|l IH] using val_ind'; intros v' Hn Hf; cbn [norm] in Hn.
  - by injection Hn as <-.
  - by injection Hn as <-.
  - destruct (lit_float _) as [g|]; [|done]. by injection Hn as <-.
  - destruct (float_lit f ≫= lit_float) as [g|]; [|done]. by injection Hn as <-.
  - injection Hn as <-. cbn [normal_val]. apply String.eqb_eq, to_valid_idemp.
  - by eapply Hlist.
  - by eapply Hmap.
  - destruct (norm_members _) as [m'|] eqn:E; [|done]. injection Hn as <-.
    apply (norm_members_Some (fun s => Some (VStr (to_valid s)))) in E as [Hs Hel]. apply normal_map. split; [done|].
    intros [k w] Hkv. destruct (Hel _ Hkv) as ([k0 w0] & Hin & Hk & Hw). cbn [fst snd] in *.
    subst k. injection Hw as <-. split; [apply to_valid_idemp|]. cbn [normal_val]. apply String.eqb_eq, to_valid_idemp.
  - eapply Hlist; [|exact Hn|done]. apply Forall_all. intros s v0 [= <-] _. apply String.eqb_eq, to_valid_idemp.
  - eapply Hlist; [|exact Hn|done]. eapply Forall_impl; [exact IH|]. intros m Hm v0. by apply Hmap.
Qed.

Definition normal (o : object) : Prop := normal_val (VMap o) = true /\ vdepth (VMap o) <= max_json_depth.

Lemma clone_normal o : normal o -> cloneObject o = o.
Proof. intros [Hn Hd]. rewrite clone_norm by done. unfold norm_object. by rewrite normal_val_norm. Qed.
Lemma clone_result_normal o :
  vdepth (VMap o) <= max_json_depth -> floats_ok (VMap (cloneObject o)) = true -> normal (cloneObject o).
Proof.
  intros Hd. rewrite clone_norm by done. unfold norm_object.
  destruct (norm (VMap o)) as [v|] eqn:E; [|intros _; split; [done|simpl; unfold max_json_depth; lia]].
  destruct (norm_map_shape _ _ E) as [m ->]. intros Hf. split; [by apply (norm_normal (VMap o))|].
  etrans; [by apply (norm_depth _ _ E)|done].
Qed.
Lemma normal_oset o k v : normal o -> to_valid k = k -> normal_val v = true -> 1 + vdepth v <= max_json_depth ->
  normal (oset o k v).
Proof.
  intros [Hn Hd] Hk Hv Hdv. apply normal_map in Hn as [Hs Hm]. split.
  - apply normal_map. split; [by apply oset_sorted|]. intros kv [->|Hkv]%oset_lookup_elem; auto.
  - cbn [vdepth] in *. assert (max_Z (map (fun kv => vdepth kv.2) (oset o k v)) <= max_json_depth - 1); [|lia].
    apply max_Z_le; [unfold max_json_depth; lia|]. intros z (kv & -> & [->|Hkv]%oset_lookup_elem)%list_elem_of_fmap.
    + simpl. lia.
    + assert (vdepth kv.2 <= max_Z (map (fun kv => vdepth kv.2) o)); [|lia].
      apply max_Z_ge, list_elem_of_fmap. eauto.
Qed.
Lemma normal_idx o k : normal o -> normal_val (idx o k) = true /\ 1 + vdepth (idx o k) <= max_json_depth.
Proof.
  intros [Hn Hd]. unfold idx. destruct (oget o k) as [v|] eqn:E; simpl; [|unfold max_json_depth; lia].
  apply oget_elem in E. apply normal_map in Hn as [_ Hm]. split; [by apply (Hm (k, v))|]. cbn [vdepth] in Hd.
  assert (vdepth v <= max_Z (map (fun kv => vdepth kv.2) o)); [|lia].
  apply max_Z_ge, list_elem_of_fmap. by exists (k, v).
Qed.
Lemma normal_objectMap v : normal_val v = true -> vdepth v <= max_json_depth -> normal (objectMap v).
Proof. destruct v; intros; try (split; [done|simpl; unfold max_json_depth; lia]). by split. Qed.

Lemma to_valid_ascii s : all_bytes (fun c => code c <? 128) s = true -> to_valid s = s.
Proof.
  intros Hs. apply to_valid_ok. unfold utf8_valid. induction s as [|c s IH]; [done|].
  cbn [all_bytes] in Hs. bool_to_prop. rewrite runes_ascii by done. cbn [forallb fst snd].
  rewrite IH by done. rewrite (proj2 (Z.eqb_neq (code c) rune_error)) by (unfold rune_error; lia). done.
Qed.
Lemma itoa_ascii z : to_valid (itoa z) = itoa z.
Proof.
  apply to_valid_ascii. assert (Hd : forall n, 0 <= n -> all_bytes (fun c => code c <? 128) (to_base 10 n) = true).
  { intros n Hn. destruct (to_base_decimal n Hn) as [_ Hd _ _ _]. revert Hd. apply all_bytes_impl.
    unfold is_digit. intros c Hc. bool_to_prop. apply Z.ltb_lt. lia. }
  unfold itoa. destruct (z <? 0) eqn:E; bool_to_prop; [|by apply Hd].
  cbn [all_bytes]. rewrite Hd by lia. done.
Qed.

Lemma clone_sorted o : vdepth (VMap o) <= max_json_depth -> omap_sorted (cloneObject o).
Proof.
  intros Hd. rewrite clone_norm by done. unfold norm_object. cbn [norm].
  destruct (norm_members _) as [m|] eqn:E; [|done]. simpl.
  by apply (norm_members_Some norm) in E as [? _].
Qed.
