(* ===== verification/GoTime.v ===== *)
(** * Times

    What the sources use of package [time]: [Parse] with the layouts
    [RFC3339] and [RFC3339Nano], which accept the same texts, and [Format] with
    [RFC3339Nano] in UTC. A time is its seconds since the epoch and its
    nanoseconds. *)
From S2P Require Import Prelude GoStrings GoCodec Value Json.

#[local] Set Warnings "-clear-no-such-hyp,-notation-for-abbreviation".
#[local] Open Scope string_scope.
#[local] Open Scope list_scope.
#[local] Open Scope Z_scope.

(** ** The calendar *)
Definition days_from_civil (y m d : Z) : Z :=
  let y := if m <=? 2 then y - 1 else y in
  let era := y / 400 in
  let yoe := y - era * 400 in
  let mp := if 2 <? m then m - 3 else m + 9 in
  let doy := (153 * mp + 2) / 5 + d - 1 in
  let doe := yoe * 365 + yoe / 4 - yoe / 100 + doy in
  era * 146097 + doe - 719468.
Definition is_leap (y : Z) : bool := (y mod 4 =? 0) && (negb (y mod 100 =? 0) || (y mod 400 =? 0)).
Definition days_in (m y : Z) : Z :=
  if m =? 2 then (if is_leap y then 29 else 28)
  else if (m =? 4) || (m =? 6) || (m =? 9) || (m =? 11) then 30 else 31.

(** ** [Parse] *)
Definition getnum (fixed : bool) (s : string) : option (Z * string) :=
  match s with
  | String a s1 =>
      if is_digit a then
        match s1 with
        | String b s2 => if is_digit b then Some ((code a - 48) * 10 + (code b - 48), s2) else if fixed then None else Some (code a - 48, s1)
        | "" => if fixed then None else Some (code a - 48, s1)
        end
      else None
  | "" => None
  end.
Definition skip (c : ascii) (s : string) : option string :=
  match s with String a s => if Ascii.eqb a c then Some s else None | "" => None end.
Definition within (lo hi : Z) (r : option (Z * string)) : option (Z * string) :=
  '(n, s) ← r; if (lo <=? n) && (n <=? hi) then Some (n, s) else None.
Definition long_year (s : string) : option (Z * string) :=
  if slen s <? 4 then None
  else if all_bytes is_digit (str_take 4 s) then n ← digits_from 0 (str_take 4 s); Some (n, str_drop 4 s) else None.
(** The fraction that may follow the seconds; digits after the ninth are cut. *)
Definition fraction (s : string) : Z * string :=
  match s with
  | String c (String d s') =>
      if ((code c =? 46) || (code c =? 44)) && is_digit d then
        let '(digits, rest) := span is_digit (String d s') in
        let kept := str_take 9 digits in
        (default 0 (digits_from 0 kept) * 10 ^ (9 - slen kept), rest)
      else (0, s)
  | _ => (0, s)
  end.
(** The zone: its offset in seconds. *)
Definition zone_offset (s : string) : option (Z * string) :=
  match s with
  | String z s' =>
      if code z =? 90 then Some (0, s')
      else
        '(hr, s1) ← within 0 24 (getnum true s');
        s2 ← skip (chr 58) s1;
        '(mm, s3) ← within 0 60 (getnum true s2);
        let offset := (hr * 60 + mm) * 60 in
        if code z =? 43 then Some (offset, s3) else if code z =? 45 then Some (- offset, s3) else None
  | "" => None
  end.
Definition time_Parse (value : string) : option (Z * Z) :=
  '(year, s) ← long_year value;
  s ← skip (chr 45) s; '(month, s) ← within 1 12 (getnum true s);
  s ← skip (chr 45) s; '(day, s) ← getnum true s;
  s ← skip (chr 84) s; '(hour, s) ← within 0 23 (getnum false s);
  s ← skip (chr 58) s; '(minute, s) ← within 0 59 (getnum true s);
  s ← skip (chr 58) s; '(second, s) ← within 0 59 (getnum true s);
  let '(nsec, s) := fraction s in
  '(offset, s) ← zone_offset s;
  if negb (String.eqb s "") || (day <? 1) || (days_in month year <? day) then None
  else Some (days_from_civil year month day * 86400 + hour * 3600 + minute * 60 + second - offset, nsec).

(** ** [Format] *)
Definition year_text (y : Z) : string := if y <? 0 then "-" +:+ zero_pad 4 (- y) else zero_pad 4 y.
Fixpoint trim_zero_text (s : string) : string :=
  match s with
  | "" => ""
  | String a s => let t := trim_zero_text s in if String.eqb t "" && (code a =? 48) then "" else String a t
  end.
Definition rfc3339_nano (sec nsec : Z) : string :=
  let '(y, m, d) := civil_from_days (sec / 86400) in
  let t := sec mod 86400 in
  let frac := trim_zero_text (zero_pad 9 nsec) in
  year_text y +:+ "-" +:+ zero_pad 2 m +:+ "-" +:+ zero_pad 2 d +:+ "T"
    +:+ zero_pad 2 (t / 3600) +:+ ":" +:+ zero_pad 2 (t / 60 mod 60) +:+ ":" +:+ zero_pad 2 (t mod 60)
    +:+ (if String.eqb frac "" then "" else "." +:+ frac) +:+ "Z".

Example parse_examples :
  time_Parse "2026-09-24T12:51:02Z" = Some (1790254262, 0) /\ time_Parse "2026-09-24T14:51:02.25+02:00" = Some (1790254262, 250000000) /\
  time_Parse "2026-02-29T00:00:00Z" = None /\ time_Parse "1969-12-31T9:59:59,1234567891Z" = Some (-50401, 123456789) /\
  time_Parse "2026-09-24 12:51:02Z" = None /\ rfc3339_nano (-1) 120000000 = "1969-12-31T23:59:59.12Z".
Proof. vm_compute. repeat split. Qed.

(** ** Round trip *)
(** The year of the era and the day of the year. *)
Lemma yoe_bounds doe : 0 <= doe < 146097 ->
  let yoe := (doe - doe / 1460 + doe / 36524 - doe / 146096) / 365 in
  0 <= yoe < 400 /\ 0 <= doe - (365 * yoe + yoe / 4 - yoe / 100) <= 365.
Proof. intros Hd yoe. unfold yoe. dlia. Qed.
Lemma yoe_leap doe : 0 <= doe < 146097 ->
  let yoe := (doe - doe / 1460 + doe / 36524 - doe / 146096) / 365 in
  doe - (365 * yoe + yoe / 4 - yoe / 100) = 365 -> (yoe + 1) mod 4 = 0 /\ ((yoe + 1) mod 100 = 0 -> (yoe + 1) mod 400 = 0).
Proof. intros Hd yoe. unfold yoe. dlia. Qed.
(** Month and day of the day of a year that starts in March. *)
Definition month_day (doy : Z) : Z * Z :=
  let mp := (5 * doy + 2) / 153 in (if mp <? 10 then mp + 3 else mp - 9, doy - (153 * mp + 2) / 5 + 1).
Lemma month_day_ok doy : 0 <= doy <= 365 -> let '(m, d) := month_day doy in
  1 <= m <= 12 /\ 1 <= d /\ (153 * (if 2 <? m then m - 3 else m + 9) + 2) / 5 + d - 1 = doy /\
  (m <> 2 -> d <= days_in m 1) /\ (m = 2 -> d <= 29 /\ (d = 29 -> doy = 365)).
Proof.
  assert (G : forall doy, 0 <= doy < Z.of_nat 366 -> (let '(m, d) := month_day doy in
    (1 <=? m) && (m <=? 12) && (1 <=? d) && ((153 * (if 2 <? m then m - 3 else m + 9) + 2) / 5 + d - 1 =? doy) &&
    (if m =? 2 then (d <=? 28) || (d =? 29) && (doy =? 365) else d <=? days_in m 1)) = true) by by_evaluation 366%nat.
  intros Hd. specialize (G doy ltac:(lia)). destruct (month_day doy) as [m d]. bool_to_prop. destruct (Z.eqb_spec m 2) as [->|Hm].
  - apply orb_true_iff in H0 as [H0|H0]; bool_to_prop; split_and?; lia.
  - bool_to_prop. split_and?; lia.
Qed.
Lemma civil_round_trip z : let '(y, m, d) := civil_from_days z in days_from_civil y m d = z /\ 1 <= m <= 12 /\ 1 <= d <= days_in m y.
Proof.
  unfold civil_from_days. cbv zeta. set (era := (z + 719468) / 146097). set (doe := z + 719468 - era * 146097).
  assert (Hdoe : 0 <= doe < 146097) by (unfold doe, era; dlia). pose proof (yoe_bounds doe Hdoe) as [Hy Hd]. pose proof (yoe_leap doe Hdoe) as Hl.
  cbv zeta in *. set (yoe := (doe - doe / 1460 + doe / 36524 - doe / 146096) / 365) in *.
  set (doy := doe - (365 * yoe + yoe / 4 - yoe / 100)) in *. pose proof (month_day_ok doy Hd) as Hm. unfold month_day in Hm. cbv zeta in Hm.
  set (m := if (5 * doy + 2) / 153 <? 10 then (5 * doy + 2) / 153 + 3 else (5 * doy + 2) / 153 - 9) in *.
  set (d := doy - (153 * ((5 * doy + 2) / 153) + 2) / 5 + 1) in *. clearbody m d. destruct Hm as (Hm & Hd1 & Ed & Hd2 & Hd3).
  split; [|split; [done|split; [done|]]].
  - unfold days_from_civil. cbv zeta. rewrite Ed. replace (if m <=? 2 then yoe + era * 400 + (if m <=? 2 then 1 else 0) - 1 else yoe + era * 400 + (if m <=? 2 then 1 else 0))
      with (yoe + era * 400) by (destruct (m <=? 2); lia). rewrite Z.div_add, Z.div_small by lia. clearbody yoe.
    replace (yoe + era * 400 - (0 + era) * 400) with yoe by lia. unfold doy, doe. lia.
  - destruct (decide (m = 2)) as [->|Hne]; [|specialize (Hd2 Hne); unfold days_in in *; rewrite (proj2 (Z.eqb_neq m 2)) in * by done; lia].
    destruct (Hd3 eq_refl) as [Hd4 Hd5]. unfold days_in. change (2 =? 2) with true. cbv iota. change (2 <=? 2) with true. cbv iota.
    destruct (is_leap _) eqn:El; [lia|]. destruct (decide (d = 29)) as [->|]; [|lia]. exfalso. destruct (Hl (Hd5 eq_refl)) as [H4 H100].
    unfold is_leap in El. replace (yoe + era * 400 + 1) with (yoe + 1 + era * 100 * 4) in El at 1 by lia. rewrite Z.mod_add, H4 in El by lia.
    replace (yoe + era * 400 + 1) with (yoe + 1 + era * 4 * 100) in El at 1 by lia. rewrite Z.mod_add in El by lia.
    replace (yoe + era * 400 + 1) with (yoe + 1 + era * 400) in El by lia. rewrite Z.mod_add in El by lia. cbn [Z.eqb andb] in El.
    apply orb_false_iff in El as [E1 E2]. apply negb_false_iff, Z.eqb_eq in E1. apply Z.eqb_neq in E2. by apply E2, H100.
Qed.

(** *** Texts *)
Lemma two_digits n : 0 <= n < 100 -> zero_pad 2 n = String (digit_char (n / 10)) (str1 (digit_char (n mod 10))).
Proof. revert n. by_evaluation 100%nat. Qed.
Lemma getnum_pad fixed n t : 0 <= n < 100 -> getnum fixed (zero_pad 2 n +:+ t) = Some (n, t).
Proof.
  intros Hn. rewrite two_digits by done. cbn [str1 String.append getnum]. rewrite !digit_char_digit, !digit_char_code by dlia. do 2 f_equal. dlia.
Qed.
Lemma within_pad lo hi fixed n t : 0 <= n < 100 -> lo <= n <= hi -> within lo hi (getnum fixed (zero_pad 2 n +:+ t)) = Some (n, t).
Proof. intros Hn Hr. rewrite getnum_pad by done. cbn. by rewrite (proj2 (Z.leb_le lo n)), (proj2 (Z.leb_le n hi)) by lia. Qed.
Lemma zero_pad_digits w n : 0 <= n -> all_bytes is_digit (zero_pad w n) = true.
Proof.
  intros Hn. unfold zero_pad, pad_left. rewrite all_bytes_app. destruct (to_base_decimal n Hn) as [_ Hd _ _ _]. rewrite Hd, andb_true_r.
  by apply all_bytes_repeat.
Qed.
Lemma zero_pad_from w n : 0 <= n -> digits_from 0 (zero_pad w n) = Some n.
Proof. intros Hn. pose proof (zero_pad_value w n Hn) as Hv. unfold parse_digits in Hv. by destruct (zero_pad w n). Qed.
Lemma long_year_pad y t : 0 <= y <= 9999 -> long_year (zero_pad 4 y +:+ t) = Some (y, t).
Proof.
  intros Hy. destruct (zero_pad_length 4 y) as [Hl|]; [change (10 ^ Z.of_nat 4) with 10000; lia| |done].
  pose proof (str_take_app (zero_pad 4 y) t) as Ht. pose proof (str_drop_app (zero_pad 4 y) t) as Hd. rewrite Hl in Ht, Hd.
  unfold long_year. rewrite slen_app. pose proof (slen_nonneg t). assert (slen (zero_pad 4 y) = 4) by (unfold slen; lia).
  rewrite (proj2 (Z.ltb_ge _ _)) by lia. rewrite Ht, Hd, zero_pad_digits, zero_pad_from by lia. done.
Qed.
Lemma trim_zero_spec s : exists k, s = trim_zero_text s +:+ str_repeat "0" k.
Proof.
  induction s as [|a s [k IH]]; [by exists O|]. cbn [trim_zero_text]. destruct (String.eqb_spec (trim_zero_text s) "") as [E|Hne].
  - rewrite E in IH. cbn in IH. destruct (Z.eqb_spec (code a) 48) as [E0|Hc]; cbn [andb].
    + exists (S k). cbn. rewrite <- IH. f_equal. by apply code_inj.
    + exists k. rewrite E. cbn. by rewrite <- IH.
  - exists k. cbn. by rewrite <- IH.
Qed.
Lemma digits_from_zeros a k : digits_from a (str_repeat "0" k) = Some (a * 10 ^ Z.of_nat k).
Proof.
  revert a. induction k as [|k IH]; intros a; [cbn; by rewrite Z.mul_1_r|]. change (str_repeat "0" (S k)) with (String (digit_char 0) (str_repeat "0" k)).
  rewrite digits_from_digit, IH by lia. f_equal. rewrite Nat2Z.inj_succ, Z.pow_succ_r by lia. ring.
Qed.
Lemma digits_from_app a s t : all_bytes is_digit s = true -> exists n, digits_from a s = Some n /\ digits_from a (s +:+ t) = digits_from n t.
Proof.
  revert a. induction s as [|c s IH]; intros a Hs; [by exists a|]. cbn [all_bytes] in Hs. apply andb_true_iff in Hs as [Hc Hs].
  cbn [digits_from String.append]. rewrite Hc. apply IH, Hs.
Qed.
Lemma fraction_text nsec : 0 <= nsec < 10 ^ 9 ->
  let frac := trim_zero_text (zero_pad 9 nsec) in fraction ((if String.eqb frac "" then "" else "." +:+ frac) +:+ "Z") = (nsec, "Z").
Proof.
  intros Hn. cbv zeta. destruct (trim_zero_spec (zero_pad 9 nsec)) as [k E]. set (frac := trim_zero_text (zero_pad 9 nsec)) in *.
  pose proof (zero_pad_digits 9 nsec ltac:(lia)) as Hd. pose proof (zero_pad_from 9 nsec ltac:(lia)) as Hv.
  destruct (zero_pad_length 9 nsec) as [Hl|]; [change (10 ^ Z.of_nat 9) with (10 ^ 9); lia| |done].
  rewrite E in Hd, Hv, Hl. rewrite all_bytes_app in Hd. apply andb_true_iff in Hd as [Hd _].
  destruct (digits_from_app 0 frac (str_repeat "0" k) Hd) as (n & Hf & Hz). rewrite Hz, digits_from_zeros in Hv. injection Hv as Hv.
  assert (Hk : (String.length frac + k = 9)%nat).
  { rewrite str_app_length in Hl. assert (Hr : String.length (str_repeat "0" k) = k); [|lia]. clear. induction k as [|k IH]; [done|]. cbn. by rewrite IH. }
  clearbody frac. destruct (String.eqb_spec frac "") as [->|Hne].
  - injection Hf as <-. rewrite <- Hv. done.
  - destruct frac as [|c frac]; [done|]. change (("." +:+ String c frac) +:+ "Z") with (String (chr 46) (String c (frac +:+ "Z"))).
    unfold fraction. assert (Hc : is_digit c = true) by (cbn in Hd; by apply andb_true_iff in Hd as [? _]). rewrite Hc.
    change ((code (chr 46) =? 46) || (code (chr 46) =? 44)) with true. cbn [andb].
    change (String c (frac +:+ "Z")) with (String c frac +:+ "Z"). rewrite span_app by done. rewrite str_take_all by lia.
    rewrite Hf. cbn [default from_option id]. f_equal. rewrite <- Hv. f_equal. f_equal. unfold slen. lia.
Qed.
(** A formatted time parses back to itself. *)
Lemma time_round_trip sec nsec : 0 <= nsec < 10 ^ 9 -> (let '(y, _, _) := civil_from_days (sec / 86400) in 0 <= y <= 9999) ->
  time_Parse (rfc3339_nano sec nsec) = Some (sec, nsec).
Proof.
  intros Hn Hy. unfold rfc3339_nano. pose proof (civil_round_trip (sec / 86400)) as Hc. destruct (civil_from_days (sec / 86400)) as [[y m] d].
  destruct Hc as (Hdays & Hm & Hd). assert (Hd31 : d < 100) by (revert Hd; unfold days_in; repeat case_match; lia).
  cbv zeta. unfold year_text. rewrite (proj2 (Z.ltb_ge y 0)) by lia.
  pose proof (fraction_text nsec Hn) as Hf. cbv zeta in Hf.
  set (tail := (if String.eqb (trim_zero_text (zero_pad 9 nsec)) "" then "" else "." +:+ trim_zero_text (zero_pad 9 nsec)) +:+ "Z") in *. clearbody tail.
  unfold time_Parse. rewrite long_year_pad by lia. cbn [mbind option_bind].
  change (skip (chr 45) ("-" +:+ ?s)) with (Some s). cbn [mbind option_bind]. rewrite within_pad by lia. cbn [mbind option_bind].
  change (skip (chr 45) ("-" +:+ ?s)) with (Some s). cbn [mbind option_bind]. rewrite getnum_pad by lia. cbn [mbind option_bind].
  change (skip (chr 84) ("T" +:+ ?s)) with (Some s). cbn [mbind option_bind]. rewrite within_pad by dlia. cbn [mbind option_bind].
  change (skip (chr 58) (":" +:+ ?s)) with (Some s). cbn [mbind option_bind]. rewrite within_pad by dlia. cbn [mbind option_bind].
  change (skip (chr 58) (":" +:+ ?s)) with (Some s). cbn [mbind option_bind]. rewrite within_pad by dlia. cbn [mbind option_bind].
  rewrite Hf. change (zone_offset "Z") with (Some (0, "")). cbn [mbind option_bind]. rewrite String.eqb_refl. cbn [negb orb].
  rewrite (proj2 (Z.ltb_ge d 1)), (proj2 (Z.ltb_ge (days_in m y) d)) by lia. cbn [orb]. rewrite Hdays. do 2 f_equal. dlia.
Qed.
