(* ===== verification/Http.v ===== *)
(** * Parts of [net/http] and [net/url] that the sensors share

    What reading a request body gives, and the query of a URL.  These are the
    documented behaviours of Go's standard library, not code of the program. *)
From S2P Require Import Prelude GoStrings Value.

#[local] Set Warnings "-clear-no-such-hyp,-notation-for-abbreviation".
#[local] Open Scope string_scope.
#[local] Open Scope list_scope.
#[local] Open Scope Z_scope.

(** What a read of the body gives: all of it, or what came before an error. *)
Inductive body := body_all (s : string) | body_error (before : string).

(** A hexadecimal digit. *)
Definition unhex (c : ascii) : option Z :=
  if is_digit c then Some (code c - 48)
  else if in_range 97 102 c then Some (code c - 87)
  else if in_range 65 70 c then Some (code c - 55)
  else None.
(** [url.QueryUnescape]: an error on a [%] without two hexadecimal digits. *)
Fixpoint QueryUnescape (s : string) : option string :=
  match s with
  | "" => Some ""
  | String c s =>
      if code c =? 37 then
        match s with
        | String a (String b s) =>
            match unhex a, unhex b with
            | Some x, Some y => String (chr (x * 16 + y)) <$> QueryUnescape s
            | _, _ => None
            end
        | _ => None
        end
      else String (if code c =? 43 then chr 32 else c) <$> QueryUnescape s
  end.
(** One setting of a query; what does not decode is left out. *)
Definition query_setting (s : string) : list (string * string) :=
  if String.eqb s "" || any_byte (fun c => code c =? 59) s then []
  else
    let '(k, v) := default (s, "") (cut s "=") in
    match QueryUnescape k, QueryUnescape v with Some k, Some v => [(k, v)] | _, _ => [] end.
(** [url.URL.Query] and [url.Values.Get]: the first value of a name. *)
Definition parse_query (raw : string) : list (string * string) := flat_map query_setting (split (chr 38) raw).
Definition query_get (raw name : string) : string := default "" (oget (parse_query raw) name).

Example query_examples :
  query_get "all=1&name=a%2Fb+c&all=2" "all" = "1" /\ query_get "all=1&name=a%2Fb+c" "name" = "a/b c" /\
  query_get "name=%zz&name=x;y&name=z" "name" = "z" /\ query_get "force" "force" = "".
Proof. vm_compute. repeat split. Qed.
