(* ===== verification/JsonStruct.v ===== *)
(** * Decoding JSON into structs

    [encoding/json] where the target is a struct: the rules for names, repeated
    members and [null].  The document is kept as it stands and its members are
    visited in order. *)
From S2P Require Import Prelude GoStrings Value Json.

#[local] Set Warnings "-clear-no-such-hyp,-notation-for-abbreviation".
#[local] Open Scope string_scope.
#[local] Open Scope list_scope.
#[local] Open Scope Z_scope.

(** The document as it stands: every member in its place, repeated ones too,
    and no number converted. *)
Definition raw_number (l : num_lit) : option val := Some (VInt 0).
Definition raw_insert (m : object) (k : string) (v : val) : object := m ++ [(k, v)].
Definition json_raw (s : string) : option val :=
  '(v, r) ← parse_val raw_number raw_insert (2 * String.length s + 1) 0 s;
  if String.eqb (skip_ws r) "" then Some v else None.
(** The decoder matches names up to case folding.  Among the letters of the
    fields' names only [S] and [K] fold with a character outside ASCII. *)
Definition fold_rune (r : Z) : Z :=
  if (97 <=? r) && (r <=? 122) then r - 32 else if r =? 383 then 83 else if r =? 8490 then 75 else r.
Definition fold_name (s : string) : string := str_concat (map (fun rb => encode_rune (fold_rune rb.1)) (runes s)).
Definition same_name (a b : string) : bool := String.eqb (fold_name a) (fold_name b).

(** One decoder per kind of field, from the value so far: [null] leaves a
    string, a bool or a struct alone. *)
Definition decode_string (old : string) (v : val) : option string :=
  match v with VStr s => Some s | VNil => Some old | _ => None end.
Definition decode_bool (old : bool) (v : val) : option bool :=
  match v with VBool b => Some b | VNil => Some old | _ => None end.
Fixpoint fold_members {A} (f : A -> string * val -> option A) (a : A) (l : object) : option A :=
  match l with [] => Some a | kv :: l => a ← f a kv; fold_members f a l end.
Definition decode_struct {A} (f : A -> string * val -> option A) (a : A) (v : val) : option A :=
  match v with VNil => Some a | VMap l => fold_members f a l | _ => None end.
