(* ===== verification/GoFloat.v ===== *)
(** * [strconv.ParseFloat]

    Decimal and hexadecimal numbers, infinities and NaN, with the underscores
    Go allows; a value out of range is an error.  Part of Go's standard
    library. *)
From S2P Require Import Prelude GoStrings Value Json.

#[local] Set Warnings "-clear-no-such-hyp,-notation-for-abbreviation".
#[local] Open Scope string_scope.
#[local] Open Scope list_scope.
#[local] Open Scope Z_scope.

Definition lower_code (c : ascii) : Z := ascii_lower (code c).
Fixpoint lower_text (s : string) : string := match s with "" => "" | String c s => String (chr (lower_code c)) (lower_text s) end.
(** The value of a digit in base ten or sixteen. *)
Definition float_digit (hex : bool) (c : ascii) : option Z :=
  if is_digit c then Some (code c - 48)
  else if hex && (97 <=? lower_code c) && (lower_code c <=? 102) then Some (lower_code c - 87) else None.
(** [underscoreOK], after the sign and the base prefix: what was seen last is a
    digit, an underscore or something else. *)
Inductive seen := seen_digit | seen_underscore | seen_other.
Fixpoint underscores_ok (hex : bool) (last : seen) (s : string) : bool :=
  match s with
  | "" => match last with seen_underscore => false | _ => true end
  | String c s =>
      match float_digit hex c with
      | Some _ => underscores_ok hex seen_digit s
      | None =>
          if code c =? 95 then match last with seen_digit => underscores_ok hex seen_underscore s | _ => false end
          else match last with seen_underscore => false | _ => underscores_ok hex seen_other s end
      end
  end.
(** The digits of the mantissa, how many follow the point, whether there was
    one, whether there were digits, and the rest. *)
Record mantissa := { ma_value : Z; ma_fraction : Z; ma_dot : bool; ma_digits : bool; ma_rest : string }.
Fixpoint read_mantissa (hex : bool) (value fraction : Z) (dot digits : bool) (s : string) : mantissa :=
  let stop := {| ma_value := value; ma_fraction := fraction; ma_dot := dot; ma_digits := digits; ma_rest := s |} in
  match s with
  | "" => stop
  | String c s =>
      if code c =? 95 then read_mantissa hex value fraction dot digits s
      else if (code c =? 46) && negb dot then read_mantissa hex value fraction true digits s
      else match float_digit hex c with
           | Some d => read_mantissa hex ((if hex then 16 else 10) * value + d) (if dot then fraction + 1 else fraction) dot true s
           | None => stop
           end
  end.
(** The digits of an exponent, which stops growing past ten thousand. *)
Fixpoint read_exponent (e : Z) (s : string) : option Z :=
  match s with
  | "" => Some e
  | String c s =>
      if code c =? 95 then read_exponent e s
      else if is_digit c then read_exponent (if e <? 10000 then e * 10 + (code c - 48) else e) s else None
  end.
Definition exponent_of (marker : Z) (required : bool) (s : string) : option Z :=
  match s with
  | "" => if required then None else Some 0
  | String c s =>
      if lower_code c =? marker then
        let '(sign, s) := match s with
                          | String a t => if code a =? 43 then (1, t) else if code a =? 45 then (-1, t) else (1, s)
                          | "" => (1, s)
                          end in
        match s with
        | String a _ => if is_digit a then (fun e => sign * e) <$> read_exponent 0 s else None
        | "" => None
        end
      else None
  end.
(** The value of a mantissa in base sixteen; one of more bits than fit is
    rounded to even. *)
Definition float_of_hex (neg : bool) (m e : Z) : spec_float :=
  if m =? 0 then S754_zero neg
  else float_of_ratio neg (if 0 <=? e then m * 2 ^ e else m) (if 0 <=? e then 1 else 2 ^ (- e)).
Definition special_float (neg signed : bool) (s : string) : option spec_float :=
  let t := lower_text s in
  if String.eqb t "inf" || String.eqb t "infinity" then Some (S754_infinity neg)
  else if negb signed && String.eqb t "nan" then Some S754_nan else None.
Definition finite_float (f : spec_float) : option spec_float := match f with S754_infinity _ => None | f => Some f end.
Definition ParseFloat (s : string) : option spec_float :=
  let '(neg, signed, t) := match s with
    | String a t => if code a =? 43 then (false, true, t) else if code a =? 45 then (true, true, t) else (false, false, s)
    | "" => (false, false, s)
    end in
  match special_float neg signed t with
  | Some f => Some f
  | None =>
      let hex := match t with String a (String b (String _ _)) => (code a =? 48) && (lower_code b =? 120) | _ => false end in
      let body := if hex then str_drop 2 t else t in
      let m := read_mantissa hex 0 0 false false body in
      if negb (ma_digits m) || negb (underscores_ok hex (if hex then seen_digit else seen_other) body) then None
      else
        e ← exponent_of (if hex then 112 else 101) hex (ma_rest m);
        finite_float (if hex then float_of_hex neg (ma_value m) (e - 4 * ma_fraction m) else float_of_decimal neg (ma_value m) (e - ma_fraction m))
  end.

Example float_examples :
  map ParseFloat ["1"; "0.5"; ".5"; "5."; "1e-1"; "1E+2"; "0x1p-1"; "0x.8p1"; "-0"; "1_0.5"; "iNf"; "nan"] =
    map Some [float_of_int 1; float_of_decimal false 5 (-1); float_of_decimal false 5 (-1); float_of_int 5; float_of_decimal false 1 (-1); float_of_int 100;
              float_of_decimal false 5 (-1); float_of_int 1; S754_zero true; float_of_decimal false 105 (-1); S754_infinity false; S754_nan] /\
  map ParseFloat [""; "."; "1e"; "1e400"; "_1"; "1__0"; "1_"; "0x1"; "1x"; "+nan"; "0.1.2"; " 1"] = repeat None 12.
Proof. vm_compute. split; reflexivity. Qed.
