(* ===== verification/Echo.v ===== *)
(** * What the sensors use of the Echo framework

    Echo is not part of the repository: its router is an interface with the
    documented laws, and one router that obeys them is given for examples. *)
From S2P Require Import Prelude GoStrings Value Json.

#[local] Set Warnings "-clear-no-such-hyp,-notation-for-abbreviation".
#[local] Open Scope string_scope.
#[local] Open Scope list_scope.
#[local] Open Scope Z_scope.

(** ** Replies of a handler *)
Record web_reply := { wr_code : Z; wr_contentType : string; wr_body : string }.
Definition web_String (code : Z) (s : string) : web_reply := {| wr_code := code; wr_contentType := "text/plain; charset=UTF-8"; wr_body := s |}.
Definition web_HTML (code : Z) (s : string) : web_reply := {| wr_code := code; wr_contentType := "text/html; charset=UTF-8"; wr_body := s |}.
Definition web_NoContent (code : Z) : web_reply := {| wr_code := code; wr_contentType := ""; wr_body := "" |}.
(** A value that does not encode gives the error handler an error without a
    status. *)
Definition web_JSON (code : Z) (v : val) : web_reply :=
  match json_marshal v with
  | Some t => {| wr_code := code; wr_contentType := "application/json"; wr_body := t +:+ newline |}
  | None => web_NoContent 500
  end.

(** ** Routes

    A route is for one method or for any, and its pattern ends in [*] or is to
    be met exactly. *)
Definition route : Type := option string * string.
Definition is_wild (pattern : string) : bool := has_suffix pattern "*".
Definition literal (pattern : string) : string := trim_suffix pattern "*".
(** What a route takes of a request: the part of the path under its [*]. *)
Definition route_match (r : route) (method path : string) : option string :=
  if from_option (String.eqb method) true r.1 then
    if is_wild r.2 then if has_prefix path (literal r.2) then Some (trim_prefix path (literal r.2)) else None
    else if String.eqb path r.2 then Some "" else None
  else None.
(** A router finds a route that takes the request, none of the others that do
    having a longer literal part, and finds one where there is one. *)
Class EchoRouter := {
  echo_find : list route -> string -> string -> option (nat * string);
  echo_sound : forall l method path i w, echo_find l method path = Some (i, w) ->
    exists r, l !! i = Some r /\ route_match r method path = Some w /\
      forall j r' w', l !! j = Some r' -> route_match r' method path = Some w' -> slen (literal r'.2) <= slen (literal r.2);
  echo_complete : forall l method path i r w, l !! i = Some r -> route_match r method path = Some w -> echo_find l method path <> None;
}.

(** The first of the longest. *)
Fixpoint longest (n : nat) (l : list route) (method path : string) : option (nat * string * Z) :=
  match l with
  | [] => None
  | r :: l =>
      let rest := longest (S n) l method path in
      match route_match r method path with
      | None => rest
      | Some w =>
          match rest with
          | Some (j, w', k) => if slen (literal r.2) <? k then Some (j, w', k) else Some (n, w, slen (literal r.2))
          | None => Some (n, w, slen (literal r.2))
          end
      end
  end.
Lemma longest_sound l n method path i w k : longest n l method path = Some (i, w, k) ->
  exists m r, i = (n + m)%nat /\ l !! m = Some r /\ route_match r method path = Some w /\ k = slen (literal r.2) /\
    forall j r' w', l !! j = Some r' -> route_match r' method path = Some w' -> slen (literal r'.2) <= k.
Proof.
  revert n i w k. induction l as [|r l IH]; intros n i w k; [done|]. cbn [longest].
  assert (Hrest : forall i w k, longest (S n) l method path = Some (i, w, k) -> (forall w', route_match r method path = Some w' -> slen (literal r.2) <= k) ->
    exists m r0, i = (n + m)%nat /\ (r :: l) !! m = Some r0 /\ route_match r0 method path = Some w /\ k = slen (literal r0.2) /\
    forall j r' w', (r :: l) !! j = Some r' -> route_match r' method path = Some w' -> slen (literal r'.2) <= k).
  { intros i' w' k' E Hr. destruct (IH _ _ _ _ E) as (m & r0 & -> & Hm & Hw & Hk & Hmax). exists (S m), r0. split; [lia|]. split_and!; [done|done|done|].
    intros [|j] r' w'' Hj Hw'; [injection Hj as <-; by eapply Hr|by eapply Hmax]. }
  assert (Hhere : forall w', route_match r method path = Some w' ->
    (forall j r' w', l !! j = Some r' -> route_match r' method path = Some w' -> slen (literal r'.2) <= slen (literal r.2)) ->
    exists m r0, n = (n + m)%nat /\ (r :: l) !! m = Some r0 /\ route_match r0 method path = Some w' /\ slen (literal r.2) = slen (literal r0.2) /\
    forall j r' w', (r :: l) !! j = Some r' -> route_match r' method path = Some w' -> slen (literal r'.2) <= slen (literal r.2)).
  { intros w' Hw Hmax. exists O, r. split; [lia|]. split_and!; [done|done|done|]. intros [|j] r' w'' Hj Hw'; [injection Hj as <-; lia|by eapply Hmax]. }
  destruct (route_match r method path) as [w0|] eqn:Er; [|intros E; apply (Hrest _ _ _ E); discriminate].
  destruct (longest (S n) l method path) as [[[j w'] k']|] eqn:El.
  - destruct (IH _ _ _ _ El) as (_ & _ & _ & _ & _ & _ & Hmax). destruct (Z.ltb_spec (slen (literal r.2)) k'); intros [= <- <- <-].
    + apply Hrest; [done|]. intros; lia.
    + apply Hhere; [done|]. intros j0 r' w1 Hj Hw. specialize (Hmax _ _ _ Hj Hw). lia.
  - intros [= <- <- <-]. apply Hhere; [done|]. intros j r' w' Hj Hw. exfalso. clear -El Hj Hw. revert n j Hj El.
    induction l as [|a l IH]; intros n j Hj; [done|]. cbn [longest]. destruct j as [|j].
    + injection Hj as ->. rewrite Hw. by destruct (longest _ l _ _) as [[[? ?] ?]|]; [case_match|].
    + destruct (route_match a method path); [destruct (longest _ l _ _) as [[[? ?] ?]|]; [case_match|]; done|by apply (IH _ j)].
Qed.
Lemma longest_none l n method path : longest n l method path = None -> forall j r, l !! j = Some r -> route_match r method path = None.
Proof.
  revert n. induction l as [|a l IH]; intros n; [done|]. cbn [longest]. destruct (route_match a method path) eqn:E.
  - destruct (longest _ l _ _) as [[[? ?] ?]|]; [case_match|]; done.
  - intros El [|j] r Hj; [by injection Hj as <-|by eapply IH].
Qed.
Definition longest_router : EchoRouter.
Proof.
  refine {| echo_find := fun l method path => fst <$> longest 0 l method path |}.
  - intros l method path i w E. destruct (longest 0 l method path) as [[[j w'] k]|] eqn:El; [|done]. injection E as -> ->.
    destruct (longest_sound _ _ _ _ _ _ _ El) as (m & r & -> & Hm & Hw & -> & Hmax). exists r. by split_and!.
  - intros l method path i r w Hi Hw E. destruct (longest 0 l method path) as [|] eqn:El; [done|]. by rewrite (longest_none _ _ _ _ El _ _ Hi) in Hw.
Defined.

(** ** The error handler of the sensors' routers

    [HTTPErrorHandler]: nothing more where the response is committed, otherwise
    the status of the error, or 500. *)
Definition error_status (committed : bool) (status : Z) : option Z :=
  if committed then None else Some (if (status <? 400) || (599 <? status) then 500 else status).
