(* ===== verification/Names.v ===== *)
(** * Name validation

    The validators of api.go and state.go, which walk the characters of a
    name, and those of config.go, which walk its bytes, with the proof that
    they accept the same names. *)
From S2P Require Import Prelude GoStrings.

#[local] Open Scope string_scope.
#[local] Open Scope list_scope.
#[local] Open Scope Z_scope.

Definition dot : ascii := chr 46.
Definition lower_alnum (r : Z) : bool := ((97 <=? r) && (r <=? 122)) || ((48 <=? r) && (r <=? 57)).
Definition upper_alpha (r : Z) : bool := (65 <=? r) && (r <=? 90).

(** ** Package handler *)

(** The loop over the characters of a label of [n] bytes, from byte [i] on. *)
Fixpoint label_runes (n i : Z) (l : list (Z * string)) : bool :=
  match l with
  | [] => true
  | (character, b) :: l =>
      let valid := lower_alnum character in
      if negb valid && negb ((character =? 45) && (0 <? i) && (i <? n - 1)) then false
      else label_runes n (i + slen b) l
  end.
Definition valid_label (label : string) : bool :=
  if (slen label =? 0) || (63 <? slen label) then false
  else label_runes (slen label) 0 (runes label).
Definition validObjectName (value : string) : bool :=
  if String.eqb value "" || (253 <? slen value) then false
  else forallb valid_label (split dot value).
Definition validNamespaceName (value : string) : bool :=
  (slen value <=? 63) && negb (contains value ".") && validObjectName value.

Definition secret_key_rune (character : Z) : bool :=
  lower_alnum character || upper_alpha character || (character =? 45) || (character =? 95) || (character =? 46).
(** [validSecretDataKey] of state.go *)
Definition state_validSecretDataKey (key : string) : bool :=
  if String.eqb key "" || (253 <? slen key) then false
  else forallb (fun rb => secret_key_rune rb.1) (runes key).

(** ** Package config *)
Definition byte_at (s : string) (i : nat) : Z :=
  match String.get i s with Some c => code c | None => 0 end.
Definition isLowerAlphaNumeric (char : Z) : bool := lower_alnum char.

(** [for i := 1; i < len(s)-1; i++] *)
Definition inner_indexes (s : string) : list nat := seq 1 (String.length s - 2).
Definition inner_ok (s : string) : bool :=
  forallb (fun i => isLowerAlphaNumeric (byte_at s i) || (byte_at s i =? 45)) (inner_indexes s).
Definition token_label (label : string) : bool :=
  negb ((slen label =? 0) || (63 <? slen label) || negb (isLowerAlphaNumeric (byte_at label 0))
        || negb (isLowerAlphaNumeric (byte_at label (String.length label - 1))))
  && inner_ok label.
Definition validTokenName (name : string) : bool :=
  if (slen name =? 0) || (253 <? slen name) then false
  else forallb token_label (split dot name).

Definition maxNamespaceBytes : Z := 63.
Definition validDNSLabel (value : string) : bool :=
  if (slen value =? 0) || (maxNamespaceBytes <? slen value) || negb (isLowerAlphaNumeric (byte_at value 0))
     || negb (isLowerAlphaNumeric (byte_at value (String.length value - 1)))
  then false else inner_ok value.
Definition validHoneytokenType (value : string) : bool :=
  if (slen value =? 0) || (256 <? slen value) then false
  else if String.eqb value "Opaque" then true
  else if negb (count_byte (chr 47) value =? 1) then false
  else match cut value "/" with
       | Some (a, b) => validTokenName a && validDNSLabel b
       | None => false
       end.
(** [validSecretDataKey] of config.go *)
Definition config_validSecretDataKey (value : string) : bool :=
  if (slen value =? 0) || (253 <? slen value) then false
  else forallb (fun i =>
         let char := byte_at value i in
         negb (negb (isLowerAlphaNumeric char) && negb (upper_alpha char) && negb (char =? 45)
               && negb (char =? 95) && negb (char =? 46)))
         (seq 0 (String.length value)).

(** ** Characters and bytes *)
Fixpoint label_bytes (n i : Z) (s : string) : bool :=
  match s with
  | "" => true
  | String c s => (lower_alnum (code c) || ((code c =? 45) && (0 <? i) && (i <? n - 1))) && label_bytes n (i + 1) s
  end.

Lemma lower_alnum_ascii r : lower_alnum r = true -> r < 128.
Proof. unfold lower_alnum. intros [H|H]%orb_true_iff; bool_to_prop; lia. Qed.
Lemma lower_alnum_high r : 128 <= r -> lower_alnum r = false.
Proof. intros. destruct (lower_alnum r) eqn:E; [|done]. apply lower_alnum_ascii in E. lia. Qed.

(** A loop over the characters whose test refuses everything outside ASCII is
    a loop over the bytes. *)
Lemma runes_forallb (p : Z -> bool) s : (forall r, 128 <= r -> p r = false) ->
  forallb (fun rb => p rb.1) (runes s) = all_bytes (fun c => p (code c)) s.
Proof.
  intros Hp. destruct (runes_spec s) as [HF Hs]. rewrite <- Hs at 2. revert HF. generalize (runes s). clear s Hs.
  induction 1 as [|[r b] l H HF IH]; [done|]. simpl. rewrite IH, all_bytes_app. f_equal.
  cbn [fst snd] in H. destruct H as [H|[-> (a & -> & Ha)]]; simpl.
  - destruct (chunk_scalar _ _ H) as (Hs & _ & [[Hr ->]|[Hr Hb]]).
    + simpl. rewrite code_chr; [by rewrite andb_true_r|]. unfold scalar in Hs. unfold is_byte. lia.
    + rewrite Hp by done. destruct b as [|c b]; [done|]. simpl in Hb |- *. bool_to_prop. by rewrite Hp.
  - rewrite !Hp by (unfold rune_error; lia). done.
Qed.
Lemma label_runes_bytes n i s : label_runes n i (runes s) = label_bytes n i s.
Proof.
  destruct (runes_spec s) as [HF Hs]. rewrite <- Hs at 2. revert i HF. generalize (runes s). clear s Hs.
  intros l i HF. revert i. induction HF as [|[r b] l H HF IH]; intros i; [done|]. simpl. cbn [fst snd] in H.
  destruct H as [H|[-> (a & -> & Ha)]].
  - destruct (chunk_scalar _ _ H) as (Hs & _ & [[Hr ->]|[Hr Hb]]).
    + unfold scalar in Hs. simpl. rewrite code_chr by (unfold is_byte; lia). rewrite IH.
      change (slen (str1 (chr r))) with 1. destruct (lower_alnum r); [done|].
      by destruct ((r =? 45) && (0 <? i) && (i <? n - 1)).
    + rewrite lower_alnum_high by done. rewrite (proj2 (Z.eqb_neq r 45)) by lia. simpl.
      destruct b as [|c b]; [done|]. simpl in Hb |- *. bool_to_prop.
      by rewrite lower_alnum_high, (proj2 (Z.eqb_neq (code c) 45)) by lia.
  - simpl. rewrite !lower_alnum_high by (unfold rune_error; lia). simpl.
    by rewrite (proj2 (Z.eqb_neq (code a) 45)) by lia.
Qed.

Definition label_char (n i r : Z) : bool := lower_alnum r || ((r =? 45) && (0 <? i) && (i <? n - 1)).

Lemma label_bytes_spec n i s : label_bytes n i s = true <->
  forall j, (j < String.length s)%nat -> label_char n (i + Z.of_nat j) (byte_at s j) = true.
Proof.
  revert i. induction s as [|c s IH]; intros i; cbn [label_bytes].
  - split; [simpl; lia|done].
  - rewrite andb_true_iff, IH. split.
    + intros [Hc Hs] [|j] Hj; [by rewrite Z.add_0_r|].
      specialize (Hs j). simpl in Hj. replace (i + Z.of_nat (S j)) with (i + 1 + Z.of_nat j) by lia. apply Hs. lia.
    + intros H. split; [specialize (H O); rewrite Z.add_0_r in H; apply H; simpl; lia|].
      intros j Hj. specialize (H (S j)). replace (i + Z.of_nat (S j)) with (i + 1 + Z.of_nat j) in H by lia.
      apply H. simpl. lia.
Qed.
Lemma all_bytes_spec p s : all_bytes (fun c => p (code c)) s = true <->
  forall j, (j < String.length s)%nat -> p (byte_at s j) = true.
Proof.
  induction s as [|c s IH]; cbn [all_bytes].
  - split; [simpl; lia|done].
  - rewrite andb_true_iff, IH. split.
    + intros [Hc Hs] [|j] Hj; [done|]. apply (Hs j). simpl in Hj. lia.
    + intros H. split; [apply (H O); simpl; lia|]. intros j Hj. apply (H (S j)). simpl. lia.
Qed.

(** The label tests of the two packages. *)
Lemma label_agree s : 0 < slen s ->
  isLowerAlphaNumeric (byte_at s 0) && isLowerAlphaNumeric (byte_at s (String.length s - 1)) && inner_ok s
  = label_bytes (slen s) 0 s.
Proof.
  unfold slen. intros Hn. apply eq_true_iff_eq. rewrite label_bytes_spec, !andb_true_iff.
  unfold inner_ok, inner_indexes, isLowerAlphaNumeric, label_char. rewrite forallb_forall.
  assert (Hin : forall i, In i (seq 1 (String.length s - 2)) <-> (1 <= i < String.length s - 1)%nat).
  { intros i. rewrite in_seq. lia. }
  split.
  - intros [[H0 Hl] Hi] j Hj. apply orb_true_iff.
    destruct (decide (j = O)) as [->|]; [by left|].
    destruct (decide (j = (String.length s - 1)%nat)) as [->|]; [by left|].
    assert (1 <= j < String.length s - 1)%nat as Hr by lia. apply Hin in Hr. specialize (Hi j Hr).
    apply orb_true_iff in Hi as [Hi|Hi]; [by left|right]. apply Hin in Hr.
    rewrite Hi. simpl. apply andb_true_iff. split; [apply Z.ltb_lt|apply Z.ltb_lt]; lia.
  - intros H. split; [split|].
    + specialize (H O). apply orb_true_iff in H as [H|H]; [done| |lia]. bool_to_prop. lia.
    + specialize (H (String.length s - 1)%nat). apply orb_true_iff in H as [H|H]; [done| |lia]. bool_to_prop. lia.
    + intros i Hi%Hin. specialize (H i). apply orb_true_iff in H as [H|H]; [by rewrite H| |lia].
      bool_to_prop. by rewrite H.
Qed.

Lemma token_label_valid label : token_label label = valid_label label.
Proof.
  unfold token_label, valid_label. destruct (slen label =? 0) eqn:E; [done|]. simpl.
  destruct (63 <? slen label); [done|]. simpl. bool_to_prop. pose proof (slen_nonneg label).
  rewrite label_runes_bytes, <- label_agree by lia.
  by destruct (isLowerAlphaNumeric (byte_at label 0)), (isLowerAlphaNumeric (byte_at label _)).
Qed.

Lemma validTokenName_eq name : validTokenName name = validObjectName name.
Proof.
  unfold validTokenName, validObjectName.
  replace (slen name =? 0) with (String.eqb name "") by (destruct name; [done|]; rewrite slen_cons; pose proof (slen_nonneg name); symmetry; apply Z.eqb_neq; lia).
  destruct (_ || _); [done|]. induction (split dot name) as [|w l IH]; simpl; [done|].
  by rewrite token_label_valid, IH.
Qed.

Fixpoint str_in (c : ascii) (s : string) : bool :=
  match s with "" => false | String a s => Ascii.eqb a c || str_in c s end.
Lemma str_in_app c s t : str_in c (s +:+ t) = str_in c s || str_in c t.
Proof. induction s as [|a s IH]; [done|]. cbn [String.append str_in]. by rewrite IH, orb_assoc. Qed.
Lemma split_single c s : str_in c s = false -> split c s = [s].
Proof.
  induction s as [|a s IH]; simpl; [done|]. intros H. bool_to_prop. rewrite H. by rewrite IH.
Qed.
Lemma has_prefix_single a s c : has_prefix (String a s) (str1 c) = Ascii.eqb a c.
Proof.
  unfold has_prefix. simpl. rewrite eqb_code. destruct (ascii_dec c a) as [->|Hn].
  - rewrite Z.eqb_refl. by destruct s.
  - symmetry. apply Z.eqb_neq. intros E. by apply Hn, code_inj.
Qed.
Lemma contains_single c s : contains s (str1 c) = str_in c s.
Proof.
  unfold contains. induction s as [|a s IH]; [done|]. cbn [index str_in].
  rewrite has_prefix_single. destruct (Ascii.eqb a c); [done|]. simpl.
  destruct (index s (str1 c)); by rewrite <- IH.
Qed.
Lemma contains_dot s : contains s "." = str_in dot s.
Proof. apply (contains_single dot). Qed.

Lemma all_bytes_str_in (p : Z -> bool) c s : p (code c) = false ->
  all_bytes (fun c => p (code c)) s = true -> str_in c s = false.
Proof.
  intros Hc. induction s as [|a s IH]; cbn [all_bytes str_in]; [done|]. intros H. bool_to_prop.
  rewrite IH by done. rewrite orb_false_r, eqb_code. apply Z.eqb_neq. intros E. congruence.
Qed.
Lemma label_bytes_chars n i s : label_bytes n i s = true ->
  all_bytes (fun c => lower_alnum (code c) || (code c =? 45)) s = true.
Proof.
  revert i. induction s as [|c s IH]; intros i; cbn [label_bytes all_bytes]; [done|].
  intros [Hc Hs]%andb_true_iff. rewrite (IH _ Hs), andb_true_r.
  apply orb_true_iff in Hc as [->|Hc]; [done|]. bool_to_prop. rewrite H. by rewrite orb_true_r.
Qed.

Lemma validDNSLabel_eq value : validDNSLabel value = validNamespaceName value.
Proof.
  unfold validDNSLabel, validNamespaceName, maxNamespaceBytes.
  pose proof (slen_nonneg value).
  destruct (slen value =? 0) eqn:E0; bool_to_prop.
  { destruct value; [done|]. rewrite slen_cons in E0. pose proof (slen_nonneg value). lia. }
  rewrite (Z.leb_antisym 63). destruct (63 <? slen value) eqn:E1; [done|]. bool_to_prop. cbn [orb negb andb].
  assert (Hl : validObjectName value = true -> contains value "." = false -> label_bytes (slen value) 0 value = true).
  { unfold validObjectName. destruct (_ || _); [done|]. rewrite contains_dot. intros Hv Hc.
    rewrite (split_single _ _ Hc) in Hv. simpl in Hv. rewrite andb_true_r in Hv. unfold valid_label in Hv.
    destruct (_ || _) in Hv; [done|]. by rewrite label_runes_bytes in Hv. }
  assert (Hr : label_bytes (slen value) 0 value = true -> validObjectName value = true /\ contains value "." = false).
  { intros Hb. assert (Hd : str_in dot value = false).
    { eapply (all_bytes_str_in (fun r => lower_alnum r || (r =? 45))); [done|by eapply label_bytes_chars]. }
    rewrite contains_dot. split; [|done]. unfold validObjectName.
    rewrite (proj2 (String.eqb_neq value "")) by (intros ->; done).
    rewrite (proj2 (Z.ltb_ge 253 _)) by lia. simpl. rewrite (split_single _ _ Hd). simpl.
    unfold valid_label. rewrite (proj2 (Z.eqb_neq _ _)), (proj2 (Z.ltb_ge 63 _)) by lia. simpl.
    by rewrite label_runes_bytes, Hb. }
  pose proof (label_agree value) as Ha. specialize (Ha ltac:(lia)).
  apply eq_true_iff_eq. split.
  - intros Hx. destruct Hr as [Hv Hc]; [|by rewrite Hv, Hc].
    rewrite <- Ha. destruct (isLowerAlphaNumeric (byte_at value 0)), (isLowerAlphaNumeric _); done.
  - intros Hx. apply andb_true_iff in Hx as [Hc Hv]. apply negb_true_iff in Hc. specialize (Hl Hv Hc).
    rewrite <- Ha in Hl. destruct (isLowerAlphaNumeric (byte_at value 0)), (isLowerAlphaNumeric _); done.
Qed.

Lemma secret_key_eq key : config_validSecretDataKey key = state_validSecretDataKey key.
Proof.
  unfold config_validSecretDataKey, state_validSecretDataKey.
  replace (slen key =? 0) with (String.eqb key "") by (destruct key; [done|]; rewrite slen_cons; pose proof (slen_nonneg key); symmetry; apply Z.eqb_neq; lia).
  destruct (_ || _); [done|]. rewrite runes_forallb.
  2: { intros r Hr. unfold secret_key_rune, upper_alpha. rewrite lower_alnum_high by done.
       rewrite !(proj2 (Z.eqb_neq r _)) by lia. by rewrite (proj2 (Z.leb_gt r 90)), andb_false_r by lia. }
  apply eq_true_iff_eq. rewrite forallb_forall, all_bytes_spec. unfold secret_key_rune, isLowerAlphaNumeric.
  split.
  - intros H j Hj. specialize (H j). destruct (lower_alnum _), (upper_alpha _), (_ =? 45), (_ =? 95), (_ =? 46); try done.
    all: exfalso; by discriminate H; apply in_seq; lia.
  - intros H j Hj%in_seq. specialize (H j). destruct (lower_alnum _), (upper_alpha _), (_ =? 45), (_ =? 95), (_ =? 46); try done.
    all: exfalso; by discriminate H; lia.
Qed.

(** The validators of the configuration and those of the API accept the
    same names, although one walks bytes and the other characters: a name the
    configuration admits is never refused when it is seeded, and conversely. *)
Theorem validators_agree : forall value,
  validTokenName value = validObjectName value /\
  validDNSLabel value = validNamespaceName value /\
  config_validSecretDataKey value = state_validSecretDataKey value.
Proof.
  intros value. split; [apply validTokenName_eq|]. split; [apply validDNSLabel_eq|apply secret_key_eq].
Qed.
