(* ===== verification/Selector.v ===== *)
(** * Label and field selectors

    [parseSelector], [validFieldSelector], [matchesRequirement],
    [objectMatches] and [filterObjects] of api.go. *)
From S2P Require Import Prelude GoStrings Value.

#[local] Open Scope string_scope.
#[local] Open Scope list_scope.
#[local] Open Scope Z_scope.

Record selectorRequirement := { req_key : string; req_operator : string; req_value : string }.

#[export] Instance selectorRequirement_eq_dec : EqDecision selectorRequirement.
Proof. solve_decision. Defined.

(** ** Parsing *)

(** The first of [!=], [==], [=] that the text contains. *)
Definition find_operator (text : string) : string :=
  if contains text "!=" then "!=" else if contains text "==" then "==" else if contains text "=" then "=" else "".

Definition parse_requirement (rawRequirement : string) : option selectorRequirement :=
  let text := trim_space rawRequirement in
  let operator := find_operator text in
  if String.eqb operator "" then None
  else match cut text operator with
       | None => None
       | Some (a, b) =>
           let key := trim_space a in
           let value := trim_space b in
           if String.eqb key "" || String.eqb value "" || contains_any value "=!" then None
           else Some {| req_key := key; req_operator := operator; req_value := value |}
       end.
Fixpoint parse_requirements (l : list string) : option (list selectorRequirement) :=
  match l with
  | [] => Some []
  | w :: l => r ← parse_requirement w; cons r <$> parse_requirements l
  end.
(** [None]: the selector is not valid. *)
Definition parseSelector (raw : string) : option (list selectorRequirement) :=
  if String.eqb (trim_space raw) "" then Some [] else parse_requirements (split (chr 44) raw).

Definition field_keys : list string :=
  ["metadata.name"; "metadata.namespace"; "status.phase"; "spec.nodeName";
   "involvedObject.name"; "involvedObject.namespace"; "involvedObject.kind";
   "regarding.name"; "regarding.namespace"; "regarding.kind";
   "reason"; "type"; "source.component"; "reportingComponent"].
Definition validFieldSelector (raw : string) : bool :=
  match parseSelector raw with
  | None => false
  | Some requirements => forallb (fun r => bool_decide (req_key r ∈ field_keys)) requirements
  end.

(** ** Matching *)

(** [v.(string)]: the string and whether it is one. *)
Definition as_string (v : val) : string * bool :=
  match v with VStr s => (s, true) | _ => ("", false) end.

Definition matchesRequirement (actual : string) (present : bool) (r : selectorRequirement) : bool :=
  if String.eqb (req_operator r) "!=" then negb present || negb (String.eqb actual (req_value r))
  else present && String.eqb actual (req_value r).

Definition event_reference (o : object) : object :=
  let involved := objectMap (idx o "involvedObject") in
  match involved with [] => objectMap (idx o "regarding") | _ => involved end.
(** The field a requirement is about; [None] for a field that is not known. *)
Definition field_value (o : object) (key : string) : option (string * bool) :=
  let metadata := objectMap (idx o "metadata") in
  if String.eqb key "metadata.name" then Some (as_string (idx metadata "name"))
  else if String.eqb key "metadata.namespace" then Some (as_string (idx metadata "namespace"))
  else if String.eqb key "status.phase" then Some (as_string (idx (objectMap (idx o "status")) "phase"))
  else if String.eqb key "spec.nodeName" then Some (as_string (idx (objectMap (idx o "spec")) "nodeName"))
  else if bool_decide (key ∈ ["involvedObject.name"; "regarding.name"; "involvedObject.namespace"; "regarding.namespace"]) then
    let involved := event_reference o in
    Some (if has_suffix key ".name" then as_string (idx involved "name") else as_string (idx involved "namespace"))
  else if bool_decide (key ∈ ["involvedObject.kind"; "regarding.kind"]) then
    Some (as_string (idx (event_reference o) "kind"))
  else if bool_decide (key ∈ ["reason"; "type"; "source.component"; "reportingComponent"]) then
    let '(actual, present) := as_string (idx o key) in
    Some (if present then (actual, present) else as_string (idx (objectMap (idx o "source")) "component"))
  else None.

Definition label_matches (o : object) (r : selectorRequirement) : bool :=
  let '(actual, present) := as_string (idx (objectMap (idx (objectMap (idx o "metadata")) "labels")) (req_key r)) in
  matchesRequirement actual present r.
Definition field_matches (o : object) (r : selectorRequirement) : bool :=
  match field_value o (req_key r) with
  | Some (actual, present) => matchesRequirement actual present r
  | None => false
  end.
Definition objectMatches (o : object) (labels fields : list selectorRequirement) : bool :=
  forallb (label_matches o) labels && forallb (field_matches o) fields.

Definition filterObjects (objects : list object) (labelSelector fieldSelector : string) : list object :=
  let labels := parseSelector labelSelector in
  let fields := parseSelector fieldSelector in
  List.filter (fun o =>
    match labels, fields with
    | Some ls, Some fs => objectMatches o ls fs
    | _, _ => false
    end) objects.

Example selector_ex :
  parseSelector " app = web , tier!=db,x==y" =
    Some [{| req_key := "app"; req_operator := "="; req_value := "web" |};
          {| req_key := "tier"; req_operator := "!="; req_value := "db" |};
          {| req_key := "x"; req_operator := "=="; req_value := "y" |}] /\
  parseSelector "app in (a)" = None /\ parseSelector "  " = Some [].
Proof. vm_compute. done. Qed.

(** ** Writing a selector and reading it back *)
Definition token_char (c : ascii) : bool :=
  (33 <=? code c) && (code c <? 127) && negb (code c =? 33) && negb (code c =? 44) && negb (code c =? 61).
Definition clean (s : string) : bool := negb (String.eqb s "") && all_bytes token_char s.
Definition clean_requirement (r : selectorRequirement) : bool :=
  clean (req_key r) && clean (req_value r)
  && bool_decide (req_operator r ∈ ["!="; "=="; "="]).
Definition print_requirement (r : selectorRequirement) : string := req_key r +:+ req_operator r +:+ req_value r.
Definition printSelector (l : list selectorRequirement) : string := join (map print_requirement l) ",".

Lemma drop_spaces_id l : forallb (fun rb : Z * string => negb (is_space rb.1)) l = true -> drop_spaces l = l.
Proof. destruct l as [|[r b] l]; simpl; [done|]. intros. bool_to_prop. by rewrite H. Qed.
Lemma trim_space_id s : all_bytes (fun c => (33 <=? code c) && (code c <? 127)) s = true -> trim_space s = s.
Proof.
  intros Hs. unfold trim_space.
  assert (HF : forallb (fun rb : Z * string => negb (is_space rb.1)) (runes s) = true).
  { induction s as [|c s IH]; [done|]. cbn [all_bytes] in Hs. bool_to_prop.
    rewrite runes_ascii by lia. simpl. rewrite IH by done. rewrite andb_true_r. unfold is_space.
    rewrite !(proj2 (Z.eqb_neq (code c) _)) by lia.
    rewrite (proj2 (Z.leb_gt (code c) 13)), (proj2 (Z.leb_gt 8192 (code c))) by lia. by rewrite andb_false_r. }
  rewrite (drop_spaces_id (runes s)) by done. rewrite drop_spaces_id.
  - by rewrite reverse_involutive, runes_concat.
  - rewrite forallb_forall in *. intros x Hx. apply HF, list_elem_of_In.
    rewrite <- list_elem_of_In, !elem_of_reverse in Hx. done.
Qed.

Lemma all_bytes_weaken (p q : ascii -> bool) s :
  (forall c, p c = true -> q c = true) -> all_bytes p s = true -> all_bytes q s = true.
Proof. intros Hpq. induction s; simpl; [done|]. intros. bool_to_prop. by rewrite Hpq, IHs. Qed.

Definition visible (c : ascii) : bool := (33 <=? code c) && (code c <? 127).
Lemma token_visible s : all_bytes token_char s = true -> all_bytes visible s = true.
Proof. apply all_bytes_weaken. unfold token_char, visible. intros c. rewrite !andb_true_iff. tauto. Qed.

(** The first occurrence of a separator after text that has none of its bytes. *)
Lemma index_skip a sub t :
  sub <> "" -> (forall c, str_head sub = Some c -> all_bytes (fun x => negb (Ascii.eqb x c)) a = true) ->
  index (a +:+ sub +:+ t) sub = Some (String.length a).
Proof.
  intros Hne Ha. induction a as [|x a IH].
  - pose proof (has_prefix_app sub t) as Hp. revert Hp. change ("" +:+ sub +:+ t) with (sub +:+ t).
    generalize (sub +:+ t). intros [|x u] Hp; cbn [index]; by rewrite Hp.
  - cbn [String.append index]. destruct sub as [|c sub]; [done|].
    specialize (Ha c eq_refl) as Hac. cbn [all_bytes] in Hac. bool_to_prop.
    replace (has_prefix _ _) with false.
    + rewrite IH; [done|]. by intros c' [= <-].
    + unfold has_prefix. simpl. destruct (ascii_dec c x) as [->|]; [|done].
      rewrite eqb_code, Z.eqb_refl in H. done.
Qed.
Lemma cut_app a sub t :
  sub <> "" -> (forall c, str_head sub = Some c -> all_bytes (fun x => negb (Ascii.eqb x c)) a = true) ->
  cut (a +:+ sub +:+ t) sub = Some (a, t).
Proof.
  intros Hne Ha. unfold cut. rewrite index_skip by done. f_equal. f_equal.
  - apply str_take_app.
  - rewrite str_app_assoc, <- str_app_length. apply str_drop_app.
Qed.
(** A separator whose first byte does not occur is not contained. *)
Lemma not_contains s sub c : str_head sub = Some c -> all_bytes (fun x => negb (Ascii.eqb x c)) s = true ->
  contains s sub = false.
Proof.
  intros Hc. unfold contains. induction s as [|x s IH]; cbn [all_bytes].
  - destruct sub; [done|]. done.
  - intros Hs. bool_to_prop. cbn [index]. replace (has_prefix _ _) with false.
    + specialize (IH H0). revert IH. by destruct (index s sub).
    + destruct sub as [|c' sub]; simplify_eq/=. unfold has_prefix. simpl.
      destruct (ascii_dec c x) as [->|]; [|done]. rewrite eqb_code, Z.eqb_refl in H. done.
Qed.
Lemma contains_app a sub t :
  sub <> "" -> (forall c, str_head sub = Some c -> all_bytes (fun x => negb (Ascii.eqb x c)) a = true) ->
  contains (a +:+ sub +:+ t) sub = true.
Proof. intros. unfold contains. by rewrite index_skip. Qed.

Lemma token_avoids c s : token_char c = false -> all_bytes token_char s = true ->
  all_bytes (fun x => negb (Ascii.eqb x c)) s = true.
Proof.
  intros Hc. apply all_bytes_weaken. intros x Hx. rewrite eqb_code.
  destruct (code x =? code c) eqn:E; [|done]. bool_to_prop. apply code_inj in E. congruence.
Qed.


Lemma clean_spec s : clean s = true -> s <> "" /\ all_bytes token_char s = true.
Proof. unfold clean. intros [H ?]%andb_true_iff. split; [|done]. intros ->. done. Qed.

Lemma parse_print_requirement r : clean_requirement r = true -> parse_requirement (print_requirement r) = Some r.
Proof.
  unfold clean_requirement. intros [[Hk Hv]%andb_true_iff Ho]%andb_true_iff.
  apply bool_decide_eq_true_1 in Ho. apply clean_spec in Hk as [Hkn Hk], Hv as [Hvn Hv].
  destruct r as [k op v]. cbn [req_key req_value req_operator] in *. unfold parse_requirement, print_requirement.
  cbn [req_key req_value req_operator].
  assert (Hvis : all_bytes visible (k +:+ op +:+ v) = true).
  { rewrite !all_bytes_app, (token_visible k), (token_visible v) by done.
    by repeat (apply elem_of_cons in Ho as [->|Ho]; [done|]); apply elem_of_nil in Ho. }
  rewrite trim_space_id by exact Hvis.
  assert (Hop : find_operator (k +:+ op +:+ v) = op).
  { unfold find_operator. repeat (apply elem_of_cons in Ho as [->|Ho]); [| | |by apply elem_of_nil in Ho].
    - rewrite contains_app; [done|done|]. intros c [= <-]. by apply token_avoids.
    - rewrite (not_contains _ "!=" "!"); [|done|].
      + rewrite contains_app; [done|done|]. intros c [= <-]. by apply token_avoids.
      + rewrite !all_bytes_app, (token_avoids "!" k), (token_avoids "!" v) by done. done.
    - rewrite (not_contains _ "!=" "!"); [|done|by rewrite !all_bytes_app, (token_avoids "!" k), (token_avoids "!" v) by done].
      assert (contains (k +:+ "=" +:+ v) "==" = false) as ->.
      { destruct v as [|c v]; [done|]. cbn [all_bytes] in Hv. apply andb_true_iff in Hv as [Hc Hv].
        unfold contains. clear Hkn Hvis. induction k as [|x k IH].
        - cbn [String.append index]. replace (has_prefix (String "=" (String c v)) "==") with false.
          + pose proof (not_contains (String c v) "==" "=" eq_refl) as Hn. unfold contains in Hn.
            cbn [all_bytes] in Hn. rewrite (token_avoids "=" v) in Hn by done.
            assert (Hce : negb (Ascii.eqb c "=") = true).
            { rewrite eqb_code. destruct (code c =? code "=") eqn:E; [|done]. bool_to_prop.
              apply code_inj in E as ->. done. }
            rewrite Hce in Hn. specialize (Hn eq_refl). revert Hn. cbn [index].
            destruct (has_prefix (String c v) "=="); [done|]. by destruct (index v "==").
          + rewrite !has_prefix_cons, (eqb_code c). destruct (code c =? code "=") eqn:E; [|done].
            bool_to_prop. apply code_inj in E as ->. by vm_compute in Hc.
        - cbn [all_bytes] in Hk. apply andb_true_iff in Hk as [Hx Hk]. specialize (IH Hk).
          cbn [String.append index]. replace (has_prefix _ _) with false.
          + revert IH. by destruct (index _ _).
          + rewrite has_prefix_cons, eqb_code. destruct (code x =? code "=") eqn:E; [|done].
            bool_to_prop. apply code_inj in E as ->. by vm_compute in Hx. }
      rewrite contains_app; [done|done|]. intros c [= <-]. by apply token_avoids. }
  rewrite Hop.
  assert (Hcut : cut (k +:+ op +:+ v) op = Some (k, v)).
  { apply cut_app.
    - by repeat (apply elem_of_cons in Ho as [->|Ho]; [done|]); apply elem_of_nil in Ho.
    - intros c Hc. apply token_avoids; [|done].
      by repeat (apply elem_of_cons in Ho as [->|Ho]; [simplify_eq/=; done|]); apply elem_of_nil in Ho. }
  replace (String.eqb op "") with false.
  2: { by repeat (apply elem_of_cons in Ho as [->|Ho]; [done|]); apply elem_of_nil in Ho. }
  rewrite Hcut. rewrite !trim_space_id by (apply token_visible; done).
  rewrite !(proj2 (String.eqb_neq _ _)) by done. simpl.
  replace (contains_any v "=!") with false; [done|]. symmetry.
  clear -Hv. unfold contains_any. induction v as [|c v IH]; cbn [any_byte all_bytes] in *; [done|].
  apply andb_true_iff in Hv as [Hc Hv]. rewrite IH, orb_false_r by done.
  rewrite !eqb_code. unfold token_char in Hc. bool_to_prop.
  change (code "=") with 61. change (code "!") with 33.
  by rewrite !(proj2 (Z.eqb_neq (code c) _)) by lia.
Qed.

Lemma clean_requirement_bytes r : clean_requirement r = true ->
  all_bytes visible (print_requirement r) = true /\
  all_bytes (fun x => negb (Ascii.eqb x (chr 44))) (print_requirement r) = true /\ print_requirement r <> "".
Proof.
  unfold clean_requirement, print_requirement. intros [[Hk Hv]%andb_true_iff Ho]%andb_true_iff.
  apply bool_decide_eq_true_1 in Ho. apply clean_spec in Hk as [Hkn Hk], Hv as [Hvn Hv].
  rewrite !all_bytes_app, (token_visible (req_key r)), (token_visible (req_value r)) by done.
  rewrite (token_avoids (chr 44) (req_key r)), (token_avoids (chr 44) (req_value r)) by done.
  split; [|split].
  - by repeat (apply elem_of_cons in Ho as [->|Ho]; [done|]); apply elem_of_nil in Ho.
  - by repeat (apply elem_of_cons in Ho as [->|Ho]; [done|]); apply elem_of_nil in Ho.
  - by destruct (req_key r).
Qed.

Lemma parse_print_requirements l : forallb clean_requirement l = true ->
  parse_requirements (map print_requirement l) = Some l.
Proof.
  induction l as [|r l IH]; simpl; [done|]. intros Hr. bool_to_prop.
  rewrite parse_print_requirement by done. simpl. by rewrite IH.
Qed.

(** C13. Selectors survive printing: a list of requirements whose keys and values
    hold no operator, comma or space is parsed back exactly from its text. *)
Theorem parse_print_selector : forall l, forallb clean_requirement l = true -> parseSelector (printSelector l) = Some l.
Proof.
  intros l Hl. destruct l as [|r l]; [done|]. unfold parseSelector, printSelector.
  assert (HF : Forall (fun w => all_bytes visible w = true /\
    all_bytes (fun x => negb (Ascii.eqb x (chr 44))) w = true /\ w <> "") (map print_requirement (r :: l))).
  { apply Forall_map, Forall_forall. intros x Hx. apply clean_requirement_bytes.
    rewrite forallb_forall in Hl. by apply Hl, list_elem_of_In. }
  assert (Hvis : forall ws, Forall (fun w => all_bytes visible w = true /\
    all_bytes (fun x => negb (Ascii.eqb x (chr 44))) w = true /\ w <> "") ws -> all_bytes visible (join ws ",") = true).
  { induction 1 as [|w ws (Hw & _ & _) HF' IH]; [done|]. destruct ws as [|w2 ws]; [done|].
    change (join (w :: w2 :: ws) ",") with (w +:+ "," +:+ join (w2 :: ws) ",").
    rewrite !all_bytes_app, Hw, IH. done. }
  rewrite trim_space_id by (by apply Hvis).
  destruct (String.eqb_spec (join (map print_requirement (r :: l)) ",") "") as [E|_].
  - exfalso. apply Forall_cons in HF as [(_ & _ & Hne) _]. simpl in E.
    destruct (print_requirement r); [done|]. by destruct (map print_requirement l).
  - change (join (map print_requirement (r :: l)) ",") with (join (map print_requirement (r :: l)) (str1 (chr 44))).
    rewrite split_join; [by apply parse_print_requirements|done|].
    eapply Forall_impl; [exact HF|]. by intros w (_ & ? & _).
Qed.

Lemma parse_requirement_sound w r : parse_requirement w = Some r ->
  req_key r <> "" /\ req_value r <> "" /\ req_operator r ∈ ["!="; "=="; "="] /\ contains_any (req_value r) "=!" = false.
Proof.
  unfold parse_requirement. destruct (String.eqb_spec (find_operator (trim_space w)) "") as [|Hop]; [done|].
  destruct (cut _ _) as [[a b]|]; [|done].
  destruct (_ || _) eqn:E; [done|]. intros [= <-]. bool_to_prop. cbn [req_key req_value req_operator].
  repeat split; try done. revert Hop. unfold find_operator. repeat case_match; try done; intros; set_solver.
Qed.
Lemma parse_selector_sound raw l : parseSelector raw = Some l ->
  Forall (fun r => req_key r <> "" /\ req_value r <> "" /\ req_operator r ∈ ["!="; "=="; "="] /\
                   contains_any (req_value r) "=!" = false) l.
Proof.
  unfold parseSelector. destruct (String.eqb _ _); [intros [= <-]; constructor|].
  generalize (split (chr 44) raw) as ws. intros ws. revert l.
  induction ws as [|w ws IH]; intros l; simpl; [by intros [= <-]|].
  destruct (parse_requirement w) as [r|] eqn:E; [|done]. simpl.
  destruct (parse_requirements ws) as [l'|]; [|done]. intros [= <-].
  constructor; [by eapply parse_requirement_sound|by apply IH].
Qed.

(** A conjunction of requirements that contradict one another selects nothing;
    in general a selector matches exactly when each requirement does. *)
Lemma objectMatches_spec o labels fields : objectMatches o labels fields = true <->
  (forall r, r ∈ labels -> label_matches o r = true) /\ (forall r, r ∈ fields -> field_matches o r = true).
Proof.
  unfold objectMatches. rewrite andb_true_iff, !forallb_forall.
  split; intros [H1 H2]; split; intros r Hr; (apply H1 || apply H2); by apply list_elem_of_In.
Qed.
Lemma objectMatches_nil o : objectMatches o [] [] = true.
Proof. done. Qed.

Lemma parse_print_selector_witness :
  parseSelector "app=web,tier!=db" =
    Some [{| req_key := "app"; req_operator := "="; req_value := "web" |};
          {| req_key := "tier"; req_operator := "!="; req_value := "db" |}].
Proof.
  exact (parse_print_selector [{| req_key := "app"; req_operator := "="; req_value := "web" |};
          {| req_key := "tier"; req_operator := "!="; req_value := "db" |}] eq_refl).
Defined.
