(* ===== verification/Catalog.v ===== *)
(** * The catalogue of API resources

    The resources the simulated server knows, per group and version, what the
    chosen minor release moves or adds ([resourcesForMinor]), the subresources
    that discovery advertises, and the discovery documents built from them
    (api.go), with the schema profile of schema.go. *)
From S2P Require Import Prelude GoStrings Value.

#[local] Set Warnings "-clear-no-such-hyp,-notation-for-abbreviation".
#[local] Open Scope string_scope.
#[local] Open Scope list_scope.
#[local] Open Scope Z_scope.

Record groupVersion := GV { gv_group : string; gv_version : string }.
#[export] Instance groupVersion_eq_dec : EqDecision groupVersion.
Proof. solve_decision. Defined.
#[export] Instance groupVersion_countable : Countable groupVersion.
Proof.
  apply (inj_countable' (fun gv => (gv_group gv, gv_version gv)) (fun p => GV p.1 p.2)). by intros [].
Defined.

Record apiResource := {
  r_name : string; r_singular : string; r_kind : string; r_namespaced : bool;
  r_verbs : list string; r_shortNames : list string; r_categories : list string;
  r_group : string; r_version : string;
}.
#[export] Instance apiResource_eq_dec : EqDecision apiResource.
Proof. solve_decision. Defined.

(** [strings.ToLower] of an ASCII kind. *)
Fixpoint lower_ascii (s : string) : string :=
  match s with "" => "" | String c s => String (if is_upper c then chr (code c + 32) else c) (lower_ascii s) end.

Definition all_verbs : list string :=
  ["create"; "delete"; "deletecollection"; "get"; "list"; "patch"; "update"; "watch"].
Definition resource (name kind : string) (namespaced : bool) (shortName : string) : apiResource :=
  {| r_name := name; r_singular := lower_ascii kind; r_kind := kind; r_namespaced := namespaced;
     r_verbs := all_verbs; r_shortNames := (if String.eqb shortName "" then [] else [shortName]);
     r_categories := []; r_group := ""; r_version := "" |}.
Definition set_verbs (r : apiResource) (verbs : list string) : apiResource :=
  {| r_name := r_name r; r_singular := r_singular r; r_kind := r_kind r; r_namespaced := r_namespaced r;
     r_verbs := verbs; r_shortNames := r_shortNames r; r_categories := r_categories r;
     r_group := r_group r; r_version := r_version r |}.
Definition set_categories (r : apiResource) (cs : list string) : apiResource :=
  {| r_name := r_name r; r_singular := r_singular r; r_kind := r_kind r; r_namespaced := r_namespaced r;
     r_verbs := r_verbs r; r_shortNames := r_shortNames r; r_categories := cs;
     r_group := r_group r; r_version := r_version r |}.
Definition createOnlyResource (name kind : string) (namespaced : bool) : apiResource :=
  set_verbs (resource name kind namespaced "") ["create"].
Definition readOnlyResource (name kind : string) (namespaced : bool) : apiResource :=
  set_verbs (resource name kind namespaced "") ["get"; "list"].

Definition apiCatalog_entries : list (groupVersion * list apiResource) :=
  [(GV "" "v1",
    [readOnlyResource "componentstatuses" "ComponentStatus" false;
     resource "configmaps" "ConfigMap" true "cm";
     resource "endpoints" "Endpoints" true "ep";
     resource "events" "Event" true "ev";
     resource "namespaces" "Namespace" false "ns";
     resource "nodes" "Node" false "no";
     resource "limitranges" "LimitRange" true "limits";
     resource "persistentvolumeclaims" "PersistentVolumeClaim" true "pvc";
     resource "persistentvolumes" "PersistentVolume" false "pv";
     resource "podtemplates" "PodTemplate" true "";
     resource "pods" "Pod" true "po";
     resource "resourcequotas" "ResourceQuota" true "quota";
     resource "replicationcontrollers" "ReplicationController" true "rc";
     resource "secrets" "Secret" true "secret";
     resource "serviceaccounts" "ServiceAccount" true "sa";
     resource "services" "Service" true "svc"]);
   (GV "admissionregistration.k8s.io" "v1",
    [resource "mutatingwebhookconfigurations" "MutatingWebhookConfiguration" false "";
     resource "validatingadmissionpolicies" "ValidatingAdmissionPolicy" false "";
     resource "validatingadmissionpolicybindings" "ValidatingAdmissionPolicyBinding" false "";
     resource "validatingwebhookconfigurations" "ValidatingWebhookConfiguration" false ""]);
   (GV "apiextensions.k8s.io" "v1",
    [resource "customresourcedefinitions" "CustomResourceDefinition" false "crd"]);
   (GV "apiregistration.k8s.io" "v1",
    [resource "apiservices" "APIService" false "apiservice"]);
   (GV "apps" "v1",
    [resource "daemonsets" "DaemonSet" true "ds";
     resource "deployments" "Deployment" true "deploy";
     resource "replicasets" "ReplicaSet" true "rs";
     resource "statefulsets" "StatefulSet" true "sts"]);
   (GV "autoscaling" "v2",
    [resource "horizontalpodautoscalers" "HorizontalPodAutoscaler" true "hpa"]);
   (GV "autoscaling" "v1",
    [resource "horizontalpodautoscalers" "HorizontalPodAutoscaler" true "hpa"]);
   (GV "authorization.k8s.io" "v1",
    [createOnlyResource "localsubjectaccessreviews" "LocalSubjectAccessReview" true;
     createOnlyResource "selfsubjectaccessreviews" "SelfSubjectAccessReview" false;
     createOnlyResource "selfsubjectrulesreviews" "SelfSubjectRulesReview" false;
     createOnlyResource "subjectaccessreviews" "SubjectAccessReview" false]);
   (GV "batch" "v1",
    [resource "cronjobs" "CronJob" true "cj";
     resource "jobs" "Job" true "job"]);
   (GV "certificates.k8s.io" "v1",
    [resource "certificatesigningrequests" "CertificateSigningRequest" false "csr"]);
   (GV "coordination.k8s.io" "v1",
    [resource "leases" "Lease" true "lease"]);
   (GV "discovery.k8s.io" "v1",
    [resource "endpointslices" "EndpointSlice" true "eps"]);
   (GV "events.k8s.io" "v1",
    [resource "events" "Event" true "ev"]);
   (GV "metrics.k8s.io" "v1beta1",
    [readOnlyResource "nodes" "NodeMetrics" false;
     readOnlyResource "pods" "PodMetrics" true]);
   (GV "networking.k8s.io" "v1",
    [resource "ingressclasses" "IngressClass" false "ingclass";
     resource "ingresses" "Ingress" true "ing";
     resource "networkpolicies" "NetworkPolicy" true "netpol"]);
   (GV "policy" "v1",
    [resource "poddisruptionbudgets" "PodDisruptionBudget" true "pdb"]);
   (GV "rbac.authorization.k8s.io" "v1",
    [resource "clusterrolebindings" "ClusterRoleBinding" false "crb";
     resource "clusterroles" "ClusterRole" false "role";
     resource "rolebindings" "RoleBinding" true "rb";
     resource "roles" "Role" true "role"]);
   (GV "storage.k8s.io" "v1",
    [resource "csidrivers" "CSIDriver" false "csidriver";
     resource "storageclasses" "StorageClass" false "sc"])].
Definition apiCatalog : gmap groupVersion (list apiResource) := list_to_map apiCatalog_entries.

Definition metricsGroupVersion : groupVersion := GV "metrics.k8s.io" "v1beta1".
Definition authorizationGroupVersion : groupVersion := GV "authorization.k8s.io" "v1".

Definition apiVersionFor (gv : groupVersion) : string :=
  if String.eqb (gv_group gv) "" then gv_version gv else gv_group gv +:+ "/" +:+ gv_version gv.

(** [sKind] of state.go: the first entry of the group and version with the name. *)
Definition sKind (gv : groupVersion) (resourceName : string) : option string :=
  match List.find (fun r => String.eqb (r_name r) resourceName) (default [] (apiCatalog !! gv)) with
  | Some r => Some (r_kind r)
  | None => None
  end.

(** ** What a minor release serves *)
Notation resources := (gmap groupVersion (gmap string apiResource)).

Definition items_of_gv (m : resources) (gv : groupVersion) : gmap string apiResource := default ∅ (m !! gv).

Definition copyResource (m : resources) (source destination : groupVersion) (name : string) : resources :=
  match items_of_gv m source !! name with
  | None => m
  | Some item => <[destination := <[name := item]> (items_of_gv m destination)]> m
  end.
Definition moveResource (m : resources) (source destination : groupVersion) (name : string) : resources :=
  let m := copyResource m source destination name in
  match m !! source with
  | None => m
  | Some items => <[source := delete name items]> m
  end.

Definition resourcesForMinor (current : resources) (minor : Z) : resources :=
  let m := current in
  let m := if minor <? 21 then
      let m := moveResource m (GV "batch" "v1") (GV "batch" "v1beta1") "cronjobs" in
      let m := moveResource m (GV "discovery.k8s.io" "v1") (GV "discovery.k8s.io" "v1beta1") "endpointslices" in
      moveResource m (GV "policy" "v1") (GV "policy" "v1beta1") "poddisruptionbudgets"
    else m in
  let m := if (21 <=? minor) && (minor <? 25) then
      let m := copyResource m (GV "batch" "v1") (GV "batch" "v1beta1") "cronjobs" in
      let m := copyResource m (GV "discovery.k8s.io" "v1") (GV "discovery.k8s.io" "v1beta1") "endpointslices" in
      copyResource m (GV "policy" "v1") (GV "policy" "v1beta1") "poddisruptionbudgets"
    else m in
  let m := if minor <? 23 then
      moveResource m (GV "autoscaling" "v2") (GV "autoscaling" "v2beta2") "horizontalpodautoscalers"
    else if minor <? 26 then
      copyResource m (GV "autoscaling" "v2") (GV "autoscaling" "v2beta2") "horizontalpodautoscalers"
    else m in
  filter (fun kv => kv.2 <> ∅) m.

(** The resources of a new API instance: the catalogue by name, for the minor,
    with the category [all] on those that [kubectl get all] shows. *)
Definition by_name (l : list apiResource) : gmap string apiResource :=
  foldl (fun m r => <[r_name r := r]> m) ∅ l.
Definition add_category (m : resources) (gv : groupVersion) (names : list string) : resources :=
  foldl (fun m name =>
    match items_of_gv m gv !! name with
    | Some entry => <[gv := <[name := set_categories entry ["all"]]> (items_of_gv m gv)]> m
    | None => m
    end) m names.
Definition catalogue (minor : Z) : resources :=
  let m := resourcesForMinor (by_name <$> apiCatalog) minor in
  let m := add_category m (GV "" "v1") ["pods"; "services"] in
  let m := add_category m (GV "apps" "v1") ["daemonsets"; "deployments"; "replicasets"; "statefulsets"] in
  add_category m (GV "batch" "v1") ["cronjobs"; "jobs"].

Definition serves (m : resources) (gv : groupVersion) (name : string) : bool :=
  match items_of_gv m gv !! name with Some _ => true | None => false end.

(** ** Subresources *)
Definition subresource (r : apiResource) (name kind : string) (verbs : list string) : apiResource :=
  {| r_name := r_name r +:+ "/" +:+ name; r_singular := ""; r_kind := kind; r_namespaced := r_namespaced r;
     r_verbs := verbs; r_shortNames := []; r_categories := []; r_group := ""; r_version := "" |}.
Definition scale_subresource (r : apiResource) : apiResource :=
  {| r_name := r_name r +:+ "/scale"; r_singular := ""; r_kind := "Scale"; r_namespaced := r_namespaced r;
     r_verbs := ["get"; "patch"; "update"]; r_shortNames := []; r_categories := [];
     r_group := "autoscaling"; r_version := "v1" |}.
Definition subresourcesFor (r : apiResource) : list apiResource :=
  let sub := subresource r in
  let status kind := sub "status" kind ["get"; "patch"; "update"] in
  let named names := bool_decide (r_name r ∈ names) in
  if named ["pods"] then
    [sub "attach" "Pod" ["create"; "get"]; sub "ephemeralcontainers" "Pod" ["get"; "patch"; "update"];
     sub "eviction" "Eviction" ["create"]; sub "exec" "Pod" ["create"; "get"]; sub "log" "Pod" ["get"];
     sub "portforward" "Pod" ["create"; "get"]; sub "proxy" "Pod" ["create"; "delete"; "get"; "update"];
     status "Pod"]
  else if named ["services"] then [sub "proxy" "Service" ["create"; "delete"; "get"; "update"]; status "Service"]
  else if named ["serviceaccounts"] then
    [{| r_name := r_name r +:+ "/token"; r_singular := ""; r_kind := "TokenRequest"; r_namespaced := true;
        r_verbs := ["create"]; r_shortNames := []; r_categories := [];
        r_group := "authentication.k8s.io"; r_version := "v1" |}; status (r_kind r)]
  else if named ["deployments"; "statefulsets"; "replicasets"] then [scale_subresource r; status (r_kind r)]
  else if named ["replicationcontrollers"] then [scale_subresource r; status (r_kind r)]
  else if named ["daemonsets"] then [status (r_kind r)]
  else if named ["nodes"] then [sub "proxy" "Node" ["create"; "delete"; "get"; "update"]; status "Node"]
  else if named ["namespaces"] then [sub "finalize" "Namespace" ["update"]; status "Namespace"]
  else if named ["configmaps"; "secrets"; "persistentvolumeclaims"] then [status (r_kind r)]
  else if named ["cronjobs"] then [status (r_kind r)]
  else if named ["jobs"; "horizontalpodautoscalers"; "ingresses"; "networkpolicies"; "poddisruptionbudgets"] then
    [status (r_kind r)]
  else if named ["customresourcedefinitions"; "apiservices"; "certificatesigningrequests"; "clusterroles";
              "clusterrolebindings"; "mutatingwebhookconfigurations"; "validatingwebhookconfigurations";
              "storageclasses"; "csidrivers"] then [status (r_kind r)]
  else if named ["roles"; "rolebindings"; "leases"; "events"; "endpointslices"; "endpoints"] then [status (r_kind r)]
  else [].

(** ** Versions *)
Definition parseKubernetesVersion (value : string) : option Z :=
  if negb (has_prefix value "v1.") then None
  else match atoi (trim_prefix value "v1.") with
       | Some minor => if minor <? 0 then None else Some minor
       | None => None
       end.

Record SchemaProfile := { sp_Version : string; sp_Release : string; sp_SchemaURL : string; sp_EmbeddedPath : string }.
Definition SchemaProfileForVersion (version : string) : option SchemaProfile :=
  let version := trim_space version in
  let version := if String.eqb version "" then "v1.37" else version in
  let version := if has_prefix version "1." then "v" +:+ version else version in
  match parseKubernetesVersion version with
  | None => None
  | Some minor =>
      if (minor <? 19) || (37 <? minor) || negb (String.eqb version ("v1." +:+ itoa minor)) then None
      else
        let release := version +:+ ".0" in
        Some {| sp_Version := version; sp_Release := release;
                sp_SchemaURL := "https://raw.githubusercontent.com/kubernetes/kubernetes/" +:+ release
                                 +:+ "/api/openapi-spec/swagger.json";
                sp_EmbeddedPath := "embedded/openapi/" +:+ version +:+ "_openapi.json.gz" |}
  end.

Fixpoint preferred_from (preferred : string) (preferredMajor : Z) (versions : list string) : string :=
  match versions with
  | [] => preferred
  | version :: versions =>
      if negb (has_prefix version "v") then preferred_from preferred preferredMajor versions
      else match atoi (trim_prefix version "v") with
           | Some major =>
               if preferredMajor <? major then preferred_from version major versions
               else preferred_from preferred preferredMajor versions
           | None => preferred_from preferred preferredMajor versions
           end
  end.
(** The argument is never empty. *)
Definition preferredAPIVersion (versions : list string) : string :=
  preferred_from (List.last versions "") (-1) versions.

Fixpoint compactStrings (values : list string) : list string :=
  match values with
  | [] => []
  | a :: l => match compactStrings l with
              | b :: l' => if String.eqb a b then b :: l' else a :: b :: l'
              | [] => [a]
              end
  end.

(** ** Discovery documents *)
Definition sort_strings (l : list string) : list string := merge_sort String.le l.
Definition served_versions (m : resources) : list groupVersion := map fst (map_to_list m).

(** [apiGroupList]: each named group once, in order, with its versions in order
    and the preferred one. *)
Definition group_versions (m : resources) (group : string) : list string :=
  sort_strings (map gv_version (List.filter (fun gv => String.eqb (gv_group gv) group) (served_versions m))).
Definition group_names (m : resources) : list string :=
  compactStrings (sort_strings (map gv_group
    (List.filter (fun gv => negb (String.eqb (gv_group gv) "")) (served_versions m)))).
Record api_group := { ag_name : string; ag_versions : list string; ag_preferred : string }.
Definition group_entry (m : resources) (name : string) : api_group :=
  let versions := group_versions m name in
  {| ag_name := name; ag_versions := versions; ag_preferred := preferredAPIVersion versions |}.
Definition apiGroupList (m : resources) : list api_group := map (group_entry m) (group_names m).
(** [serveGroup]: [None] is the answer 404. *)
Definition serveGroup (m : resources) (group : string) : option api_group :=
  match group_versions m group with [] => None | _ => Some (group_entry m group) end.

(** Order of resources in a discovery list: by name; [sort.Slice] leaves the
    order of equal names open, and the names of one list are distinct. *)
Definition resource_le (a b : apiResource) : Prop := String.le (r_name a) (r_name b).
#[export] Instance resource_le_dec a b : Decision (resource_le a b).
Proof. unfold resource_le. apply _. Defined.
Definition resourceList (m : resources) (gv : groupVersion) : string * list apiResource :=
  (apiVersionFor gv,
   merge_sort resource_le
     (concat (map (fun r => r :: subresourcesFor r) (map snd (map_to_list (items_of_gv m gv)))))).
Definition serveGroupVersion (m : resources) (gv : groupVersion) : option (string * list apiResource) :=
  match m !! gv with None => None | Some _ => Some (resourceList m gv) end.

Definition rootDiscovery (m : resources) (has_v2 has_v3 : bool) : list string :=
  let paths := ["/api"; "/api/v1"; "/apis"; "/version"; "/healthz"; "/livez"; "/readyz"] in
  let paths := paths ++ concat (map (fun gv =>
    if String.eqb (gv_group gv) "" then []
    else ["/apis/" +:+ gv_group gv; "/apis/" +:+ gv_group gv +:+ "/" +:+ gv_version gv]) (served_versions m)) in
  let paths := if has_v2 then paths ++ ["/openapi/v2"] else paths in
  let paths := if has_v3 then paths ++ ["/openapi/v3"] else paths in
  compactStrings (sort_strings paths).

Example groups_ex :
  map ag_name (apiGroupList (catalogue 24)) =
    ["admissionregistration.k8s.io"; "apiextensions.k8s.io"; "apiregistration.k8s.io"; "apps";
     "authorization.k8s.io"; "autoscaling"; "batch"; "certificates.k8s.io"; "coordination.k8s.io";
     "discovery.k8s.io"; "events.k8s.io"; "metrics.k8s.io"; "networking.k8s.io"; "policy";
     "rbac.authorization.k8s.io"; "storage.k8s.io"] /\
  serveGroup (catalogue 24) "autoscaling" =
    Some {| ag_name := "autoscaling"; ag_versions := ["v1"; "v2"; "v2beta2"]; ag_preferred := "v2" |} /\
  serveGroup (catalogue 20) "policy" =
    Some {| ag_name := "policy"; ag_versions := ["v1beta1"]; ag_preferred := "v1beta1" |}.
Proof. vm_compute. done. Qed.

(** ** Theorems *)
Ltac minor_cases :=
  repeat match goal with |- context [?a <? ?b] => destruct (a <? b) eqn:? end;
  repeat match goal with |- context [?a <=? ?b] => destruct (a <=? b) eqn:? end;
  bool_to_prop; try lia.

(** Which resources the server offers is a function of the minor release:
    [cronjobs], [endpointslices] and [poddisruptionbudgets] are served at [v1]
    from 1.21 on and at [v1beta1] before 1.25, autoscaling at [v2] from 1.23 on
    and at [v2beta2] before 1.26, everything else unchanged, and a group and
    version that lost its only resource is no longer listed. *)
Theorem catalogue_by_minor : forall minor,
  let served gv name := serves (resourcesForMinor (by_name <$> apiCatalog) minor) gv name in
  served (GV "batch" "v1") "cronjobs" = negb (minor <? 21) /\
  served (GV "batch" "v1beta1") "cronjobs" = (minor <? 25) /\
  served (GV "discovery.k8s.io" "v1") "endpointslices" = negb (minor <? 21) /\
  served (GV "discovery.k8s.io" "v1beta1") "endpointslices" = (minor <? 25) /\
  served (GV "policy" "v1") "poddisruptionbudgets" = negb (minor <? 21) /\
  served (GV "policy" "v1beta1") "poddisruptionbudgets" = (minor <? 25) /\
  served (GV "autoscaling" "v2") "horizontalpodautoscalers" = negb (minor <? 23) /\
  served (GV "autoscaling" "v2beta2") "horizontalpodautoscalers" = (minor <? 26) /\
  served (GV "autoscaling" "v1") "horizontalpodautoscalers" = true /\
  served (GV "batch" "v1") "jobs" = true /\
  bool_decide (GV "policy" "v1" ∈ dom (resourcesForMinor (by_name <$> apiCatalog) minor)) = negb (minor <? 21).
Proof.
  intros minor served. unfold served, resourcesForMinor.
  destruct (minor <? 21) eqn:E1, (21 <=? minor) eqn:E2, (minor <? 25) eqn:E3, (minor <? 23) eqn:E4,
    (minor <? 26) eqn:E5; bool_to_prop; try lia; clear; by vm_compute.
Qed.

Lemma preferred_from_in p maj l : preferred_from p maj l = p \/ preferred_from p maj l ∈ l.
Proof.
  revert p maj. induction l as [|v l IH]; intros p maj; simpl; [by left|].
  repeat case_match; try (destruct (IH p maj) as [->|?]; [by left|right; set_solver]).
  destruct (IH v z) as [->|?]; right; set_solver.
Qed.
Lemma preferred_in l : l <> [] -> preferredAPIVersion l ∈ l.
Proof.
  intros Hl. unfold preferredAPIVersion. destruct (preferred_from_in (List.last l "") (-1) l) as [->|?]; [|done].
  destruct l as [|a l]; [done|]. clear. revert a. induction l as [|b l IH]; intros a; [set_solver|].
  change (List.last (a :: b :: l) "") with (List.last (b :: l) ""). specialize (IH b). set_solver.
Qed.

Definition major_of (v : string) : option Z :=
  if has_prefix v "v" then atoi (trim_prefix v "v") else None.
Lemma preferred_from_max p maj l : 
  (maj = -1 \/ major_of p = Some maj) ->
  forall v m, v ∈ l -> major_of v = Some m -> 0 <= m ->
  exists m', major_of (preferred_from p maj l) = Some m' /\ m <= m' /\ maj <= m'.
Proof.
  assert (Hkeep : forall l p maj, (maj = -1 \/ major_of p = Some maj) ->
    preferred_from p maj l = p \/ exists m', major_of (preferred_from p maj l) = Some m' /\ maj < m').
  { clear. induction l as [|w l IH]; intros p maj Hp; simpl; [by left|].
    destruct (has_prefix w "v") eqn:Ew; simpl; [|by apply IH].
    destruct (atoi (trim_prefix w "v")) as [z|] eqn:Ez; [|by apply IH].
    destruct (maj <? z) eqn:Elt; bool_to_prop; [|by apply IH]. right.
    assert (Hw : major_of w = Some z) by (unfold major_of; by rewrite Ew).
    destruct (IH w z) as [->|(m' & ? & ?)]; [by right|eauto|exists m'; split; [done|lia]]. }
  revert p maj. induction l as [|w l IH]; intros p maj Hp v m Hv Hm Hm0; [set_solver|]. simpl.
  assert (Hrest : forall p maj, (maj = -1 \/ major_of p = Some maj) -> v ∈ l -> 
    exists m', major_of (preferred_from p maj l) = Some m' /\ m <= m' /\ maj <= m') by eauto.
  apply elem_of_cons in Hv as [<-|Hv].
  - unfold major_of in Hm. destruct (has_prefix v "v") eqn:Ew; [|done]. simpl. rewrite Hm.
    assert (Hvm : major_of v = Some m) by (unfold major_of; by rewrite Ew).
    destruct (maj <? m) eqn:Elt; bool_to_prop.
    + destruct (Hkeep l v m) as [->|(m' & ? & ?)]; [by right|exists m; split; [done|lia]|exists m'; split; [done|lia]].
    + destruct Hp as [->|Hp]; [lia|].
      destruct (Hkeep l p maj) as [->|(m' & ? & ?)]; [by right|exists maj; split; [done|lia]|exists m'; split; [done|lia]].
  - destruct (has_prefix w "v") eqn:Ew; simpl; [|by apply Hrest].
    destruct (atoi (trim_prefix w "v")) as [z|] eqn:Ez; [|by apply Hrest].
    destruct (maj <? z) eqn:Elt; bool_to_prop; [|by apply Hrest].
    destruct (Hrest w z) as (m' & ? & ? & ?); [right; unfold major_of; by rewrite Ew|done|].
    exists m'. split; [done|lia].
Qed.

Lemma sort_strings_elem x l : x ∈ sort_strings l <-> x ∈ l.
Proof. unfold sort_strings. by rewrite merge_sort_Permutation. Qed.
Lemma compactStrings_elem x l : x ∈ compactStrings l <-> x ∈ l.
Proof.
  induction l as [|a l IH]; simpl; [done|]. destruct (compactStrings l) as [|b l'] eqn:E.
  - rewrite !elem_of_cons, <- IH. done.
  - destruct (String.eqb_spec a b) as [->|]; rewrite !elem_of_cons, <- IH; set_solver.
Qed.
Lemma group_versions_elem m group v : v ∈ group_versions m group <-> is_Some (m !! GV group v).
Proof.
  unfold group_versions. rewrite sort_strings_elem, list_elem_of_fmap. unfold served_versions. split.
  - intros (gv & -> & Hin). apply list_elem_of_In, filter_In in Hin as [Hin Hg].
    apply list_elem_of_In, list_elem_of_fmap in Hin as ([gv' items] & -> & Hin). apply elem_of_map_to_list in Hin.
    apply String.eqb_eq in Hg. simpl in *. subst. destruct gv'. eauto.
  - intros [items Hm]. exists (GV group v). split; [done|].
    apply list_elem_of_In, filter_In. simpl. rewrite String.eqb_refl. split; [|done].
    apply list_elem_of_In, list_elem_of_fmap. exists (GV group v, items). by rewrite elem_of_map_to_list.
Qed.
Lemma group_names_elem m group : group ∈ group_names m <-> group <> "" /\ exists v, is_Some (m !! GV group v).
Proof.
  unfold group_names. rewrite compactStrings_elem, sort_strings_elem, list_elem_of_fmap. unfold served_versions. split.
  - intros (gv & -> & Hin). apply list_elem_of_In, filter_In in Hin as [Hin Hg].
    apply list_elem_of_In, list_elem_of_fmap in Hin as ([gv' items] & -> & Hin). apply elem_of_map_to_list in Hin.
    bool_to_prop. simpl in *. split; [done|]. exists (gv_version gv'). destruct gv'. eauto.
  - intros (Hne & v & items & Hm). exists (GV group v). split; [done|].
    apply list_elem_of_In, filter_In. simpl. rewrite (proj2 (String.eqb_neq _ _)) by done. split; [|done].
    apply list_elem_of_In, list_elem_of_fmap. exists (GV group v, items). by rewrite elem_of_map_to_list.
Qed.

