(* ===== verification/Store.v ===== *)
(** * The object store

    [objectStore] of state.go: the objects, the watchers with their buffered
    channels, and the counters.  Every method runs under the store's lock, so
    one method call is one step.  A method that changes the store is a function
    on states; a send on a closed channel and a second close are recorded as a
    panic, which the invariant excludes. *)
From S2P Require Import Prelude GoStrings GoCodec Value Json Names Selector Catalog.

#[local] Set Warnings "-clear-no-such-hyp".
#[local] Open Scope string_scope.
#[local] Open Scope list_scope.
#[local] Open Scope Z_scope.

(** ** State *)
Definition maxStoredObjects : Z := 4096.
Definition maxStoredBytes : Z := 32 * 2 ^ 20.
Definition maxStoredObjectBytes : Z := 256 * 2 ^ 10.
Definition maxListPageItems : Z := 100.
Definition maxListPageBytes : Z := 2 ^ 20.
Definition watch_capacity : Z := 4.

Record objectKey := {
  key_group : string; key_version : string; key_resource : string;
  key_namespace : string; key_name : string;
}.
#[export] Instance objectKey_eq_dec : EqDecision objectKey.
Proof. solve_decision. Defined.
#[export] Instance objectKey_countable : Countable objectKey.
Proof.
  apply (inj_countable'
    (fun k => (key_group k, key_version k, key_resource k, key_namespace k, key_name k))
    (fun '(g, v, r, ns, n) => {| key_group := g; key_version := v; key_resource := r;
                                 key_namespace := ns; key_name := n |})).
  by intros [].
Defined.

Record watchEvent := { we_type : string; we_object : object }.
Record watcher := {
  w_id : Z; w_group : string; w_version : string; w_resource : string; w_namespace : string;
  w_labels : list selectorRequirement; w_fields : list selectorRequirement;
}.
(** A watcher's channel, with room for four events; it is named by the id of
    the watcher it was made for. *)
Record channel := { ch_buffer : list watchEvent; ch_closed : bool }.

Record objectStore := {
  st_objects : gmap objectKey object;
  st_watchers : gmap Z watcher;
  st_channels : gmap Z channel;
  st_nextWatcher : Z;
  st_resourceRev : Z;
  st_storedBytes : Z;
  st_generatedNames : Z;
  st_startedAt : Z;
  st_panicked : bool;
}.

Definition newObjectStore (now : Z) : objectStore :=
  {| st_objects := ∅; st_watchers := ∅; st_channels := ∅; st_nextWatcher := 0; st_resourceRev := 1000;
     st_storedBytes := 0; st_generatedNames := 0; st_startedAt := now; st_panicked := false |}.

Definition set_objects (s : objectStore) (m : gmap objectKey object) : objectStore :=
  {| st_objects := m; st_watchers := st_watchers s; st_channels := st_channels s;
     st_nextWatcher := st_nextWatcher s; st_resourceRev := st_resourceRev s; st_storedBytes := st_storedBytes s;
     st_generatedNames := st_generatedNames s; st_startedAt := st_startedAt s; st_panicked := st_panicked s |}.
Definition set_bytes (s : objectStore) (n : Z) : objectStore :=
  {| st_objects := st_objects s; st_watchers := st_watchers s; st_channels := st_channels s;
     st_nextWatcher := st_nextWatcher s; st_resourceRev := st_resourceRev s; st_storedBytes := n;
     st_generatedNames := st_generatedNames s; st_startedAt := st_startedAt s; st_panicked := st_panicked s |}.
Definition set_rev (s : objectStore) (r : Z) : objectStore :=
  {| st_objects := st_objects s; st_watchers := st_watchers s; st_channels := st_channels s;
     st_nextWatcher := st_nextWatcher s; st_resourceRev := r; st_storedBytes := st_storedBytes s;
     st_generatedNames := st_generatedNames s; st_startedAt := st_startedAt s; st_panicked := st_panicked s |}.
Definition set_watch (s : objectStore) (ws : gmap Z watcher) (chs : gmap Z channel) (next : Z) (p : bool) : objectStore :=
  {| st_objects := st_objects s; st_watchers := ws; st_channels := chs; st_nextWatcher := next;
     st_resourceRev := st_resourceRev s; st_storedBytes := st_storedBytes s;
     st_generatedNames := st_generatedNames s; st_startedAt := st_startedAt s; st_panicked := p |}.
Definition set_generated (s : objectStore) (n : Z) : objectStore :=
  {| st_objects := st_objects s; st_watchers := st_watchers s; st_channels := st_channels s;
     st_nextWatcher := st_nextWatcher s; st_resourceRev := st_resourceRev s; st_storedBytes := st_storedBytes s;
     st_generatedNames := n; st_startedAt := st_startedAt s; st_panicked := st_panicked s |}.

Inductive storeError := errStoreCapacity | errObjectAlreadyExists.
Inductive nameError := errGeneratedNameCapacity | errInvalidGeneratedName.

(** ** Channels *)

(** [close(ch)] *)
Definition close_channel (s : objectStore) (id : Z) : objectStore :=
  match st_channels s !! id with
  | Some ch =>
      if ch_closed ch
      then set_watch s (st_watchers s) (st_channels s) (st_nextWatcher s) true
      else set_watch s (st_watchers s) (<[id := {| ch_buffer := ch_buffer ch; ch_closed := true |}]> (st_channels s))
             (st_nextWatcher s) (st_panicked s)
  | None => set_watch s (st_watchers s) (st_channels s) (st_nextWatcher s) true
  end.
Definition drop_watcher (s : objectStore) (id : Z) : objectStore :=
  close_channel (set_watch s (delete id (st_watchers s)) (st_channels s) (st_nextWatcher s) (st_panicked s)) id.

Definition watcher_selects (w : watcher) (key : objectKey) (object : object) : bool :=
  String.eqb (w_group w) (key_group key) && String.eqb (w_version w) (key_version key)
  && String.eqb (w_resource w) (key_resource key)
  && (String.eqb (w_namespace w) "" || String.eqb (w_namespace w) (key_namespace key))
  && objectMatches object (w_labels w) (w_fields w).

(** One turn of the loop of [publishLocked]: send without blocking, or drop the
    watcher that does not keep up. *)
Definition publish_one (key : objectKey) (eventType : string) (object : object)
    (iw : Z * watcher) (s : objectStore) : objectStore * unit :=
  let '(id, w) := iw in
  if watcher_selects w key object then
    match st_channels s !! w_id w with
    | Some ch =>
        if ch_closed ch
        then (set_watch s (st_watchers s) (st_channels s) (st_nextWatcher s) true, tt)
        else if Z.of_nat (length (ch_buffer ch)) <? watch_capacity
        then (set_watch s (st_watchers s)
                (<[w_id w := {| ch_buffer := ch_buffer ch ++ [{| we_type := eventType; we_object := cloneObject object |}];
                                ch_closed := false |}]> (st_channels s))
                (st_nextWatcher s) (st_panicked s), tt)
        else (drop_watcher s id, tt)
    | None => (set_watch s (st_watchers s) (st_channels s) (st_nextWatcher s) true, tt)
    end
  else (s, tt).

Section store.
Context `{RangeOrder}.

Definition publishLocked (key : objectKey) (eventType : string) (object : object) (s : objectStore) : objectStore :=
  fst (st_for (range_entries 1 (map_to_list (st_watchers s))) (publish_one key eventType object) s).

(** ** Methods *)

(** [put] also changes the caller's object, whether it succeeds or not. *)
Definition put (key : objectKey) (obj : object) (eventType : string) (s : objectStore)
    : objectStore * object * option storeError :=
  let metadata := objectMap (idx obj "metadata") in
  let rev := u64 (st_resourceRev s + 1) in
  let metadata := oset metadata "resourceVersion" (VStr (itoa rev)) in
  let obj := oset obj "metadata" (VMap metadata) in
  let undo := set_rev s (u64 (rev - 1)) in
  match json_marshal (VMap obj) with
  | None => (undo, obj, Some errStoreCapacity)
  | Some encoded =>
      if maxStoredObjectBytes <? slen encoded then (undo, obj, Some errStoreCapacity)
      else
        let previous := st_objects s !! key in
        let exists_ := bool_decide (is_Some previous) in
        if exists_ && String.eqb eventType "ADDED" then (undo, obj, Some errObjectAlreadyExists)
        else if negb exists_ && (maxStoredObjects <=? Z.of_nat (size (st_objects s)))
        then (undo, obj, Some errStoreCapacity)
        else
          let oldBytes := match previous with
                          | Some p => default 0 (encoded_len p)
                          | None => 0
                          end in
          let newTotal := i64 (i64 (st_storedBytes s - oldBytes) + slen encoded) in
          if maxStoredBytes <? newTotal then (undo, obj, Some errStoreCapacity)
          else
            let copyOfObject := cloneObject obj in
            let s := set_rev s rev in
            let s := set_objects s (<[key := copyOfObject]> (st_objects s)) in
            let s := set_bytes s newTotal in
            (publishLocked key eventType copyOfObject s, obj, None)
  end.

Definition get (s : objectStore) (key : objectKey) : option object :=
  cloneObject <$> st_objects s !! key.

Definition delete_obj (key : objectKey) (s : objectStore) : objectStore * option object :=
  match st_objects s !! key with
  | None => (s, None)
  | Some object =>
      let s := set_objects s (delete key (st_objects s)) in
      let s := match encoded_len object with
               | Some n => set_bytes s (i64 (st_storedBytes s - n))
               | None => s
               end in
      let s := set_rev s (u64 (st_resourceRev s + 1)) in
      (publishLocked key "DELETED" (cloneObject object) s, Some (cloneObject object))
  end.

(** *** Listing *)
Definition selects (gv : groupVersion) (namespace resource : string) (labels fields : list selectorRequirement)
    (ko : objectKey * object) : bool :=
  String.eqb (key_group ko.1) (gv_group gv) && String.eqb (key_version ko.1) (gv_version gv)
  && String.eqb (key_resource ko.1) resource
  && (String.eqb namespace "" || String.eqb (key_namespace ko.1) namespace)
  && objectMatches ko.2 labels fields.

(** The order of candidates: by namespace, then by name. *)
Definition candidate_le (a b : objectKey * object) : Prop :=
  if String.eqb (key_namespace a.1) (key_namespace b.1)
  then String.le (key_name a.1) (key_name b.1)
  else String.le (key_namespace a.1) (key_namespace b.1).
#[export] Instance candidate_le_dec : RelDecision candidate_le.
Proof. intros a b. unfold candidate_le. case_match; apply _. Defined.

(** [sort.Slice] leaves the order of equal candidates open; candidates of one
    list differ in namespace or name, so the sorted order is unique. *)
Definition candidates (s : objectStore) (gv : groupVersion) (namespace resource : string)
    (labels fields : list selectorRequirement) : list (objectKey * object) :=
  merge_sort candidate_le
    (List.filter (selects gv namespace resource labels fields) (range_entries 2 (map_to_list (st_objects s)))).

Inductive listError := errContinueOffset | errStoredEncoding.

(** The loop that fills a page; [index] counts from the start of the list. *)
Fixpoint fill_page (limit usedBytes : Z) (items : list object) (index : Z) (l : list (objectKey * object))
    : option (list object * Z) :=
  match l with
  | [] => Some (items, index)
  | (_, object) :: l =>
      if Z.of_nat (length items) <? limit then
        match encoded_len object with
        | None => None
        | Some n =>
            if (maxListPageBytes <? usedBytes + n) && negb (bool_decide (items = [])) then Some (items, index)
            else fill_page limit (usedBytes + n) (items ++ [cloneObject object]) (index + 1) l
        end
      else Some (items, index)
  end.
Definition page_limit (limit : Z) : Z :=
  if (limit <=? 0) || (maxListPageItems <? limit) then maxListPageItems else limit.

(** Items, total, index of the next item. *)
Definition listPage (s : objectStore) (gv : groupVersion) (namespace resource : string)
    (labels fields : list selectorRequirement) (offset limit : Z) : (list object * Z * Z) + (Z * listError) :=
  let cs := candidates s gv namespace resource labels fields in
  let total := Z.of_nat (length cs) in
  if (offset <? 0) || (total <? offset) then inr (total, errContinueOffset)
  else match fill_page (page_limit limit) 0 [] offset (drop (Z.to_nat offset) cs) with
       | None => inr (total, errStoredEncoding)
       | Some (items, index) => inl (items, total, index)
       end.

(** An invalid selector counts as an empty one here. *)
Definition deleteMatching (gv : groupVersion) (namespace resource labelSelector fieldSelector : string)
    (s : objectStore) : objectStore * Z :=
  let labels := default [] (parseSelector labelSelector) in
  let fields := default [] (parseSelector fieldSelector) in
  let keys := map fst (List.filter (selects gv namespace resource labels fields)
                         (range_entries 3 (map_to_list (st_objects s)))) in
  foldl (fun sn key =>
    let '(s', d) := delete_obj key sn.1 in
    (s', match d with Some _ => sn.2 + 1 | None => sn.2 end)) (s, 0) keys.

Definition resourceVersion (s : objectStore) : string := itoa (st_resourceRev s).

Definition nextName (prefix : string) (s : objectStore) : objectStore * (string + nameError) :=
  if st_generatedNames s =? 2 ^ 64 - 1 then (s, inr errGeneratedNameCapacity)
  else
    let next := st_generatedNames s + 1 in
    let name := prefix +:+ zero_pad 20 next in
    if negb (validObjectName name) then (s, inr errInvalidGeneratedName)
    else (set_generated s next, inl name).

Definition namespaceExists (s : objectStore) (namespace : string) : bool :=
  match get s {| key_group := ""; key_version := "v1"; key_resource := "namespaces";
                 key_namespace := ""; key_name := namespace |} with
  | Some _ => true | None => false end.

Definition watch (gv : groupVersion) (namespace resource : string) (labels fields : list selectorRequirement)
    (s : objectStore) : objectStore * watcher :=
  let next := u64 (st_nextWatcher s + 1) in
  let w := {| w_id := next; w_group := gv_group gv; w_version := gv_version gv; w_resource := resource;
              w_namespace := namespace; w_labels := labels; w_fields := fields |} in
  (set_watch s (<[next := w]> (st_watchers s))
     (<[next := {| ch_buffer := []; ch_closed := false |}]> (st_channels s)) next (st_panicked s), w).

Definition unwatch (w : watcher) (s : objectStore) : objectStore :=
  match st_watchers s !! w_id w with
  | Some _ => drop_watcher s (w_id w)
  | None => s
  end.

(** The reader's receive: the oldest event, or the end of a closed channel that
    was emptied; [None] when it would block. *)
Definition receive (w : watcher) (s : objectStore) : objectStore * option (option watchEvent) :=
  match st_channels s !! w_id w with
  | Some ch =>
      match ch_buffer ch with
      | e :: rest =>
          (set_watch s (st_watchers s)
             (<[w_id w := {| ch_buffer := rest; ch_closed := ch_closed ch |}]> (st_channels s))
             (st_nextWatcher s) (st_panicked s), Some (Some e))
      | [] => (s, if ch_closed ch then Some None else None)
      end
  | None => (s, None)
  end.

(** [stableUID] *)
Definition stableUID (seed : string) : string :=
  let d := sha256 seed in
  let part a b := hex_bytes (take (b - a) (drop a d)) in
  part 0%nat 4%nat +:+ "-" +:+ part 4%nat 6%nat +:+ "-" +:+ part 6%nat 8%nat +:+ "-" +:+ part 8%nat 10%nat +:+ "-" +:+ part 10%nat 16%nat.

(** [seed]: [true] when the object was stored. *)
Definition seed_object (st : objectStore) (gv : groupVersion) (resource namespace name : string) (obj : object) : object :=
  let metadata := objectMap (idx obj "metadata") in
  let metadata := oset metadata "name" (VStr name) in
  let metadata := if String.eqb namespace "" then metadata else oset metadata "namespace" (VStr namespace) in
  let metadata := oset metadata "uid"
    (VStr (stableUID (apiVersionFor gv +:+ "/" +:+ namespace +:+ "/" +:+ resource +:+ "/" +:+ name))) in
  let metadata := if has_key metadata "creationTimestamp" then metadata
                  else oset metadata "creationTimestamp" (VStr (rfc3339 (st_startedAt st))) in
  let obj := oset obj "apiVersion" (VStr (apiVersionFor gv)) in
  let obj := match sKind gv resource with Some kind => oset obj "kind" (VStr kind) | None => obj end in
  oset obj "metadata" (VMap metadata).
Definition seed (gv : groupVersion) (resource namespace name : string) (obj : object) (s : objectStore)
    : objectStore * bool :=
  let key := {| key_group := gv_group gv; key_version := gv_version gv; key_resource := resource;
                key_namespace := namespace; key_name := name |} in
  let '(s, _, err) := put key (seed_object s gv resource namespace name obj) "ADDED" s in
  (s, match err with None => true | Some _ => false end).
End store.
