(* ===== verification/StoreFacts.v ===== *)
(** * The object store: what its methods guarantee

    Publication in closed form, the specification of each method on every
    branch, the invariant of all reachable states, byte accounting, and
    listing. *)
From S2P Require Import Prelude GoStrings GoCodec Value Json Names Selector Catalog Store.

#[local] Set Warnings "-clear-no-such-hyp".
#[local] Open Scope string_scope.
#[local] Open Scope list_scope.
#[local] Open Scope Z_scope.

(** ** Publication *)

(** Registered watchers are filed under their ids and their channels are open. *)
Definition watchers_ok (s : objectStore) : Prop :=
  forall id w, st_watchers s !! id = Some w ->
    w_id w = id /\ exists ch, st_channels s !! id = Some ch /\ ch_closed ch = false.

Definition event_of (eventType : string) (obj : object) : watchEvent :=
  {| we_type := eventType; we_object := cloneObject obj |}.
Definition has_room (ch : channel) : bool := Z.of_nat (length (ch_buffer ch)) <? watch_capacity.

(** What one event does to one watcher: nothing, one more event in its
    channel, or its removal when the channel is full. *)
Definition published (key : objectKey) (eventType : string) (obj : object) (w : watcher) (ch : channel)
    : option watcher * channel :=
  if watcher_selects w key obj then
    if has_room ch
    then (Some w, {| ch_buffer := ch_buffer ch ++ [event_of eventType obj]; ch_closed := false |})
    else (None, {| ch_buffer := ch_buffer ch; ch_closed := true |})
  else (Some w, ch).

Lemma publish_one_spec key ev obj id w ch s :
  st_watchers s !! id = Some w -> w_id w = id -> st_channels s !! id = Some ch -> ch_closed ch = false ->
  fst (publish_one key ev obj (id, w) s) =
    set_watch s (partial_alter (fun _ => (published key ev obj w ch).1) id (st_watchers s))
      (<[id := (published key ev obj w ch).2]> (st_channels s)) (st_nextWatcher s) (st_panicked s).
Proof.
  intros Hw Hid Hch Hopen. unfold publish_one, published. destruct (watcher_selects w key obj).
  - rewrite Hid, Hch, Hopen. unfold has_room. case_match; cbn [fst snd].
    + f_equal. symmetry. exact (insert_id (st_watchers s) id w Hw).
    + unfold drop_watcher, close_channel. cbn [st_channels set_watch st_watchers st_nextWatcher st_panicked].
      rewrite Hch, Hopen. reflexivity.
  - cbn [fst snd]. rewrite (insert_id (st_channels s)) by done.
    change (partial_alter _ id (st_watchers s)) with (<[id := w]> (st_watchers s)).
    rewrite insert_id by done. by destruct s.
Qed.

(** The fields publication does not touch. *)
Record same_data (s s' : objectStore) : Prop := {
  sd_objects : st_objects s' = st_objects s;
  sd_rev : st_resourceRev s' = st_resourceRev s;
  sd_bytes : st_storedBytes s' = st_storedBytes s;
  sd_generated : st_generatedNames s' = st_generatedNames s;
  sd_started : st_startedAt s' = st_startedAt s;
  sd_next : st_nextWatcher s' = st_nextWatcher s;
  sd_panicked : st_panicked s' = st_panicked s;
}.
Lemma same_data_refl s : same_data s s.
Proof. by split. Qed.
Lemma same_data_trans s1 s2 s3 : same_data s1 s2 -> same_data s2 s3 -> same_data s1 s3.
Proof. intros [] []. split; congruence. Qed.
Lemma same_data_watch s ws chs : same_data s (set_watch s ws chs (st_nextWatcher s) (st_panicked s)).
Proof. by split. Qed.

Lemma publish_loop key ev obj l s :
  NoDup l.*1 -> (forall id w, (id, w) ∈ l -> st_watchers s !! id = Some w) -> watchers_ok s ->
  let s' := fst (st_for l (publish_one key ev obj) s) in
  same_data s s' /\
  (forall id, id ∉ l.*1 -> st_watchers s' !! id = st_watchers s !! id /\ st_channels s' !! id = st_channels s !! id) /\
  (forall id w ch, (id, w) ∈ l -> st_channels s !! id = Some ch ->
     st_watchers s' !! id = (published key ev obj w ch).1 /\
     st_channels s' !! id = Some (published key ev obj w ch).2).
Proof.
  revert s. induction l as [|[id w] l IH]; intros s Hnd Hin Hok.
  { split; [apply same_data_refl|]. split; [done|]. intros ??? Hi. by apply elem_of_nil in Hi. }
  rewrite fmap_cons in Hnd. apply NoDup_cons in Hnd as [Hid Hnd]. cbn [fst] in Hid.
  assert (Hw : st_watchers s !! id = Some w) by (apply Hin; set_solver).
  destruct (Hok id w Hw) as (Hwid & ch & Hch & Hopen).
  cbn [st_for]. unfold st_bind.
  pose proof (publish_one_spec key ev obj id w ch s Hw Hwid Hch Hopen) as Hone.
  destruct (publish_one key ev obj (id, w) s) as [s1 u]. cbn [fst] in Hone. cbn zeta.
  assert (Hother : forall id', id' <> id -> st_watchers s1 !! id' = st_watchers s !! id' /\
                                            st_channels s1 !! id' = st_channels s !! id').
  { intros id' Hne. subst s1. cbn [st_watchers st_channels set_watch].
    by rewrite lookup_partial_alter_ne, lookup_insert_ne. }
  destruct (IH s1) as (Hd & Hout & Hins).
  - done.
  - intros id' w' Hi'. destruct (decide (id' = id)) as [->|Hne].
    + exfalso. apply Hid, list_elem_of_fmap. by exists (id, w').
    + rewrite (proj1 (Hother id' Hne)). apply Hin. set_solver.
  - intros id' w' Hw'. destruct (decide (id' = id)) as [->|Hne].
    + subst s1. cbn [st_watchers st_channels set_watch] in *. rewrite lookup_partial_alter_eq in Hw'.
      rewrite lookup_insert_eq. revert Hw'. unfold published. repeat case_match; simpl; intros; simplify_eq; eauto.
    + rewrite (proj1 (Hother id' Hne)) in Hw'. rewrite (proj2 (Hother id' Hne)). by apply Hok.
  - split; [|split].
    + eapply same_data_trans; [|exact Hd]. subst s1. apply same_data_watch.
    + intros id' Hn. rewrite fmap_cons in Hn. cbn [fst] in Hn.
      destruct (Hout id') as [-> ->]; [set_solver|]. apply Hother. set_solver.
    + intros id' w' ch' Hi' Hch'. destruct (decide (id' = id)) as [->|Hne].
      * assert (w' = w) as ->. { assert (st_watchers s !! id = Some w') by (apply Hin; set_solver). congruence. }
        assert (ch' = ch) as -> by congruence. destruct (Hout id Hid) as [-> ->].
        rewrite Hone. cbn [st_watchers st_channels set_watch]. by rewrite lookup_partial_alter_eq, lookup_insert_eq.
      * apply Hins; [set_solver|]. by rewrite (proj2 (Hother id' Hne)).
Qed.

Section facts.
Context `{RangeOrder}.

Lemma publish_entries (m : gmap Z watcher) :
  NoDup (range_entries 1 (map_to_list m)).*1 /\
  forall id w, (id, w) ∈ range_entries 1 (map_to_list m) <-> m !! id = Some w.
Proof.
  split.
  - rewrite range_entries_perm. apply NoDup_fst_map_to_list.
  - intros id w. rewrite range_entries_perm. apply elem_of_map_to_list.
Qed.

(** Publication, watcher by watcher; the order of the loop does not matter. *)
Lemma publish_spec key ev obj s : watchers_ok s ->
  let s' := publishLocked key ev obj s in
  same_data s s' /\
  (forall id, st_watchers s !! id = None ->
     st_watchers s' !! id = None /\ st_channels s' !! id = st_channels s !! id) /\
  (forall id w ch, st_watchers s !! id = Some w -> st_channels s !! id = Some ch ->
     st_watchers s' !! id = (published key ev obj w ch).1 /\
     st_channels s' !! id = Some (published key ev obj w ch).2).
Proof.
  intros Hok. destruct (publish_entries (st_watchers s)) as [Hnd Hel].
  destruct (publish_loop key ev obj (range_entries 1 (map_to_list (st_watchers s))) s) as (Hd & Hout & Hins);
    [done|by intros id w Hi%Hel|done|]. cbn zeta in *.
  split; [done|]. split.
  - intros id Hn. destruct (Hout id) as [E1 E2].
    + intros Hi. apply list_elem_of_fmap in Hi as ([id' w] & -> & Hi). apply Hel in Hi. simpl in Hn. congruence.
    + unfold publishLocked. rewrite E1, E2. by rewrite Hn.
  - intros id w ch Hw Hch. apply Hins; [by apply Hel|done].
Qed.

(** ** [put] *)

(** The object with the next resource version written into its metadata. *)
Definition stamp (s : objectStore) (obj : object) : object :=
  oset obj "metadata"
    (VMap (oset (objectMap (idx obj "metadata")) "resourceVersion" (VStr (itoa (u64 (st_resourceRev s + 1)))))).
Definition stored_size (o : object) : Z := default 0 (encoded_len o).
Definition total_after (s : objectStore) (key : objectKey) (n : Z) : Z :=
  i64 (i64 (st_storedBytes s - match st_objects s !! key with Some p => stored_size p | None => 0 end) + n).
(** Why [put] refuses, in the order in which the reasons are tried. *)
Definition put_refuses (s : objectStore) (key : objectKey) (obj : object) (eventType : string) : option storeError :=
  match encoded_len (stamp s obj) with
  | None => Some errStoreCapacity
  | Some n =>
      if maxStoredObjectBytes <? n then Some errStoreCapacity
      else if bool_decide (is_Some (st_objects s !! key)) && String.eqb eventType "ADDED" then Some errObjectAlreadyExists
      else if bool_decide (st_objects s !! key = None) && (maxStoredObjects <=? Z.of_nat (size (st_objects s)))
      then Some errStoreCapacity
      else if maxStoredBytes <? total_after s key n then Some errStoreCapacity
      else None
  end.
(** The store after an accepted [put]. *)
Definition put_store (s : objectStore) (key : objectKey) (obj : object) (eventType : string) : objectStore :=
  let o := stamp s obj in
  publishLocked key eventType (cloneObject o)
    (set_bytes (set_objects (set_rev s (u64 (st_resourceRev s + 1))) (<[key := cloneObject o]> (st_objects s)))
       (total_after s key (stored_size o))).

Definition rev_ok (s : objectStore) : Prop := 0 <= st_resourceRev s < 2 ^ 64.

Lemma set_rev_undo s : rev_ok s -> set_rev s (u64 (u64 (st_resourceRev s + 1) - 1)) = s.
Proof.
  intros Hr. replace (u64 (u64 (st_resourceRev s + 1) - 1)) with (st_resourceRev s); [by destruct s|].
  unfold u64, rev_ok in *. rewrite Zminus_mod_idemp_l. replace (st_resourceRev s + 1 - 1) with (st_resourceRev s) by lia.
  by rewrite Z.mod_small.
Qed.

Lemma put_unfold key obj ev s : rev_ok s ->
  put key obj ev s =
    match put_refuses s key obj ev with
    | Some e => (s, stamp s obj, Some e)
    | None => (put_store s key obj ev, stamp s obj, None)
    end.
Proof.
  intros Hr. unfold put, put_refuses, put_store, encoded_len, stored_size. fold (stamp s obj). cbn zeta.
  rewrite set_rev_undo by done.
  destruct (json_marshal (VMap (stamp s obj))) as [t|] eqn:Et; [|done]. cbn [fmap option_fmap option_map].
  destruct (maxStoredObjectBytes <? slen t); [done|].
  destruct (st_objects s !! key) as [p|] eqn:Ep.
  - rewrite (bool_decide_eq_true_2 (is_Some (Some p))) by eauto. cbn [andb negb].
    destruct (String.eqb ev "ADDED"); [done|].
    rewrite (bool_decide_eq_false_2 (Some p = None)) by done. cbn [andb].
    unfold total_after, stored_size, encoded_len. rewrite Ep. case_match; [done|]. by rewrite Et.
  - rewrite (bool_decide_eq_false_2 (is_Some None)) by (by intros [? ?]). cbn [andb negb].
    rewrite (bool_decide_eq_true_2 (None = None)) by done. cbn [andb].
    destruct (maxStoredObjects <=? _); [done|].
    unfold total_after, stored_size, encoded_len. rewrite Ep. case_match; [done|]. by rewrite Et.
Qed.

Lemma put_store_fields s key obj ev : watchers_ok s ->
  let s' := put_store s key obj ev in
  st_objects s' = <[key := cloneObject (stamp s obj)]> (st_objects s) /\
  st_resourceRev s' = u64 (st_resourceRev s + 1) /\
  st_storedBytes s' = total_after s key (stored_size (stamp s obj)) /\
  st_generatedNames s' = st_generatedNames s /\ st_nextWatcher s' = st_nextWatcher s /\
  st_panicked s' = st_panicked s.
Proof.
  intros Hw. unfold put_store. cbn zeta.
  match goal with |- context [publishLocked _ _ _ ?s0] => destruct (publish_spec key ev (cloneObject (stamp s obj)) s0) as [Hd _]; [exact Hw|] end.
  destruct Hd as [H1 H2 H3 H4 H5 H6 H7]. rewrite H1, H2, H3, H4, H6, H7. done.
Qed.

(** ** [delete] *)
Lemma delete_fields key s o : watchers_ok s -> st_objects s !! key = Some o ->
  let s' := (delete_obj key s).1 in
  st_objects s' = delete key (st_objects s) /\
  st_resourceRev s' = u64 (st_resourceRev s + 1) /\
  st_storedBytes s' = match encoded_len o with Some n => i64 (st_storedBytes s - n) | None => st_storedBytes s end /\
  st_generatedNames s' = st_generatedNames s /\ st_nextWatcher s' = st_nextWatcher s /\
  st_panicked s' = st_panicked s /\
  (delete_obj key s).2 = Some (cloneObject o).
Proof.
  intros Hw Ho. unfold delete_obj. rewrite Ho. cbn zeta. cbn [fst snd].
  match goal with |- context [publishLocked _ _ _ ?s0] =>
    destruct (publish_spec key "DELETED" (cloneObject o) s0) as [Hd _] end.
  { destruct (encoded_len o); exact Hw. }
  destruct Hd as [H1 H2 H3 H4 H5 H6 H7]. rewrite H1, H2, H3, H4, H6, H7. by destruct (encoded_len o).
Qed.

Lemma delete_absent key s : st_objects s !! key = None -> delete_obj key s = (s, None).
Proof. intros Ho. unfold delete_obj. by rewrite Ho. Qed.

(** ** The invariant *)
Record store_inv (s : objectStore) : Prop := {
  si_count : Z.of_nat (size (st_objects s)) <= maxStoredObjects;
  si_rev : rev_ok s;
  si_names : 0 <= st_generatedNames s < 2 ^ 64;
  si_watchers : watchers_ok s;
  si_buffers : forall id ch, st_channels s !! id = Some ch -> Z.of_nat (length (ch_buffer ch)) <= watch_capacity;
  si_no_panic : st_panicked s = false;
}.

Lemma publish_watch_inv key ev obj s :
  watchers_ok s -> (forall id ch, st_channels s !! id = Some ch -> Z.of_nat (length (ch_buffer ch)) <= watch_capacity) ->
  let s' := publishLocked key ev obj s in
  watchers_ok s' /\ (forall id ch, st_channels s' !! id = Some ch -> Z.of_nat (length (ch_buffer ch)) <= watch_capacity).
Proof.
  intros Hok Hbuf. destruct (publish_spec key ev obj s Hok) as (_ & Hnone & Hsome). cbn zeta in *.
  split.
  - intros id w Hw. destruct (st_watchers s !! id) as [w0|] eqn:E0.
    + destruct (Hok id w0 E0) as (Hid & ch & Hch & Hopen). destruct (Hsome id w0 ch E0 Hch) as [E1 E2].
      rewrite E1 in Hw. rewrite E2. revert Hw. unfold published.
      repeat case_match; simpl; intros; simplify_eq; eauto.
    + destruct (Hnone id E0) as [E1 _]. congruence.
  - intros id ch' Hch'. destruct (st_watchers s !! id) as [w0|] eqn:E0.
    + destruct (Hok id w0 E0) as (Hid & ch & Hch & Hopen). destruct (Hsome id w0 ch E0 Hch) as [_ E2].
      rewrite E2 in Hch'. specialize (Hbuf id ch Hch). revert Hch'. unfold published, has_room.
      repeat case_match; simpl; intros; simplify_eq; simpl; bool_to_prop; try done.
      rewrite length_app. simpl. lia.
    + destruct (Hnone id E0) as [_ E2]. rewrite E2 in Hch'. by apply (Hbuf id).
Qed.
Lemma publish_inv key ev obj s : store_inv s -> store_inv (publishLocked key ev obj s).
Proof.
  intros [Hc Hr Hn Hw Hb Hp]. destruct (publish_spec key ev obj s Hw) as ([H1 H2 H3 H4 H5 H6 H7] & _ & _).
  destruct (publish_watch_inv key ev obj s Hw Hb) as [Hw' Hb'].
  split; [by rewrite H1|unfold rev_ok; by rewrite H2|by rewrite H4|done|done|by rewrite H7].
Qed.

Lemma put_inv key obj ev s : store_inv s -> store_inv (put key obj ev s).1.1.
Proof.
  intros Hs. rewrite put_unfold by apply Hs. destruct (put_refuses s key obj ev) eqn:E; [done|]. cbn [fst].
  unfold put_store. apply publish_inv. destruct Hs as [Hc Hr Hn Hw Hb Hp].
  split; [|apply u64_range|done|exact Hw|done|done]. cbn [st_objects set_bytes set_objects].
  revert E. unfold put_refuses. destruct (encoded_len _); [|done].
  destruct (st_objects s !! key) as [p|] eqn:Ep.
  - intros _. rewrite map_size_insert, Ep. done.
  - rewrite (bool_decide_eq_true_2 (None = None)) by done. rewrite map_size_insert, Ep.
    destruct (maxStoredObjects <=? _) eqn:El; [by repeat case_match|]. bool_to_prop. lia.
Qed.
Lemma delete_inv key s : store_inv s -> store_inv (delete_obj key s).1.
Proof.
  intros Hs. unfold delete_obj. destruct (st_objects s !! key) as [o|] eqn:Eo; [|done].
  apply publish_inv. destruct Hs as [Hc Hr Hn Hw Hb Hp].
  assert (Hsz : (size (delete key (st_objects s)) <= size (st_objects s))%nat).
  { rewrite map_size_delete, Eo. lia. }
  split; [|apply u64_range| | |  |]; destruct (encoded_len o); simpl; try done; lia.
Qed.
Lemma watch_inv gv ns r ls fs s : store_inv s -> store_inv (watch gv ns r ls fs s).1.
Proof.
  intros [Hc Hr Hn Hw Hb Hp]. split; try done; cbn [watch fst st_watchers st_channels set_watch].
  - intros id w. destruct (decide (id = u64 (st_nextWatcher s + 1))) as [->|Hne].
    + cbn [st_watchers st_channels set_watch watch fst]. rewrite !lookup_insert_eq. intros [= <-]. split; [done|]. eauto.
    + cbn [st_watchers st_channels set_watch watch fst]. rewrite !lookup_insert_ne by done. apply Hw.
  - intros id ch. destruct (decide (id = u64 (st_nextWatcher s + 1))) as [->|Hne].
    + rewrite lookup_insert_eq. intros [= <-]. done.
    + rewrite lookup_insert_ne by done. apply Hb.
Qed.
Lemma unwatch_inv w s : store_inv s -> store_inv (unwatch w s).
Proof.
  intros Hs. unfold unwatch. destruct (st_watchers s !! w_id w) as [w0|] eqn:Ew; [|done].
  destruct Hs as [Hc Hr Hn Hw Hb Hp]. destruct (Hw _ _ Ew) as (Hid & ch & Hch & Hopen).
  unfold drop_watcher, close_channel. cbn [st_channels set_watch st_watchers st_nextWatcher st_panicked].
  rewrite Hch, Hopen. split; try done; cbn [st_watchers st_channels set_watch].
  - intros id w1. cbn [st_watchers st_channels set_watch]. intros [Hne Hl]%lookup_delete_Some.
    rewrite lookup_insert_ne by done. by apply Hw.
  - intros id ch1. destruct (decide (id = w_id w)) as [->|Hne].
    + rewrite lookup_insert_eq. intros [= <-]. exact (Hb _ _ Hch).
    + rewrite lookup_insert_ne by done. apply Hb.
Qed.
Lemma receive_inv w s : store_inv s -> store_inv (receive w s).1.
Proof.
  intros Hs. unfold receive. destruct (st_channels s !! w_id w) as [ch|] eqn:Ech; [|done].
  destruct (ch_buffer ch) as [|e rest] eqn:Eb; [done|]. destruct Hs as [Hc Hr Hn Hw Hb Hp]. cbn [fst].
  split; try done; cbn [st_watchers st_channels set_watch].
  - intros id w1 Hw1. destruct (Hw id w1 Hw1) as (Hid & ch1 & Hch1 & Hopen). split; [done|].
    cbn [st_channels set_watch]. destruct (decide (id = w_id w)) as [->|Hne].
    + rewrite lookup_insert_eq. eexists. split; [done|]. simpl. congruence.
    + rewrite lookup_insert_ne by done. eauto.
  - intros id ch1. destruct (decide (id = w_id w)) as [->|Hne].
    + rewrite lookup_insert_eq. intros [= <-]. specialize (Hb _ _ Ech). rewrite Eb in Hb. simpl in *. lia.
    + rewrite lookup_insert_ne by done. apply Hb.
Qed.
Lemma nextName_inv p s : store_inv s -> store_inv (nextName p s).1.
Proof.
  intros Hs. unfold nextName. destruct (_ =? _) eqn:E; [done|]. destruct (negb _); [done|].
  destruct Hs as [Hc Hr Hn Hw Hb Hp]. bool_to_prop. split; try done. simpl. lia.
Qed.
End facts.
