(* ===== verification/StoreProps.v ===== *)
(** * The object store: properties

    Safety of every interleaving of its methods, the contract of [put],
    [delete] and [get], exact byte accounting and where it is lost, event
    delivery, generated names. *)
From S2P Require Import Prelude GoStrings GoCodec Value Json Names Selector Catalog Store StoreFacts.

#[local] Open Scope string_scope.
#[local] Open Scope list_scope.
#[local] Open Scope Z_scope.

Section props.
Context `{RangeOrder}.

(** ** Interleavings

    One step is one method call, by any client.  [accepts] restricts the objects
    that are put. *)
Inductive store_step (accepts : objectStore -> object -> Prop) : objectStore -> objectStore -> Prop :=
  | step_put key obj ev s : accepts s obj -> store_step accepts s (put key obj ev s).1.1
  | step_delete key s : store_step accepts s (delete_obj key s).1
  | step_watch gv ns r ls fs s : store_step accepts s (watch gv ns r ls fs s).1
  | step_unwatch w s : store_step accepts s (unwatch w s)
  | step_receive w s : store_step accepts s (receive w s).1
  | step_nextName prefix s : store_step accepts s (nextName prefix s).1.
Definition reachable_with (accepts : objectStore -> object -> Prop) (now : Z) (s : objectStore) : Prop :=
  rtc (store_step accepts) (newObjectStore now) s.
Definition store_reachable : Z -> objectStore -> Prop := reachable_with (fun _ _ => True).

Lemma new_store_inv now : store_inv (newObjectStore now).
Proof. split; try done; simpl; intros ?? Hl; rewrite lookup_empty in Hl; done. Qed.
Lemma store_step_inv accepts s s' : store_step accepts s s' -> store_inv s -> store_inv s'.
Proof.
  destruct 1; intros; auto using put_inv, delete_inv, watch_inv, unwatch_inv, receive_inv, nextName_inv.
Qed.
(** Rule induction: what holds at first and is kept by the steps of states that
    satisfy the invariant holds in every reachable state. *)
Lemma reachable_ind accepts (P : objectStore -> Prop) now s :
  P (newObjectStore now) -> (forall s s', store_inv s -> P s -> store_step accepts s s' -> P s') ->
  reachable_with accepts now s -> P s /\ store_inv s.
Proof.
  unfold reachable_with. intros H0 Hstep Hr.
  assert (G : P (newObjectStore now) /\ store_inv (newObjectStore now)) by (split; [done|apply new_store_inv]).
  induction Hr as [|? ? ? Hs _ IH]; [done|]. apply IH; destruct G; eauto using store_step_inv.
Qed.
Lemma reachable_inv accepts now s : reachable_with accepts now s -> store_inv s.
Proof. intros Hr. by apply (reachable_ind accepts (fun _ => True) now s). Qed.


(** ** [put], [get], [delete] *)

(** An accepted write stores the stamped object and nothing else. *)
Lemma put_accepted key obj ev s s' obj' : store_inv s -> put key obj ev s = (s', obj', None) ->
  obj' = stamp s obj /\ st_objects s' = <[key := cloneObject (stamp s obj)]> (st_objects s) /\
  st_storedBytes s' = total_after s key (stored_size (stamp s obj)) /\ put_refuses s key obj ev = None.
Proof.
  intros Hs. rewrite put_unfold by apply Hs. destruct (put_refuses s key obj ev); [done|]. intros [= <- <-].
  destruct (put_store_fields s key obj ev (si_watchers _ Hs)) as (H1 & H2 & H3 & _). done.
Qed.


Lemma stamp_normal s obj : normal obj -> normal (stamp s obj).
Proof.
  intros Hn. destruct (normal_idx obj "metadata" Hn) as [Hm Hd].
  assert (Hmap : normal (objectMap (idx obj "metadata"))) by (apply normal_objectMap; [done|lia]).
  assert (Hv : normal_val (VStr (itoa (u64 (st_resourceRev s + 1)))) = true).
  { cbn [normal_val]. apply String.eqb_eq, itoa_ascii. }
  unfold stamp. set (md := oset _ "resourceVersion" _).
  assert (Hmd : normal md) by (apply normal_oset; [done|done|done|simpl; unfold max_json_depth; lia]).
  apply normal_oset; [done|done|apply Hmd|].
  (* one level below the object's own nesting limit *)
  assert (Hdm : 1 + vdepth (VMap (objectMap (idx obj "metadata"))) <= max_json_depth).
  { destruct (idx obj "metadata"); simpl in Hd |- *; unfold max_json_depth in *; lia. }
  revert Hdm. unfold md. generalize (objectMap (idx obj "metadata")). intros m Hdm. cbn [vdepth] in *.
  assert (max_Z (map (fun kv => vdepth kv.2) (oset m "resourceVersion" (VStr (itoa (u64 (st_resourceRev s + 1))))))
          <= max_json_depth - 2); [|lia].
  apply max_Z_le; [unfold max_json_depth; lia|]. intros z (kv & -> & [->|Hkv]%oset_lookup_elem)%list_elem_of_fmap.
  - simpl. unfold max_json_depth. lia.
  - assert (vdepth kv.2 <= max_Z (map (fun kv => vdepth kv.2) m)); [|lia].
    apply max_Z_ge, list_elem_of_fmap. eauto.
Qed.

(** Read your writes: after an accepted [put] of an object that came out of
    the decoder, [get] returns exactly the stamped object, [get] of any other
    key is unchanged; after [delete] the key is gone, the deleted object is
    returned, and the other keys are unchanged. *)
Theorem read_your_writes : forall key obj ev s s' obj', store_inv s -> normal obj ->
  put key obj ev s = (s', obj', None) ->
  get s' key = Some obj' /\
  (forall k, k <> key -> get s' k = get s k) /\
  let '(s'', deleted) := delete_obj key s' in
  deleted = Some obj' /\ get s'' key = None /\ (forall k, k <> key -> get s'' k = get s k).
Proof.
  intros key obj ev s s' obj' Hs Hn Hput.
  destruct (put_accepted key obj ev s s' obj' Hs Hput) as (-> & Ho & _). pose proof (put_inv key obj ev s Hs) as Hs'. rewrite Hput in Hs'. cbn [fst] in Hs'.
  pose proof (stamp_normal s obj Hn) as Hns. rewrite (clone_normal _ Hns) in Ho.
  assert (Hk : st_objects s' !! key = Some (stamp s obj)) by (rewrite Ho; apply lookup_insert_eq).
  assert (Hother : forall k, k <> key -> st_objects s' !! k = st_objects s !! k).
  { intros k Hne. rewrite Ho. by apply lookup_insert_ne. }
  unfold get. rewrite Hk. cbn [fmap option_fmap option_map]. rewrite (clone_normal _ Hns).
  split; [done|]. split; [intros k Hne; by rewrite Hother|].
  destruct (delete_fields key s' (stamp s obj) (si_watchers _ Hs') Hk) as (Hd & _ & _ & _ & _ & _ & Hr).
  destruct (delete_obj key s') as [s'' d]. cbn [fst snd] in Hd, Hr. rewrite Hd, Hr, (clone_normal _ Hns).
  split; [done|]. rewrite lookup_delete_eq. split; [done|].
  intros k Hne. rewrite lookup_delete_ne by done. by rewrite Hother.
Qed.

(** ** Byte accounting *)

(** The object's encoding keeps its length when it is decoded and encoded again. *)
Definition stable (s : objectStore) (obj : object) : Prop :=
  encoded_len (cloneObject (stamp s obj)) = encoded_len (stamp s obj).
Definition bytes_exact (s : objectStore) : Prop :=
  st_storedBytes s = map_sum stored_size (st_objects s) /\ st_storedBytes s <= maxStoredBytes /\
  forall k o, st_objects s !! k = Some o -> is_Some (encoded_len o).

Lemma encoded_len_nonneg o n : encoded_len o = Some n -> 0 <= n.
Proof. unfold encoded_len. destruct (json_marshal _); [|done]. simpl. intros [= <-]. apply slen_nonneg. Qed.
Lemma stored_size_nonneg o : 0 <= stored_size o.
Proof. unfold stored_size. destruct (encoded_len o) eqn:E; simpl; [by eapply encoded_len_nonneg|lia]. Qed.

Lemma put_exact key obj ev s : store_inv s -> bytes_exact s -> stable s obj -> bytes_exact (put key obj ev s).1.1.
Proof.
  intros Hs (Hsum & Hmax & Henc) Hst. rewrite put_unfold by apply Hs.
  destruct (put_refuses s key obj ev) eqn:E; [done|]. cbn [fst].
  destruct (put_store_fields s key obj ev (si_watchers _ Hs)) as (Ho & _ & Hb & _).
  unfold bytes_exact. rewrite Ho, Hb. revert E. unfold put_refuses.
  destruct (encoded_len (stamp s obj)) as [n|] eqn:En; [|done].
  destruct (maxStoredObjectBytes <? n) eqn:Eobj; [done|].
  assert (Hn : stored_size (stamp s obj) = n) by (unfold stored_size; by rewrite En).
  assert (Hn' : stored_size (cloneObject (stamp s obj)) = n) by (unfold stored_size; by rewrite Hst, En).
  pose proof (encoded_len_nonneg _ _ En) as Hn0. rewrite Hn. intros E.
  pose proof (map_sum_nonneg stored_size (st_objects s) stored_size_nonneg) as Hnn.
  unfold maxStoredObjectBytes, maxStoredBytes in *. bool_to_prop.
  assert (Ht : total_after s key n = map_sum stored_size (<[key:=cloneObject (stamp s obj)]> (st_objects s))).
  { unfold total_after. destruct (st_objects s !! key) as [p|] eqn:Ep.
    - rewrite (map_sum_overwrite _ _ _ _ _ Ep), Hn'. rewrite (map_sum_delete _ _ _ _ Ep) in Hsum.
      pose proof (map_sum_nonneg stored_size (delete key (st_objects s)) stored_size_nonneg).
      pose proof (stored_size_nonneg p). rewrite !i64_small; rewrite ?(map_sum_delete _ _ _ _ Ep); try rewrite !i64_small; lia.
    - rewrite map_sum_insert by done. rewrite Hn'. rewrite !i64_small; try rewrite !i64_small; lia. }
  rewrite Ht in *. split; [done|]. split.
  - repeat case_match; bool_to_prop; try done.
  - intros k o. destruct (decide (k = key)) as [->|Hne].
    + rewrite lookup_insert_eq. intros [= <-]. rewrite Hst, En. eauto.
    + rewrite lookup_insert_ne by done. apply Henc.
Qed.
Lemma delete_exact key s : store_inv s -> bytes_exact s -> bytes_exact (delete_obj key s).1.
Proof.
  intros Hs (Hsum & Hmax & Henc). destruct (st_objects s !! key) as [o|] eqn:Eo; [|by rewrite delete_absent].
  destruct (delete_fields key s o (si_watchers _ Hs) Eo) as (Ho & _ & Hb & _).
  unfold bytes_exact. rewrite Ho, Hb. destruct (Henc key o Eo) as [n Hn]. rewrite Hn.
  rewrite (map_sum_delete _ _ _ _ Eo) in Hsum.
  assert (Hsz : stored_size o = n) by (unfold stored_size; by rewrite Hn). rewrite Hsz in Hsum.
  pose proof (map_sum_nonneg stored_size (delete key (st_objects s)) stored_size_nonneg).
  pose proof (encoded_len_nonneg _ _ Hn). unfold maxStoredBytes in *.
  rewrite i64_small by lia. split; [lia|]. split; [lia|].
  intros k o' [_ Hk]%lookup_delete_Some. by apply (Henc k).
Qed.
Lemma new_exact now : bytes_exact (newObjectStore now).
Proof. split; [done|]. split; [done|]. intros k o. cbn [newObjectStore st_objects]. by rewrite lookup_empty. Qed.
Lemma bytes_exact_ext s s' : st_objects s' = st_objects s -> st_storedBytes s' = st_storedBytes s ->
  bytes_exact s -> bytes_exact s'.
Proof. unfold bytes_exact. by intros -> ->. Qed.

Lemma close_channel_data s id : st_objects (close_channel s id) = st_objects s /\
  st_storedBytes (close_channel s id) = st_storedBytes s.
Proof. unfold close_channel. by repeat case_match. Qed.
Lemma step_exact s s' : store_inv s -> bytes_exact s -> store_step stable s s' -> bytes_exact s'.
Proof.
  intros Hs Hb Hstep. destruct Hstep as [key obj ev s Hst|key s|gv ns r ls fs s|w s|w s|p s].
  - by apply put_exact.
  - by apply delete_exact.
  - exact Hb.
  - unfold unwatch. case_match; [|done]. unfold drop_watcher.
    match goal with |- bytes_exact (close_channel ?s0 _) => destruct (close_channel_data s0 (w_id w)) as [E1 E2] end.
    by eapply bytes_exact_ext.
  - unfold receive. repeat case_match; exact Hb.
  - unfold nextName. repeat case_match; exact Hb.
Qed.

(** C10. Byte accounting is exact as long as every stored object's encoding
    keeps its length across a clone: the counter is the sum of the encoded
    sizes of the stored objects and never exceeds 32 MiB.  Objects that came out
    of the decoder are of this kind. *)
Theorem accounting_exact : forall now s, reachable_with stable now s ->
  st_storedBytes s = map_sum stored_size (st_objects s) /\ 0 <= st_storedBytes s <= maxStoredBytes.
Proof.
  intros now s Hs. destruct (reachable_ind stable bytes_exact now s (new_exact now) step_exact Hs) as [(H1 & H2 & _) _].
  split; [done|]. split; [|done]. rewrite H1. apply map_sum_nonneg, stored_size_nonneg.
Qed.
Lemma decoded_stable s obj : normal obj -> stable s obj.
Proof. intros Hn. unfold stable. by rewrite clone_normal by (by apply stamp_normal). Qed.

(** An object with one byte that is not UTF-8: encoded, the byte takes the six
    characters of an escape; decoded and encoded again, the three bytes of
    U+FFFD. *)
Definition leaky : object := [("data", VStr (str1 (chr 255)))].
Lemma leaky_sizes s : exists n, encoded_len (stamp s leaky) = Some n /\
  encoded_len (cloneObject (stamp s leaky)) = Some (n - 3).
Proof.
  assert (Hst : stamp s leaky = [("data", VStr (str1 (chr 255)));
    ("metadata", VMap [("resourceVersion", VStr (itoa (u64 (st_resourceRev s + 1))))])]).
  { unfold stamp. generalize (itoa (u64 (st_resourceRev s + 1))). intros t. vm_compute. reflexivity. }
  pose proof (itoa_ascii (u64 (st_resourceRev s + 1))) as Ht. rewrite Hst. revert Ht. clear Hst.
  generalize (itoa (u64 (st_resourceRev s + 1))). intros t Ht.
  assert (Hc : cloneObject [("data", VStr (str1 (chr 255))); ("metadata", VMap [("resourceVersion", VStr t)])] =
    [("data", VStr (encode_rune rune_error)); ("metadata", VMap [("resourceVersion", VStr t)])]).
  { rewrite clone_norm by (vm_compute; discriminate). unfold norm_object. cbn [norm map fst snd].
    unfold norm_members. cbn [norm map fst snd]. rewrite Ht. vm_compute. reflexivity. }
  rewrite Hc. unfold encoded_len. cbn [json_marshal map fst snd]. unfold json_object, json_member.
  cbn [map fst snd fmap option_fmap option_map all_some]. eexists. split; [reflexivity|]. f_equal.
  change (json_string (str1 (chr 255))) with (quote +:+ "\ufffd" +:+ quote).
  change (json_string (encode_rune rune_error)) with (quote +:+ encode_rune rune_error +:+ quote).
  cbn [join]. repeat first [rewrite slen_app|rewrite slen_cons].
  change (slen "") with 0. change (slen (encode_rune rune_error)) with 3. lia.
Qed.

(** The accounting is not exact for all objects: putting and deleting an
    object that holds one byte which is not UTF-8 restores the objects but
    leaves the byte counter three higher, every time. *)
Theorem accounting_leak : forall s key ev s' obj', store_inv s ->
  0 <= st_storedBytes s <= maxStoredBytes -> st_objects s !! key = None ->
  put key leaky ev s = (s', obj', None) ->
  let s'' := (delete_obj key s').1 in
  st_objects s'' = st_objects s /\ st_storedBytes s'' = st_storedBytes s + 3.
Proof.
  intros s key ev s' obj' Hs Hb Hk Hput. pose proof (put_inv key leaky ev s Hs) as Hs'.
  rewrite Hput in Hs'. cbn [fst] in Hs'.
  destruct (put_accepted key leaky ev s s' obj' Hs Hput) as (_ & Ho & Hbytes & Href). destruct (leaky_sizes s) as (n & Hn & Hn').
  assert (Hk' : st_objects s' !! key = Some (cloneObject (stamp s leaky))) by (rewrite Ho; apply lookup_insert_eq).
  destruct (delete_fields key s' _ (si_watchers _ Hs') Hk') as (Hd & _ & Hdb & _). cbn zeta.
  rewrite Hd, Hdb, Hn', Hbytes, Ho. rewrite delete_insert_eq, delete_id by done.
  unfold total_after, stored_size. rewrite Hk, Hn. cbn [default].
  pose proof (encoded_len_nonneg _ _ Hn) as H0. pose proof (encoded_len_nonneg _ _ Hn') as H1.
  assert (n <= maxStoredObjectBytes).
  { revert Href. unfold put_refuses. rewrite Hn. destruct (maxStoredObjectBytes <? n) eqn:E; [done|]. by bool_to_prop. }
  unfold maxStoredBytes, maxStoredObjectBytes in *.
  rewrite !(i64_small (st_storedBytes s - 0)) by lia. split; [done|].
  unfold id. rewrite (i64_small (st_storedBytes s - 0 + n)) by lia. rewrite i64_small; lia.
Qed.

(** ** Watches *)

(** Event delivery.  When [put] is accepted, each registered watcher is
    treated on its own: one that does not select the object keeps its channel;
    one that selects it and has room gets one event, a clone of the stored
    object, after those already waiting; one whose channel is full is removed
    and its channel closed with the waiting events still readable.  Channels of
    unregistered watchers are not touched. *)
Theorem watch_delivery : forall key obj ev s s' obj' id, store_inv s ->
  put key obj ev s = (s', obj', None) ->
  match st_watchers s !! id with
  | None => st_watchers s' !! id = None /\ st_channels s' !! id = st_channels s !! id
  | Some w =>
      exists ch, st_channels s !! id = Some ch /\
      let stored := cloneObject (stamp s obj) in
      if watcher_selects w key stored then
        if Z.of_nat (length (ch_buffer ch)) <? watch_capacity
        then st_watchers s' !! id = Some w /\
             st_channels s' !! id =
               Some {| ch_buffer := ch_buffer ch ++ [{| we_type := ev; we_object := cloneObject stored |}];
                       ch_closed := false |}
        else st_watchers s' !! id = None /\
             st_channels s' !! id = Some {| ch_buffer := ch_buffer ch; ch_closed := true |}
      else st_watchers s' !! id = Some w /\ st_channels s' !! id = Some ch
  end.
Proof.
  intros key obj ev s s' obj' id Hs Hput. rewrite put_unfold in Hput by apply Hs.
  destruct (put_refuses s key obj ev); [done|]. injection Hput as <- <-. unfold put_store.
  match goal with |- context [publishLocked _ _ _ ?s0] =>
    destruct (publish_spec key ev (cloneObject (stamp s obj)) s0 (si_watchers _ Hs)) as (_ & Hnone & Hsome) end.
  cbn zeta in *. specialize (Hnone id). specialize (Hsome id).
  cbn [st_watchers st_channels set_bytes set_objects set_rev] in *.
  destruct (st_watchers s !! id) as [w|] eqn:Ew; [|by apply Hnone].
  destruct (si_watchers _ Hs id w Ew) as (_ & ch & Hch & _). exists ch. split; [done|].
  destruct (Hsome w ch eq_refl Hch) as [E1 E2]. unfold publishLocked in *. rewrite E1, E2.
  unfold published, has_room, event_of. by repeat case_match.
Qed.

(** ** Generated names *)
Lemma append_inj_tail a b x y : String.length x = String.length y -> a +:+ x = b +:+ y -> x = y.
Proof.
  revert b. induction a as [|c a IH]; intros [|d b] Hl E; simpl in E.
  - done.
  - subst x. cbn [String.length] in Hl. rewrite str_app_length in Hl. lia.
  - subst y. cbn [String.length] in Hl. rewrite str_app_length in Hl. lia.
  - injection E as _ E. by apply (IH b).
Qed.
Lemma step_names s s' : store_step (fun _ _ => True) s s' -> store_inv s ->
  st_generatedNames s <= st_generatedNames s'.
Proof.
  intros Hstep Hs. destruct Hstep as [key obj ev s _|key s|gv ns r ls fs s|w s|w s|p s].
  - rewrite put_unfold by apply Hs. case_match; [done|]. cbn [fst].
    by destruct (put_store_fields s key obj ev (si_watchers _ Hs)) as (_ & _ & _ & -> & _).
  - destruct (st_objects s !! key) as [o|] eqn:Eo; [|by rewrite delete_absent].
    by destruct (delete_fields key s o (si_watchers _ Hs) Eo) as (_ & _ & _ & -> & _).
  - done.
  - unfold unwatch, drop_watcher, close_channel. by repeat case_match.
  - unfold receive. by repeat case_match.
  - unfold nextName. repeat case_match; simpl; lia.
Qed.

(** A generated name is a valid object name, and no two names that one
    store ever generates coincide, whatever prefixes the clients choose and
    whatever happens in between. *)
Theorem names_unique : forall s p1 s1 n1 s2 p2 s3 n2, store_inv s ->
  nextName p1 s = (s1, inl n1) -> rtc (store_step (fun _ _ => True)) s1 s2 -> nextName p2 s2 = (s3, inl n2) ->
  n1 <> n2 /\ validObjectName n1 = true /\ validObjectName n2 = true.
Proof.
  intros s p1 s1 n1 s2 p2 s3 n2 Hs H1 Hr H2. pose proof (nextName_inv p1 s Hs) as Hs1. rewrite H1 in Hs1.
  assert (G : store_inv s2 /\ st_generatedNames s1 <= st_generatedNames s2).
  { cbn [fst] in Hs1. clear H1 H2. induction Hr as [|a b c Hab _ IH]; [done|].
    destruct (IH (store_step_inv _ _ _ Hab Hs1)) as [? ?]. split; [done|].
    pose proof (step_names _ _ Hab Hs1). lia. }
  destruct G as [Hs2 Hle]. unfold nextName in H1, H2.
  destruct (st_generatedNames s =? _) eqn:E1; [done|]. destruct (negb (validObjectName (p1 +:+ _))) eqn:V1; [done|].
  destruct (st_generatedNames s2 =? _) eqn:E2; [done|]. destruct (negb (validObjectName (p2 +:+ _))) eqn:V2; [done|].
  injection H1 as <- <-. injection H2 as <- <-. bool_to_prop. split; [|done].
  destruct (si_names _ Hs), (si_names _ Hs2). cbn [st_generatedNames set_generated] in Hle.
  intros E. apply append_inj_tail in E.
  - pose proof (zero_pad_value 20 (st_generatedNames s + 1)) as P1. rewrite E, zero_pad_value in P1 by lia.
    specialize (P1 ltac:(lia)). injection P1 as P1. lia.
  - destruct (zero_pad_length 20 (st_generatedNames s + 1)) as [->|]; [|destruct (zero_pad_length 20 (st_generatedNames s2 + 1)) as [->|]; [|done|done]|done].
    all: change (10 ^ Z.of_nat 20) with 100000000000000000000; lia.
Qed.
End props.

(** ** Witnesses *)
Section witnesses.
#[local] Existing Instance key_order.

Definition pod_key (name : string) : objectKey :=
  {| key_group := ""; key_version := "v1"; key_resource := "pods"; key_namespace := "default"; key_name := name |}.
Definition pod (name : string) : object :=
  [("kind", VStr "Pod"); ("metadata", VMap [("labels", VMap [("app", VStr "web")]); ("name", VStr name)])].
Definition s0 : objectStore := newObjectStore 0.
Definition s1 : objectStore := (put (pod_key "a") (pod "a") "ADDED" s0).1.1.
Definition s0_watched : objectStore := (watch (GV "" "v1") "" "pods" [] [] s0).1.

Lemma s0_inv : store_inv s0.
Proof. apply new_store_inv. Qed.
Lemma s0_watched_inv : store_inv s0_watched.
Proof. apply watch_inv, s0_inv. Qed.
Lemma pod_normal : normal (pod "a").
Proof. split; [vm_compute; reflexivity|vm_compute; discriminate]. Qed.

Lemma read_your_writes_witness : get s1 (pod_key "a") = Some (stamp s0 (pod "a")).
Proof.
  refine (proj1 (read_your_writes (pod_key "a") (pod "a") "ADDED" s0 s1 (stamp s0 (pod "a")) s0_inv pod_normal _)).
  vm_compute. reflexivity.
Defined.
Lemma accounting_exact_witness : st_storedBytes s1 = map_sum stored_size (st_objects s1) /\ 0 < st_storedBytes s1.
Proof.
  split; [|vm_compute; reflexivity]. refine (proj1 (accounting_exact 0 s1 _)).
  apply rtc_once. apply (step_put stable). apply decoded_stable, pod_normal.
Defined.
Lemma accounting_leak_witness :
  st_storedBytes (delete_obj (pod_key "x") (put (pod_key "x") leaky "ADDED" s0).1.1).1 = 3.
Proof.
  refine (eq_trans (proj2 (accounting_leak s0 (pod_key "x") "ADDED"
    (put (pod_key "x") leaky "ADDED" s0).1.1 (stamp s0 leaky) s0_inv _ _ _)) _).
  - vm_compute. split; discriminate.
  - vm_compute. reflexivity.
  - vm_compute. reflexivity.
  - reflexivity.
Defined.
Lemma watch_delivery_witness :
  st_channels (put (pod_key "a") (pod "a") "ADDED" s0_watched).1.1 !! 1 =
    Some {| ch_buffer := [{| we_type := "ADDED"; we_object := cloneObject (stamp s0 (pod "a")) |}]; ch_closed := false |}.
Proof.
  assert (Hp : put (pod_key "a") (pod "a") "ADDED" s0_watched =
    ((put (pod_key "a") (pod "a") "ADDED" s0_watched).1.1, stamp s0 (pod "a"), None)) by (vm_compute; reflexivity).
  pose proof (watch_delivery (pod_key "a") (pod "a") "ADDED" s0_watched _ _ 1 s0_watched_inv Hp) as Hd.
  vm_compute in Hd. destruct Hd as (ch & Hch & Hr). injection Hch as <-. vm_compute in Hr.
  vm_compute. apply Hr.
Defined.
Lemma names_unique_witness : "a-00000000000000000001" <> "b-00000000000000000002".
Proof.
  refine (proj1 (names_unique s0 "a-" (nextName "a-" s0).1 _ (nextName "a-" s0).1 "b-"
    (nextName "b-" (nextName "a-" s0).1).1 _ s0_inv _ _ _)).
  - vm_compute. reflexivity.
  - apply rtc_refl.
  - vm_compute. reflexivity.
Defined.
End witnesses.
