(* ===== verification/Listing.v ===== *)
(** * Listing and pagination

    Continue tokens ([parseListLimit], [parseContinue], [makeContinueToken]),
    the answer of [list] in api.go up to its rendering, and the proof that
    following the continue tokens shows every selected object exactly once. *)
From S2P Require Import Prelude GoStrings GoCodec Value Json Names Selector Catalog Store StoreFacts.

#[local] Set Warnings "-clear-no-such-hyp".
#[local] Open Scope string_scope.
#[local] Open Scope list_scope.
#[local] Open Scope Z_scope.

(** ** Status documents *)
Record response := { resp_code : Z; resp_body : val }.
(** [status]: an error answer of the API. *)
Definition status (code : Z) (reason message name : string) : response :=
  let st := of_pairs [("apiVersion", VStr "v1"); ("kind", VStr "Status"); ("status", VStr "Failure");
                      ("message", VStr message); ("reason", VStr reason); ("code", VInt code)] in
  let st := if String.eqb name "" then st else oset st "details" (VStrMap [("name", name)]) in
  {| resp_code := code; resp_body := VMap st |}.
Definition bad_request (message : string) : response := status 400 "BadRequest" message "".

(** ** Tokens *)
Definition maxListLimit : Z := 1000.
Definition parseListLimit (raw : string) : Z + string :=
  if String.eqb raw "" then inl maxListPageItems
  else match atoi raw with
       | None => inr ("limit must be an integer from 0 to " +:+ itoa maxListLimit)
       | Some limit =>
           if (limit <? 0) || (maxListLimit <? limit)
           then inr ("limit must be an integer from 0 to " +:+ itoa maxListLimit)
           else if (limit =? 0) || (maxListPageItems <? limit) then inl maxListPageItems
           else inl limit
       end.

(** The token's JSON, in the order of the struct's fields. *)
Definition token_text (resourceVersion identity : string) (offset : Z) : string :=
  "{" +:+ json_string "resourceVersion" +:+ ":" +:+ json_string resourceVersion
  +:+ "," +:+ json_string "identity" +:+ ":" +:+ json_string identity
  +:+ "," +:+ json_string "offset" +:+ ":" +:+ print_lit (int_lit offset) +:+ "}".
Definition makeContinueToken (resourceVersion : string) (offset : Z) (identity : string) : string :=
  base64_raw_url (token_text resourceVersion identity offset).

(** Decoding into the token's struct: members in the order of the text, whole
    numbers kept exact (any other number is no [int]), field names compared
    under simple case folding, [null] leaving a field alone. *)
Definition exact_num (l : num_lit) : option val :=
  match ln_frac l, ln_exp l, digits_from 0 (ln_int l) with
  | "", None, Some d => Some (VInt (if ln_neg l then - d else d))
  | _, _, _ => Some (VFloat S754_nan)
  end.
Definition add_member (o : object) (k : string) (v : val) : object := o ++ [(k, v)].
(** The letters whose folding is ASCII: besides the ASCII ones, the long s and
    the Kelvin sign. *)
Definition fold_rune (r : Z) : Z :=
  if (97 <=? r) && (r <=? 122) then r - 32
  else if r =? 383 then 83 else if r =? 8490 then 75 else r.
Definition field_is (name key : string) : bool :=
  bool_decide (map (fun rb => fold_rune rb.1) (runes name) = map (fun rb => fold_rune rb.1) (runes key)).

Record token := { tk_version : string; tk_identity : string; tk_offset : Z }.
Definition token_member (t : token) (kv : string * val) : option token :=
  let '(k, v) := kv in
  if field_is "resourceVersion" k then
    match v with
    | VStr s => Some {| tk_version := s; tk_identity := tk_identity t; tk_offset := tk_offset t |}
    | VNil => Some t | _ => None end
  else if field_is "identity" k then
    match v with
    | VStr s => Some {| tk_version := tk_version t; tk_identity := s; tk_offset := tk_offset t |}
    | VNil => Some t | _ => None end
  else if field_is "offset" k then
    match v with
    | VInt z => if (min_int64 <=? z) && (z <=? max_int64)
                then Some {| tk_version := tk_version t; tk_identity := tk_identity t; tk_offset := z |} else None
    | VNil => Some t | _ => None end
  else Some t.
Fixpoint token_members (t : token) (l : object) : option token :=
  match l with
  | [] => Some t
  | kv :: l => t ← token_member t kv; token_members t l
  end.
Definition empty_token : token := {| tk_version := ""; tk_identity := ""; tk_offset := 0 |}.
Definition parse_token (s : string) : option token :=
  '(v, r) ← parse_val exact_num add_member (2 * String.length s + 1) 0 s;
  if String.eqb (skip_ws r) "" then
    match v with
    | VMap m => token_members empty_token m
    | VNil => Some empty_token
    | _ => None
    end
  else None.

Inductive continueError := continue_invalid | continue_expired.
Definition parseContinue (tok resourceVersion identity : string) : Z + continueError :=
  if String.eqb tok "" then inl 0
  else match base64_raw_url_decode tok with
       | None => inr continue_invalid
       | Some decoded =>
           match parse_token decoded with
           | None => inr continue_invalid
           | Some value =>
               if tk_offset value <? 0 then inr continue_invalid
               else if negb (String.eqb (tk_version value) resourceVersion)
                       || negb (String.eqb (tk_identity value) identity)
               then inr continue_expired
               else inl (tk_offset value)
           end
       end.

(** ** The handler *)
Record list_query := {
  q_labelSelector : string; q_fieldSelector : string; q_limit : string; q_continue : string;
  q_resourceVersion : string;
}.
Definition zero_byte : string := str1 (chr 0).
Definition selector_identity (gv : groupVersion) (namespace resource : string) (q : list_query) : string :=
  hex_bytes (sha256 (join [gv_group gv; gv_version gv; namespace; resource; q_labelSelector q; q_fieldSelector q] zero_byte)).

Record list_page := {
  lp_items : list object; lp_resourceVersion : string; lp_continue : string; lp_remaining : option Z;
}.

Section listing.
Context `{RangeOrder}.

(** The answer of [list] once a list slot is taken: an error, or a page. *)
Definition list_objects (s : objectStore) (gv : groupVersion) (namespace : string) (resource : string) (q : list_query)
    : response + list_page :=
  if negb (validFieldSelector (q_fieldSelector q)) then inl (bad_request "fieldSelector is invalid")
  else
    let rv := Store.resourceVersion s in
    match parseListLimit (q_limit q) with
    | inr message => inl (bad_request message)
    | inl limit =>
        let identity := selector_identity gv namespace resource q in
        match parseContinue (q_continue q) rv identity with
        | inr continue_invalid => inl (bad_request "continue token is invalid")
        | inr continue_expired => inl (status 410 "Expired" "continue token is no longer valid" "")
        | inl offset =>
            let labels := default [] (parseSelector (q_labelSelector q)) in
            let fields := default [] (parseSelector (q_fieldSelector q)) in
            match listPage s gv namespace resource labels fields offset limit with
            | inr (_, errContinueOffset) => inl (bad_request "continue token offset is invalid")
            | inr (_, errStoredEncoding) => inl (bad_request "stored object could not be encoded")
            | inl (items, total, nextOffset) =>
                if negb (String.eqb (q_resourceVersion q) "") && negb (String.eqb (q_resourceVersion q) "0")
                   && negb (String.eqb (q_resourceVersion q) rv)
                then inl (status 410 "Expired" "The resourceVersion for the provided list is too old" "")
                else inr {| lp_items := items; lp_resourceVersion := rv;
                            lp_continue := if nextOffset <? total then makeContinueToken rv nextOffset identity else "";
                            lp_remaining := if nextOffset <? total then Some (total - nextOffset) else None |}
            end
        end
    end.
(** The list document of a page. *)
Definition list_document (gv : groupVersion) (kind : string) (p : list_page) : object :=
  let metadata := of_pairs [("resourceVersion", VStr (lp_resourceVersion p)); ("continue", VStr (lp_continue p))] in
  let metadata := match lp_remaining p with
                  | Some n => oset metadata "remainingItemCount" (VInt n)
                  | None => metadata
                  end in
  of_pairs [("apiVersion", VStr (apiVersionFor gv)); ("kind", VStr (kind +:+ "List"));
            ("metadata", VMap metadata); ("items", VMapList (lp_items p))].

(** ** Candidates *)
Lemma candidates_perm s gv ns r ls fs :
  candidates s gv ns r ls fs ≡ₚ List.filter (selects gv ns r ls fs) (map_to_list (st_objects s)).
Proof.
  unfold candidates. rewrite merge_sort_Permutation.
  assert (G : forall (p : objectKey * object -> bool) l1 l2, l1 ≡ₚ l2 -> List.filter p l1 ≡ₚ List.filter p l2).
  { intros p l1 l2 HP. induction HP as [|x l1 l2 _ IH|x y l|l1 l2 l3 _ IH1 _ IH2]; simpl; [done| | |by etrans].
    - destruct (p x); [by constructor|done].
    - destruct (p x), (p y); try done. constructor. }
  apply G, range_entries_perm.
Qed.
Lemma candidates_elem s gv ns r ls fs k o :
  (k, o) ∈ candidates s gv ns r ls fs <-> st_objects s !! k = Some o /\ selects gv ns r ls fs (k, o) = true.
Proof.
  rewrite candidates_perm, list_elem_of_In, filter_In, <- list_elem_of_In, elem_of_map_to_list. done.
Qed.
Lemma candidates_NoDup s gv ns r ls fs : NoDup (candidates s gv ns r ls fs).*1.
Proof.
  rewrite candidates_perm. assert (G : forall (p : objectKey * object -> bool) l, NoDup l.*1 -> NoDup (List.filter p l).*1).
  { intros p l. induction l as [|x l IH]; simpl; [done|]. intros [Hx Hl]%NoDup_cons.
    destruct (p x); [|by apply IH]. rewrite fmap_cons. apply NoDup_cons. split; [|by apply IH].
    intros (y & Hy & Hin)%list_elem_of_fmap. apply Hx, list_elem_of_fmap. exists y. split; [done|].
    apply list_elem_of_In in Hin. apply list_elem_of_In. by apply filter_In in Hin as [? _]. }
  apply G, NoDup_fst_map_to_list.
Qed.

#[export] Instance candidate_le_total : Total candidate_le.
Proof.
  intros a b. unfold candidate_le. rewrite (String.eqb_sym (key_namespace b.1)).
  destruct (String.eqb _ _); apply (total String.le).
Qed.
#[export] Instance candidate_le_trans : Transitive candidate_le.
Proof.
  intros a b c. unfold candidate_le.
  destruct (String.eqb_spec (key_namespace a.1) (key_namespace b.1)) as [E1|N1],
    (String.eqb_spec (key_namespace b.1) (key_namespace c.1)) as [E2|N2],
    (String.eqb_spec (key_namespace a.1) (key_namespace c.1)) as [E3|N3]; try congruence; intros H1 H2.
  - by etrans.
  - rewrite E3 in H1. exfalso. apply N2. by apply (anti_symm String.le).
  - by etrans.
Qed.
Lemma candidates_sorted s gv ns r ls fs : Sorted candidate_le (candidates s gv ns r ls fs).
Proof. apply Sorted_merge_sort, _. Qed.

(** ** Pages *)
Definition clones (l : list (objectKey * object)) : list object := map (fun ko => cloneObject ko.2) l.
Definition encodes (l : list (objectKey * object)) : Prop := forall ko, ko ∈ l -> is_Some (encoded_len ko.2).

Lemma fill_page_spec limit l used items index items' index' :
  fill_page limit used items index l = Some (items', index') ->
  exists n, (n <= length l)%nat /\ items' = items ++ clones (take n l) /\ index' = index + Z.of_nat n /\
    (items = [] -> 0 < limit -> l <> [] -> (0 < n)%nat) /\
    (Z.of_nat (length items) <= limit -> Z.of_nat (length items') <= limit).
Proof.
  revert used items index. induction l as [|[k o] l IH]; intros used items index; cbn [fill_page].
  { intros [= <- <-]. exists O. rewrite app_nil_r. repeat split; try done; try lia. }
  destruct (Z.of_nat (length items) <? limit) eqn:El.
  2: { intros [= <- <-]. exists O. cbn [take clones map]. rewrite app_nil_r. bool_to_prop.
       repeat split; try done; simpl; try lia. intros ->. simpl in El. lia. }
  destruct (encoded_len o) as [b|] eqn:Eb; [|done].
  destruct (_ && _) eqn:Eover.
  { intros [= <- <-]. exists O. cbn [take clones map]. rewrite app_nil_r. bool_to_prop.
    repeat split; try done; simpl; try lia. }
  intros Hf. destruct (IH _ _ _ Hf) as (n & Hn & -> & -> & _ & Hlen). exists (S n). bool_to_prop.
  split; [simpl; lia|]. split; [by rewrite <- app_assoc|]. split; [lia|]. split; [lia|].
  intros _. apply Hlen. rewrite length_app. simpl. lia.
Qed.
Lemma fill_page_total limit l used items index : encodes l -> is_Some (fill_page limit used items index l).
Proof.
  revert used items index. induction l as [|[k o] l IH]; intros used items index He; cbn [fill_page]; [eauto|].
  destruct (_ <? limit); [|eauto]. destruct (He (k, o)) as [b Hb]; [set_solver|]. cbn [snd] in Hb. rewrite Hb.
  destruct (_ && _); [eauto|]. apply IH. intros ko Hko. apply He. set_solver.
Qed.
Lemma page_limit_range limit : 0 < page_limit limit <= maxListPageItems.
Proof. unfold page_limit, maxListPageItems. destruct (_ || _) eqn:E; [lia|]. bool_to_prop. lia. Qed.

Lemma listPage_spec s gv ns r ls fs offset limit items total index :
  listPage s gv ns r ls fs offset limit = inl (items, total, index) ->
  let cs := candidates s gv ns r ls fs in
  total = Z.of_nat (length cs) /\ 0 <= offset <= index /\ index <= total /\
  items = clones (take (Z.to_nat (index - offset)) (drop (Z.to_nat offset) cs)) /\
  Z.of_nat (length items) <= page_limit limit /\ (offset < total -> offset < index).
Proof.
  unfold listPage. cbn zeta. set (cs := candidates s gv ns r ls fs).
  destruct ((offset <? 0) || _) eqn:E; [done|]. bool_to_prop.
  destruct (fill_page _ _ _ _ _) as [[its idx]|] eqn:Ef; [|done]. intros [= <- <- <-].
  destruct (fill_page_spec _ _ _ _ _ _ _ Ef) as (n & Hn & -> & -> & Hpos & Hlen).
  rewrite length_drop in Hn. pose proof (page_limit_range limit).
  replace (Z.to_nat (offset + Z.of_nat n - offset)) with n by lia.
  split; [done|]. split; [lia|]. split; [lia|]. split; [done|]. split; [apply Hlen; simpl; lia|].
  intros Hlt. assert (drop (Z.to_nat offset) cs <> []) as Hne.
  { intros Ed. apply (f_equal length) in Ed. rewrite length_drop in Ed. simpl in Ed. lia. }
  specialize (Hpos eq_refl ltac:(lia) Hne). lia.
Qed.

(** ** The token round trip *)
Lemma exact_num_int z : exact_num (int_lit z) = Some (VInt z).
Proof.
  unfold exact_num, int_lit. cbn [ln_frac ln_exp ln_int ln_neg].
  pose proof (parse_digits_to_base (Z.abs z)) as Hp. unfold parse_digits in Hp.
  destruct (to_base 10 (Z.abs z)) as [|c t]; [by specialize (Hp ltac:(lia))|].
  rewrite Hp by lia. destruct (z <? 0) eqn:E; bool_to_prop; do 2 f_equal; lia.
Qed.

Lemma next_byte_json_string k s :
  next_byte (json_string k +:+ s) = Some (chr 34, str_concat (map esc_rune (runes k)) +:+ quote +:+ s).
Proof. unfold json_string. rewrite <- !str_app_assoc. by apply next_byte_char. Qed.

Lemma parse_val_object num ins n d k s : d < max_json_depth ->
  parse_val num ins (S n) d (String (chr 123) (json_string k +:+ s)) =
  ('(m, r) ← parse_members num ins n (d + 1) [] (json_string k +:+ s); Some (VMap m, r)).
Proof.
  intros Hd. cbn [parse_val]. change (skip_ws (String (chr 123) ?s)) with (String (chr 123) s).
  rewrite next_byte_char by done. cbn [mbind option_bind].
  replace (code (chr 123) =? 123) with true by done. rewrite (proj2 (Z.ltb_lt _ _)) by done.
  by rewrite next_byte_json_string.
Qed.

Lemma parse_token_text rv id off : to_valid rv = rv -> to_valid id = id -> 0 <= off <= max_int64 ->
  parse_token (token_text rv id off) = Some {| tk_version := rv; tk_identity := id; tk_offset := off |}.
Proof.
  intros Hrv Hid Hoff. unfold parse_token.
  assert (Hlen : exists n, (2 * String.length (token_text rv id off) + 1 = S (S (S (S (S n)))))%nat).
  { exists (2 * String.length (token_text rv id off) - 4)%nat.
    assert (2 <= String.length (token_text rv id off))%nat; [|lia].
    unfold token_text. rewrite !str_app_length. change (String.length "{") with 1%nat.
    change (String.length ":") with 1%nat. lia. }
  destruct Hlen as [n ->].
  assert (Hp : parse_val exact_num add_member (S (S (S (S (S n))))) 0 (token_text rv id off) =
    Some (VMap [("resourceVersion", VStr rv); ("identity", VStr id); ("offset", VInt off)], "")).
  { unfold token_text. change ("{" +:+ ?s) with (String (chr 123) s). rewrite parse_val_object by done.
    rewrite parse_member_step, parse_val_string. cbn [mbind option_bind].
    change ("," +:+ ?s) with (String "," s). rewrite next_byte_char by done. cbn [mbind option_bind].
    replace (code "," =? 44) with true by done.
    rewrite parse_member_step, parse_val_string. cbn [mbind option_bind].
    change ("," +:+ ?s) with (String "," s). rewrite next_byte_char by done. cbn [mbind option_bind].
    replace (code "," =? 44) with true by done.
    rewrite parse_member_step. rewrite parse_val_number by (first [apply int_lit_wf|by right; right]).
    rewrite exact_num_int. cbn [mbind option_bind]. rewrite next_byte_char by done. cbn [mbind option_bind].
    rewrite Hrv, Hid. reflexivity. }
  rewrite Hp. cbn [mbind option_bind]. change (String.eqb (skip_ws "") "") with true. cbv iota.
  cbn [token_members]. unfold token_member at 1. replace (field_is "resourceVersion" "resourceVersion") with true by (vm_compute; reflexivity).
  cbv iota. cbn [mbind option_bind token_members]. unfold token_member at 1.
  replace (field_is "resourceVersion" "identity") with false by (vm_compute; reflexivity). replace (field_is "identity" "identity") with true by (vm_compute; reflexivity).
  cbv iota. cbn [mbind option_bind token_members]. unfold token_member at 1.
  replace (field_is "resourceVersion" "offset") with false by (vm_compute; reflexivity). replace (field_is "identity" "offset") with false by (vm_compute; reflexivity).
  replace (field_is "offset" "offset") with true by (vm_compute; reflexivity). cbv iota.
  unfold min_int64. rewrite (proj2 (Z.leb_le (- 2 ^ 63) off)), (proj2 (Z.leb_le off max_int64)) by lia. done.
Qed.

Lemma token_not_empty rv id off : makeContinueToken rv off id <> "".
Proof.
  unfold makeContinueToken, base64_raw_url, token_text. intros E. apply (f_equal String.length) in E.
  revert E. change ("{" +:+ ?s) with (String "{" s). cbn [bytes_of].
  generalize (bytes_of (json_string "resourceVersion" +:+ ":" +:+ json_string rv +:+ "," +:+ json_string "identity"
    +:+ ":" +:+ json_string id +:+ "," +:+ json_string "offset" +:+ ":" +:+ print_lit (int_lit off) +:+ "}")).
  intros [|b [|c l]]; simpl; lia.
Qed.

Lemma continue_round_trip rv id off : to_valid rv = rv -> to_valid id = id -> 0 <= off <= max_int64 ->
  parseContinue (makeContinueToken rv off id) rv id = inl off.
Proof.
  intros Hrv Hid Hoff. unfold parseContinue. rewrite (proj2 (String.eqb_neq _ _)) by apply token_not_empty.
  unfold makeContinueToken. rewrite base64_raw_url_round_trip, parse_token_text by done.
  cbn [tk_offset tk_version tk_identity]. rewrite (proj2 (Z.ltb_ge off 0)) by lia. by rewrite !String.eqb_refl.
Qed.

Lemma hex_byte_ascii z : is_byte z -> all_bytes (fun c => code c <? 128) (hex_byte z) = true.
Proof. unfold is_byte. revert z. by_evaluation 256%nat. Qed.
Lemma hex_bytes_valid l : Forall is_byte l -> to_valid (hex_bytes l) = hex_bytes l.
Proof.
  intros Hl. apply to_valid_ascii. unfold hex_bytes. induction Hl as [|z l Hz Hl IH]; [done|].
  cbn [map str_concat]. by rewrite all_bytes_app, hex_byte_ascii, IH.
Qed.
Lemma be_bytes_range n z : Forall is_byte (be_bytes n z).
Proof.
  revert z. induction n as [|n IH]; intros z; simpl; [constructor|]. apply Forall_app. split; [apply IH|].
  constructor; [|constructor]. unfold is_byte. apply Z.mod_pos_bound. lia.
Qed.
Lemma sha256_range s : Forall is_byte (sha256 s).
Proof.
  unfold sha256. generalize (sha_blocks (S (length (bytes_of s ++ (128 :: repeat 0 (Z.to_nat ((55 - Z.of_nat (length (bytes_of s))) mod 64))) ++ be_bytes 8 (8 * Z.of_nat (length (bytes_of s)))) / 64)) (bytes_of s ++ (128 :: repeat 0 (Z.to_nat ((55 - Z.of_nat (length (bytes_of s))) mod 64))) ++ be_bytes 8 (8 * Z.of_nat (length (bytes_of s)))) sha_h0).
  intros l. induction l as [|z l IH]; [constructor|]. cbn [map concat]. apply Forall_app. split; [apply be_bytes_range|done].
Qed.
Lemma identity_valid gv ns r q : to_valid (selector_identity gv ns r q) = selector_identity gv ns r q.
Proof. apply hex_bytes_valid, sha256_range. Qed.

(** ** The handler *)
Definition with_continue (q : list_query) (tok : string) : list_query :=
  {| q_labelSelector := q_labelSelector q; q_fieldSelector := q_fieldSelector q; q_limit := q_limit q;
     q_continue := tok; q_resourceVersion := q_resourceVersion q |}.
(** A client that follows continue tokens and appends the pages. *)
Fixpoint follow (fuel : nat) (s : objectStore) (gv : groupVersion) (ns r : string) (q : list_query)
    : option (list object) :=
  match fuel with
  | O => None
  | S fuel =>
      match list_objects s gv ns r q with
      | inl _ => None
      | inr p =>
          if String.eqb (lp_continue p) "" then Some (lp_items p)
          else rest ← follow fuel s gv ns r (with_continue q (lp_continue p)); Some (lp_items p ++ rest)
      end
  end.
Definition selected (s : objectStore) (gv : groupVersion) (ns r : string) (q : list_query) : list (objectKey * object) :=
  candidates s gv ns r (default [] (parseSelector (q_labelSelector q))) (default [] (parseSelector (q_fieldSelector q))).

(** A query that [list] accepts on its own: selectors and limit parse, and no
    particular resource version is asked for. *)
Definition query_ok (q : list_query) : Prop :=
  validFieldSelector (q_fieldSelector q) = true /\ (exists limit, parseListLimit (q_limit q) = inl limit) /\
  q_resourceVersion q = "".

Lemma list_objects_page s gv ns r q offset : query_ok q ->
  encodes (selected s gv ns r q) -> 0 <= offset <= Z.of_nat (length (selected s gv ns r q)) ->
  parseContinue (q_continue q) (Store.resourceVersion s) (selector_identity gv ns r q) = inl offset ->
  exists p index, list_objects s gv ns r q = inr p /\
    lp_items p = clones (take (Z.to_nat (index - offset)) (drop (Z.to_nat offset) (selected s gv ns r q))) /\
    offset <= index <= Z.of_nat (length (selected s gv ns r q)) /\
    (offset < Z.of_nat (length (selected s gv ns r q)) -> offset < index) /\
    lp_continue p = if index <? Z.of_nat (length (selected s gv ns r q))
                    then makeContinueToken (Store.resourceVersion s) index (selector_identity gv ns r q) else "".
Proof.
  intros (Hf & [limit Hl] & Hrv) He Ho Hc. unfold list_objects. rewrite Hf, Hl, Hc. cbn [negb].
  unfold selected in *. set (ls := default [] (parseSelector (q_labelSelector q))) in *.
  set (fs := default [] (parseSelector (q_fieldSelector q))) in *.
  destruct (listPage s gv ns r ls fs offset limit) as [[[items total] index]|[total err]] eqn:Ep.
  - destruct (listPage_spec _ _ _ _ _ _ _ _ _ _ _ Ep) as (Ht & Hi & Hi2 & Hitems & _ & Hprog).
    rewrite Hrv. cbn [String.eqb negb andb]. eexists _, index. split; [reflexivity|]. cbn [lp_items lp_continue].
    subst total. repeat split; try done; lia.
  - exfalso. revert Ep. unfold listPage. cbn zeta.
    destruct ((offset <? 0) || _) eqn:E.
    + apply orb_true_iff in E as [E|E]; bool_to_prop; lia.
    + destruct (fill_page_total (page_limit limit) (drop (Z.to_nat offset) (candidates s gv ns r ls fs)) 0 [] offset)
        as [[its idx] ->]; [|done].
      intros ko Hko. apply He. by apply elem_of_drop in Hko as (? & ? & ?) || (eapply subseteq_drop; exact Hko).
Qed.

Lemma selected_length s gv ns r q : (length (selected s gv ns r q) <= size (st_objects s))%nat.
Proof.
  unfold selected. rewrite candidates_perm.
  etrans; [apply filter_length_le|]. by rewrite length_map_to_list.
Qed.

Lemma follow_from fuel s gv ns r q offset : store_inv s -> query_ok q -> encodes (selected s gv ns r q) ->
  0 <= offset <= Z.of_nat (length (selected s gv ns r q)) ->
  parseContinue (q_continue q) (Store.resourceVersion s) (selector_identity gv ns r q) = inl offset ->
  (length (selected s gv ns r q) - Z.to_nat offset < fuel)%nat ->
  follow fuel s gv ns r q = Some (clones (drop (Z.to_nat offset) (selected s gv ns r q))).
Proof.
  intros Hs Hq He. revert q offset Hq He. induction fuel as [|fuel IH]; intros q offset Hq He Ho Hc Hfuel; [lia|].
  cbn [follow].
  destruct (list_objects_page s gv ns r q offset Hq He Ho Hc) as (p & index & -> & Hitems & Hi & Hprog & ->).
  rewrite Hitems. set (cs := selected s gv ns r q) in *.
  destruct (index <? Z.of_nat (length cs)) eqn:E; bool_to_prop.
  - rewrite (proj2 (String.eqb_neq _ _)) by apply token_not_empty.
    set (q' := with_continue q _).
    assert (Hsel : selected s gv ns r q' = cs) by done.
    assert (Hcnt : Z.of_nat (length cs) <= maxStoredObjects).
    { pose proof (selected_length s gv ns r q) as Hl. pose proof (si_count _ Hs). fold cs in Hl. lia. }
    rewrite (IH q' index); [|exact Hq|by rewrite Hsel|rewrite Hsel; lia| |rewrite Hsel; lia].
    + rewrite Hsel. cbn [mbind option_bind]. f_equal. unfold clones. rewrite <- map_app. f_equal.
      replace (Z.to_nat index) with (Z.to_nat offset + Z.to_nat (index - offset))%nat by lia.
      rewrite <- drop_drop. apply take_drop.
    + cbn [q_continue with_continue]. apply continue_round_trip.
      * apply itoa_ascii.
      * apply identity_valid.
      * unfold maxStoredObjects, max_int64 in *. lia.
  - rewrite String.eqb_refl. f_equal. f_equal. apply take_ge. rewrite length_drop. lia.
Qed.

(** C5. Pagination is complete: a client that starts without a continue token
    and follows the tokens while the store is not changed gets, within one
    request more than there are objects, exactly a clone of every selected
    object, each once, in the order of namespace and name. *)
Theorem pagination_complete : forall s gv ns r q, store_inv s -> query_ok q -> q_continue q = "" ->
  encodes (selected s gv ns r q) ->
  follow (S (length (selected s gv ns r q))) s gv ns r q = Some (clones (selected s gv ns r q)) /\
  Sorted candidate_le (selected s gv ns r q) /\ NoDup (selected s gv ns r q).*1 /\
  (forall k o, (k, o) ∈ selected s gv ns r q <->
     st_objects s !! k = Some o /\
     selects gv ns r (default [] (parseSelector (q_labelSelector q))) (default [] (parseSelector (q_fieldSelector q))) (k, o) = true).
Proof.
  intros s gv ns r q Hs Hq Hc He. split.
  - rewrite (follow_from _ s gv ns r q 0); [done|done|done|done|lia| |simpl; lia]. by rewrite Hc.
  - split; [apply candidates_sorted|]. split; [apply candidates_NoDup|]. intros k o. apply candidates_elem.
Qed.

(** A page is never longer than 100 objects, nor than the limit asked for,
    holds only selected objects in order, and makes progress; a stale or forged
    continue token is refused: one for other selectors or another resource
    version as expired, with the answer 410. *)
Theorem list_page_contract : forall s gv ns r q,
  match list_objects s gv ns r q with
  | inr p =>
      Z.of_nat (length (lp_items p)) <= maxListPageItems /\
      (exists from n, lp_items p = clones (take n (drop from (selected s gv ns r q))) /\
         ((from < length (selected s gv ns r q))%nat -> (0 < length (lp_items p))%nat)) /\
      (forall t, base64_raw_url_decode (q_continue q) = Some t -> q_continue q <> "" ->
         exists tok, parse_token t = Some tok /\ tk_version tok = Store.resourceVersion s /\
           tk_identity tok = selector_identity gv ns r q)
  | inl resp => resp_code resp = 400 \/ resp_code resp = 410
  end.
Proof.
  intros s gv ns r q. unfold list_objects. destruct (negb (validFieldSelector _)); [by left|].
  destruct (parseListLimit (q_limit q)) as [limit|m]; [|by left].
  destruct (parseContinue _ _ _) as [offset|[]] eqn:Ec; [|by left|by right].
  destruct (listPage _ _ _ _ _ _ _ _) as [[[items total] index]|[total []]] eqn:Ep; [|by left|by left].
  destruct (_ && _ && _); [by right|]. cbn [lp_items].
  destruct (listPage_spec _ _ _ _ _ _ _ _ _ _ _ Ep) as (Ht & Hi & Hi2 & Hitems & Hlen & Hprog).
  pose proof (page_limit_range limit). split; [lia|]. split.
  - exists (Z.to_nat offset), (Z.to_nat (index - offset)). unfold selected. split; [done|]. intros Hf.
    rewrite Hitems. unfold clones. rewrite length_map, length_take, length_drop. lia.
  - intros t Ht' Hne. revert Ec. unfold parseContinue. rewrite (proj2 (String.eqb_neq _ _)), Ht' by done.
    destruct (parse_token t) as [tok|]; [|done]. destruct (tk_offset tok <? 0); [done|].
    destruct (negb (String.eqb (tk_version tok) _) || _) eqn:E; [done|]. intros _. bool_to_prop. eauto.
Qed.

(** [list] does not check the label selector: an invalid one selects every
    object of the resource instead of being refused, while [watch] and
    [deletecollection] refuse it. *)
Theorem bad_label_selector_lists_all : forall s gv ns r q, parseSelector (q_labelSelector q) = None ->
  selected s gv ns r q = candidates s gv ns r [] (default [] (parseSelector (q_fieldSelector q))) /\
  list_objects s gv ns r q <> inl (bad_request "labelSelector is invalid").
Proof.
  intros s gv ns r q Hl. split; [unfold selected; by rewrite Hl|].
  unfold list_objects, bad_request, status. repeat case_match; try done; intros Heq; injection Heq; intros; try done.
  all: match goal with H : parseListLimit _ = inr _ |- _ => revert H; unfold parseListLimit; repeat case_match; try done end.
  all: intros Hr; injection Hr as <-; done.
Qed.
End listing.

(** ** The order of the map does not matter *)
Lemma candidate_le_anti a b gv ns r ls fs :
  selects gv ns r ls fs a = true -> selects gv ns r ls fs b = true ->
  candidate_le a b -> candidate_le b a -> a.1 = b.1.
Proof.
  unfold selects, candidate_le. intros Ha Hb. bool_to_prop.
  rewrite (String.eqb_sym (key_namespace b.1)).
  destruct (String.eqb_spec (key_namespace a.1) (key_namespace b.1)) as [E|N].
  - intros L1 L2. assert (key_name a.1 = key_name b.1) by (by apply (anti_symm String.le)).
    destruct (a.1), (b.1); simpl in *; congruence.
  - intros L1 L2. exfalso. apply N. by apply (anti_symm String.le).
Qed.
(** Two stores that agree on the objects of a list give the same list. *)
Lemma candidates_ext (R1 R2 : RangeOrder) s1 s2 gv ns r ls fs :
  (forall k o, selects gv ns r ls fs (k, o) = true -> st_objects s1 !! k = Some o <-> st_objects s2 !! k = Some o) ->
  @candidates R1 s1 gv ns r ls fs = @candidates R2 s2 gv ns r ls fs.
Proof.
  intros Hext.
  assert (Hiff : forall k o, (k, o) ∈ @candidates R1 s1 gv ns r ls fs <-> (k, o) ∈ @candidates R2 s2 gv ns r ls fs).
  { intros k o. rewrite !candidates_elem. naive_solver. }
  eapply (Sorted_unique_strong candidate_le).
  - intros [ka oa] [kb ob] Ha Hb H1 H2. apply Hiff in Hb. apply candidates_elem in Ha as [La Sa], Hb as [Lb Sb].
    pose proof (candidate_le_anti _ _ _ _ _ _ _ Sa Sb H1 H2) as E. simpl in E. subst. congruence.
  - apply candidates_sorted.
  - apply candidates_sorted.
  - apply NoDup_Permutation; [by eapply NoDup_fmap_1, candidates_NoDup..|]. intros [k o]. apply Hiff.
Qed.
Lemma candidates_order_independent (R1 R2 : RangeOrder) s gv ns r ls fs :
  @candidates R1 s gv ns r ls fs = @candidates R2 s gv ns r ls fs.
Proof. by apply candidates_ext. Qed.
Lemma listPage_ext `{RangeOrder} s1 s2 gv ns r ls fs offset limit :
  (forall k o, selects gv ns r ls fs (k, o) = true -> st_objects s1 !! k = Some o <-> st_objects s2 !! k = Some o) ->
  listPage s1 gv ns r ls fs offset limit = listPage s2 gv ns r ls fs offset limit.
Proof. intros Hext. unfold listPage. by rewrite (candidates_ext _ _ s1 s2 gv ns r ls fs Hext). Qed.

(** ** Witnesses *)
Section witnesses.
#[local] Existing Instance key_order.

Definition cm_key (ns name : string) : objectKey :=
  {| key_group := ""; key_version := "v1"; key_resource := "configmaps"; key_namespace := ns; key_name := name |}.
Definition cm (name : string) : object := [("metadata", VMap [("name", VStr name)])].
Definition three : objectStore :=
  let s := newObjectStore 0 in
  let s := (put (cm_key "b" "x") (cm "x") "ADDED" s).1.1 in
  let s := (put (cm_key "a" "z") (cm "z") "ADDED" s).1.1 in
  (put (cm_key "a" "y") (cm "y") "ADDED" s).1.1.
Definition query (limit label : string) : list_query :=
  {| q_labelSelector := label; q_fieldSelector := ""; q_limit := limit; q_continue := ""; q_resourceVersion := "" |}.

Lemma encodes_bool l : forallb (fun ko => match encoded_len ko.2 with Some _ => true | None => false end) l = true ->
  encodes l.
Proof.
  rewrite forallb_elem. intros Hl ko Hko. specialize (Hl ko Hko). destruct (encoded_len ko.2); [eauto|done].
Qed.
Lemma three_inv : store_inv three.
Proof.
  assert (H0 : store_inv (newObjectStore 0)).
  { split; try done; simpl; intros ?? Hl; rewrite lookup_empty in Hl; done. }
  by do 3 apply put_inv.
Qed.

Lemma pagination_complete_witness :
  (exists items, follow 4 three (GV "" "v1") "" "configmaps" (query "1" "") = Some items /\
     map (fun o => stringField (objectMap (idx o "metadata")) "name") items = ["y"; "z"; "x"]) /\
  Sorted candidate_le (selected three (GV "" "v1") "" "configmaps" (query "1" "")).
Proof.
  assert (He : encodes (selected three (GV "" "v1") "" "configmaps" (query "1" ""))).
  { apply encodes_bool. vm_compute. reflexivity. }
  assert (Hq : query_ok (query "1" "")).
  { split; [vm_compute; reflexivity|]. split; [by exists 1|done]. }
  pose proof (pagination_complete three (GV "" "v1") "" "configmaps" (query "1" "") three_inv Hq eq_refl He) as (Hf & Hs & _).
  split; [|exact Hs]. eexists. split; [exact Hf|]. vm_compute. reflexivity.
Defined.
Lemma bad_label_selector_lists_all_witness :
  length (selected three (GV "" "v1") "" "configmaps" (query "" "app in (web)")) = 3%nat.
Proof.
  rewrite (proj1 (bad_label_selector_lists_all three (GV "" "v1") "" "configmaps" (query "" "app in (web)")
    ltac:(vm_compute; reflexivity))).
  vm_compute. reflexivity.
Defined.
End witnesses.
