(* ===== verification/Patch.v ===== *)
(** * Merge patches

    [mergeObject] of api.go, against RFC 7386.  Values are immutable here: the
    function builds its result from the two documents and never shares a map
    it then changes. *)
From S2P Require Import Prelude GoStrings Value Json.

#[local] Set Warnings "-clear-no-such-hyp,-register-all".
#[local] Open Scope string_scope.
#[local] Open Scope list_scope.
#[local] Open Scope Z_scope.

(** ** Merge patches *)

(** [mergeObject(destination, patch)]; the keys of a map are distinct, so the
    order in which Go visits them does not matter. *)
Fixpoint merge_value (patch : val) (destination : object) {struct patch} : object :=
  match patch with
  | VMap members =>
      (fix merge (l : object) (destination : object) : object :=
         match l with
         | [] => destination
         | (key, value) :: l =>
             let destination :=
               match value with
               | VNil => odel destination key
               | VMap _ =>
                   match oget destination key with
                   | Some (VMap existing) => oset destination key (VMap (merge_value value existing))
                   | _ => oset destination key value
                   end
               | _ => oset destination key value
               end in
             merge l destination
         end) members destination
  | _ => destination
  end.
Definition mergeObject (destination patch : object) : object := merge_value (VMap patch) destination.

(** The merge of RFC 7386. *)
Fixpoint rfc_merge (patch : val) (target : val) {struct patch} : val :=
  match patch with
  | VMap members =>
      VMap ((fix merge (l : object) (t : object) : object :=
         match l with
         | [] => t
         | (key, value) :: l =>
             merge l (match value with
                      | VNil => odel t key
                      | _ => oset t key (rfc_merge value (idx t key))
                      end)
         end) members (objectMap target))
  | _ => patch
  end.

(** No [null] in an object, at any depth below maps: such a value is its own
    merge into nothing. *)
Fixpoint null_free (v : val) : bool :=
  match v with
  | VNil => false
  | VMap m => bool_decide (omap_sorted m) && forallb (fun kv => null_free kv.2) m
  | _ => true
  end.
(** Objects that the patch adds where the destination has none hold no [null]. *)
Fixpoint additions_ok (patch : val) (destination : object) {struct patch} : bool :=
  match patch with
  | VMap members =>
      (fix ok (l : object) : bool :=
         match l with
         | [] => true
         | (key, value) :: l =>
             match value with
             | VMap _ =>
                 match oget destination key with
                 | Some (VMap existing) => additions_ok value existing
                 | _ => null_free value
                 end
             | _ => true
             end && ok l
         end) members
  | _ => true
  end.

Definition merge_members : object -> object -> object :=
  fix merge (l : object) (destination : object) : object :=
    match l with
    | [] => destination
    | (key, value) :: l =>
        merge l (match value with
                 | VNil => odel destination key
                 | VMap _ =>
                     match oget destination key with
                     | Some (VMap existing) => oset destination key (VMap (merge_value value existing))
                     | _ => oset destination key value
                     end
                 | _ => oset destination key value
                 end)
    end.
Definition rfc_members : object -> object -> object :=
  fix merge (l : object) (t : object) : object :=
    match l with
    | [] => t
    | (key, value) :: l =>
        merge l (match value with
                 | VNil => odel t key
                 | _ => oset t key (rfc_merge value (idx t key))
                 end)
    end.
Definition additions_members (destination : object) : object -> bool :=
  fix ok (l : object) : bool :=
    match l with
    | [] => true
    | (key, value) :: l =>
        match value with
        | VMap _ =>
            match oget destination key with
            | Some (VMap existing) => additions_ok value existing
            | _ => null_free value
            end
        | _ => true
        end && ok l
    end.
Lemma merge_value_map m d : merge_value (VMap m) d = merge_members m d.
Proof. done. Qed.
Lemma rfc_merge_map m t : rfc_merge (VMap m) t = VMap (rfc_members m (objectMap t)).
Proof. done. Qed.
Lemma additions_ok_map m d : additions_ok (VMap m) d = additions_members d m.
Proof. done. Qed.

(** Merging an object without nulls into nothing gives the object. *)
Lemma rfc_merge_fresh v t : null_free v = true -> (forall m, t <> VMap m) -> rfc_merge v t = v.
Proof.
  revert t. induction v as [|b|z|f|s|l IH|m IH|m|l|l IH] using val_ind'; intros t Hn Ht; try done.
  rewrite rfc_merge_map. assert (objectMap t = []) as -> by (by destruct t; try naive_solver).
  cbn [null_free] in Hn. apply andb_true_iff in Hn as [Hs Hn]. apply bool_decide_eq_true_1 in Hs.
  f_equal. rewrite <- (of_pairs_id m Hs) at 2. unfold of_pairs.
  assert (G : forall (l acc : object), Forall (fun kv => forall t, null_free kv.2 = true -> (forall m, t <> VMap m) -> rfc_merge kv.2 t = kv.2) l ->
    forallb (fun kv => null_free kv.2) l = true -> omap_sorted l ->
    (forall k kv, oget acc k <> None -> kv ∈ l -> str_lt k kv.1) ->
    rfc_members l acc = foldl (fun m kv => oset m kv.1 kv.2) acc l).
  { clear. induction l as [|[k v] l IHl]; intros acc HF Hn Hs Hacc; [done|].
    apply Forall_cons in HF as [Hv HF]. cbn [forallb snd fst] in *. apply andb_true_iff in Hn as [Hvn Hn].
    assert (Hidx : idx acc k = VNil).
    { unfold idx. destruct (oget acc k) eqn:E; [|done]. exfalso. apply (str_lt_irrefl k).
      apply (Hacc k (k, v)); [by rewrite E|set_solver]. }
    assert (Hstep : rfc_members ((k, v) :: l) acc = rfc_members l (oset acc k v)).
    { cbn [rfc_members]. rewrite Hidx.
      destruct v; try done; (rewrite Hv; [done| |done]); done. }
    rewrite Hstep. cbn [foldl fst snd]. apply IHl; [done|done|by apply keys_above_sorted with k|].
    intros k' kv Hk' Hin. rewrite oget_oset in Hk'. destruct (String.eqb_spec k' k) as [->|].
    - by apply (keys_above_elem l k kv).
    - apply Hacc; [done|set_solver]. }
  apply G; [done|done|done|]. intros k kv Hk. by cbn in Hk.
Qed.

(** The maps of a patch are sorted, as all maps are. *)
Fixpoint maps_sorted (v : val) : bool :=
  match v with
  | VMap m => bool_decide (omap_sorted m) && forallb (fun kv => maps_sorted kv.2) m
  | _ => true
  end.

Definition merges_as_rfc (v : val) : Prop := forall w d, v = VMap w -> maps_sorted v = true ->
  additions_ok v d = true -> VMap (merge_value v d) = rfc_merge v (VMap d).

Lemma merge_rfc_members m d :
  Forall (fun kv => merges_as_rfc kv.2) m -> forallb (fun kv => maps_sorted kv.2) m = true ->
  omap_sorted m -> additions_members d m = true -> merge_members m d = rfc_members m d.
Proof.
  intros HF Hsub Hs. revert d. induction m as [|[k v] m IH]; intros d Ha; [done|].
  apply Forall_cons in HF as [Hv HF]. cbn [additions_members] in Ha. apply andb_true_iff in Ha as [Hav Ha].
  cbn [forallb snd] in Hsub. apply andb_true_iff in Hsub as [Hvs Hsub].
  cbn [merge_members rfc_members]. cbn [snd] in Hv.
  assert (Estep : match v with
      | VNil => odel d k
      | VMap _ => match oget d k with
                  | Some (VMap existing) => oset d k (VMap (merge_value v existing))
                  | _ => oset d k v
                  end
      | _ => oset d k v
      end = match v with VNil => odel d k | _ => oset d k (rfc_merge v (idx d k)) end).
  { destruct v as [|b|z|f|s|l|w|w|l|l]; try done. unfold idx.
    destruct (oget d k) as [x|] eqn:E; cbn [default]; unfold id; [|by rewrite rfc_merge_fresh].
    destruct x as [|b|z|f|s|l|ex|ex|l|l]; try (by rewrite rfc_merge_fresh).
    by rewrite <- (Hv w ex). }
  rewrite Estep. apply IH; [done|done|by apply keys_above_sorted with k|].
  (* the step only touched the key [k], which does not occur again *)
  rewrite <- Ha. clear -Hs.
  assert (Hother : forall kv, kv ∈ m -> oget (match v with VNil => odel d k | _ => oset d k (rfc_merge v (idx d k)) end) kv.1 = oget d kv.1).
  { intros kv Hin. pose proof (keys_above_elem m k kv Hs Hin) as Hlt.
    assert (kv.1 <> k) by (intros E; rewrite E in Hlt; by apply str_lt_irrefl in Hlt).
    destruct v; rewrite ?oget_odel, ?oget_oset; by rewrite (proj2 (String.eqb_neq _ _)). }
  clear Hs. induction m as [|[k' v'] m IH]; [done|]. cbn [additions_members].
  rewrite IH by (intros; apply Hother; set_solver).
  specialize (Hother (k', v') ltac:(set_solver)). cbn [fst] in Hother. by rewrite Hother.
Qed.
Lemma merge_is_rfc v : merges_as_rfc v.
Proof.
  induction v as [|b|z|f|s|l IH|m IH|m|l|l IH] using val_ind'; intros w d Hw Hs Ha; try done.
  rewrite merge_value_map, rfc_merge_map. f_equal. cbn [objectMap]. cbn [maps_sorted] in Hs.
  apply andb_true_iff in Hs as [Hs Hsub]. apply bool_decide_eq_true_1 in Hs. by apply merge_rfc_members.
Qed.

(** C11. [mergeObject] is the merge of RFC 7386, provided the objects that the
    patch adds where the destination has none hold no [null] of their own. *)
Theorem merge_is_rfc7386 : forall destination patch, maps_sorted (VMap patch) = true ->
  additions_ok (VMap patch) destination = true ->
  VMap (mergeObject destination patch) = rfc_merge (VMap patch) (VMap destination).
Proof. intros. by eapply merge_is_rfc. Qed.
(** Without that proviso it is not: a [null] inside an object that the
    patch adds is stored as a value, where RFC 7386 leaves the member out. *)
Theorem merge_keeps_nested_null : exists destination patch,
  mergeObject destination patch = [("spec", VMap [("gone", VNil); ("kept", VBool true)])] /\
  rfc_merge (VMap patch) (VMap destination) = VMap [("spec", VMap [("kept", VBool true)])].
Proof.
  exists [], [("spec", VMap [("gone", VNil); ("kept", VBool true)])]. split; vm_compute; reflexivity.
Qed.
Lemma merge_is_rfc7386_witness :
  VMap (mergeObject [("a", VInt 1); ("b", VMap [("x", VInt 1); ("y", VInt 2)])]
                    [("a", VNil); ("b", VMap [("x", VNil); ("z", VMap [("k", VStr "v")])])]) =
  VMap [("b", VMap [("y", VInt 2); ("z", VMap [("k", VStr "v")])])].
Proof. rewrite merge_is_rfc7386 by (vm_compute; reflexivity). vm_compute. reflexivity. Defined.
