(* ===== verification/JsonPatch.v ===== *)
(** * JSON patches

    [applyJSONPatch] and its helpers of api.go over a heap: a Go map is a
    location, so [copy] and [move], which store the map itself, can make two
    places of a document share one map, or a map contain itself. *)
From S2P Require Import Prelude GoStrings Value Json.

#[local] Set Warnings "-clear-no-such-hyp,-register-all,-notation-for-abbreviation".
#[local] Open Scope string_scope.
#[local] Open Scope list_scope.
#[local] Open Scope Z_scope.

(** ** The heap *)
Inductive rval :=
  | RLeaf (v : val)
  | RList (l : list rval)
  | RMap (p : Z).
Notation robject := (list (string * rval)).
Record heap := { h_maps : gmap Z robject; h_next : Z }.
Definition empty_heap : heap := {| h_maps := ∅; h_next := 0 |}.

Definition alloc (h : heap) (m : robject) : heap * rval :=
  ({| h_maps := <[h_next h := m]> (h_maps h); h_next := h_next h + 1 |}, RMap (h_next h)).
Definition h_get (h : heap) (p : Z) : robject := default [] (h_maps h !! p).
Definition h_set (h : heap) (p : Z) (m : robject) : heap :=
  {| h_maps := <[p := m]> (h_maps h); h_next := h_next h |}.

(** Decoded JSON: every object becomes a map of its own. *)
Fixpoint load (v : val) (h : heap) : heap * rval :=
  match v with
  | VList l =>
      let '(h, rs) := (fix go (l : list val) (h : heap) : heap * list rval :=
        match l with
        | [] => (h, [])
        | v :: l => let '(h, r) := load v h in let '(h, rs) := go l h in (h, r :: rs)
        end) l h in
      (h, RList rs)
  | VMap m =>
      let '(h, ms) := (fix go (m : object) (h : heap) : heap * robject :=
        match m with
        | [] => (h, [])
        | (k, v) :: m => let '(h, r) := load v h in let '(h, ms) := go m h in (h, (k, r) :: ms)
        end) m h in
      alloc h ms
  | _ => (h, RLeaf v)
  end.

(** What [json.Marshal] sees below a value: [None] when a map contains itself.
    A path that visits more maps than there are has met one twice. *)
Fixpoint read (fuel : nat) (h : heap) : rval -> option val :=
  fix rd (r : rval) : option val :=
    match r with
    | RLeaf v => Some v
    | RList l => VList <$> all_some (map rd l)
    | RMap p =>
        match fuel with
        | O => None
        | S fuel =>
            m ← h_maps h !! p;
            VMap <$> all_some (map (fun kv => pair kv.1 <$> read fuel h kv.2) m)
        end
    end.
Definition read_all (h : heap) (r : rval) : option val := read (S (Z.to_nat (h_next h))) h r.

(** ** Pointers *)
Definition slash : ascii := chr 47.
Definition unescape (segment : string) : string := replace_all (replace_all segment "~1" "/") "~0" "~".
Definition patchPointer (path : string) : list string :=
  if String.eqb path "" then [] else map unescape (split slash (trim_prefix path "/")).

Inductive writeError := write_root | write_not_addressable | write_index (leaf : string).

Definition as_map (r : rval) : option Z := match r with RMap p => Some p | _ => None end.

(** The walk over all segments but the last. *)
Fixpoint walk (h : heap) (current : rval) (segments : list string) : option rval :=
  match segments with
  | [] => Some current
  | segment :: segments => p ← as_map current; next ← oget (h_get h p) segment; walk h next segments
  end.
(** [resolvePatchTarget]: the value found. *)
Definition resolvePatchTarget (h : heap) (document : rval) (path : string) : option rval :=
  match patchPointer path with
  | [] => None
  | segments =>
      current ← walk h document (removelast segments);
      p ← as_map current; oget (h_get h p) (List.last segments "")
  end.

(** [patchDescend]: a missing member is created as an empty object. *)
Definition patchDescend (h : heap) (current : rval) (segment : string) : heap * (rval + writeError) :=
  match as_map current with
  | None => (h, inr write_not_addressable)
  | Some p =>
      match oget (h_get h p) segment with
      | Some next => (h, inl next)
      | None => let '(h, created) := alloc h [] in (h_set h p (oset (h_get h p) segment created), inl created)
      end
  end.
Fixpoint descend (h : heap) (current : rval) (segments : list string) : heap * (rval + writeError) :=
  match segments with
  | [] => (h, inl current)
  | segment :: segments =>
      match patchDescend h current segment with
      | (h, inl next) => descend h next segments
      | (h, inr e) => (h, inr e)
      end
  end.
(** [patchContainer]: the map that holds the array being changed. *)
Fixpoint container_walk (h : heap) (current : rval) (segments : list string) : option rval :=
  match segments with
  | [] => Some current
  | segment :: segments => p ← as_map current; container_walk h (default (RLeaf VNil) (oget (h_get h p) segment)) segments
  end.
Definition patchContainer (h : heap) (document : rval) (segments : list string) : option Z :=
  current ← container_walk h document (removelast segments); as_map current.

Definition patchWrite (h : heap) (document : rval) (path : string) (value : rval) (remove : bool)
    : heap * option writeError :=
  match patchPointer path with
  | [] => (h, Some write_root)
  | segments =>
      match descend h document (removelast segments) with
      | (h, inr e) => (h, Some e)
      | (h, inl current) =>
          let leaf := List.last segments "" in
          match current with
          | RMap parent =>
              if remove then (h_set h parent (odel (h_get h parent) leaf), None)
              else (h_set h parent (oset (h_get h parent) leaf value), None)
          | RList parent =>
              if Z.of_nat (length segments) <? 2 then (h, Some write_root)
              else
                let bound := Z.of_nat (length parent) - (if remove then 1 else 0) in
                match atoi leaf with
                | Some index =>
                    if (index <? 0) || (bound <? index) then (h, Some (write_index leaf))
                    else
                      let i := Z.to_nat index in
                      let result := take i parent ++ (if remove then [] else [value])
                                    ++ drop (i + if remove then 1 else 0)%nat parent in
                      match patchContainer h document (removelast segments) with
                      | None => (h, Some write_not_addressable)
                      | Some container =>
                          (h_set h container (oset (h_get h container) (List.last (removelast segments) "") (RList result)), None)
                      end
                | None => (h, Some (write_index leaf))
                end
          | RLeaf _ => (h, Some write_not_addressable)
          end
      end
  end.

(** [patchValuesEqual]: the encodings agree. *)
Definition patchValuesEqual (h : heap) (a b : rval) : bool :=
  match read_all h a ≫= json_marshal, read_all h b ≫= json_marshal with
  | Some a, Some b => String.eqb a b
  | _, _ => false
  end.

Inductive patchError :=
  | patch_test_failed (i : nat)
  | patch_missing (i : nat)
  | patch_failed (i : nat) (e : writeError).

Definition op_string (operation : robject) (key : string) : string :=
  match oget operation key with Some (RLeaf (VStr s)) => s | _ => "" end.
Definition op_value (operation : robject) : rval := default (RLeaf VNil) (oget operation "value").

(** One operation; the operation's own map is only read by its own turn. *)
Definition apply_operation (h : heap) (document : rval) (i : nat) (operation : robject) : heap * option patchError :=
  let op := op_string operation "op" in
  let target := op_string operation "path" in
  let write h value remove path :=
    match patchWrite h document path value remove with
    | (h, Some e) => (h, Some (patch_failed i e))
    | (h, None) => (h, None)
    end in
  if String.eqb op "test" then
    match resolvePatchTarget h document target with
    | Some current => if patchValuesEqual h current (op_value operation) then (h, None) else (h, Some (patch_test_failed i))
    | None => (h, Some (patch_test_failed i))
    end
  else if String.eqb op "move" || String.eqb op "copy" then
    let from := op_string operation "from" in
    match resolvePatchTarget h document from with
    | None => (h, Some (patch_missing i))
    | Some current =>
        match (if String.eqb op "move" then write h (RLeaf VNil) true from else (h, None)) with
        | (h, Some e) => (h, Some e)
        | (h, None) => write h current false target
        end
    end
  else if String.eqb op "add" || String.eqb op "replace" then write h (op_value operation) false target
  else if String.eqb op "remove" then write h (RLeaf VNil) true target
  else (h, None).
Fixpoint apply_operations (h : heap) (document : rval) (i : nat) (operations : list robject) : heap * option patchError :=
  match operations with
  | [] => (h, None)
  | operation :: operations =>
      match apply_operation h document i operation with
      | (h, Some e) => (h, Some e)
      | (h, None) => apply_operations h document (S i) operations
      end
  end.
Definition applyJSONPatch (h : heap) (document : rval) (operations : list robject) : heap * option patchError :=
  apply_operations h document 0 operations.

(** A patch on decoded values: the document afterwards, [None] if it contains
    itself, and the error. *)
Fixpoint load_operations (l : list object) (h : heap) : heap * list robject :=
  match l with
  | [] => (h, [])
  | o :: l =>
      let '(h, r) := load (VMap o) h in
      let m := match r with RMap p => h_get h p | _ => [] end in
      let '(h, ms) := load_operations l h in (h, m :: ms)
  end.
Definition json_patch (document : object) (operations : list object) : option val * option patchError :=
  let '(h, doc) := load (VMap document) empty_heap in
  let '(h, ops) := load_operations operations h in
  let '(h, err) := applyJSONPatch h doc ops in
  (read_all h doc, err).

Definition operation (op path : string) (value : val) : object :=
  of_pairs [("op", VStr op); ("path", VStr path); ("value", value)].
Definition operation_from (op path from : string) : object :=
  of_pairs [("op", VStr op); ("path", VStr path); ("from", VStr from)].

Example patch_ex :
  json_patch [("a", VList [VInt 1; VInt 2]); ("b", VMap [("c", VInt 3)])]
    [operation "add" "/a/1" (VInt 9); operation "add" "/b/x~1y/z" (VStr "new"); operation_from "move" "/d" "/b/c";
     operation "test" "/d" (VInt 3); operation "remove" "/a/0" VNil]
  = (Some (VMap [("a", VList [VInt 9; VInt 2]); ("b", VMap [("x/y", VMap [("z", VStr "new")])]); ("d", VInt 3)]), None).
Proof. vm_compute. reflexivity. Qed.
