(* ===== verification/World.v ===== *)
(** * The state of a running API server, and computations over it

    A handler of api.go or controller.go is an action: a function on worlds
    that either returns a value or panics.  The clock, the tables of package
    [unicode] and the order of map iteration are the environment.  Store
    methods enter as one step each; [confined] says which keys of the store an
    action writes, and everything the store's theorems say about sequences of
    steps carries over to actions. *)
From S2P Require Import Prelude ConfigModel GoStrings GoCodec Value Json Names Selector Catalog Store StoreFacts StoreProps.

#[local] Set Warnings "-clear-no-such-hyp".
#[local] Open Scope string_scope.
#[local] Open Scope list_scope.
#[local] Open Scope Z_scope.

(** ** Environment and state *)

(** [env_clock n] is what the [n]th reading of the clock gives, in nanoseconds
    since the epoch. *)
Class Env := {
  env_order :: RangeOrder;
  env_unicode :: UnicodeTables;
  env_clock : nat -> Z;
}.
Definition test_env : Env := {| env_order := key_order; env_unicode := ascii_tables; env_clock := fun n => Z.of_nat n * 10 ^ 9 |}.

(** The fields of [API] that stay as [NewAPIContext] set them. *)
Record API := {
  a_version : string;
  a_startedAt : Z;
  a_resources : resources;
  a_ipBase : string;
  a_serverAddress : string;
  a_emits : bool;
}.

Record world := {
  w_store : objectStore;
  w_ticks : nat;
  w_events : list Event;
  w_requestSlots : Z;
  w_listSlots : Z;
  w_watchSlots : Z;
}.
Definition set_store (w : world) (s : objectStore) : world :=
  {| w_store := s; w_ticks := w_ticks w; w_events := w_events w; w_requestSlots := w_requestSlots w;
     w_listSlots := w_listSlots w; w_watchSlots := w_watchSlots w |}.
Definition set_ticks (w : world) (n : nat) : world :=
  {| w_store := w_store w; w_ticks := n; w_events := w_events w; w_requestSlots := w_requestSlots w;
     w_listSlots := w_listSlots w; w_watchSlots := w_watchSlots w |}.
Definition set_events (w : world) (l : list Event) : world :=
  {| w_store := w_store w; w_ticks := w_ticks w; w_events := l; w_requestSlots := w_requestSlots w;
     w_listSlots := w_listSlots w; w_watchSlots := w_watchSlots w |}.
Definition set_slots (w : world) (r l k : Z) : world :=
  {| w_store := w_store w; w_ticks := w_ticks w; w_events := w_events w; w_requestSlots := r;
     w_listSlots := l; w_watchSlots := k |}.

Definition fresh_world (now : Z) : world :=
  {| w_store := newObjectStore now; w_ticks := 0; w_events := []; w_requestSlots := 0; w_listSlots := 0; w_watchSlots := 0 |}.

(** ** Actions: [None] is a panic *)
Definition act (A : Type) : Type := world -> world * option A.
Definition ret {A} (a : A) : act A := fun w => (w, Some a).
Definition panic {A} : act A := fun w => (w, None).
Definition bind {A B} (m : act A) (k : A -> act B) : act B :=
  fun w => match m w with (w, Some a) => k a w | (w, None) => (w, None) end.

Declare Scope act_scope.
Delimit Scope act_scope with act.
Notation "'let!' x := m 'in' k" := (bind m (fun x => k))
  (at level 10, x name, m at level 100, k at level 200) : act_scope.
Notation "'let!' ' p := m 'in' k" := (bind m (fun x => let 'p := x in k))
  (at level 10, p pattern, m at level 100, k at level 200) : act_scope.
Notation "m ;;; k" := (bind m (fun _ => k))
  (at level 100, right associativity) : act_scope.

(** A loop over a slice. *)
Fixpoint for_each {A} (l : list A) (body : A -> act unit) : act unit :=
  match l with
  | [] => ret tt
  | a :: l => bind (body a) (fun _ => for_each l body)
  end.

Section world.
Context `{Env}.

Definition reads {A} (f : objectStore -> A) : act A := fun w => (w, Some (f (w_store w))).
(** [time.Now()] *)
Definition now_ns : act Z := fun w => (set_ticks w (S (w_ticks w)), Some (env_clock (w_ticks w))).
Definition now : act Z := bind now_ns (fun t => ret (t / 10 ^ 9)).
Definition now_rfc3339 : act string := bind now (fun t => ret (rfc3339 t)).

(** [store.put]: the caller's object afterwards, and the error. *)
Definition store_put (key : objectKey) (obj : object) (eventType : string) : act (object * option storeError) :=
  fun w => let '(s, obj, err) := put key obj eventType (w_store w) in (set_store w s, Some (obj, err)).
Definition store_delete (key : objectKey) : act (option object) :=
  fun w => let '(s, o) := delete_obj key (w_store w) in (set_store w s, Some o).
Definition store_get (key : objectKey) : act (option object) := reads (fun s => get s key).
Definition store_list (gv : groupVersion) (namespace resource : string) (labels fields : list selectorRequirement)
    (offset limit : Z) : act ((list object * Z * Z) + (Z * listError)) :=
  reads (fun s => listPage s gv namespace resource labels fields offset limit).
Definition store_nextName (prefix : string) : act (string + nameError) :=
  fun w => let '(s, r) := nextName prefix (w_store w) in (set_store w s, Some r).

Definition emit (e : Event) : act unit := fun w => (set_events w (w_events w ++ [e]), Some tt).

(** [make([]string, 0, n)]: a negative capacity, or one whose 16-byte strings
    do not fit the address space, panics. *)
Definition make_strings (n : Z) : act unit :=
  if (n <? 0) || (2 ^ 48 <? 16 * n) then panic else ret tt.
End world.

(** ** Footprints *)
Section footprint.
Context `{Env}.

(** Steps of the store that write keys of [P] only, draw a name, or start or
    end a watch. *)
Inductive touch (P : objectKey -> Prop) : objectStore -> objectStore -> Prop :=
  | touch_put key obj ev s : P key -> touch P s (put key obj ev s).1.1
  | touch_delete key s : P key -> touch P s (delete_obj key s).1
  | touch_name prefix s : touch P s (nextName prefix s).1
  | touch_watch gv ns r ls fs s : touch P s (watch gv ns r ls fs s).1
  | touch_unwatch wa s : touch P s (unwatch wa s).

Lemma touch_step P s s' : touch P s s' -> store_step (fun _ _ => True) s s'.
Proof. destruct 1; by constructor. Qed.
Lemma touches_steps P s s' : rtc (touch P) s s' -> rtc (store_step (fun _ _ => True)) s s'.
Proof. apply rtc_subrel, touch_step. Qed.
Lemma touches_inv P s s' : rtc (touch P) s s' -> store_inv s -> store_inv s'.
Proof. induction 1; [done|]. intros. eauto using store_step_inv, touch_step. Qed.

Lemma nextName_objects prefix s : st_objects (nextName prefix s).1 = st_objects s.
Proof. unfold nextName. by repeat case_match. Qed.
Lemma unwatch_objects wa s : st_objects (unwatch wa s) = st_objects s.
Proof. unfold unwatch, drop_watcher, close_channel. by repeat case_match. Qed.
Lemma touch_frame P s s' k : touch P s s' -> store_inv s -> ~ P k -> st_objects s' !! k = st_objects s !! k.
Proof.
  intros Ht Hs Hk. destruct Ht as [key obj ev s Hp|key s Hp|prefix s|gv ns r ls fs s|wa s].
  - rewrite put_unfold by apply Hs. destruct (put_refuses s key obj ev); [done|]. cbn [fst].
    destruct (put_store_fields s key obj ev (si_watchers _ Hs)) as [-> _].
    rewrite lookup_insert_ne; [done|]. by intros ->.
  - destruct (st_objects s !! key) as [o|] eqn:Eo; [|by rewrite delete_absent].
    destruct (delete_fields key s o (si_watchers _ Hs) Eo) as [-> _]. rewrite lookup_delete_ne; [done|]. by intros ->.
  - by rewrite nextName_objects.
  - done.
  - by rewrite unwatch_objects.
Qed.
(** Keys outside the footprint keep their objects. *)
Lemma touches_frame P s s' k : rtc (touch P) s s' -> store_inv s -> ~ P k -> st_objects s' !! k = st_objects s !! k.
Proof.
  induction 1 as [|s1 s2 s3 Ht _ IH]; [done|]. intros Hs Hk.
  rewrite IH; [by eapply touch_frame| |done]. eauto using store_step_inv, touch_step.
Qed.

(** What the action does to the store, whether it returns or panics; and it
    gives back every slot it takes. *)
Definition slots_of (w : world) : Z * Z * Z := (w_requestSlots w, w_listSlots w, w_watchSlots w).
Definition confined (P : objectKey -> Prop) {A} (m : act A) : Prop :=
  forall w, rtc (touch P) (w_store w) (w_store (m w).1) /\ slots_of (m w).1 = slots_of w.

Lemma touch_mono (P Q : objectKey -> Prop) s s' : (forall k, P k -> Q k) -> touch P s s' -> touch Q s s'.
Proof. intros HPQ. destruct 1; constructor; auto. Qed.
Lemma confined_mono (P Q : objectKey -> Prop) {A} (m : act A) :
  (forall k, P k -> Q k) -> confined P m -> confined Q m.
Proof. intros HPQ Hm w. split; [|apply Hm]. eapply rtc_subrel; [|apply Hm]. intros ??. by apply touch_mono. Qed.
Lemma confined_same P {A} (m : act A) : (forall w, w_store (m w).1 = w_store w /\ slots_of (m w).1 = slots_of w) -> confined P m.
Proof. intros Hm w. destruct (Hm w) as [-> ->]. split; [apply rtc_refl|done]. Qed.
Lemma confined_ret P {A} (a : A) : confined P (ret a).
Proof. by apply confined_same. Qed.
Lemma confined_panic P {A} : confined P (panic (A:=A)).
Proof. by apply confined_same. Qed.
Lemma confined_bind P {A B} (m : act A) (k : A -> act B) :
  confined P m -> (forall a, confined P (k a)) -> confined P (bind m k).
Proof.
  intros Hm Hk w. unfold bind. destruct (Hm w) as [H1 H2]. destruct (m w) as [w' [a|]]; [|done].
  destruct (Hk a w') as [H3 H4]. split; [by etrans|by rewrite H4].
Qed.
Lemma confined_for_each P {A} (l : list A) body : (forall a, a ∈ l -> confined P (body a)) -> confined P (for_each l body).
Proof.
  induction l as [|a l IH]; intros Hb; simpl; [apply confined_ret|].
  apply confined_bind; [apply Hb; set_solver|]. intros _. apply IH. set_solver.
Qed.
Lemma confined_reads P {A} (f : objectStore -> A) : confined P (reads f).
Proof. by apply confined_same. Qed.
Lemma confined_now_ns P : confined P now_ns.
Proof. by apply confined_same. Qed.
Lemma confined_now P : confined P now.
Proof. apply confined_bind; [apply confined_now_ns|]. intros. apply confined_ret. Qed.
Lemma confined_now_rfc3339 P : confined P now_rfc3339.
Proof. apply confined_bind; [apply confined_now|]. intros. apply confined_ret. Qed.
Lemma confined_emit P e : confined P (emit e).
Proof. by apply confined_same. Qed.
Lemma confined_make_strings P n : confined P (make_strings n).
Proof. unfold make_strings. case_match; [apply confined_panic|apply confined_ret]. Qed.
Lemma confined_put (P : objectKey -> Prop) key obj ev : P key -> confined P (store_put key obj ev).
Proof.
  intros Hk w. unfold store_put. pose proof (touch_put P key obj ev (w_store w) Hk) as Ht.
  destruct (put key obj ev (w_store w)) as [[s o] e]. split; [by apply rtc_once|done].
Qed.
Lemma confined_delete (P : objectKey -> Prop) key : P key -> confined P (store_delete key).
Proof.
  intros Hk w. unfold store_delete. pose proof (touch_delete P key (w_store w) Hk) as Ht.
  destruct (delete_obj key (w_store w)) as [s o]. split; [by apply rtc_once|done].
Qed.
Lemma confined_nextName P prefix : confined P (store_nextName prefix).
Proof.
  intros w. unfold store_nextName. pose proof (touch_name P prefix (w_store w)) as Ht.
  destruct (nextName prefix (w_store w)) as [s r]. split; [by apply rtc_once|done].
Qed.

Lemma confined_inv P {A} (m : act A) w : confined P m -> store_inv (w_store w) -> store_inv (w_store (m w).1).
Proof. intros Hm. eapply touches_inv. apply Hm. Qed.
Lemma confined_frame P {A} (m : act A) w k : confined P m -> store_inv (w_store w) -> ~ P k ->
  st_objects (w_store (m w).1) !! k = st_objects (w_store w) !! k.
Proof. intros Hm. eapply touches_frame. apply Hm. Qed.

(** An action that cannot panic from a state satisfying the invariant. *)
Definition safe {A} (m : act A) : Prop := forall w, store_inv (w_store w) -> is_Some (m w).2.

Lemma safe_ret {A} (a : A) : safe (ret a).
Proof. intros w _. by exists a. Qed.
Lemma safe_bind P {A B} (m : act A) (k : A -> act B) : confined P m -> safe m -> (forall a, safe (k a)) -> safe (bind m k).
Proof.
  intros Hc Hm Hk w Hw. unfold bind. pose proof (confined_inv P m w Hc Hw) as Hi.
  destruct (Hm w Hw) as [a Ha]. destruct (m w) as [w' o]. cbn [fst snd] in *. subst o. by apply Hk.
Qed.
Lemma safe_reads {A} (f : objectStore -> A) : safe (reads f).
Proof. intros w _. by eexists. Qed.
Lemma safe_now_rfc3339 : safe now_rfc3339.
Proof. intros w _. by eexists. Qed.
Lemma safe_now_ns : safe now_ns.
Proof. intros w _. by eexists. Qed.
Lemma safe_emit e : safe (emit e).
Proof. intros w _. by eexists. Qed.
Lemma safe_put key obj ev : safe (store_put key obj ev).
Proof. intros w _. unfold store_put. destruct (put _ _ _ _) as [[??]?]. by eexists. Qed.
Lemma safe_delete key : safe (store_delete key).
Proof. intros w _. unfold store_delete. destruct (delete_obj _ _). by eexists. Qed.
Lemma safe_nextName prefix : safe (store_nextName prefix).
Proof. intros w _. unfold store_nextName. destruct (nextName _ _). by eexists. Qed.
Lemma safe_make_strings n : 0 <= n <= 2 ^ 44 -> safe (make_strings n).
Proof.
  intros Hn w _. unfold make_strings.
  assert ((n <? 0) || (2 ^ 48 <? 16 * n) = false) as ->; [|by eexists].
  apply orb_false_iff. rewrite !Z.ltb_ge. lia.
Qed.
(** The same with a property of the result; and an action that always panics. *)
Definition returns {A} (Q : A -> Prop) (m : act A) : Prop :=
  forall w, store_inv (w_store w) -> exists a, (m w).2 = Some a /\ Q a.
Definition panics {A} (m : act A) : Prop := forall w, store_inv (w_store w) -> (m w).2 = None.

Lemma returns_safe {A} Q (m : act A) : returns Q m -> safe m.
Proof. intros Hm w Hw. destruct (Hm w Hw) as (x & -> & _). by eexists. Qed.
Lemma safe_bind_returns P {A B} Q (m : act A) (k : A -> act B) :
  confined P m -> returns Q m -> (forall a, Q a -> safe (k a)) -> safe (bind m k).
Proof.
  intros Hc Hm Hk w Hw. unfold bind. pose proof (confined_inv P m w Hc Hw) as Hi.
  destruct (Hm w Hw) as (x & Hx & HQ). destruct (m w) as [w' o]. cbn [fst snd] in *. subst o. by apply Hk.
Qed.
Lemma panics_bind P {A B} Q (m : act A) (k : A -> act B) :
  confined P m -> returns Q m -> (forall a, Q a -> panics (k a)) -> panics (bind m k).
Proof.
  intros Hc Hm Hk w Hw. unfold bind. pose proof (confined_inv P m w Hc Hw) as Hi.
  destruct (Hm w Hw) as (x & Hx & HQ). destruct (m w) as [w' o]. cbn [fst snd] in *. subst o. by apply Hk.
Qed.
Lemma panics_first {A B} (m : act A) (k : A -> act B) : panics m -> panics (bind m k).
Proof. intros Hm w Hw. unfold bind. specialize (Hm w Hw). destruct (m w) as [w' o]. cbn [snd] in Hm. by subst o. Qed.
Lemma safe_returns {A} (m : act A) : safe m -> returns (fun _ => True) m.
Proof. intros Hm w Hw. destruct (Hm w Hw) as [x Hx]. eauto. Qed.
Lemma panics_make_strings n : n < 0 \/ 2 ^ 44 < n -> panics (make_strings n).
Proof.
  intros Hn w _. unfold make_strings. assert ((n <? 0) || (2 ^ 48 <? 16 * n) = true) as ->; [|done].
  apply orb_true_iff. rewrite !Z.ltb_lt. lia.
Qed.
Lemma safe_for_each P {A} (l : list A) body :
  (forall a, a ∈ l -> confined P (body a)) -> (forall a, a ∈ l -> safe (body a)) -> safe (for_each l body).
Proof.
  induction l as [|a l IH]; intros Hc Hb; simpl; [apply safe_ret|].
  apply (safe_bind P); [apply Hc; set_solver|apply Hb; set_solver|]. intros _. apply IH; set_solver.
Qed.
End footprint.

Create HintDb footprint.
#[export] Hint Resolve confined_ret confined_panic confined_reads confined_now_ns confined_now confined_now_rfc3339
  confined_emit confined_make_strings confined_put confined_delete confined_nextName
  safe_ret safe_reads safe_now_rfc3339 safe_now_ns safe_emit safe_put safe_delete safe_nextName : footprint.

(** Walk through the structure of an action. *)
Ltac confine :=
  repeat first
    [ solve [eauto with footprint]
    | progress unfold store_get, store_list
    | apply confined_bind; [|intros ?]
    | apply confined_for_each; intros ? ?
    | case_match ].
