(* ===== verification/Controllers.v ===== *)
(** * Workload controllers

    controller.go: pods and ReplicaSets materialized for workloads, cascading
    deletion, respawn, Endpoints and EndpointSlices, Events.  Objects that come
    out of the store are clones, so a controller's writes to them are values
    until it puts them back. *)
From S2P Require Import Prelude GoStrings GoCodec Value Json Names Selector Catalog Store StoreFacts StoreProps World.

#[local] Set Warnings "-clear-no-such-hyp".
#[local] Open Scope string_scope.
#[local] Open Scope list_scope.
#[local] Open Scope Z_scope.

Definition maxControllerPods : Z := 64.
Definition seqZ (n : Z) : list Z := Z.of_nat <$> seq 0 (Z.to_nat n).

(** A map literal of the sources. *)
Definition lit (l : list (string * val)) : val := VMap (of_pairs l).
(** [if _, ok := m[k]; !ok { m[k] = v }] *)
Definition default_key (m : object) (kv : string * val) : object :=
  if has_key m kv.1 then m else oset m kv.1 kv.2.

Definition isWorkloadKind (kind : string) : bool :=
  bool_decide (kind ∈ ["Deployment"; "ReplicaSet"; "StatefulSet"; "DaemonSet"; "Job"]).

(** ** Names *)
Fixpoint fnv32_go (hash : Z) (s : string) : Z :=
  match s with
  | "" => hash
  | String c s => fnv32_go (u32 (Z.lxor hash (code c) * 16777619)) s
  end.
Definition fnv32 (value : string) : Z := fnv32_go 2166136261 value.

Definition suffix_alphabet : string := "bcdfghjklmnpqrstvwxz2456789".
(** [n] characters; an index outside the alphabet would panic. *)
Fixpoint suffix_chars (n : nat) (sum : Z) : option string :=
  match n with
  | O => Some ""
  | S n => c ← String.get (Z.to_nat (sum mod 26)) suffix_alphabet; String c <$> suffix_chars n (sum / 26)
  end.
Definition suffixFor (seed : string) (index : Z) : string :=
  default "" (suffix_chars 5 (fnv32 (seed +:+ "/" +:+ itoa index))).

Definition workloadPodNames (kind name : string) (replicas nodeCount : Z) : list string :=
  if String.eqb kind "StatefulSet" then map (fun i => name +:+ "-" +:+ itoa i) (seqZ replicas)
  else if String.eqb kind "DaemonSet" then
    map (fun i => name +:+ "-" +:+ suffixFor name i) (seqZ (Z.min nodeCount replicas))
  else if String.eqb kind "Deployment" || String.eqb kind "ReplicaSet" then
    let rs := suffixFor (name +:+ "-rs") 0 in
    map (fun i => name +:+ "-" +:+ rs +:+ "-" +:+ suffixFor name (i + 1)) (seqZ replicas)
  else if String.eqb kind "Job" then [name +:+ "-" +:+ suffixFor name 0]
  else [].

Definition template_of (obj : object) : object := objectMap (idx (objectMap (idx obj "spec")) "template").
Definition templateHash (obj : object) : string :=
  match json_marshal (idx (template_of obj) "spec") with
  | None => suffixFor "empty" 0
  | Some encoded => suffixFor (to_hex (fnv32 encoded)) 0
  end.

(** ** Objects *)
Definition ownerRef (obj : object) (kind name apiVersion : string) : val :=
  lit [("apiVersion", VStr apiVersion); ("kind", VStr kind); ("name", VStr name);
       ("uid", idx (objectMap (idx obj "metadata")) "uid"); ("controller", VBool true);
       ("blockOwnerDeletion", VBool true)].

Definition mergeLabels (templateLabels : val) (kind templateHashSeed : string) : object :=
  let labels := of_pairs (objectMap templateLabels) in
  if String.eqb kind "Deployment" || String.eqb kind "ReplicaSet"
  then oset labels "pod-template-hash" (VStr templateHashSeed) else labels.

Definition imageForContainer (spec : object) (name : string) : string :=
  match List.find (fun entry => String.eqb (stringField (objectMap entry) "name") name) (objectList (idx spec "containers")) with
  | Some entry => stringField (objectMap entry) "image"
  | None => ""
  end.

(** [podContainerNames] of api.go. *)
Definition podContainerNames (pod : object) : list string :=
  let spec := objectMap (idx pod "spec") in
  flat_map (fun key => flat_map (fun item =>
      match idx (objectMap item) "name" with
      | VStr name => if String.eqb name "" then [] else [name]
      | _ => []
      end) (objectList (idx spec key))) ["initContainers"; "containers"].

Definition pod_spec_defaults : list (string * val) :=
  [("securityContext", VMap []); ("dnsPolicy", VStr "ClusterFirst"); ("schedulerName", VStr "default-scheduler");
   ("terminationGracePeriodSeconds", VInt 30); ("enableServiceLinks", VBool true);
   ("preemptionPolicy", VStr "PreemptLowerPriority"); ("priority", VInt 0)].
Definition container_defaults : list (string * val) :=
  [("resources", VMap []); ("terminationMessagePath", VStr "/dev/termination-log");
   ("terminationMessagePolicy", VStr "File"); ("imagePullPolicy", VStr "IfNotPresent")].
(** The keys of each table are distinct, so the order of the loops is
    immaterial; an entry of the container list that is no object is left as it
    is. *)
Definition applyPodSpecDefaults (spec : object) : object :=
  let spec := foldl default_key spec pod_spec_defaults in
  match idx spec "containers" with
  | VList l =>
      oset spec "containers" (VList (map (fun entry =>
        match entry with VMap container => VMap (foldl default_key container container_defaults) | v => v end) l))
  | _ => spec
  end.

(** *** Addresses (state.go) *)
Definition addressParts (base : string) : Z * Z * Z * Z :=
  let octet s := match atoi s with
                 | Some v => if (v <? 0) || (255 <? v) then None else Some v
                 | None => None end in
  match split (chr 46) base with
  | [a; b; c; d] =>
      match octet a, octet b, octet c, octet d with
      | Some a, Some b, Some c, Some d => (a, b, c, d)
      | _, _, _, _ => (10, 42, 0, 0)
      end
  | _ => (10, 42, 0, 0)
  end.
Definition dotted (a b c d : Z) : string :=
  itoa a +:+ "." +:+ itoa b +:+ "." +:+ itoa c +:+ "." +:+ itoa d.
Definition nodeAddress (base : string) (offset : Z) : string :=
  let '(a, b, c, _) := addressParts base in dotted a b c offset.
Definition podAddress (base : string) (subnetOffset hostOffset : Z) : string :=
  let '(a, b, c, _) := addressParts base in dotted a b ((c + subnetOffset) mod 256) hostOffset.
Definition podCIDR (base : string) (subnetOffset : Z) : string := podAddress base (subnetOffset + 1) 0 +:+ "/24".
Definition serviceAddress (base : string) (hostOffset : Z) : string := nodeAddress base hostOffset.

(** *** [fmt.Sprint] of a dynamic value *)
Definition sprint_float (f : spec_float) : string :=
  match f with
  | S754_zero s => if s then "-0" else "0"
  | S754_infinity s => if s then "-Inf" else "+Inf"
  | S754_nan => "NaN"
  | S754_finite s m e =>
      let '(d, x) := shortest m e in
      let exp := slen (to_base 10 d) - 1 + x in
      if (exp <? -4) || (6 <=? exp) then
        let l := exp_lit s d x in
        (if s then "-" else "") +:+ ln_int l +:+ frac_text (ln_frac l) +:+ "e" +:+ (if exp <? 0 then "-" else "+")
        +:+ zero_pad 2 (Z.abs exp)
      else print_lit (fixed_lit s d x)
  end.
Fixpoint sprint (v : val) : string :=
  match v with
  | VNil => "<nil>"
  | VBool b => format_bool b
  | VInt z => itoa z
  | VFloat f => sprint_float f
  | VStr s => s
  | VList l => "[" +:+ join (map sprint l) " " +:+ "]"
  | VMap m => "map[" +:+ join (map (fun kv => kv.1 +:+ ":" +:+ sprint kv.2) m) " " +:+ "]"
  | VStrMap m => "map[" +:+ join (map (fun kv => kv.1 +:+ ":" +:+ kv.2) m) " " +:+ "]"
  | VStrList l => "[" +:+ join l " " +:+ "]"
  | VMapList l =>
      "[" +:+ join (map (fun m => "map[" +:+ join (map (fun kv => kv.1 +:+ ":" +:+ sprint kv.2) m) " " +:+ "]") l) " " +:+ "]"
  end.

Definition key_of (group version resource namespace name : string) : objectKey :=
  {| key_group := group; key_version := version; key_resource := resource; key_namespace := namespace; key_name := name |}.
Definition core (resource namespace name : string) : objectKey := key_of "" "v1" resource namespace name.

Section controllers.
Context `{Env}.
Variable a : API.
#[local] Open Scope act_scope.

(** ** Reading the cluster *)
Definition page_items (r : (list object * Z * Z) + (Z * listError)) : option (list object) :=
  match r with inl (items, _, _) => Some items | inr _ => None end.
Definition list_all (gv : groupVersion) (namespace resource : string) : act (option (list object)) :=
  let! r := store_list gv namespace resource [] [] 0 maxListPageItems in ret (page_items r).

Definition metadata_of (o : object) : object := objectMap (idx o "metadata").
Definition owned_by (ownerName : string) (o : object) : bool :=
  existsb (fun ref => String.eqb (stringField (objectMap ref) "name") ownerName)
    (objectList (idx (metadata_of o) "ownerReferences")).
Definition owned_pods (s : objectStore) (namespace ownerName : string) : gset string :=
  match page_items (listPage s (GV "" "v1") namespace "pods" [] [] 0 maxListPageItems) with
  | None => ∅
  | Some pods => list_to_set (map (fun pod => stringField (metadata_of pod) "name") (List.filter (owned_by ownerName) pods))
  end.
Definition ownedPodNames (namespace ownerName : string) : act (gset string) :=
  reads (fun s => owned_pods s namespace ownerName).
(** An item is listed once per matching reference. *)
Definition replica_sets_of (s : objectStore) (namespace deployName : string) : list object :=
  match page_items (listPage s (GV "apps" "v1") namespace "replicasets" [] [] 0 maxListPageItems) with
  | None => []
  | Some items => flat_map (fun item =>
      flat_map (fun ref => if String.eqb (stringField (objectMap ref) "name") deployName then [item] else [])
        (objectList (idx (metadata_of item) "ownerReferences"))) items
  end.
Definition deploymentReplicaSets (namespace deployName : string) : act (list object) :=
  reads (fun s => replica_sets_of s namespace deployName).
Definition nextDeploymentRevision (namespace deployName : string) : act Z :=
  let! sets := deploymentReplicaSets namespace deployName in ret (Z.of_nat (length sets) + 1).

Definition node_count (s : objectStore) : Z :=
  match listPage s (GV "" "v1") "" "nodes" [] [] 0 8 with
  | inl (_, total, _) => if total =? 0 then 1 else total
  | inr _ => 1
  end.
Definition nodeCount : act Z := reads node_count.
(** A remainder by zero, or a negative index, panics. *)
Definition nodeName (ordinal : Z) : act string :=
  let! r := store_list (GV "" "v1") "" "nodes" [] [] 0 8 in
  match r with
  | inl (nodes, total, _) =>
      if total =? 0 then ret "worker-01"
      else
        let n := Z.of_nat (length nodes) in
        if (n =? 0) || (Z.rem ordinal n <? 0) then panic
        else ret (stringField (metadata_of (default [] (nodes !! Z.to_nat (Z.rem ordinal n)))) "name")
  | inr _ => ret "worker-01"
  end.

(** ** Events *)
Definition emitEvent (namespace : string) (involvedUID : val)
    (involvedKind involvedAPIVersion involvedName reason message source : string) : act unit :=
  let! now := now_rfc3339 in
  let eventName := involvedName +:+ "." +:+ to_hex (fnv32 (involvedName +:+ reason +:+ now)) in
  let! node := nodeName 0 in
  let event := of_pairs
    [("apiVersion", VStr "v1"); ("kind", VStr "Event");
     ("metadata", lit [("name", VStr eventName); ("namespace", VStr namespace);
                       ("uid", VStr (stableUID ("event/" +:+ namespace +:+ "/" +:+ eventName)));
                       ("creationTimestamp", VStr now)]);
     ("involvedObject", lit [("kind", VStr involvedKind); ("namespace", VStr namespace); ("name", VStr involvedName);
                             ("uid", involvedUID); ("apiVersion", VStr involvedAPIVersion); ("resourceVersion", VStr "")]);
     ("reason", VStr reason); ("message", VStr message); ("type", VStr "Normal");
     ("source", lit [("component", VStr source)]); ("firstTimestamp", VStr now); ("lastTimestamp", VStr now);
     ("count", VInt 1); ("reportingComponent", VStr source); ("reportingInstance", VStr node)] in
  store_put (core "events" namespace eventName) event "ADDED" ;;; ret tt.

Definition emitPodLifecycleEvents (namespace : string) (pod : object) : act unit :=
  let meta := metadata_of pod in
  let name := stringField meta "name" in
  let uid := idx meta "uid" in
  let spec := objectMap (idx pod "spec") in
  let node := stringField spec "nodeName" in
  let image := match objectList (idx spec "containers") with
               | [] => "image"
               | entry :: _ => stringField (objectMap entry) "image"
               end in
  emitEvent namespace uid "Pod" "v1" name "Scheduled"
    ("Successfully assigned " +:+ namespace +:+ "/" +:+ name +:+ " to " +:+ node) "default-scheduler" ;;;
  emitEvent namespace uid "Pod" "v1" name "Pulled"
    ("Container image " +:+ go_quote image +:+ " already present on machine") "kubelet" ;;;
  emitEvent namespace uid "Pod" "v1" name "Created" ("Created container " +:+ name) "kubelet" ;;;
  emitEvent namespace uid "Pod" "v1" name "Started" ("Started container " +:+ name) "kubelet".

Definition workload_controller (kind : string) : string :=
  if String.eqb kind "StatefulSet" then "statefulset-controller"
  else if String.eqb kind "DaemonSet" then "daemonset-controller"
  else if String.eqb kind "ReplicaSet" then "replicaset-controller"
  else if String.eqb kind "Job" then "job-controller" else "".
(** [workloadPodNames] with the allocation of its result. *)
Definition pod_names (kind name : string) (replicas : Z) : act (list string) :=
  let! n := nodeCount in
  make_strings replicas ;;; ret (workloadPodNames kind name replicas n).
Definition emitWorkloadEvents (kind namespace workloadName : string) (object : object) : act unit :=
  let uid := idx (metadata_of object) "uid" in
  let controller := workload_controller kind in
  if String.eqb controller "" then ret tt
  else
    let! names := pod_names kind workloadName (intField (objectMap (idx object "spec")) "replicas") in
    for_each names (fun podName =>
      emitEvent namespace uid kind "" workloadName "SuccessfulCreate" ("Created pod: " +:+ podName) controller).

(** ** Pods *)
Definition repeat_char (c : string) : string := "containerd://" +:+ str_repeat c 64.
Definition container_status (now : string) (name image : string) : val :=
  lit [("name", VStr name); ("ready", VBool true); ("restartCount", VInt 0);
       ("state", lit [("running", lit [("startedAt", VStr now)])]); ("started", VBool true);
       ("image", VStr image); ("imageID", VStr (repeat_char "a")); ("containerID", VStr (repeat_char "b"))].
Definition ready_conditions (now : string) : val :=
  VList [lit [("type", VStr "Ready"); ("status", VStr "True"); ("lastTransitionTime", VStr now)];
         lit [("type", VStr "PodScheduled"); ("status", VStr "True"); ("lastTransitionTime", VStr now)]].

Definition controller_pod (now node : string) (kind namespace workloadName podName : string) (owner : val)
    (workload : object) (ordinal : Z) (hashSeed : string) : object :=
  let template := template_of workload in
  let spec := cloneObject (objectMap (idx template "spec")) in
  let spec := if bool_decide (spec = []) then
      [("containers", VList [lit [("name", VStr workloadName); ("image", VStr "busybox")]])]
    else spec in
  let spec := oset spec "nodeName" (VStr node) in
  let spec := oset spec "restartPolicy" (VStr (if String.eqb kind "Job" then "Never" else "Always")) in
  let spec := applyPodSpecDefaults spec in
  let labels := mergeLabels (idx (objectMap (idx template "metadata")) "labels") kind hashSeed in
  let uid := stableUID ("job/" +:+ namespace +:+ "/" +:+ workloadName) in
  let labels := if String.eqb kind "Job" then
      foldl (fun m kv => oset m kv.1 kv.2) labels
        [("job-name", VStr workloadName); ("batch.kubernetes.io/job-name", VStr workloadName);
         ("controller-uid", VStr uid); ("batch.kubernetes.io/controller-uid", VStr uid)]
    else labels in
  let meta := lit [("name", VStr podName); ("namespace", VStr namespace);
                   ("uid", VStr (stableUID ("pod/" +:+ namespace +:+ "/" +:+ podName)));
                   ("creationTimestamp", VStr now); ("ownerReferences", VList [owner]); ("labels", VMap labels)] in
  let podIP := serviceAddress (a_ipBase a) (100 + ordinal) in
  let containerNames := podContainerNames [("spec", VMap spec)] in
  let statuses := map (fun name => container_status now name (imageForContainer spec name)) containerNames in
  of_pairs
    [("apiVersion", VStr "v1"); ("kind", VStr "Pod"); ("metadata", meta); ("spec", VMap spec);
     ("status", lit [("phase", VStr "Running"); ("podIP", VStr podIP); ("podIPs", VList [lit [("ip", VStr podIP)]]);
                     ("hostIP", VStr (serviceAddress (a_ipBase a) 10)); ("startTime", VStr now);
                     ("qosClass", VStr "BestEffort"); ("containerStatuses", VList statuses);
                     ("conditions", ready_conditions now)])].
Definition controllerPod (kind namespace workloadName podName : string) (owner : val) (workload : object)
    (ordinal : Z) (hashSeed : string) : act object :=
  let! now := now_rfc3339 in
  let! node := nodeName ordinal in
  ret (controller_pod now node kind namespace workloadName podName owner workload ordinal hashSeed).

(** [for podName := range existing]: the pods that are not wanted go. *)
Definition reap_pods (site : nat) (namespace : string) (wanted : string -> bool) (existing : gset string) : act unit :=
  for_each (range_entries site (elements existing)) (fun podName =>
    if wanted podName then ret tt else store_delete (core "pods" namespace podName) ;;; ret tt).
Definition add_pod (namespace podName : string) (pod : object) : act unit :=
  let! '(pod, err) := store_put (core "pods" namespace podName) pod "ADDED" in
  match err with None => emitPodLifecycleEvents namespace pod | Some _ => ret tt end.

(** ** Deployments *)
Definition syncDeploymentStatus (namespace name : string) (desired : Z) : act unit :=
  let key := key_of "apps" "v1" "deployments" namespace name in
  let! found := store_get key in
  match found with
  | None => ret tt
  | Some deployment =>
      let status := foldl (fun m k => oset m k (VInt desired)) (objectMap (idx deployment "status"))
        ["replicas"; "updatedReplicas"; "readyReplicas"; "availableReplicas"] in
      store_put key (oset deployment "status" (VMap status)) "MODIFIED" ;;; ret tt
  end.

(** A ReplicaSet with other replica counts. *)
Definition scaled (rs : object) (replicas : Z) : object :=
  let rs := oset rs "spec" (VMap (oset (objectMap (idx rs "spec")) "replicas" (VInt replicas))) in
  oset rs "status" (VMap (foldl (fun m k => oset m k (VInt replicas)) (objectMap (idx rs "status"))
    ["replicas"; "readyReplicas"; "availableReplicas"])).
Definition replicas_of (o : object) : Z := intField (objectMap (idx o "spec")) "replicas".

Definition rs_key (namespace name : string) : objectKey := key_of "apps" "v1" "replicasets" namespace name.
Definition rs_uid (namespace rsName : string) : string := stableUID ("replicaset/" +:+ namespace +:+ "/" +:+ rsName).
Definition new_replica_set (namespace name rsName : string) (deployment : object) (desired revision : Z) (now : string) : object :=
  let spec := objectMap (idx deployment "spec") in
  of_pairs
    [("apiVersion", VStr "apps/v1"); ("kind", VStr "ReplicaSet");
     ("metadata", lit
       [("name", VStr rsName); ("namespace", VStr namespace); ("uid", VStr (rs_uid namespace rsName));
        ("creationTimestamp", VStr now); ("ownerReferences", VList [ownerRef deployment "Deployment" name "apps/v1"]);
        ("labels", VMap (mergeLabels (idx (objectMap (idx (template_of deployment) "metadata")) "labels")
                           "Deployment" (templateHash deployment)));
        ("annotations", lit [("deployment.kubernetes.io/desired-replicas", VStr (itoa desired));
                             ("deployment.kubernetes.io/max-replicas", VStr (itoa (desired + Z.quot desired 4)));
                             ("deployment.kubernetes.io/revision", VStr (itoa revision))])]);
     ("spec", lit [("replicas", VInt desired); ("selector", idx spec "selector"); ("template", idx spec "template")]);
     ("status", lit [("replicas", VInt desired); ("readyReplicas", VInt desired); ("availableReplicas", VInt desired);
                     ("fullyLabeledReplicas", VInt desired); ("observedGeneration", VInt 1)])].

(** The current ReplicaSet, created or scaled; [None] when it cannot be stored. *)
Definition ensure_replica_set (namespace name rsName : string) (deployment : object) (desired : Z) : act (option object) :=
  let! found := store_get (rs_key namespace rsName) in
  match found with
  | None =>
      let! revision := nextDeploymentRevision namespace name in
      let! now := now_rfc3339 in
      let! '(rs, err) := store_put (rs_key namespace rsName)
                           (new_replica_set namespace name rsName deployment desired revision now) "ADDED" in
      match err with
      | Some _ => ret None
      | None =>
          emitEvent namespace (idx (metadata_of deployment) "uid") "Deployment" "apps/v1" name "ScalingReplicaSet"
            ("Scaled up replica set " +:+ rsName +:+ " to " +:+ itoa desired) "deployment-controller" ;;;
          emitEvent namespace (VStr (rs_uid namespace rsName)) "ReplicaSet" "apps/v1" rsName "SuccessfulCreate"
            ("Created pod: " +:+ rsName +:+ "-" +:+ suffixFor rsName 0) "replicaset-controller" ;;;
          ret (Some rs)
      end
  | Some rs =>
      if replicas_of rs =? desired then ret (Some rs)
      else
        let! '(rs, _) := store_put (rs_key namespace rsName) (scaled rs desired) "MODIFIED" in ret (Some rs)
  end.

(** Old ReplicaSets stay, scaled to zero, without their pods. *)
Definition retire_replica_set (namespace rsName : string) (oldRS : object) : act unit :=
  let oldName := stringField (metadata_of oldRS) "name" in
  if String.eqb oldName rsName then ret tt
  else
    (if replicas_of oldRS =? 0 then ret tt
     else store_put (rs_key namespace oldName) (scaled oldRS 0) "MODIFIED" ;;; ret tt) ;;;
    let! owned := ownedPodNames namespace oldName in
    reap_pods 12 namespace (fun _ => false) owned.

Definition cap_pods (desired : Z) : Z := if maxControllerPods <? desired then maxControllerPods else desired.
Definition rs_pod_name (rsName : string) (i : Z) : string := rsName +:+ "-" +:+ suffixFor rsName i.
Definition materializeDeployment (namespace name : string) (deployment : object) : act unit :=
  let desired := cap_pods (replicas_of deployment) in
  if desired <? 0 then ret tt
  else
    let rsName := name +:+ "-" +:+ templateHash deployment in
    let! current := ensure_replica_set namespace name rsName deployment desired in
    match current with
    | None => ret tt
    | Some rs =>
        let wanted := map (rs_pod_name rsName) (seqZ desired) in
        let! existing := ownedPodNames namespace rsName in
        reap_pods 11 namespace (fun p => bool_decide (p ∈ wanted)) existing ;;;
        for_each (seqZ desired) (fun i =>
          let podName := rs_pod_name rsName i in
          if bool_decide (podName ∈ existing) then ret tt
          else
            let! pod := controllerPod "Deployment" namespace rsName podName (ownerRef rs "ReplicaSet" rsName "apps/v1")
                          deployment i (templateHash deployment) in
            add_pod namespace podName pod) ;;;
        let! sets := deploymentReplicaSets namespace name in
        for_each sets (retire_replica_set namespace rsName) ;;;
        syncDeploymentStatus namespace name desired
    end.

(** ** Other workloads *)
Fixpoint zip_index {A} (i : Z) (l : list A) : list (Z * A) :=
  match l with [] => [] | x :: l => (i, x) :: zip_index (i + 1) l end.
Definition desired_pods (kind : string) (object : object) (nodes : Z) : Z :=
  cap_pods (if String.eqb kind "DaemonSet" then nodes else if String.eqb kind "Job" then 1 else replicas_of object).
Definition materializePods (gv : groupVersion) (namespace workloadName : string) (object : object) : act unit :=
  let kind := stringField object "kind" in
  if String.eqb kind "Deployment" then materializeDeployment namespace workloadName object
  else
    let! nodes := (if String.eqb kind "DaemonSet" then nodeCount else ret 0) in
    let desired := desired_pods kind object nodes in
    if desired <? 0 then ret tt
    else
      let owner := ownerRef object kind workloadName (apiVersionFor gv) in
      let! wanted := pod_names kind workloadName desired in
      let! existing := ownedPodNames namespace workloadName in
      reap_pods 10 namespace (fun p => bool_decide (p ∈ wanted)) existing ;;;
      let! names := pod_names kind workloadName desired in
      for_each (zip_index 0 names) (fun '(i, podName) =>
        if bool_decide (podName ∈ existing) then ret tt
        else
          let! pod := controllerPod kind namespace workloadName podName owner object i (templateHash object) in
          add_pod namespace podName pod) ;;;
      emitWorkloadEvents kind namespace workloadName object.

(** ** Deletion *)
Definition reapOwnedPods (namespace workloadName : string) : act unit :=
  let! owned := ownedPodNames namespace workloadName in
  reap_pods 13 namespace (fun _ => false) owned ;;;
  let! sets := deploymentReplicaSets namespace workloadName in
  for_each sets (fun rs =>
    let rsName := stringField (metadata_of rs) "name" in
    let! owned := ownedPodNames namespace rsName in
    reap_pods 14 namespace (fun _ => false) owned ;;;
    store_delete (rs_key namespace rsName) ;;; ret tt).

Definition owner_controls (ref : val) : bool :=
  match idx (objectMap ref) "controller" with VBool b => b | _ => false end.
(** The first Deployment among a ReplicaSet's owners that is still there. *)
Fixpoint owning_deployment (namespace : string) (refs : list val) : act (option (string * object)) :=
  match refs with
  | [] => ret None
  | ref :: refs =>
      let owner := objectMap ref in
      if String.eqb (stringField owner "kind") "Deployment" then
        let deployName := stringField owner "name" in
        let! found := store_get (key_of "apps" "v1" "deployments" namespace deployName) in
        match found with
        | Some deployment => ret (Some (deployName, deployment))
        | None => owning_deployment namespace refs
        end
      else owning_deployment namespace refs
  end.
(** The reference to the pod's controller, empty when it has none. *)
Definition controller_ref (pod : object) : object :=
  match List.find owner_controls (objectList (idx (metadata_of pod) "ownerReferences")) with
  | Some ref => objectMap ref
  | None => []
  end.
Definition split_api_version (apiVersion : string) : groupVersion :=
  match cut apiVersion "/" with Some (group, version) => GV group version | None => GV "" apiVersion end.
Definition respawnDeletedPod (namespace : string) (pod : option object) : act unit :=
  match pod with
  | None => ret tt
  | Some pod =>
      let owner := controller_ref pod in
      let ownerKind := stringField owner "kind" in
      let ownerName := stringField owner "name" in
      if String.eqb ownerName "" then ret tt
      else
        let gv := split_api_version (stringField owner "apiVersion") in
        if String.eqb ownerKind "ReplicaSet" then
          let! found := store_get (rs_key namespace ownerName) in
          match found with
          | None => ret tt
          | Some rs =>
              let! deployment := owning_deployment namespace (objectList (idx (metadata_of rs) "ownerReferences")) in
              match deployment with
              | Some (deployName, deployment) => materializeDeployment namespace deployName deployment
              | None => if isWorkloadKind "ReplicaSet" then materializePods gv namespace ownerName rs else ret tt
              end
          end
        else if negb (isWorkloadKind ownerKind) then ret tt
        else
          match List.find (fun nd => String.eqb (r_kind nd.2) ownerKind)
                  (range_entries 15 (map_to_list (items_of_gv (a_resources a) gv))) with
          | None => ret tt
          | Some (resourceName, _) =>
              let! found := store_get (key_of (gv_group gv) (gv_version gv) resourceName namespace ownerName) in
              match found with
              | Some workload => materializePods gv namespace ownerName workload
              | None => ret tt
              end
          end
  end.

(** ** Endpoints *)
Definition put_or_add (key : objectKey) (obj : object) : act unit :=
  let! found := store_get key in
  store_put key obj (match found with Some _ => "MODIFIED" | None => "ADDED" end) ;;; ret tt.

Definition syncEndpointSlice (namespace serviceName : string) (serviceMeta : object) (addresses ports : list val) : act unit :=
  let sliceName := serviceName +:+ "-" +:+ suffixFor serviceName 0 in
  let sliceEndpoints := map (fun entry =>
    let address := objectMap entry in
    lit [("addresses", VList [idx address "ip"]);
         ("conditions", lit [("ready", VBool true); ("serving", VBool true); ("terminating", VBool false)]);
         ("targetRef", idx address "targetRef")]) addresses in
  let slicePorts := map (fun entry =>
    let port := objectMap entry in
    lit [("name", match idx port "name" with VNil => VStr "" | v => v end);
         ("port", idx port "port"); ("protocol", idx port "protocol")]) ports in
  put_or_add (key_of "discovery.k8s.io" "v1" "endpointslices" namespace sliceName) (of_pairs
    [("apiVersion", VStr "discovery.k8s.io/v1"); ("kind", VStr "EndpointSlice"); ("addressType", VStr "IPv4");
     ("metadata", lit
       [("name", VStr sliceName); ("namespace", VStr namespace);
        ("uid", VStr (stableUID ("endpointslice/" +:+ namespace +:+ "/" +:+ sliceName)));
        ("creationTimestamp", idx serviceMeta "creationTimestamp");
        ("labels", lit [("kubernetes.io/service-name", VStr serviceName);
                        ("endpointslice.kubernetes.io/managed-by", VStr "endpointslice-controller.k8s.io")]);
        ("ownerReferences", VList [lit
          [("apiVersion", VStr "v1"); ("kind", VStr "Service"); ("name", VStr serviceName);
           ("uid", idx serviceMeta "uid"); ("controller", VBool true); ("blockOwnerDeletion", VBool true)]])]);
     ("endpoints", VList sliceEndpoints); ("ports", VList slicePorts)]).

(** All entries of the selector agree with the pod's labels. *)
Definition selector_matches (selector : object) (pod : object) : bool :=
  let labels := objectMap (idx (metadata_of pod) "labels") in
  forallb (fun kv => String.eqb (sprint (idx labels kv.1)) (sprint kv.2)) selector.
Definition endpoint_addresses (namespace : string) (selector : object) (pods : list object) : list val :=
  flat_map (fun pod =>
    let ip := stringField (objectMap (idx pod "status")) "podIP" in
    if negb (selector_matches selector pod) || String.eqb ip "" then []
    else [lit [("ip", VStr ip);
               ("targetRef", lit [("kind", VStr "Pod"); ("namespace", VStr namespace);
                                  ("name", VStr (stringField (metadata_of pod) "name"));
                                  ("uid", idx (metadata_of pod) "uid")])]]) pods.
Definition endpoint_ports (spec : object) : list val :=
  map (fun entry =>
    let port := objectMap entry in
    lit [("name", idx port "name"); ("port", idx port "port"); ("protocol", VStr "TCP")]) (objectList (idx spec "ports")).
Definition endpoints_object (namespace serviceName : string) (serviceMeta : object) (addresses ports : list val) : object :=
  of_pairs
    [("apiVersion", VStr "v1"); ("kind", VStr "Endpoints");
     ("metadata", lit
       [("name", VStr serviceName); ("namespace", VStr namespace);
        ("uid", VStr (stableUID ("endpoints/" +:+ namespace +:+ "/" +:+ serviceName)));
        ("creationTimestamp", idx serviceMeta "creationTimestamp");
        ("labels", lit [("kubernetes.io/service-name", VStr serviceName)])]);
     ("subsets", VList (match addresses with [] => [] | _ =>
        [lit [("addresses", VList addresses); ("ports", VList ports)]] end))].
Definition sync_service (namespace : string) (pods : list object) (service : object) : act unit :=
  let serviceMeta := metadata_of service in
  let serviceName := stringField serviceMeta "name" in
  let spec := objectMap (idx service "spec") in
  let selector := objectMap (idx spec "selector") in
  if bool_decide (selector = []) then ret tt
  else
    let addresses := endpoint_addresses namespace selector pods in
    let ports := endpoint_ports spec in
    put_or_add (core "endpoints" namespace serviceName) (endpoints_object namespace serviceName serviceMeta addresses ports) ;;;
    syncEndpointSlice namespace serviceName serviceMeta addresses ports.
Definition syncEndpointsForNamespace (namespace : string) : act unit :=
  let! services := list_all (GV "" "v1") namespace "services" in
  match services with
  | None => ret tt
  | Some services =>
      let! pods := list_all (GV "" "v1") namespace "pods" in
      match pods with
      | None => ret tt
      | Some pods => for_each services (sync_service namespace pods)
      end
  end.
End controllers.
