(* ===== verification/ControllerProps.v ===== *)
(** * Workload controllers: properties

    Which keys each controller writes, that none of them panics while the
    replica count is within bounds (and which request makes one panic), the cap
    on materialized pods, and what reconciliation does to every pod of the
    namespace. *)
From S2P Require Import Prelude GoStrings GoCodec Value Json Names Selector Catalog Store StoreFacts StoreProps Listing World Controllers.

#[local] Set Warnings "-clear-no-such-hyp,-notation-for-abbreviation".
#[local] Open Scope string_scope.
#[local] Open Scope list_scope.
#[local] Open Scope Z_scope.

(** ** Footprints *)
Definition in_ns (kinds : list (string * string * string)) (ns : string) (k : objectKey) : Prop :=
  key_namespace k = ns /\ (key_group k, key_version k, key_resource k) ∈ kinds.
Definition pods_kind : string * string * string := ("", "v1", "pods").
Definition events_kind : string * string * string := ("", "v1", "events").
Definition rs_kind : string * string * string := ("apps", "v1", "replicasets").
Definition deployments_kind : string * string * string := ("apps", "v1", "deployments").
Definition endpoints_kind : string * string * string := ("", "v1", "endpoints").
Definition slices_kind : string * string * string := ("discovery.k8s.io", "v1", "endpointslices").
Definition workload_kinds : list (string * string * string) := [pods_kind; events_kind; rs_kind; deployments_kind].

Lemma in_ns_intro kinds g v r ns n : (g, v, r) ∈ kinds -> in_ns kinds ns (key_of g v r ns n).
Proof. by split. Qed.
Ltac in_kinds := solve [apply in_ns_intro; unfold workload_kinds; set_solver].

Section footprints.
Context `{Env} (a : API).

Lemma confined_list_all P gv ns r : confined P (list_all gv ns r).
Proof. unfold list_all. confine. Qed.
Lemma confined_owned P ns o : confined P (ownedPodNames ns o).
Proof. apply confined_reads. Qed.
Lemma confined_sets P ns o : confined P (deploymentReplicaSets ns o).
Proof. apply confined_reads. Qed.
Lemma confined_nodeCount P : confined P nodeCount.
Proof. apply confined_reads. Qed.
Lemma confined_nodeName P i : confined P (nodeName i).
Proof. unfold nodeName. confine. Qed.
Hint Resolve confined_list_all confined_owned confined_sets confined_nodeCount confined_nodeName : footprint.

Lemma confined_emitEvent (P : objectKey -> Prop) ns uid k v n r m s :
  (forall name, P (core "events" ns name)) -> confined P (emitEvent ns uid k v n r m s).
Proof. intros HP. unfold emitEvent. confine. Qed.
Hint Resolve confined_emitEvent : footprint.
Lemma confined_lifecycle (P : objectKey -> Prop) ns pod :
  (forall name, P (core "events" ns name)) -> confined P (emitPodLifecycleEvents ns pod).
Proof. intros HP. unfold emitPodLifecycleEvents. confine. Qed.
Lemma confined_pod_names P k n r : confined P (pod_names k n r).
Proof. unfold pod_names. confine. Qed.
Hint Resolve confined_lifecycle confined_pod_names : footprint.
Lemma confined_workload_events (P : objectKey -> Prop) k ns n o :
  (forall name, P (core "events" ns name)) -> confined P (emitWorkloadEvents k ns n o).
Proof. intros HP. unfold emitWorkloadEvents. confine. Qed.
Lemma confined_controllerPod P k ns w p o wl i h : confined P (controllerPod a k ns w p o wl i h).
Proof. unfold controllerPod. confine. Qed.
Lemma confined_reap (P : objectKey -> Prop) site ns wanted existing :
  (forall p, p ∈ existing -> wanted p = false -> P (core "pods" ns p)) -> confined P (reap_pods site ns wanted existing).
Proof.
  intros HP. unfold reap_pods. apply confined_for_each. intros p Hp.
  rewrite range_entries_perm in Hp. apply elem_of_elements in Hp.
  destruct (wanted p) eqn:E; [apply confined_ret|]. apply confined_bind; [|intros; apply confined_ret]. auto with footprint.
Qed.
Lemma confined_add_pod (P : objectKey -> Prop) ns p pod :
  (forall name, P (core "events" ns name)) -> P (core "pods" ns p) -> confined P (add_pod ns p pod).
Proof. intros HE HP. unfold add_pod. confine. Qed.
Hint Resolve confined_workload_events confined_controllerPod confined_add_pod : footprint.

Lemma confined_sync_status (P : objectKey -> Prop) ns n d :
  P (key_of "apps" "v1" "deployments" ns n) -> confined P (syncDeploymentStatus ns n d).
Proof. intros HP. unfold syncDeploymentStatus. confine. Qed.
Lemma confined_ensure (P : objectKey -> Prop) ns n rs d k :
  (forall name, P (core "events" ns name)) -> P (rs_key ns rs) -> confined P (ensure_replica_set ns n rs d k).
Proof. intros HE HP. unfold ensure_replica_set, nextDeploymentRevision. confine. Qed.
Lemma confined_retire (P : objectKey -> Prop) ns rs o :
  (forall name, P (core "pods" ns name)) -> (forall name, P (rs_key ns name)) -> confined P (retire_replica_set ns rs o).
Proof.
  intros HP HR. unfold retire_replica_set. case_match; [apply confined_ret|]. apply confined_bind; [confine|].
  intros _. apply confined_bind; [apply confined_owned|]. intros. apply confined_reap. auto.
Qed.
Hint Resolve confined_sync_status confined_ensure confined_retire : footprint.
Lemma confined_deployment ns n d : confined (in_ns workload_kinds ns) (materializeDeployment a ns n d).
Proof.
  assert (HE : forall name, in_ns workload_kinds ns (core "events" ns name)) by (intros; in_kinds).
  assert (HP : forall name, in_ns workload_kinds ns (core "pods" ns name)) by (intros; in_kinds).
  assert (HR : forall name, in_ns workload_kinds ns (rs_key ns name)) by (intros; in_kinds).
  assert (HD : forall name, in_ns workload_kinds ns (key_of "apps" "v1" "deployments" ns name)) by (intros; in_kinds).
  unfold materializeDeployment. case_match; [apply confined_ret|].
  apply confined_bind; [auto with footprint|]. intros [rs|]; [|apply confined_ret].
  apply confined_bind; [apply confined_owned|]. intros existing.
  apply confined_bind; [by apply confined_reap|]. intros _.
  confine.
Qed.
(** The pods of a workload, and its events. *)
Lemma confined_materialize ns gv n o : confined (in_ns workload_kinds ns) (materializePods a gv ns n o).
Proof.
  assert (HE : forall name, in_ns workload_kinds ns (core "events" ns name)) by (intros; in_kinds).
  assert (HP : forall name, in_ns workload_kinds ns (core "pods" ns name)) by (intros; in_kinds).
  unfold materializePods. case_match; [apply confined_deployment|].
  apply confined_bind; [case_match; auto with footprint|]. intros nodes.
  case_match; [apply confined_ret|]. apply confined_bind; [auto with footprint|]. intros wanted.
  apply confined_bind; [auto with footprint|]. intros existing. apply confined_bind; [by apply confined_reap|].
  intros _. confine.
Qed.
Lemma confined_reapOwned ns n : confined (in_ns [pods_kind; rs_kind] ns) (reapOwnedPods ns n).
Proof.
  assert (HP : forall name, in_ns [pods_kind; rs_kind] ns (core "pods" ns name)) by (intros; apply in_ns_intro; set_solver).
  assert (HR : forall name, in_ns [pods_kind; rs_kind] ns (rs_key ns name)) by (intros; apply in_ns_intro; set_solver).
  unfold reapOwnedPods. apply confined_bind; [auto with footprint|]. intros owned.
  apply confined_bind; [by apply confined_reap|]. intros _. apply confined_bind; [auto with footprint|]. intros sets.
  apply confined_for_each. intros rs _. apply confined_bind; [auto with footprint|]. intros o.
  apply confined_bind; [by apply confined_reap|]. intros _. confine.
Qed.
Lemma confined_owning P ns refs : confined P (owning_deployment ns refs).
Proof. induction refs; simpl; confine. Qed.
Lemma confined_respawn ns pod : confined (in_ns workload_kinds ns) (respawnDeletedPod a ns pod).
Proof.
  unfold respawnDeletedPod. destruct pod as [pod|]; [|apply confined_ret]. cbn zeta.
  case_match; [apply confined_ret|]. case_match.
  - apply confined_bind; [apply confined_reads|]. intros [rs|]; [|apply confined_ret].
    apply confined_bind; [apply confined_owning|]. intros [[? ?]|]; [apply confined_deployment|].
    case_match; [apply confined_materialize|apply confined_ret].
  - case_match; [apply confined_ret|]. case_match; [|apply confined_ret]. case_match.
    apply confined_bind; [apply confined_reads|]. intros [wl|]; [apply confined_materialize|apply confined_ret].
Qed.
Lemma confined_endpoints ns : confined (in_ns [endpoints_kind; slices_kind] ns) (syncEndpointsForNamespace ns).
Proof.
  assert (H1 : forall name, in_ns [endpoints_kind; slices_kind] ns (core "endpoints" ns name)) by (intros; apply in_ns_intro; set_solver).
  assert (H2 : forall name, in_ns [endpoints_kind; slices_kind] ns (key_of "discovery.k8s.io" "v1" "endpointslices" ns name))
    by (intros; apply in_ns_intro; set_solver).
  unfold syncEndpointsForNamespace, sync_service, syncEndpointSlice, put_or_add. confine.
Qed.
End footprints.

(** ** Panics *)
Section safety.
Context `{Env} (a : API).
#[local] Notation any := (fun _ : objectKey => True).
Hint Resolve confined_list_all confined_owned confined_sets confined_nodeCount confined_nodeName confined_emitEvent
  confined_lifecycle confined_pod_names confined_workload_events confined_controllerPod confined_add_pod
  confined_sync_status confined_ensure confined_retire confined_reap confined_owning : footprint.

(** [safe_bind] with the trivial footprint, which is proved by search. *)
Ltac secure :=
  repeat first
    [ solve [eauto with footprint]
    | progress unfold store_get, store_list
    | apply (safe_bind any); [solve [confine]| |intros ?]
    | apply (safe_for_each any); intros ? ?; [solve [confine]|]
    | case_match ].

Lemma safe_list_all gv ns r : safe (list_all gv ns r).
Proof. unfold list_all. secure. Qed.
Lemma safe_owned ns o : safe (ownedPodNames ns o).
Proof. apply safe_reads. Qed.
Lemma safe_sets ns o : safe (deploymentReplicaSets ns o).
Proof. apply safe_reads. Qed.
Lemma node_count_pos s : 1 <= node_count s.
Proof.
  unfold node_count. destruct (listPage _ _ _ _ _ _ _ _) as [[[items total] index]|] eqn:E; [|done].
  apply listPage_spec in E as (-> & _). destruct (_ =? 0) eqn:E0; bool_to_prop; lia.
Qed.
Lemma nodeCount_returns : returns (fun n => 1 <= n) nodeCount.
Proof. intros w _. eexists. split; [done|]. apply node_count_pos. Qed.
(** The list of nodes is never empty where it is indexed. *)
Lemma safe_nodeName i : 0 <= i -> safe (nodeName i).
Proof.
  intros Hi w _. unfold nodeName, store_list, reads, bind. cbn [snd].
  destruct (listPage _ _ _ _ _ _ _ _) as [[[items total] index]|] eqn:E; [|by eexists].
  apply listPage_spec in E as (-> & _ & Hle & -> & _ & Hpos).
  set (cs := candidates _ _ _ _ _ _) in *. destruct (Z.of_nat (length cs) =? 0) eqn:E0; [by eexists|]. bool_to_prop.
  assert (Hn : 0 < Z.of_nat (length (clones (take (Z.to_nat (index - 0)) (drop (Z.to_nat 0) cs))))).
  { unfold clones. rewrite length_map, length_take. change (Z.to_nat 0) with O. rewrite drop_0. lia. }
  rewrite (proj2 (Z.eqb_neq _ _)) by lia. rewrite (proj2 (Z.ltb_ge (Z.rem i _) 0)); [by eexists|].
  apply Z.rem_nonneg; lia.
Qed.
Hint Resolve safe_list_all safe_owned safe_sets : footprint.
Hint Extern 1 (safe (nodeName _)) => apply safe_nodeName; lia : footprint.

Lemma safe_nodeCount : safe nodeCount.
Proof. eapply returns_safe, nodeCount_returns. Qed.
Lemma safe_emitEvent ns uid k v n r m s : safe (emitEvent ns uid k v n r m s).
Proof. unfold emitEvent. secure. Qed.
Hint Resolve safe_nodeCount safe_emitEvent : footprint.
Lemma safe_lifecycle ns pod : safe (emitPodLifecycleEvents ns pod).
Proof. unfold emitPodLifecycleEvents. secure. Qed.
Lemma safe_controllerPod k ns w p o wl i h : 0 <= i -> safe (controllerPod a k ns w p o wl i h).
Proof. intros Hi. unfold controllerPod. secure. Qed.
Lemma safe_reap site ns wanted existing : safe (reap_pods site ns wanted existing).
Proof. unfold reap_pods. secure. Qed.
Hint Resolve safe_lifecycle safe_controllerPod safe_reap : footprint.
Lemma safe_add_pod ns p pod : safe (add_pod ns p pod).
Proof. unfold add_pod. secure. Qed.
Lemma safe_sync_status ns n d : safe (syncDeploymentStatus ns n d).
Proof. unfold syncDeploymentStatus. secure. Qed.
Lemma safe_ensure ns n rs d k : safe (ensure_replica_set ns n rs d k).
Proof. unfold ensure_replica_set, nextDeploymentRevision. secure. Qed.
Lemma safe_retire ns rs o : safe (retire_replica_set ns rs o).
Proof. unfold retire_replica_set. secure. Qed.
Hint Resolve safe_add_pod safe_sync_status safe_ensure safe_retire : footprint.

Lemma seqZ_elem n i : i ∈ seqZ n <-> 0 <= i < n.
Proof.
  unfold seqZ. rewrite list_elem_of_fmap. split.
  - intros (j & -> & Hj%elem_of_seq). lia.
  - intros Hi. exists (Z.to_nat i). split; [lia|]. apply elem_of_seq. lia.
Qed.
Lemma safe_deployment ns n d : safe (materializeDeployment a ns n d).
Proof.
  unfold materializeDeployment. case_match; [apply safe_ret|].
  apply (safe_bind any); [auto with footprint|auto with footprint|]. intros [rs|]; [|apply safe_ret].
  apply (safe_bind any); [auto with footprint|auto with footprint|]. intros existing.
  apply (safe_bind any); [auto with footprint|auto with footprint|]. intros _.
  apply (safe_bind any); [confine| |intros _].
  - apply (safe_for_each any); intros i Hi; [confine|]. apply seqZ_elem in Hi.
    case_match; [apply safe_ret|]. apply (safe_bind any); [auto with footprint|apply safe_controllerPod; lia|].
    intros pod. apply safe_add_pod.
  - secure.
Qed.
End safety.

(** ** Panics, exactly *)
Section panics.
Context `{Env} (a : API).
#[local] Notation any := (fun _ : objectKey => True).
Hint Resolve confined_list_all confined_owned confined_sets confined_nodeCount confined_nodeName confined_emitEvent
  confined_lifecycle confined_pod_names confined_workload_events confined_controllerPod confined_add_pod confined_reap
  safe_list_all safe_owned safe_sets safe_nodeCount safe_emitEvent safe_reap safe_add_pod : footprint.

Lemma zip_index_elem {A} (l : list A) i j x : (j, x) ∈ zip_index i l -> i <= j < i + Z.of_nat (length l) /\ x ∈ l.
Proof.
  revert i. induction l as [|y l IH]; intros i; simpl; [set_solver|].
  intros [[= -> ->]|Hin]%elem_of_cons; [split; [lia|set_solver]|]. destruct (IH _ Hin). split; [lia|set_solver].
Qed.
Lemma zip_index_snd {A} (l : list A) i x : x ∈ l -> exists j, (j, x) ∈ zip_index i l.
Proof.
  revert i. induction l as [|y l IH]; intros i; [set_solver|]. intros [->|Hin]%elem_of_cons.
  - exists i. simpl. set_solver.
  - destruct (IH (i + 1) Hin) as [j Hj]. exists j. simpl. set_solver.
Qed.

Lemma safe_pod_names k n r : 0 <= r <= 2 ^ 44 -> safe (pod_names k n r).
Proof.
  intros Hr. unfold pod_names. apply (safe_bind any); [auto with footprint..|]. intros m.
  apply (safe_bind any); [auto with footprint|by apply safe_make_strings|]. intros _. apply safe_ret.
Qed.
Lemma panics_pod_names k n r : r < 0 \/ 2 ^ 44 < r -> panics (pod_names k n r).
Proof.
  intros Hr. unfold pod_names. apply (panics_bind any (fun _ => True)); [auto with footprint| |].
  - apply safe_returns, safe_nodeCount.
  - intros m _. by apply panics_first, panics_make_strings.
Qed.

Definition has_controller (kind : string) : bool := negb (String.eqb (workload_controller kind) "").
Definition replicas_allowed (o : object) : bool := (0 <=? replicas_of o) && (replicas_of o <=? 2 ^ 44).

Lemma safe_workload_events k ns n o : has_controller k = false \/ replicas_allowed o = true ->
  safe (emitWorkloadEvents k ns n o).
Proof.
  unfold has_controller, replicas_allowed. intros Ho. unfold emitWorkloadEvents. cbn zeta.
  destruct (String.eqb _ ""); [apply safe_ret|]. destruct Ho as [?|Ho]; [done|]. bool_to_prop.
  apply (safe_bind any); [auto with footprint|by apply safe_pod_names|]. intros names.
  apply (safe_for_each any); auto with footprint.
Qed.
Lemma panics_workload_events k ns n o : has_controller k = true -> replicas_allowed o = false ->
  panics (emitWorkloadEvents k ns n o).
Proof.
  unfold has_controller, replicas_allowed. intros Hk Ho. unfold emitWorkloadEvents. cbn zeta.
  destruct (String.eqb _ ""); [done|]. apply panics_first, panics_pod_names. fold (replicas_of o).
  apply andb_false_iff in Ho. rewrite !Z.leb_gt in Ho. lia.
Qed.

(** The steps of [materializePods] before the events, once the count is known. *)
Lemma cap_pods_range d : cap_pods d <= 64.
Proof. unfold cap_pods, maxControllerPods. destruct (64 <? d) eqn:E; bool_to_prop; lia. Qed.
Lemma safe_add_pods kind ns wl owner o (existing : gset string) names i : 0 <= i ->
  safe (for_each (zip_index i names) (fun '(i, podName) =>
    if bool_decide (podName ∈ existing) then ret tt
    else bind (controllerPod a kind ns wl podName owner o i (templateHash o)) (fun pod => add_pod ns podName pod))).
Proof.
  intros Hi. apply (safe_for_each any); intros [j p] Hj; [confine|]. apply zip_index_elem in Hj as [Hj _].
  case_match; [apply safe_ret|]. apply (safe_bind any); [auto with footprint| |intros; auto with footprint].
  apply safe_controllerPod. lia.
Qed.

(** Whether the last stage is reached, and whether it panics. *)
Definition creates_too_many (o : object) : bool :=
  let kind := stringField o "kind" in
  negb (String.eqb kind "Deployment") && has_controller kind && negb (replicas_allowed o)
  && (String.eqb kind "DaemonSet" || String.eqb kind "Job" || (0 <=? replicas_of o)).

Lemma desired_sign kind o n : 1 <= n \/ String.eqb kind "DaemonSet" = false ->
  (desired_pods kind o n <? 0) = negb (String.eqb kind "DaemonSet" || String.eqb kind "Job" || (0 <=? replicas_of o)).
Proof.
  intros Hn. unfold desired_pods, cap_pods, maxControllerPods.
  destruct (String.eqb kind "DaemonSet"), (String.eqb kind "Job"); cbn [orb negb]; repeat case_match; bool_to_prop;
    try (destruct (0 <=? replicas_of o) eqn:E; bool_to_prop; simpl);
    first [apply Z.ltb_lt; lia | apply Z.ltb_ge; lia | idtac]; destruct Hn; try done; lia.
Qed.

Lemma safe_before_events kind ns wl owner o wanted_names names existing (rest : act unit) :
  let before := bind (reap_pods 10 ns (fun p => bool_decide (p ∈ (wanted_names : list string))) existing) (fun _ =>
    bind (pod_names kind wl (names : Z)) (fun names =>
      bind (for_each (zip_index 0 names) (fun '(i, podName) =>
        if bool_decide (podName ∈ existing) then ret tt
        else bind (controllerPod a kind ns wl podName owner o i (templateHash o)) (fun pod => add_pod ns podName pod)))
      (fun _ => rest))) in
  0 <= names <= 64 -> confined any rest -> (safe rest -> safe before) /\ (panics rest -> panics before).
Proof.
  intros before Hn Hr. split; intros Hrest; unfold before.
  - apply (safe_bind any); [auto with footprint..|]. intros _.
    apply (safe_bind any); [auto with footprint|apply safe_pod_names; lia|]. intros l.
    apply (safe_bind any); [confine|by apply safe_add_pods|]. done.
  - apply (panics_bind any (fun _ => True)); [auto with footprint|apply safe_returns; auto with footprint|]. intros _ _.
    apply (panics_bind any (fun _ => True)); [auto with footprint|apply safe_returns, safe_pod_names; lia|]. intros l _.
    apply (panics_bind any (fun _ => True)); [confine|by apply safe_returns, safe_add_pods|]. done.
Qed.
Lemma desired_returns kind : returns (fun n => 1 <= n \/ String.eqb kind "DaemonSet" = false)
  (if String.eqb kind "DaemonSet" then nodeCount else ret 0).
Proof.
  destruct (String.eqb kind "DaemonSet").
  - intros w Hw. destruct (nodeCount_returns w Hw) as (n & -> & ?). eauto.
  - intros w _. eexists. split; [done|]. by right.
Qed.
Lemma materialize_cases gv ns n o :
  if creates_too_many o then panics (materializePods a gv ns n o) else safe (materializePods a gv ns n o).
Proof.
  unfold creates_too_many, materializePods. cbn zeta. set (kind := stringField o "kind").
  destruct (String.eqb kind "Deployment"); [apply safe_deployment|]. cbn [negb andb].
  set (rest := emitWorkloadEvents kind ns n o).
  assert (Hr : confined any rest) by (unfold rest; auto with footprint).
  assert (Hrest : if has_controller kind && negb (replicas_allowed o) then panics rest else safe rest).
  { unfold rest. destruct (has_controller kind) eqn:Ek, (replicas_allowed o) eqn:Eo; cbn [andb negb];
      auto using panics_workload_events, safe_workload_events. }
  assert (Hc : confined any (if String.eqb kind "DaemonSet" then nodeCount else ret 0)) by (destruct (String.eqb kind "DaemonSet"); [apply confined_nodeCount|apply confined_ret]).
  assert (Hd : forall m, (1 <= m \/ String.eqb kind "DaemonSet" = false) -> (desired_pods kind o m <? 0) = false ->
    0 <= desired_pods kind o m <= 64).
  { intros m _ Hd. bool_to_prop. pose proof (cap_pods_range (if String.eqb kind "DaemonSet" then m
      else if String.eqb kind "Job" then 1 else replicas_of o)). unfold desired_pods in *. lia. }
  destruct (has_controller kind && negb (replicas_allowed o)); cbn [andb].
  - destruct (String.eqb kind "DaemonSet" || _ || _) eqn:Es.
    + eapply (panics_bind any); [done|apply desired_returns|]. intros m Hm.
      pose proof (desired_sign kind o m Hm) as E. rewrite Es in E. cbn [negb] in E. rewrite E.
      apply (panics_bind any (fun _ => True)); [auto with footprint|apply safe_returns, safe_pod_names; specialize (Hd m Hm E); lia|].
      intros wanted _. apply (panics_bind any (fun _ => True)); [auto with footprint|apply safe_returns; auto with footprint|].
      intros existing _. by apply safe_before_events; [apply Hd| |].
    + eapply (safe_bind_returns any); [done|apply desired_returns|]. intros m Hm.
      pose proof (desired_sign kind o m Hm) as E. rewrite Es in E. cbn [negb] in E. rewrite E. apply safe_ret.
  - eapply (safe_bind_returns any); [done|apply desired_returns|]. intros m Hm.
    destruct (desired_pods kind o m <? 0) eqn:E; [apply safe_ret|].
    apply (safe_bind any); [auto with footprint|apply safe_pod_names; specialize (Hd m Hm E); lia|].
    intros wanted. apply (safe_bind any); [auto with footprint..|]. intros existing.
    by apply safe_before_events; [apply Hd| |].
Qed.

(** Which requests make the workload controller panic: exactly those for a
    DaemonSet, Job, StatefulSet or ReplicaSet whose [spec.replicas] is above
    [2^44], or negative for the two kinds whose pod count does not come from
    it.  Only the pods are capped at 64; the Events are allocated for the
    replica count as the client wrote it. *)
Theorem materialize_panics_iff : forall gv ns n o w, store_inv (w_store w) ->
  (materializePods a gv ns n o w).2 = None <-> creates_too_many o = true.
Proof.
  intros gv ns n o w Hw. pose proof (materialize_cases gv ns n o) as Hc.
  destruct (creates_too_many o); [split; [done|by intros _; apply Hc]|].
  destruct (Hc w Hw) as [x ->]. done.
Qed.

(** The other controllers never panic: reconciling a Deployment, reaping,
    respawning anything a Deployment owns, syncing Endpoints. *)
Theorem controllers_never_panic : forall ns n o w, store_inv (w_store w) ->
  is_Some (materializeDeployment a ns n o w).2 /\ is_Some (reapOwnedPods ns n w).2 /\
  is_Some (syncEndpointsForNamespace ns w).2.
Proof.
  intros ns n o w Hw. split; [by apply safe_deployment|]. split.
  - revert w Hw. change (safe (reapOwnedPods ns n)). unfold reapOwnedPods.
    apply (safe_bind any); [auto with footprint..|]. intros owned.
    apply (safe_bind any); [auto with footprint..|]. intros _.
    apply (safe_bind any); [apply confined_sets|apply safe_sets|]. intros sets.
    apply (safe_for_each any); intros rs _; [confine|].
    apply (safe_bind any); [auto with footprint..|]. intros o1.
    apply (safe_bind any); [auto with footprint..|]. intros _.
    apply (safe_bind any); [auto with footprint..|]. intros. apply safe_ret.
  - revert w Hw. change (safe (syncEndpointsForNamespace ns)).
    unfold syncEndpointsForNamespace. apply (safe_bind any); [auto with footprint..|]. intros [services|]; [|apply safe_ret].
    apply (safe_bind any); [auto with footprint..|]. intros [pods|]; [|apply safe_ret].
    apply (safe_for_each any); intros service _; unfold sync_service, syncEndpointSlice, put_or_add; [confine|].
    case_match; [apply safe_ret|].
    repeat first [apply safe_ret | apply safe_put | apply safe_reads | apply (safe_bind any); [confine| |intros ?]].
Qed.
End panics.

(** ** What is left alone *)
Section frame.
Context `{Env} (a : API).

(** A controller works on its own namespace and its own kinds: whatever the
    workload looks like, every other object of the store is what it was.  Pods,
    Events, ReplicaSets and Deployments for materialization and respawn, pods
    and ReplicaSets for reaping, Endpoints and EndpointSlices for services. *)
Theorem controllers_stay_in_namespace : forall gv ns n o pod w k, store_inv (w_store w) ->
  (~ in_ns workload_kinds ns k ->
     get (w_store (materializePods a gv ns n o w).1) k = get (w_store w) k /\
     get (w_store (respawnDeletedPod a ns pod w).1) k = get (w_store w) k) /\
  (~ in_ns [pods_kind; rs_kind] ns k -> get (w_store (reapOwnedPods ns n w).1) k = get (w_store w) k) /\
  (~ in_ns [endpoints_kind; slices_kind] ns k ->
     get (w_store (syncEndpointsForNamespace ns w).1) k = get (w_store w) k).
Proof.
  intros gv ns n o pod w k Hw. unfold get.
  split; [|split].
  - intros Hk. by rewrite (confined_frame _ _ w k (confined_materialize a ns gv n o) Hw Hk),
      (confined_frame _ _ w k (confined_respawn a ns pod) Hw Hk).
  - intros Hk. by rewrite (confined_frame _ _ w k (confined_reapOwned ns n) Hw Hk).
  - intros Hk. by rewrite (confined_frame _ _ w k (confined_endpoints ns) Hw Hk).
Qed.
End frame.

(** ** Reconciliation *)
Section reconcile.
Context `{Env} (a : API).
#[local] Notation objects w := (st_objects (w_store w)).

Lemma core_inj r ns p q : core r ns p = core r ns q -> p = q.
Proof. by intros [= ->]. Qed.

(** Reaping deletes the unwanted pods and nothing else. *)
Definition unwanted_pod (ns : string) (wanted : string -> bool) (existing : string -> Prop) (k : objectKey) : Prop :=
  exists p, existing p /\ wanted p = false /\ k = core "pods" ns p.
Definition removes (P : objectKey -> Prop) (w w' : world) : Prop :=
  forall k, (P k -> objects w' !! k = None) /\ (~ P k -> objects w' !! k = objects w !! k).
Lemma reap_loop ns (wanted : string -> bool) (l : list string) w : store_inv (w_store w) ->
  exists w', for_each l (fun p => if wanted p then ret tt else bind (store_delete (core "pods" ns p)) (fun _ => ret tt)) w
    = (w', Some tt) /\ store_inv (w_store w') /\ removes (unwanted_pod ns wanted (fun p => p ∈ l)) w w'.
Proof.
  revert w. induction l as [|p l IH]; intros w Hw; cbn [for_each].
  { exists w. split; [done|]. split; [done|]. intros k. split; [|done]. intros (p & Hp & _). set_solver. }
  destruct (wanted p) eqn:Ep.
  - destruct (IH w Hw) as (w' & Hrun & Hi & Hk). exists w'. split; [exact Hrun|]. split; [done|].
    intros k. destruct (Hk k) as [H1 H2]. split.
    + intros (q & [->|Hq]%elem_of_cons & Hn & ->); [congruence|]. apply H1. by exists q.
    + intros Hn. apply H2. intros (q & Hq & ? & ->). apply Hn. exists q. set_solver.
  - unfold bind at 1 2, store_delete. destruct (delete_obj (core "pods" ns p) (w_store w)) as [s d] eqn:Ed.
    assert (Hs : store_inv s /\ st_objects s !! core "pods" ns p = None /\
                 forall k, k <> core "pods" ns p -> st_objects s !! k = objects w !! k).
    { pose proof (delete_inv (core "pods" ns p) _ Hw) as Hi. rewrite Ed in Hi. split; [done|].
      destruct (objects w !! core "pods" ns p) as [o|] eqn:Eo.
      - destruct (delete_fields _ _ o (si_watchers _ Hw) Eo) as [Ho _]. rewrite Ed in Ho. cbn [fst] in Ho. rewrite Ho.
        split; [apply lookup_delete_eq|]. intros k Hne. by apply lookup_delete_ne.
      - rewrite delete_absent in Ed by done. by simplify_eq. }
    destruct Hs as (Hi & Hgone & Hs). destruct (IH (set_store w s) Hi) as (w' & Hrun & Hi' & Hk). exists w'.
    split; [exact Hrun|]. split; [done|]. intros k. destruct (Hk k) as [H1 H2]. cbn [w_store set_store] in H2. split.
    + intros (q & Hq & Hn & ->). destruct (decide (q ∈ l)) as [Hl|Hl]; [apply H1; by exists q|].
      rewrite H2; [|by intros (q' & Hq' & _ & <-%core_inj)]. apply elem_of_cons in Hq as [->|]; done.
    + intros Hn. rewrite H2; [apply Hs|]; [intros ->; apply Hn; exists p; set_solver|].
      intros (q & Hq & ? & ->). apply Hn. exists q. set_solver.
Qed.
Lemma removes_ext (P Q : objectKey -> Prop) w w' : (forall k, P k <-> Q k) -> removes P w w' -> removes Q w w'.
Proof. intros HPQ Hr k. rewrite <- !HPQ. apply Hr. Qed.
Lemma reap_spec site ns wanted existing w : store_inv (w_store w) ->
  exists w', reap_pods site ns wanted existing w = (w', Some tt) /\ store_inv (w_store w') /\
  removes (unwanted_pod ns wanted (fun p => p ∈ existing)) w w'.
Proof.
  intros Hw. destruct (reap_loop ns wanted (range_entries site (elements existing)) w Hw) as (w' & Hrun & Hi & Hk).
  exists w'. split; [exact Hrun|]. split; [done|]. revert Hk. apply removes_ext. intros k.
  split; intros (p & Hp & ?); exists p; (split; [|done]).
  - rewrite range_entries_perm in Hp. set_solver.
  - rewrite range_entries_perm. set_solver.
Qed.

(** An object a controller wrote for this pod name. *)
Definition is_controller_pod (kind ns wl podName : string) (owner : val) (workload : object) (o : object) : Prop :=
  exists s now node i, o = cloneObject (stamp s (controller_pod a now node kind ns wl podName owner workload i (templateHash workload))).

(** After an action, a pod is as before, or new and written by the controller. *)
Definition pod_step (allowed : string -> Prop) (kind ns wl : string) (owner : val) (workload : object) (w w' : world) : Prop :=
  store_inv (w_store w') /\
  forall p, let k := core "pods" ns p in
    objects w' !! k = objects w !! k \/
    (allowed p /\ objects w !! k = None /\ exists o, objects w' !! k = Some o /\ is_controller_pod kind ns wl p owner workload o).

Lemma pod_step_trans allowed kind ns wl owner o w1 w2 w3 :
  pod_step allowed kind ns wl owner o w1 w2 -> pod_step allowed kind ns wl owner o w2 w3 ->
  pod_step allowed kind ns wl owner o w1 w3.
Proof.
  intros [_ H1] [Hi H2]. split; [done|]. intros p. cbn zeta. specialize (H1 p). specialize (H2 p). cbn zeta in *.
  destruct H2 as [->|(Ha & Hn & x & Hx & Hc)]; [done|].
  destruct H1 as [H1|(_ & _ & y & Hy & _)]; [|congruence]. right. split; [done|]. split; [congruence|]. eauto.
Qed.
Lemma pod_step_confined P {A} (m : act A) allowed kind ns wl owner o w :
  confined P m -> (forall p, ~ P (core "pods" ns p)) -> store_inv (w_store w) ->
  pod_step allowed kind ns wl owner o w (m w).1.
Proof.
  intros Hc HP Hw. split; [by eapply confined_inv|]. intros p. left. eapply confined_frame; [done|done|]. apply HP.
Qed.

Definition events_only (ns : string) (k : objectKey) : Prop := exists name, k = core "events" ns name.
Lemma events_not_pods ns ns' p : ~ events_only ns' (core "pods" ns p).
Proof. by intros [name [=]]. Qed.

(** Turning a run of [bind] into the run of its parts. *)
Lemma run_bind {A B} (m : act A) (k : A -> act B) w : (bind m k w).1 = match (m w).2 with
  | Some x => (k x (m w).1).1 | None => (m w).1 end.
Proof. unfold bind. by destruct (m w) as [w' [x|]]. Qed.
Lemma pod_step_bind {A B} (m : act A) (k : A -> act B) allowed kind ns wl owner o w :
  pod_step allowed kind ns wl owner o w (m w).1 ->
  (forall x w', store_inv (w_store w') -> pod_step allowed kind ns wl owner o w' (k x w').1) ->
  pod_step allowed kind ns wl owner o w (bind m k w).1.
Proof.
  intros Hm Hk. rewrite run_bind. destruct ((m w).2) as [x|]; [|done].
  eapply pod_step_trans; [done|]. apply Hk, Hm.
Qed.
Lemma pod_step_refl allowed kind ns wl owner o w : store_inv (w_store w) -> pod_step allowed kind ns wl owner o w w.
Proof. intros Hw. split; [done|]. intros p. by left. Qed.

Lemma add_pod_step (allowed : string -> Prop) kind ns wl owner o p now node i w : allowed p -> store_inv (w_store w) ->
  pod_step allowed kind ns wl owner o w
    (add_pod ns p (controller_pod a now node kind ns wl p owner o i (templateHash o)) w).1.
Proof.
  intros Hp Hw. unfold add_pod. apply pod_step_bind.
  - set (pod := controller_pod _ _ _ _ _ _ _ _ _ _ _). unfold store_put.
    destruct (put (core "pods" ns p) pod "ADDED" (w_store w)) as [[s ob] e] eqn:Eput. cbn [fst w_store set_store].
    pose proof (put_inv (core "pods" ns p) pod "ADDED" _ Hw) as Hi. rewrite Eput in Hi. cbn [fst] in Hi.
    split; [done|]. intros q. cbn zeta.
    rewrite put_unfold in Eput by apply Hw. destruct (put_refuses _ _ _ _) eqn:Er; simplify_eq; [by left|].
    cbn [w_store set_store].
    destruct (put_store_fields (w_store w) (core "pods" ns p) pod "ADDED" (si_watchers _ Hw)) as [-> _].
    destruct (decide (q = p)) as [->|Hne].
    + right. split; [done|]. rewrite lookup_insert_eq. split.
      * destruct (objects w !! core "pods" ns p) as [old|] eqn:Eold; [|done]. exfalso. revert Er. unfold put_refuses.
        rewrite Eold, (bool_decide_eq_false_2 (Some old = None)) by done. repeat case_match; done.
      * eexists. split; [done|]. by exists (w_store w), now, node, i.
    + left. rewrite lookup_insert_ne; [done|]. intros E. apply Hne. by apply core_inj in E.
  - intros [ob [e|]] w' Hw'; [by apply pod_step_refl|].
    apply (pod_step_confined (events_only ns)); [|intros; apply events_not_pods|done].
    apply confined_lifecycle. by eexists.
Qed.
Lemma nodeName_pure i w : (nodeName i w).1 = w.
Proof. unfold nodeName, store_list, reads, bind, ret, panic. by repeat case_match. Qed.
Lemma add_loop_step (allowed : string -> Prop) kind ns wl owner o (existing : gset string) l w :
  (forall i p, (i, p) ∈ l -> p ∉ existing -> allowed p) -> store_inv (w_store w) ->
  pod_step allowed kind ns wl owner o w
    (for_each l (fun '(i, podName) =>
       if bool_decide (podName ∈ existing) then ret tt
       else bind (controllerPod a kind ns wl podName owner o i (templateHash o)) (fun pod => add_pod ns podName pod)) w).1.
Proof.
  revert w. induction l as [|[i p] l IH]; intros w Hl Hw; cbn [for_each]; [by apply pod_step_refl|].
  apply pod_step_bind.
  - case_bool_decide as Ep; [by apply pod_step_refl|]. unfold controllerPod.
    rewrite run_bind. unfold now_rfc3339, now, now_ns, bind, ret. cbn [fst snd].
    set (w1 := set_ticks w _). assert (Hw1 : store_inv (w_store w1)) by done.
    pose proof (nodeName_pure i w1) as Ew.
    destruct (nodeName i w1) as [w2 [node|]]; cbn [fst snd] in *; subst w2; [|by apply (pod_step_refl _ _ _ _ _ _ w1)].
    apply (add_pod_step allowed kind ns wl owner o p (rfc3339 (env_clock (w_ticks w) / 10 ^ 9)) node i w1); [|done].
    apply (Hl i); [set_solver|done].
  - intros _ w' Hw'. apply IH; [|done]. intros j q Hj. apply (Hl j). set_solver.
Qed.

(** *** The theorem *)
Lemma node_count_ext s1 s2 :
  (forall ns name, st_objects s1 !! core "nodes" ns name = st_objects s2 !! core "nodes" ns name) ->
  node_count s1 = node_count s2.
Proof.
  intros Hext. unfold node_count. rewrite (listPage_ext s1 s2); [done|].
  intros [g v r ns name] o Hsel. unfold selects in Hsel. cbn in Hsel. bool_to_prop. subst.
  specialize (Hext ns name). unfold core, key_of in Hext. by rewrite Hext.
Qed.
Lemma pod_names_run kind n d w : 0 <= d <= 64 ->
  pod_names kind n d w = (w, Some (workloadPodNames kind n d (node_count (w_store w)))).
Proof.
  intros Hd. unfold pod_names, nodeCount, make_strings, reads, bind. rewrite (proj2 (Z.ltb_ge d 0)), (proj2 (Z.ltb_ge _ _)) by lia.
  done.
Qed.
Lemma workload_nodes kind o w :
  exists m, (if String.eqb kind "DaemonSet" then nodeCount else ret 0) w = (w, Some m) /\
            desired_pods kind o m = desired_pods kind o (node_count (w_store w)).
Proof. unfold desired_pods. destruct (String.eqb kind "DaemonSet"); eexists; split; done. Qed.

End reconcile.

(** ** One page *)
Section page.
Context `{Env} (a : API).

(** The names on the only page of pods a controller looks at. *)
Definition page_names (s : objectStore) (ns : string) : list string :=
  match page_items (listPage s (GV "" "v1") ns "pods" [] [] 0 maxListPageItems) with
  | Some pods => map (fun pod => stringField (metadata_of pod) "name") pods
  | None => []
  end.
Lemma owned_on_page s ns n p : p ∈ owned_pods s ns n -> p ∈ page_names s ns.
Proof.
  unfold owned_pods, page_names. destruct (page_items _) as [pods|]; [|set_solver].
  rewrite elem_of_list_to_set. intros (pod & -> & Hpod)%list_elem_of_fmap.
  apply list_elem_of_fmap. exists pod. split; [done|]. apply list_elem_of_In. apply list_elem_of_In in Hpod.
  by apply filter_In in Hpod as [? _].
Qed.
Lemma page_at_most_100 s ns : Z.of_nat (length (page_names s ns)) <= 100.
Proof.
  unfold page_names. destruct (listPage _ _ _ _ _ _ _ _) as [[[items total] index]|] eqn:E; [|done].
  apply listPage_spec in E as (_ & _ & _ & _ & Hl & _). cbn [page_items]. rewrite length_map.
  pose proof (page_limit_range maxListPageItems). unfold maxListPageItems in *. lia.
Qed.

Lemma replica_sets_ext s1 s2 ns n :
  (forall ns name, st_objects s1 !! rs_key ns name = st_objects s2 !! rs_key ns name) ->
  replica_sets_of s1 ns n = replica_sets_of s2 ns n.
Proof.
  intros Hext. unfold replica_sets_of. rewrite (listPage_ext s1 s2); [done|].
  intros [g v r ns' name] o Hsel. unfold selects in Hsel. cbn in Hsel. bool_to_prop. subst.
  specialize (Hext ns' name). unfold rs_key, key_of in Hext. by rewrite Hext.
Qed.

(** Cascading deletion reads one page: it looks at no more than 100 pods of
    the namespace, and leaves every pod that is not on that page where it is,
    even one that names the deleted workload as its owner. *)
Theorem reap_reads_one_page : forall ns n w p, store_inv (w_store w) ->
  Z.of_nat (length (page_names (w_store w) ns)) <= 100 /\
  (p ∉ page_names (w_store w) ns -> replica_sets_of (w_store w) ns n = [] ->
   get (w_store (reapOwnedPods ns n w).1) (core "pods" ns p) = get (w_store w) (core "pods" ns p)).
Proof.
  intros ns n w p Hw. split; [apply page_at_most_100|]. intros Hp Hrs.
  destruct (reap_spec 13 ns (fun _ => false) (owned_pods (w_store w) ns n) w Hw) as (w1 & Hreap & Hw1 & Hrem).
  assert (E : (reapOwnedPods ns n w).1 = w1).
  { unfold reapOwnedPods. unfold bind at 1. change (ownedPodNames ns n w) with (w, Some (owned_pods (w_store w) ns n)).
    cbn beta iota. unfold bind at 1. rewrite Hreap. cbn beta iota. unfold bind at 1.
    change (deploymentReplicaSets ns n w1) with (w1, Some (replica_sets_of (w_store w1) ns n)). cbn beta iota.
    rewrite (replica_sets_ext (w_store w1) (w_store w)), Hrs; [done|].
    intros. apply (Hrem _). by intros (q & _ & _ & [=]). }
  rewrite E. unfold get. f_equal. apply (Hrem _). intros (q & Hq & _ & <-%core_inj). by apply Hp, owned_on_page with n.
Qed.
End page.

(** ** Names *)
Lemma suffix_chars_total n sum : exists t, suffix_chars n sum = Some t /\ String.length t = n /\
  all_bytes (fun c => is_lower c || is_digit c) t = true.
Proof.
  revert sum. induction n as [|n IH]; intros sum; [by exists ""|]. cbn [suffix_chars].
  assert (Hc : exists c, String.get (Z.to_nat (sum mod 26)) suffix_alphabet = Some c /\ is_lower c || is_digit c = true).
  { assert (forall z, 0 <= z < 26 -> match String.get (Z.to_nat z) suffix_alphabet with
                                     | Some c => is_lower c || is_digit c = true | None => False end) as G.
    { apply (forall_lt_decide 26 (fun z => match String.get (Z.to_nat z) suffix_alphabet with
        | Some c => is_lower c || is_digit c = true | None => False end)
        (fun z => match String.get (Z.to_nat z) suffix_alphabet as x return Decision (match x with
          | Some c => is_lower c || is_digit c = true | None => False end) with Some c => _ | None => _ end)).
      vm_compute. reflexivity. }
    specialize (G (sum mod 26) ltac:(apply Z.mod_pos_bound; lia)). destruct (String.get _ _) as [c|]; [eauto|done]. }
  destruct Hc as (c & -> & Hc). destruct (IH (sum / 26)) as (t & -> & Hl & Ht). exists (String c t).
  split; [done|]. split; [simpl; by rewrite Hl|]. simpl. by rewrite Hc, Ht.
Qed.
Lemma suffixFor_shape s i : String.length (suffixFor s i) = 5%nat /\
  all_bytes (fun c => is_lower c || is_digit c) (suffixFor s i) = true.
Proof. unfold suffixFor. destruct (suffix_chars_total 5 (fnv32 (s +:+ "/" +:+ itoa i))) as (t & -> & ? & ?). done. Qed.
Lemma seqZ_length n : Z.of_nat (length (seqZ n)) = Z.max 0 n.
Proof. unfold seqZ. rewrite length_fmap, length_seq. lia. Qed.
Lemma seqZ_NoDup n : NoDup (seqZ n).
Proof. unfold seqZ. apply NoDup_fmap_2; [intros ???; lia|]. apply NoDup_seq. Qed.
Lemma append_inj_head (x y z : string) : x +:+ y = x +:+ z -> y = z.
Proof. induction x as [|c x IH]; [done|]. change (String c x +:+ ?t) with (String c (x +:+ t)). intros [= E]. auto. Qed.

(** The pod names of a workload: as many as replicas (for a DaemonSet, as
    nodes if those are fewer; for a Job, one); those of a StatefulSet are
    pairwise different, numbered from 0; and the generated suffix always is five
    lower-case letters or digits, the index into its alphabet never out of
    bounds. *)
Theorem pod_names_shape : forall kind name r nodes, 0 <= r -> 0 <= nodes ->
  Z.of_nat (length (workloadPodNames kind name r nodes)) =
    (if bool_decide (kind ∈ ["StatefulSet"; "Deployment"; "ReplicaSet"]) then r
     else if String.eqb kind "DaemonSet" then Z.min nodes r
     else if String.eqb kind "Job" then 1 else 0) /\
  (kind = "StatefulSet" -> NoDup (workloadPodNames kind name r nodes)) /\
  (forall i, is_Some (suffix_chars 5 (fnv32 (name +:+ "/" +:+ itoa i))) /\ String.length (suffixFor name i) = 5%nat /\
     all_bytes (fun c => is_lower c || is_digit c) (suffixFor name i) = true).
Proof.
  intros kind name r nodes Hr Hn. split; [|split].
  - unfold workloadPodNames. destruct (String.eqb_spec kind "StatefulSet") as [->|N1]; [rewrite length_map, seqZ_length; simpl; lia|].
    destruct (String.eqb_spec kind "DaemonSet") as [->|N2]; [rewrite length_map, seqZ_length; simpl; lia|].
    destruct (String.eqb_spec kind "Deployment") as [->|N3]; [cbn [orb]; rewrite length_map, seqZ_length; simpl; lia|].
    destruct (String.eqb_spec kind "ReplicaSet") as [->|N4]; [cbn [orb]; rewrite length_map, seqZ_length; simpl; lia|].
    rewrite bool_decide_eq_false_2 by set_solver. cbn [orb]. by destruct (String.eqb_spec kind "Job").
  - intros ->. unfold workloadPodNames. cbn [String.eqb]. change (String.eqb "StatefulSet" "StatefulSet") with true. cbv iota.
    apply (NoDup_fmap_2_strong (fun i => name +:+ "-" +:+ itoa i)); [|apply seqZ_NoDup].
    intros i j Hi%seqZ_elem Hj%seqZ_elem E%append_inj_head%append_inj_head. apply itoa_inj; [lia|lia|done].
  - intros i. destruct (suffix_chars_total 5 (fnv32 (name +:+ "/" +:+ itoa i))) as (t & Ht & _).
    split; [by exists t|apply suffixFor_shape].
Qed.

(** Scaling keeps the ReplicaSet: the template hash that names it does not
    depend on the replica counts, so only a change of the pod template rolls. *)
Theorem template_hash_ignores_scale : forall o n, templateHash (scaled o n) = templateHash o.
Proof.
  intros o n. unfold templateHash, template_of, scaled. rewrite idx_oset. cbn [String.eqb Ascii.eqb Bool.eqb].
  rewrite idx_oset. change (String.eqb "spec" "spec") with true. cbn [objectMap]. rewrite idx_oset. done.
Qed.

(** ** Witnesses *)
Section witnesses.
#[local] Existing Instance test_env.

Definition api0 : API :=
  {| a_version := "v1.29"; a_startedAt := 0; a_resources := catalogue 29; a_ipBase := "10.42.0.0";
     a_serverAddress := "10.42.0.10:443"; a_emits := true |}.
Definition w0 : world := fresh_world 0.
Definition apps : groupVersion := GV "apps" "v1".
Definition workload (kind : string) (replicas : Z) : object :=
  of_pairs [("kind", VStr kind); ("metadata", lit [("uid", VStr "u")]); ("spec", lit [("replicas", VInt replicas)])].
Lemma w0_inv : store_inv (w_store w0).
Proof. apply new_store_inv. Qed.

Lemma materialize_panics_iff_witness :
  (materializePods api0 apps "default" "ds" (workload "DaemonSet" (-1)) w0).2 = None.
Proof.
  apply (proj2 (materialize_panics_iff api0 apps "default" "ds" (workload "DaemonSet" (-1)) w0 w0_inv)).
  vm_compute. reflexivity.
Defined.
Lemma controllers_never_panic_witness :
  is_Some (materializeDeployment api0 "default" "web" (workload "Deployment" (10 ^ 18)) w0).2.
Proof. exact (proj1 (controllers_never_panic api0 "default" "web" (workload "Deployment" (10 ^ 18)) w0 w0_inv)). Defined.

Definition secret_key : objectKey := core "secrets" "default" "token".
Definition w_secret : world := set_store w0 (put secret_key [("kind", VStr "Secret")] "ADDED" (w_store w0)).1.1.
Lemma w_secret_inv : store_inv (w_store w_secret).
Proof. apply put_inv, w0_inv. Qed.
Lemma controllers_stay_in_namespace_witness :
  get (w_store (materializePods api0 apps "default" "db" (workload "StatefulSet" 2) w_secret).1) secret_key =
    get (w_store w_secret) secret_key /\ is_Some (get (w_store w_secret) secret_key).
Proof.
  split.
  - refine (proj1 (proj1 (controllers_stay_in_namespace api0 apps "default" "db" (workload "StatefulSet" 2) None
      w_secret secret_key w_secret_inv) _)).
    intros [_ Hk]. revert Hk. apply (bool_decide_eq_false_1 (_ ∈ _)). vm_compute. reflexivity.
  - vm_compute. by eexists.
Defined.

(** Three replicas, then one: the second and third pod go. *)
Definition w_three : world := (materializePods api0 apps "default" "db" (workload "StatefulSet" 3) w0).1.
Lemma w_three_inv : store_inv (w_store w_three).
Proof. apply (confined_inv (in_ns workload_kinds "default")); [apply confined_materialize|apply w0_inv]. Qed.

(** A crowded namespace: 101 pods of the same owner. *)
Definition owned_pod (name : string) : object :=
  of_pairs [("metadata", lit [("name", VStr name); ("ownerReferences", VList [lit [("name", VStr "db")]])])].
Definition add_owned (s : objectStore) (i : Z) : objectStore :=
  let name := "p" +:+ zero_pad 3 i in (put (core "pods" "default" name) (owned_pod name) "ADDED" s).1.1.
Definition crowd : objectStore := foldl add_owned (newObjectStore 0) (seqZ 101).
Lemma add_owned_inv l s : store_inv s -> store_inv (foldl add_owned s l).
Proof. revert s. induction l as [|i l IH]; intros s Hs; [exact Hs|]. apply IH. unfold add_owned. by apply put_inv. Qed.
Definition w_crowd : world := set_store w0 crowd.
Lemma crowd_inv : store_inv (w_store w_crowd).
Proof. exact (add_owned_inv (seqZ 101) (newObjectStore 0) (new_store_inv 0)). Qed.
Lemma reap_reads_one_page_witness :
  get (w_store (reapOwnedPods "default" "db" w_crowd).1) (core "pods" "default" "p100") =
    get (w_store w_crowd) (core "pods" "default" "p100") /\
  owned_by "db" (default [] (get (w_store w_crowd) (core "pods" "default" "p100"))) = true.
Proof.
  split; [|vm_compute; reflexivity].
  refine (proj2 (reap_reads_one_page "default" "db" w_crowd "p100" crowd_inv) _ _).
  - apply (bool_decide_eq_false_1 (_ ∈ _)). vm_compute. reflexivity.
  - apply (bool_decide_eq_true_1 (_ = [])). vm_compute. reflexivity.
Defined.
Lemma pod_names_shape_witness : NoDup (workloadPodNames "StatefulSet" "db" 3 1).
Proof. apply (pod_names_shape "StatefulSet" "db" 3 1); [lia|lia|done]. Defined.
End witnesses.
