(* ===== verification/Seed.v ===== *)
(** * Seeding

    [seed] of state.go: the objects a fresh cluster shows, the custom
    honeytokens and the bounds on both, and [seedNamespaceObjects].  No call of
    the closure [seed] looks at what an earlier one returned, so the function
    is a list of requests carried out in order. *)
From S2P Require Import Prelude GoStrings GoCodec ConfigModel Value Json Names Selector Catalog Store StoreFacts StoreProps World Controllers.

#[local] Set Warnings "-clear-no-such-hyp,-notation-for-abbreviation".
#[local] Open Scope string_scope.
#[local] Open Scope list_scope.
#[local] Open Scope Z_scope.

Definition maxSeedObjects : Z := 512.
Definition maxSeedNamespaces : Z := 128.
Definition maxSeedSecrets : nat := 128.
Definition maxLegacySeedTokens : nat := 128.
Definition maxSecretDataKeys : Z := 512.

Definition rootCAPEM : string :=
"-----BEGIN CERTIFICATE-----
MIIDBTCCAe2gAwIBAgIIRg9i3sQzLw4wDQYJKoZIhvcNAQELBQAwFTETMBEGA1UE
AxMKa3ViZXJuZXRlczAeFw0yNjA5MjQxMjUxMDdaFw0zNjA5MjIxMjUxMDdaMBUx
EzARBgNVBAMTCmt1YmVybmV0ZXMwggEiMA0GCSqGSIb3DQEBAQUAA4IBDwAwggEK
AoIBAQDczvdV7kY+GxXMJgX0hC8z3mJzNbxqSxP4uKqJjZ0dYkL4WQ1fK0mHv7nG
k7Hj9hZ9Kp2WvQpZJ8q7x0h0p9uF3kY6gZqJ0z2m7YvB0cH9k4wQ4uK1y9z2H8v
n0Xb7Q0mD2gP1vY4z5iH8gN7kX0wM3tL9cF1bV6xK8jH2dP5sA4fG9nQ0wE7rT3
yU6iO1pA8sD4fG7hJ0kL2zX5cV8bN1mQ4wR7tY3uI6oP9aS2dF5gH8jK1lZ4xC7
vB0nM3qW6eR9tY2uI5oP8aS1dF4gH7jK0lZ3xC6vB9nM2qW5eR8tY1uI4oP7aS0
dF3gH6jK9lZ2xC5vB8nM1qW4eR7tY0uI3oP6aS9dF2gH5jK8lZ1xC4vB7nM0qW
AgMBAAGjRjBEMA4GA1UdDwEB/wQEAwICpDAPBgNVHRMBAf8EBTADAQH/MB0GA1Ud
DgQWBBQ0bW9ja2VkLWNhLWZvci10ZXN0MA0GCSqGSIb3DQEBCwUAA4IBAQCqK3z8
pV7jQ0dY2mF8hN5sK1xW9rT4uI6oP3aS7dG0fJ4kL9zX2cV5bN8mQ1wR4tY7uI0
-----END CERTIFICATE-----".

Definition slit (l : list (string * string)) : val := VStrMap (of_pairs l).

Record seed_request := {
  sr_gv : groupVersion; sr_resource : string; sr_namespace : string; sr_name : string; sr_object : object;
}.
Definition SR (gv : groupVersion) (resource namespace name : string) (l : list (string * val)) : seed_request :=
  {| sr_gv := gv; sr_resource := resource; sr_namespace := namespace; sr_name := name; sr_object := of_pairs l |}.

(** ** Namespaces *)

(** [addNamespace]: the order of first appearance. *)
Definition addNamespace (order : list string) (namespace : string) : list string :=
  if (maxSeedNamespaces <=? Z.of_nat (length order)) || negb (validNamespaceName namespace) then order
  else if bool_decide (namespace ∈ order) then order else order ++ [namespace].
Definition builtin_namespaces : list string := ["default"; "kube-system"; "kube-public"; "kube-node-lease"].
Definition honeytoken_namespace (h : K8SHoneytoken) : string :=
  let namespace := trim_space (ht_Namespace h) in if String.eqb namespace "" then "default" else namespace.
Definition accepted_names (l : list K8SHoneytoken) : list K8SHoneytoken :=
  List.filter (fun h => validObjectName (ht_Name h)) (take maxSeedSecrets l).
Definition namespace_order (cfg : K8SConfig) : list string :=
  let order := foldl addNamespace [] builtin_namespaces in
  let order := foldl addNamespace order (map honeytoken_namespace (accepted_names (k_Honeytokens cfg))) in
  foldl addNamespace order (map trim_space (take (Z.to_nat maxSeedObjects) (k_Namespaces cfg))).

(** ** Secrets *)
Section seed.
Context `{Env}.

(** [encodeSecretData]: [None] for data that is refused. *)
Fixpoint encode_entries (l : list (string * string)) (encodedBytes : Z) (encoded : list (string * string))
    : option (list (string * string)) :=
  match l with
  | [] => Some encoded
  | (key, value) :: l =>
      if negb (state_validSecretDataKey key) || (maxStoredObjectBytes <? slen value) then None
      else
        let valueBytes := base64_encoded_len (slen value) in
        if maxStoredObjectBytes <? encodedBytes + slen key + valueBytes then None
        else encode_entries l (encodedBytes + (slen key + valueBytes)) (oset encoded key (base64_std value))
  end.
Definition encodeSecretData (data : list (string * string)) : option (list (string * string)) :=
  if maxSecretDataKeys <? Z.of_nat (length data) then None
  else encode_entries (range_entries 20 data) 0 [].

Definition honeytoken_request (order : list string) (h : K8SHoneytoken) : list seed_request :=
  let namespace := honeytoken_namespace h in
  if negb (validNamespaceName namespace) || negb (bool_decide (namespace ∈ order)) then []
  else match encodeSecretData (ht_Data h) with
       | None => []
       | Some data =>
           let secretType := trim_space (ht_Type h) in
           let secretType := if String.eqb secretType "" then "Opaque" else secretType in
           if 256 <? slen secretType then []
           else [SR (GV "" "v1") "secrets" namespace (ht_Name h) [("type", VStr secretType); ("data", VStrMap data)]]
       end.
(** The older token fields; [i] is the index of the token. *)
Definition token_request (names : list string) (i : nat) (token : string) : list seed_request :=
  if 4096 <? slen token then []
  else
    let name := match names !! i with
                | Some name => if String.eqb (trim_space name) "" then "decoy-credential-" +:+ zero_pad 2 (Z.of_nat i + 1) else name
                | None => "decoy-credential-" +:+ zero_pad 2 (Z.of_nat i + 1)
                end in
    [SR (GV "" "v1") "secrets" "default" name
       [("type", VStr "Opaque"); ("data", slit [("token", base64_std token)])]].
Fixpoint token_requests (names : list string) (i : nat) (tokens : list string) : list seed_request :=
  match tokens with
  | [] => []
  | token :: tokens => token_request names i token ++ token_requests names (S i) tokens
  end.

(** ** The built-in objects *)
Definition podObject (now name namespace image ip node labelKey labelValue hostIP : string) : list (string * val) :=
  [("metadata", lit [("name", VStr name); ("namespace", VStr namespace); ("labels", slit [(labelKey, labelValue)])]);
   ("spec", lit [("nodeName", VStr node);
                 ("containers", VList [lit [("name", VStr "main"); ("image", VStr image); ("imagePullPolicy", VStr "IfNotPresent")]])]);
   ("status", lit
      [("phase", VStr "Running"); ("podIP", VStr ip); ("hostIP", VStr hostIP);
       ("conditions", VList [lit [("type", VStr "Ready"); ("status", VStr "True"); ("reason", VStr "PodReady")]]);
       ("containerStatuses", VList [lit
          [("name", VStr "main"); ("ready", VBool true); ("restartCount", VInt 0); ("image", VStr image);
           ("imageID", VStr "containerd://sha256:0000000000000000");
           ("state", lit [("running", lit [("startedAt", VStr now)])])]])]);
   ("apiVersion", VStr "v1"); ("kind", VStr "Pod")].

Definition namespace_request (namespace : string) : seed_request :=
  SR (GV "" "v1") "namespaces" "" namespace
    [("metadata", lit [("labels", slit [("kubernetes.io/metadata.name", namespace)])]);
     ("status", lit [("phase", VStr "Active")])].

Definition node_requests (version base : string) (startedAt : Z) (i : Z) (name role : string) : list seed_request :=
  let started := rfc3339 startedAt in
  [SR (GV "" "v1") "nodes" "" name
     [("metadata", lit [("labels", slit [("kubernetes.io/hostname", name); ("node-role.kubernetes.io/" +:+ role, "")])]);
      ("spec", lit [("podCIDR", VStr (podCIDR base i)); ("taints", VList [])]);
      ("status", lit
         [("capacity", slit [("cpu", "4"); ("memory", "16Gi"); ("pods", "110")]);
          ("allocatable", slit [("cpu", "3900m"); ("memory", "15Gi"); ("pods", "110")]);
          ("addresses", VList [slit [("type", "InternalIP"); ("address", nodeAddress base (10 + i))];
                               lit [("type", VStr "Hostname"); ("address", VStr name)]]);
          ("nodeInfo", slit [("containerRuntimeVersion", "containerd://2.1.0"); ("kubeletVersion", version +:+ ".0");
                             ("kubeProxyVersion", version +:+ ".0"); ("operatingSystem", "linux"); ("architecture", "amd64");
                             ("osImage", "Linux"); ("kernelVersion", "6.8.0")]);
          ("conditions", VList [lit [("type", VStr "Ready"); ("status", VStr "True"); ("reason", VStr "KubeletReady");
                                     ("lastHeartbeatTime", VStr started); ("lastTransitionTime", VStr started)]])])];
   SR (GV "coordination.k8s.io" "v1") "leases" "kube-node-lease" name
     [("spec", lit [("holderIdentity", VStr name); ("leaseDurationSeconds", VInt 40);
                    ("renewTime", VStr (rfc3339_micro startedAt)); ("acquireTime", VStr (rfc3339_micro startedAt));
                    ("leaseTransitions", VInt 0)])]].
Definition cluster_requests (version base : string) (startedAt : Z) : list seed_request :=
  node_requests version base startedAt 0 "control-plane-01" "control-plane"
  ++ node_requests version base startedAt 1 "worker-01" "worker"
  ++ node_requests version base startedAt 2 "worker-02" "worker"
  ++ [SR (GV "" "v1") "services" "default" "kubernetes"
        [("spec", lit [("clusterIP", VStr (serviceAddress base 20));
                       ("ports", VList [lit [("name", VStr "https"); ("port", VInt 443); ("protocol", VStr "TCP"); ("targetPort", VInt 6443)]]);
                       ("type", VStr "ClusterIP")])];
      SR (GV "" "v1") "endpoints" "default" "kubernetes"
        [("subsets", VList [lit
            [("addresses", VList [lit [("ip", VStr (nodeAddress base 10))]]);
             ("ports", VList [lit [("name", VStr "https"); ("port", VInt 6443); ("protocol", VStr "TCP")]])]])]].

Definition pod_request (base ns now name image ip labelKey labelValue : string) : seed_request :=
  SR (GV "" "v1") "pods" ns name
    (podObject now name ns image ip "worker-01" labelKey labelValue (nodeAddress base 11)).
(** Each pod reads the clock once. *)
Definition kube_system_requests (base : string) : act (list seed_request) :=
  (let! t0 := now_rfc3339 in let! t1 := now_rfc3339 in let! t2 := now_rfc3339 in
   ret ([pod_request base "kube-system" t0 "coredns-6d8b4f6b7f-k7m2p" "registry.k8s.io/coredns/coredns:v1.14.7"
           (podAddress base 2 30) "k8s-app" "system";
         pod_request base "kube-system" t1 "kube-proxy-2k9jv" "registry.k8s.io/kube-proxy:v1.37.0"
           (podAddress base 2 31) "k8s-app" "system";
         pod_request base "kube-system" t2 "metrics-server-7db5f8d5b9-5c2tx" "registry.k8s.io/metrics-server/metrics-server:v0.9.0"
           (podAddress base 2 32) "k8s-app" "system";
         SR (GV "" "v1") "services" "kube-system" "kube-dns"
           [("spec", lit [("clusterIP", VStr (serviceAddress base 21));
                          ("ports", VList [lit [("name", VStr "dns"); ("port", VInt 53); ("protocol", VStr "UDP")];
                                           lit [("name", VStr "dns-tcp"); ("port", VInt 53); ("protocol", VStr "TCP")]]);
                          ("selector", slit [("k8s-app", "system")]); ("type", VStr "ClusterIP")]);
            ("status", lit [("loadBalancer", VMap [])])]]))%act.
Definition random_requests (base : string) : act (list seed_request) :=
  (let! t0 := now_rfc3339 in let! t1 := now_rfc3339 in let! t2 := now_rfc3339 in
   ret ([pod_request base "default" t0 "api-6d7949c6d7-vzd8q" "registry.k8s.io/pause:3.10" (podAddress base 2 40) "app" "api";
         pod_request base "default" t1 "web-7f5cb9d59c-hk6qn" "nginx:1.30.5" (podAddress base 2 41) "app" "web";
         pod_request base "default" t2 "redis-0" "redis:7.4" (podAddress base 2 42) "app" "redis";
         SR (GV "apps" "v1") "deployments" "default" "web"
           [("spec", lit [("replicas", VInt 1); ("selector", lit [("matchLabels", slit [("app", "web")])]);
                          ("template", lit
                             [("metadata", lit [("labels", slit [("app", "web")])]);
                              ("spec", lit [("containers", VList [lit
                                 [("name", VStr "web"); ("image", VStr "nginx:1.30.5");
                                  ("ports", VList [lit [("containerPort", VInt 80)]])]])])])]);
            ("status", lit [("availableReplicas", VInt 1); ("readyReplicas", VInt 1); ("replicas", VInt 1); ("updatedReplicas", VInt 1)])]]))%act.

Definition default_requests (order : list string) : list seed_request :=
  flat_map (fun ns =>
    [SR (GV "" "v1") "serviceaccounts" ns "default" [];
     SR (GV "" "v1") "configmaps" ns "kube-root-ca.crt" [("data", slit [("ca.crt", rootCAPEM)])]]) order.
Definition apiservice_request (startedAt : Z) (gv : groupVersion) : seed_request :=
  let name := if String.eqb (gv_group gv) "" then gv_version gv else gv_version gv +:+ "." +:+ gv_group gv in
  let spec := of_pairs [("group", VStr (gv_group gv)); ("version", VStr (gv_version gv));
                        ("groupPriorityMinimum", VInt 1000); ("versionPriority", VInt 15)] in
  let spec := if String.eqb (gv_group gv) "metrics.k8s.io" then
      oset spec "service" (lit [("name", VStr "metrics-server"); ("namespace", VStr "kube-system"); ("port", VInt 443)])
    else spec in
  SR (GV "apiregistration.k8s.io" "v1") "apiservices" "" name
    [("spec", VMap spec);
     ("status", lit [("conditions", VList [lit [("type", VStr "Available"); ("status", VStr "True"); ("reason", VStr "Passed");
                                                ("lastTransitionTime", VStr (rfc3339 startedAt))]])])].
Definition webhook_request : seed_request :=
  SR (GV "admissionregistration.k8s.io" "v1") "validatingwebhookconfigurations" "" "cert-manager-webhook"
    [("webhooks", VList [lit
       [("name", VStr "webhook.cert-manager.io"); ("admissionReviewVersions", VStrList ["v1"]); ("sideEffects", VStr "None");
        ("failurePolicy", VStr "Fail");
        ("clientConfig", lit [("service", lit [("name", VStr "cert-manager-webhook"); ("namespace", VStr "cert-manager");
                                               ("path", VStr "/validate")])]);
        ("rules", VList [lit [("apiGroups", VStrList ["cert-manager.io"]); ("apiVersions", VStrList ["v1"]);
                              ("operations", VStrList ["CREATE"; "UPDATE"]); ("resources", VStrList ["*/*"])]])]])].
Definition crd_request (startedAt : Z) (name group plural kind : string) : seed_request :=
  SR (GV "apiextensions.k8s.io" "v1") "customresourcedefinitions" "" name
    [("spec", lit
        [("group", VStr group);
         ("names", lit [("plural", VStr plural); ("singular", VStr (to_lower kind)); ("kind", VStr kind); ("listKind", VStr (kind +:+ "List"))]);
         ("scope", VStr "Namespaced");
         ("versions", VList [lit
            [("name", VStr "v1"); ("served", VBool true); ("storage", VBool true);
             ("schema", lit [("openAPIV3Schema", lit [("type", VStr "object"); ("x-kubernetes-preserve-unknown-fields", VBool true)])])]])]);
     ("status", lit
        [("acceptedNames", lit [("plural", VStr plural); ("kind", VStr kind)]);
         ("conditions", VList [lit [("type", VStr "Established"); ("status", VStr "True"); ("reason", VStr "InitialNamesAccepted");
                                    ("lastTransitionTime", VStr (rfc3339 startedAt))]])])].
Definition cluster_roles : list string :=
  ["cluster-admin"; "admin"; "edit"; "view"; "system:aggregate-to-admin"; "system:aggregate-to-edit"; "system:aggregate-to-view";
   "system:basic-user"; "system:discovery"; "system:public-info-viewer"; "system:auth-delegator"; "system:kube-controller-manager";
   "system:kube-scheduler"; "system:controller:attachdetach-controller"; "system:controller:deployment-controller";
   "system:kube-dns"; "system:kube-proxy"; "system:node"; "system:node-proxier"; "system:metrics-server"].
Definition cluster_role_bindings : list string :=
  ["cluster-admin"; "system:basic-user"; "system:discovery"; "system:public-info-viewer"; "system:kube-controller-manager";
   "system:kube-scheduler"; "system:metrics-server"].
Definition extension_requests (startedAt : Z) : list seed_request :=
  map (fun ge => apiservice_request startedAt ge.1) (range_entries 21 (map_to_list apiCatalog))
  ++ [webhook_request;
      crd_request startedAt "prometheusrules.monitoring.coreos.com" "monitoring.coreos.com" "prometheusrules" "PrometheusRule";
      crd_request startedAt "certificates.cert-manager.io" "cert-manager.io" "certificates" "Certificate";
      crd_request startedAt "ingressroutes.traefik.io" "traefik.io" "ingressroutes" "IngressRoute"]
  ++ map (fun role => SR (GV "rbac.authorization.k8s.io" "v1") "clusterroles" "" role [("rules", VList [])]) cluster_roles
  ++ map (fun binding => SR (GV "rbac.authorization.k8s.io" "v1") "clusterrolebindings" "" binding
       [("roleRef", slit [("apiGroup", "rbac.authorization.k8s.io"); ("kind", "ClusterRole"); ("name", binding)]);
        ("subjects", VList [])]) cluster_role_bindings.

(** ** The whole seeding *)
Definition seed_requests (version : string) (startedAt : Z) (cfg : K8SConfig) (kube random : list seed_request)
    : list seed_request :=
  let order := namespace_order cfg in
  map namespace_request order
  ++ cluster_requests version (k_IPBase cfg) startedAt
  ++ kube ++ random
  ++ flat_map (honeytoken_request order) (accepted_names (k_Honeytokens cfg))
  ++ token_requests (k_TokenNames cfg) 0 (take maxLegacySeedTokens (k_TokenValues cfg))
  ++ default_requests order ++ extension_requests startedAt.

Definition store_seed (r : seed_request) : act bool := fun w =>
  let '(s, ok) := Store.seed (sr_gv r) (sr_resource r) (sr_namespace r) (sr_name r) (sr_object r) (w_store w) in
  (set_store w s, Some ok).
(** The closure [seed]: nothing more once 512 objects are stored. *)
Fixpoint run_seeds (l : list seed_request) (seededObjects : Z) : act Z :=
  match l with
  | [] => ret seededObjects
  | r :: l =>
      if maxSeedObjects <=? seededObjects then run_seeds l seededObjects
      else bind (store_seed r) (fun ok => run_seeds l (if ok : bool then seededObjects + 1 else seededObjects))
  end.
Definition seed_api (version : string) (cfg : K8SConfig) : act Z :=
  (let! startedAt := reads st_startedAt in
   let! kube := (if k_GenerateKubeSys cfg then kube_system_requests (k_IPBase cfg) else ret []) in
   let! random := (if k_GenerateRand cfg then random_requests (k_IPBase cfg) else ret []) in
   run_seeds (seed_requests version startedAt cfg kube random) 0)%act.

(** [seedNamespaceObjects]: what every new namespace gets. *)
Definition namespace_object (kind namespace name now uid : string) (rest : list (string * val)) : object :=
  of_pairs ([("apiVersion", VStr "v1"); ("kind", VStr kind);
             ("metadata", lit [("name", VStr name); ("namespace", VStr namespace); ("creationTimestamp", VStr now);
                               ("uid", VStr (stableUID uid))])] ++ rest).
Definition seedNamespaceObjects (namespace : string) : act unit :=
  (let! now := now_rfc3339 in
   store_put (core "serviceaccounts" namespace "default")
     (namespace_object "ServiceAccount" namespace "default" now ("serviceaccount/" +:+ namespace +:+ "/default") []) "ADDED" ;;;
   store_put (core "configmaps" namespace "kube-root-ca.crt")
     (namespace_object "ConfigMap" namespace "kube-root-ca.crt" now ("configmap/" +:+ namespace +:+ "/kube-root-ca.crt")
        [("data", lit [("ca.crt", VStr rootCAPEM)])]) "ADDED" ;;; ret tt)%act.
End seed.
