(* ===== verification/SeedProps.v ===== *)
(** * Seeding: properties

    The bound on seeded objects and the exact count returned, the namespaces a
    configuration gives rise to, the encoding of secret data whatever the order
    of the map, and the addresses derived from the configured base. *)
From S2P Require Import Prelude GoStrings GoCodec ConfigModel Value Json Names Selector Catalog Store StoreFacts StoreProps World Controllers ControllerProps Seed.

#[local] Set Warnings "-clear-no-such-hyp,-notation-for-abbreviation".
#[local] Open Scope string_scope.
#[local] Open Scope list_scope.
#[local] Open Scope Z_scope.

(** ** Addresses *)
Definition octets_ok (p : Z * Z * Z * Z) : Prop :=
  let '(a, b, c, d) := p in 0 <= a < 256 /\ 0 <= b < 256 /\ 0 <= c < 256 /\ 0 <= d < 256.
Lemma addressParts_range base : octets_ok (addressParts base).
Proof.
  unfold addressParts. assert (Hdef : octets_ok (10, 42, 0, 0)) by (simpl; lia).
  destruct (split _ base) as [|s1 [|s2 [|s3 [|s4 [|]]]]]; try done.
  assert (G : forall s v, match atoi s with Some v => if (v <? 0) || (255 <? v) then None else Some v | None => None end = Some v ->
    0 <= v < 256).
  { intros s v. destruct (atoi s) as [x|]; [|done]. destruct (_ || _) eqn:E; [done|]. intros [= <-]. bool_to_prop. lia. }
  repeat match goal with |- context [match match atoi ?s with Some _ => _ | None => _ end with _ => _ end] =>
    let E := fresh "E" in destruct (match atoi s with Some v => if (v <? 0) || (255 <? v) then None else Some v | None => None end) eqn:E;
    [apply G in E|done] end.
  simpl. lia.
Qed.
(** Every address derived from the configured base is a dotted quad: the
    base falls back to 10.42.0.0 when it is no IPv4 address, the pod subnet
    wraps within its octet, and no octet leaves 0 to 255 for the offsets the
    program uses. *)
Theorem addresses_in_range : forall base sub off, 0 <= off < 256 ->
  exists a b c c', octets_ok (a, b, c, off) /\ octets_ok (a, b, c', off) /\
    nodeAddress base off = dotted a b c off /\ podAddress base sub off = dotted a b c' off.
Proof.
  intros base sub off Hoff. unfold nodeAddress, podAddress. pose proof (addressParts_range base) as H.
  destruct (addressParts base) as [[[a b] c] d]. simpl in H.
  exists a, b, c, ((c + sub) mod 256). pose proof (Z.mod_pos_bound (c + sub) 256 ltac:(lia)). simpl. repeat split; lia.
Qed.
Lemma addresses_in_range_witness : podAddress "10.1.255.0" 2 30 = "10.1.1.30" /\ exists a b c c',
  octets_ok (a, b, c, 30) /\ octets_ok (a, b, c', 30) /\ nodeAddress "10.1.255.0" 30 = dotted a b c 30 /\
  podAddress "10.1.255.0" 2 30 = dotted a b c' 30.
Proof. split; [vm_compute; reflexivity|]. apply (addresses_in_range "10.1.255.0" 2 30). lia. Defined.

(** ** Secret data *)
Section secrets.
Context `{Env}.

Definition entry_ok (kv : string * string) : bool :=
  state_validSecretDataKey kv.1 && (slen kv.2 <=? maxStoredObjectBytes).
Definition entry_size (kv : string * string) : Z := slen kv.1 + base64_encoded_len (slen kv.2).
Definition encode_entry (kv : string * string) : string * string := (kv.1, base64_std kv.2).

Lemma entry_size_nonneg kv : 0 <= entry_size kv.
Proof.
  unfold entry_size, base64_encoded_len. pose proof (slen_nonneg kv.1). pose proof (slen_nonneg kv.2).
  pose proof (Z.div_pos (slen kv.2 + 2) 3). lia.
Qed.
Lemma sizes_nonneg l : 0 <= sum_Z (map entry_size l).
Proof. apply sum_Z_nonneg, Forall_map, Forall_forall. intros. apply entry_size_nonneg. Qed.

Lemma encode_entries_spec l n acc :
  encode_entries l n acc =
    if forallb entry_ok l && ((n + sum_Z (map entry_size l) <=? maxStoredObjectBytes) || bool_decide (l = []))
    then Some (foldl (fun m kv => oset m kv.1 kv.2) acc (map encode_entry l)) else None.
Proof.
  revert n acc. induction l as [|[k v] l IH]; intros n acc; [by rewrite orb_true_r|]. cbn [encode_entries].
  cbn [forallb]. unfold entry_ok at 1. cbn [fst snd]. rewrite (bool_decide_eq_false_2 (_ :: _ = [])) by done. rewrite orb_false_r.
  change (sum_Z (map entry_size ((k, v) :: l))) with (entry_size (k, v) + sum_Z (map entry_size l)).
  unfold entry_size at 1. cbn [fst snd].
  pose proof (sizes_nonneg l) as Hl.
  destruct (state_validSecretDataKey k); [|done]. cbn [negb orb andb].
  rewrite Z.leb_antisym. destruct (maxStoredObjectBytes <? slen v); [done|]. cbn [negb andb].
  destruct (maxStoredObjectBytes <? _) eqn:Eb.
  - bool_to_prop. rewrite (proj2 (Z.leb_gt _ _)) by lia. by rewrite andb_false_r.
  - rewrite IH. bool_to_prop. cbn [foldl]. rewrite !Z.add_assoc in *.
    destruct (forallb entry_ok l); [|done]. cbn [andb].
    destruct (decide (l = [])) as [->|Hne].
    + rewrite bool_decide_eq_true_2, orb_true_r by done. cbn [map sum_Z foldr]. by rewrite (proj2 (Z.leb_le _ _)) by lia.
    + rewrite bool_decide_eq_false_2, orb_false_r by done. done.
Qed.

Lemma foldl_oset_lookup (l : list (string * string)) acc k :
  NoDup l.*1 -> oget (foldl (fun m kv => oset m kv.1 kv.2) acc l) k =
    match oget l k with Some v => Some v | None => oget acc k end.
Proof.
  revert acc. induction l as [|[j v] l IH]; intros acc; [done|]. intros [Hj Hl]%NoDup_cons. cbn [foldl fst snd oget].
  rewrite IH by done. rewrite oget_oset. destruct (String.eqb_spec k j) as [->|]; [|done].
  destruct (oget l j) eqn:E; [|done]. apply oget_elem in E. exfalso. apply Hj, list_elem_of_fmap. by exists (j, s).
Qed.
Lemma oget_perm (l1 l2 : list (string * string)) k : NoDup l1.*1 -> l1 ≡ₚ l2 -> oget l1 k = oget l2 k.
Proof.
  intros Hnd HP. assert (Hnd2 : NoDup l2.*1) by (by rewrite <- HP).
  assert (G : forall (l l' : list (string * string)) v, NoDup l'.*1 -> l ≡ₚ l' -> oget l k = Some v -> oget l' k = Some v).
  { intros l l' v Hn HPl E. apply oget_elem in E. rewrite HPl in E. clear HPl.
    induction l' as [|[j x] l' IH]; [set_solver|]. apply NoDup_cons in Hn as [Hj Hn]. simpl.
    destruct (String.eqb_spec k j) as [->|Hne].
    - apply elem_of_cons in E as [[= ->]|E]; [done|]. exfalso. apply Hj, list_elem_of_fmap. by exists (j, v).
    - apply IH; [done|]. apply elem_of_cons in E as [[= -> ->]|E]; done. }
  destruct (oget l1 k) as [v|] eqn:E1; [by erewrite G|]. destruct (oget l2 k) as [v|] eqn:E2; [|done].
  rewrite (G l2 l1 v) in E1; done.
Qed.
Lemma of_pairs_perm (l1 l2 : list (string * string)) : NoDup l1.*1 -> l1 ≡ₚ l2 -> of_pairs l1 = of_pairs l2.
Proof.
  intros Hnd HP. apply omap_ext; [apply of_pairs_sorted..|]. intros k. unfold of_pairs.
  rewrite !foldl_oset_lookup; [|by rewrite <- HP|done]. by rewrite (oget_perm l1 l2).
Qed.

(** [encodeSecretData], whatever order the map is visited in: data is
    refused exactly when it has more than 512 entries, an invalid key, a value
    over 256 KiB, or keys and encoded values over 256 KiB together; otherwise
    every value is base64-encoded under its own key. *)
Theorem encodeSecretData_spec : forall data, NoDup data.*1 ->
  encodeSecretData data =
    if (Z.of_nat (length data) <=? maxSecretDataKeys) && forallb entry_ok data
       && ((sum_Z (map entry_size data) <=? maxStoredObjectBytes) || bool_decide (data = []))
    then Some (of_pairs (map encode_entry data)) else None.
Proof.
  intros data Hnd. unfold encodeSecretData. rewrite Z.leb_antisym. destruct (maxSecretDataKeys <? _); [done|]. cbn [negb andb].
  rewrite encode_entries_spec, Z.add_0_l. set (l := range_entries 20 data).
  assert (HP : l ≡ₚ data) by apply range_entries_perm.
  assert (Hf : forallb entry_ok l = forallb entry_ok data).
  { apply eq_iff_eq_true. rewrite !forallb_elem. by setoid_rewrite HP. }
  rewrite Hf. assert (Hs : sum_Z (map entry_size l) = sum_Z (map entry_size data)) by (by apply sum_Z_perm, Permutation_map).
  rewrite Hs. assert (He : bool_decide (l = []) = bool_decide (data = [])).
  { apply bool_decide_ext. split; intros E; rewrite E in HP; [by apply Permutation_nil_l in HP|by apply Permutation_nil_r in HP]. }
  rewrite He. case_match; [|done]. f_equal. change (of_pairs (map encode_entry l) = of_pairs (map encode_entry data)).
  apply of_pairs_perm; [|by apply Permutation_map].
  assert ((map encode_entry l).*1 = l.*1) as ->; [|by rewrite HP].
  clear. induction l as [|[k v] l IH]; [done|]. simpl. by f_equal.
Qed.
End secrets.
Lemma encodeSecretData_spec_witness :
  @encodeSecretData test_env [("b", "secret"); ("a", "x")] = Some [("a", "eA=="); ("b", "c2VjcmV0")].
Proof.
  rewrite (@encodeSecretData_spec test_env [("b", "secret"); ("a", "x")]).
  - vm_compute. reflexivity.
  - apply (bool_decide_eq_true_1 (NoDup _)). vm_compute. reflexivity.
Defined.

(** ** Namespaces *)
Definition order_ok (l : list string) : Prop :=
  NoDup l /\ Z.of_nat (length l) <= maxSeedNamespaces /\ Forall (fun ns => validNamespaceName ns = true) l.
Lemma addNamespace_ok l ns : order_ok l -> order_ok (addNamespace l ns).
Proof.
  intros (H1 & H2 & H3). unfold addNamespace. destruct (_ || _) eqn:E; [done|]. bool_to_prop.
  case_bool_decide as Hin; [done|]. split; [|split].
  - apply NoDup_app. split; [done|]. split; [set_solver|apply NoDup_singleton].
  - rewrite length_app. simpl. lia.
  - apply Forall_app. split; [done|]. by constructor.
Qed.
Lemma foldl_addNamespace_ok l order : order_ok order -> order_ok (foldl addNamespace order l).
Proof. revert order. induction l as [|ns l IH]; intros order Ho; [done|]. simpl. by apply IH, addNamespace_ok. Qed.
Lemma addNamespace_keeps l ns x : x ∈ l -> x ∈ addNamespace l ns.
Proof. unfold addNamespace. repeat case_match; set_solver. Qed.
Lemma foldl_addNamespace_keeps l order x : x ∈ order -> x ∈ foldl addNamespace order l.
Proof. revert order. induction l as [|ns l IH]; intros order Ho; [done|]. simpl. by apply IH, addNamespace_keeps. Qed.
Lemma addNamespace_length l ns : (length (addNamespace l ns) <= S (length l))%nat.
Proof. unfold addNamespace. repeat case_match; rewrite ?length_app; simpl; lia. Qed.
Lemma foldl_addNamespace_adds l order x : x ∈ l -> validNamespaceName x = true ->
  Z.of_nat (length order + length l) <= maxSeedNamespaces -> x ∈ foldl addNamespace order l.
Proof.
  revert order. induction l as [|ns l IH]; intros order Hx Hv Hlen; [set_solver|]. simpl in *.
  pose proof (addNamespace_length order ns). apply elem_of_cons in Hx as [->|Hx].
  - apply foldl_addNamespace_keeps. unfold addNamespace.
    rewrite (proj2 (Z.leb_gt _ _)) by lia. rewrite Hv. cbn [negb orb].
    case_bool_decide; set_solver.
  - apply IH; [done|done|]. lia.
Qed.

Section requests.
Context `{Env}.
Definition secret_namespaces (order : list string) (cfg : K8SConfig) : list string :=
  map sr_namespace (flat_map (honeytoken_request order) (accepted_names (k_Honeytokens cfg))).

Lemma seed_namespaces_ok cfg : order_ok (namespace_order cfg).
Proof. do 3 apply foldl_addNamespace_ok. split; [constructor|]. split; [done|constructor]. Qed.
Lemma seed_namespaces_facts cfg h : h ∈ accepted_names (k_Honeytokens cfg) -> validNamespaceName (honeytoken_namespace h) = true ->
  (length (accepted_names (k_Honeytokens cfg)) <= 124)%nat -> honeytoken_namespace h ∈ namespace_order cfg.
Proof.
  intros Hh Hv Hlen. apply foldl_addNamespace_keeps, foldl_addNamespace_adds; [|done|].
  - apply list_elem_of_fmap. by exists h.
  - assert (E0 : foldl addNamespace [] builtin_namespaces = builtin_namespaces) by (vm_compute; reflexivity).
    rewrite E0, length_map. unfold maxSeedNamespaces. simpl. lia.
Qed.

(** The namespaces of a fresh cluster: pairwise different, valid, at most
    128, the four built-in ones always among them; every namespace of up to 124
    accepted honeytokens is there before any configured namespace can use the
    room, and no honeytoken Secret is requested in a namespace that is not. *)
Theorem seed_namespaces : forall cfg,
  order_ok (namespace_order cfg) /\
  (forall ns, ns ∈ builtin_namespaces -> ns ∈ namespace_order cfg) /\
  (forall h, h ∈ accepted_names (k_Honeytokens cfg) -> validNamespaceName (honeytoken_namespace h) = true ->
     (length (accepted_names (k_Honeytokens cfg)) <= 124)%nat -> honeytoken_namespace h ∈ namespace_order cfg) /\
  (forall ns, ns ∈ secret_namespaces (namespace_order cfg) cfg -> ns ∈ namespace_order cfg).
Proof.
  intros cfg. unfold namespace_order. cbn zeta. set (order0 := foldl addNamespace [] builtin_namespaces).
  assert (E0 : order0 = builtin_namespaces) by (vm_compute; reflexivity).
  split; [apply seed_namespaces_ok|]. split; [|split].
  - intros ns Hns. do 2 apply foldl_addNamespace_keeps. by rewrite E0.
  - intros h Hh Hv Hlen. by apply seed_namespaces_facts.
  - intros ns. unfold secret_namespaces. intros (r & -> & Hr)%list_elem_of_fmap.
    apply list_elem_of_In, in_flat_map in Hr as (h & _ & Hr). revert Hr. unfold honeytoken_request.
    destruct (_ || _) eqn:E; [done|]. bool_to_prop.
    repeat case_match; try (by intros []); intros [<-|[]]; done.
Qed.

(** ** Running the requests *)
Lemma store_seed_spec r w : store_inv (w_store w) ->
  exists ok w', store_seed r w = (w', Some ok) /\ store_inv (w_store w') /\
    Z.of_nat (size (st_objects (w_store w'))) = Z.of_nat (size (st_objects (w_store w))) + (if ok : bool then 1 else 0) /\
    (ok = false -> w_store w' = w_store w).
Proof.
  intros Hw. unfold store_seed, Store.seed. set (key := {| key_group := _ |}). set (obj := seed_object _ _ _ _ _ _).
  pose proof (put_inv key obj "ADDED" _ Hw) as Hi.
  destruct (put key obj "ADDED" (w_store w)) as [[s o] e] eqn:Eput. cbn [fst] in Hi. do 2 eexists. split; [done|]. cbn [w_store set_store].
  split; [done|]. rewrite put_unfold in Eput by apply Hw. destruct (put_refuses _ _ _ _) eqn:Er; simplify_eq; [split; [lia|done]|].
  split; [|done]. destruct (put_store_fields (w_store w) key obj "ADDED" (si_watchers _ Hw)) as [-> _].
  rewrite map_size_insert. revert Er. unfold put_refuses. destruct (st_objects (w_store w) !! key) as [old|]; [|lia].
  rewrite (bool_decide_eq_false_2 (Some old = None)) by done. repeat case_match; done.
Qed.
Lemma run_seeds_spec l n w : store_inv (w_store w) -> 0 <= n <= maxSeedObjects ->
  exists m w', run_seeds l n w = (w', Some m) /\ store_inv (w_store w') /\ n <= m <= maxSeedObjects /\
    Z.of_nat (size (st_objects (w_store w'))) = Z.of_nat (size (st_objects (w_store w))) + (m - n).
Proof.
  revert n w. induction l as [|r l IH]; intros n w Hw Hn; cbn [run_seeds].
  { exists n, w. split; [done|]. split; [done|]. lia. }
  destruct (maxSeedObjects <=? n) eqn:E.
  - destruct (IH n w Hw Hn) as (m & w' & Hrun & Hi & Hm & Hs). exists m, w'. done.
  - bool_to_prop. destruct (store_seed_spec r w Hw) as (ok & w1 & Hrun1 & Hi1 & Hs1 & _). unfold bind. rewrite Hrun1.
    destruct (IH (if ok then n + 1 else n) w1 Hi1) as (m & w' & Hrun & Hi & Hm & Hs); [destruct ok; lia|].
    exists m, w'. split; [done|]. split; [done|]. destruct ok; lia.
Qed.

(** Seeding writes to the store and to nothing else but the clock. *)
Lemma run_seeds_frame l n w : let w' := (run_seeds l n w).1 in
  w_events w' = w_events w /\ w_requestSlots w' = w_requestSlots w /\ w_listSlots w' = w_listSlots w /\ w_watchSlots w' = w_watchSlots w.
Proof.
  revert n w. induction l as [|r l IH]; intros n w; cbn [run_seeds]; [done|]. destruct (_ <=? _); [apply IH|].
  unfold bind, store_seed. destruct (Store.seed _ _ _ _ _ _) as [s ok]. cbv zeta in *. cbn [fst] in *.
  destruct (IH (if ok then n + 1 else n) (set_store w s)) as (E1 & E2 & E3 & E4). by rewrite E1, E2, E3, E4.
Qed.
Lemma seed_runs version cfg t :
  exists n w', seed_api version cfg (fresh_world t) = (w', Some n) /\ store_inv (w_store w') /\
    0 <= n <= maxSeedObjects /\ Z.of_nat (size (st_objects (w_store w'))) = n /\
    w_events w' = [] /\ w_requestSlots w' = 0 /\ w_listSlots w' = 0 /\ w_watchSlots w' = 0.
Proof.
  unfold seed_api.
  assert (G : forall l (w : world), w_store w = newObjectStore t -> w_events w = [] -> w_requestSlots w = 0 -> w_listSlots w = 0 -> w_watchSlots w = 0 ->
    exists n w', run_seeds l 0 w = (w', Some n) /\ store_inv (w_store w') /\ 0 <= n <= maxSeedObjects /\
    Z.of_nat (size (st_objects (w_store w'))) = n /\
    w_events w' = [] /\ w_requestSlots w' = 0 /\ w_listSlots w' = 0 /\ w_watchSlots w' = 0).
  { intros l w Ew E1 E2 E3 E4. destruct (run_seeds_spec l 0 w) as (n & w' & Hrun & Hi & Hn & Hs); [rewrite Ew; apply new_store_inv|done|].
    pose proof (run_seeds_frame l 0 w) as Hf. rewrite Hrun in Hf. cbv zeta in Hf. cbn [fst] in Hf. destruct Hf as (F1 & F2 & F3 & F4).
    exists n, w'. rewrite F1, F2, F3, F4. split; [done|]. split; [done|]. split; [done|]. rewrite Ew in Hs.
    change (st_objects (newObjectStore t)) with (∅ : gmap objectKey object) in Hs. rewrite map_size_empty in Hs. split; [lia|done]. }
  unfold bind at 1, reads. destruct (k_GenerateKubeSys cfg), (k_GenerateRand cfg); by apply G.
Qed.

(** Seeding a fresh server never fails, stores at most 512 objects, and the
    count it keeps is the number of objects in the store. *)
Theorem seed_bounded : forall version cfg now,
  exists n w', seed_api version cfg (fresh_world now) = (w', Some n) /\ store_inv (w_store w') /\
    0 <= n <= maxSeedObjects /\ Z.of_nat (size (st_objects (w_store w'))) = n.
Proof. intros version cfg t. destruct (seed_runs version cfg t) as (n & w' & ? & ? & ? & ? & _). by exists n, w'. Qed.
End requests.
