(* ===== verification/Proto.v ===== *)
(** * Kubernetes protobuf bodies

    [decodeProtobufObject] of api.go and the wire scanners below it.  The
    package [protowire] is an interface: each of its functions gives the number
    of bytes consumed, between one and what there is, or an error. *)
From S2P Require Import Prelude GoStrings GoCodec Value Json.

#[local] Set Warnings "-clear-no-such-hyp,-notation-for-abbreviation".
#[local] Open Scope string_scope.
#[local] Open Scope list_scope.
#[local] Open Scope Z_scope.

(** ** [protowire] *)
Class Protowire := {
  ConsumeTag : string -> option (Z * Z * nat);
  ConsumeBytes : string -> option (string * nat);
  ConsumeVarint : string -> option (Z * nat);
  ConsumeFieldValue : Z -> Z -> string -> option nat;
  ConsumeTag_progress : forall s n t c, ConsumeTag s = Some (n, t, c) -> (0 < c)%nat;
}.
Definition VarintType : Z := 0.
Definition BytesType : Z := 2.

Notation field_map := (gmap Z (list string)).
Notation varint_map := (gmap Z Z).
Definition fields_at (m : field_map) (number : Z) : list string := default [] (m !! number).

Section proto.
Context `{Protowire}.

(** ** Scanners

    Every tag takes at least one byte, so the length of the input is enough
    fuel. *)
Fixpoint bytes_fields (fuel : nat) (data : string) (fields : field_map) : option field_map :=
  match fuel, data with
  | _, "" => Some fields
  | O, _ => None
  | S fuel, _ =>
      '(number, wireType, consumed) ← ConsumeTag data;
      let data := str_drop consumed data in
      if wireType =? BytesType then
        '(value, length) ← ConsumeBytes data;
        bytes_fields fuel (str_drop length data) (<[number := fields_at fields number ++ [value]]> fields)
      else
        value ← ConsumeFieldValue number wireType data;
        bytes_fields fuel (str_drop value data) fields
  end.
Definition protoBytesFields (data : string) : option field_map := bytes_fields (String.length data) data ∅.

Fixpoint varint_fields (fuel : nat) (data : string) (fields : varint_map) : option varint_map :=
  match fuel, data with
  | _, "" => Some fields
  | O, _ => None
  | S fuel, _ =>
      '(number, wireType, consumed) ← ConsumeTag data;
      let data := str_drop consumed data in
      if wireType =? VarintType then
        '(value, n) ← ConsumeVarint data;
        varint_fields fuel (str_drop n data) (<[number := value]> fields)
      else
        value ← ConsumeFieldValue number wireType data;
        varint_fields fuel (str_drop value data) fields
  end.
Definition protoVarintFields (data : string) : option varint_map := varint_fields (String.length data) data ∅.
(** A failed scan gives a nil map, which reads as empty. *)
Definition varints_or_empty (data : string) : varint_map := default ∅ (protoVarintFields data).
Definition varint (m : varint_map) (number : Z) : Z := default 0 (m !! number).

Definition protoNested (fields : field_map) (number : Z) : option field_map :=
  match fields_at fields number with [] => None | v :: _ => protoBytesFields v end.
Definition protoString (fields : field_map) (number : Z) : string :=
  match fields_at fields number with [] => "" | v :: _ => v end.
Definition stringMapValues (m : list (string * string)) : object := map (fun kv => (kv.1, VStr kv.2)) m.

Definition protoStringMap (fields : field_map) (number : Z) : list (string * string) :=
  foldl (fun out entry => match protoBytesFields entry with
                          | None => out
                          | Some fs => oset out (protoString fs 1) (protoString fs 2)
                          end) [] (fields_at fields number).
Definition protoBytesMap (fields : field_map) (number : Z) : list (string * string) :=
  foldl (fun out entry => match protoBytesFields entry with
                          | None => out
                          | Some fs =>
                              oset out (protoString fs 1)
                                (match fields_at fs 2 with [] => "" | v :: _ => base64_std v end)
                          end) [] (fields_at fields number).

(** ** Typed messages *)

(** [m[key] = v] when the condition holds. *)
Definition set_when (c : bool) (m : object) (key : string) (v : val) : object := if c then oset m key v else m.
Definition set_string (m : object) (key s : string) : object := set_when (negb (String.eqb s "")) m key (VStr s).
Definition set_list (m : object) (key : string) (l : list val) : object := set_when (negb (bool_decide (l = []))) m key (VList l).
Definition nonempty {A} (l : list A) : bool := match l with [] => false | _ => true end.

(** The entries that scan, decoded one by one. *)
Definition decode_each (decode : field_map -> varint_map -> object) (entries : list string) : list val :=
  flat_map (fun bytes => match protoBytesFields bytes with
                         | None => []
                         | Some entry => [VMap (decode entry (varints_or_empty bytes))]
                         end) entries.

Definition protoServicePorts : list string -> list val := decode_each (fun entry varints =>
  let port := set_string [] "name" (protoString entry 1) in
  let port := set_string port "protocol" (protoString entry 2) in
  let port := match varints !! 3 with Some number => oset port "port" (VInt number) | None => port end in
  match fields_at entry 4 with
  | [] => port
  | targetBytes :: _ =>
      match protoBytesFields targetBytes with
      | None => port
      | Some target =>
          let targetVarints := varints_or_empty targetBytes in
          if varint targetVarints 1 =? 1 then set_string port "targetPort" (protoString target 3)
          else match targetVarints !! 2 with Some number => oset port "targetPort" (VInt number) | None => port end
      end
  end).

Definition protoStringList (values : list string) : list val := map VStr values.
Definition protoContainerPorts : list string -> list val := decode_each (fun entry varints =>
  let port := [("containerPort", VInt (varint varints 3))] in
  let port := set_string port "name" (protoString entry 1) in
  let port := oset port "protocol" (VStr (if String.eqb (protoString entry 4) "" then "TCP" else protoString entry 4)) in
  let port := set_when (0 <? varint varints 2) port "hostPort" (VInt (varint varints 2)) in
  set_string port "hostIP" (protoString entry 5)).
Definition protoEnvVars : list string -> list val := decode_each (fun entry _ =>
  set_string [("name", VStr (protoString entry 1))] "value" (protoString entry 2)).
Definition protoVolumeMounts : list string -> list val := decode_each (fun entry varints =>
  let mount := of_pairs [("name", VStr (protoString entry 1)); ("mountPath", VStr (protoString entry 3))] in
  let mount := set_when (varint varints 2 =? 1) mount "readOnly" (VBool true) in
  set_string mount "subPath" (protoString entry 4)).
(** The first source that is present wins; one that does not scan leaves the
    volume without a source. *)
Definition protoVolumes : list string -> list val := decode_each (fun entry _ =>
  let volume := [("name", VStr (protoString entry 1))] in
  let source key field bytes :=
    match protoBytesFields bytes with
    | Some m => oset volume key (VMap [(field, VStr (protoString m 1))])
    | None => volume
    end in
  match fields_at entry 7, fields_at entry 20, fields_at entry 11, fields_at entry 3, fields_at entry 2, fields_at entry 27 with
  | s :: _, _, _, _, _, _ => source "secret" "secretName" s
  | [], s :: _, _, _, _, _ => source "configMap" "name" s
  | [], [], s :: _, _, _, _ => source "persistentVolumeClaim" "claimName" s
  | [], [], [], _ :: _, _, _ => oset volume "emptyDir" (VMap [])
  | [], [], [], [], s :: _, _ => source "hostPath" "path" s
  | [], [], [], [], [], _ :: _ => oset volume "projected" (VMap [("sources", VList [])])
  | [], [], [], [], [], [] => volume
  end).

Definition container_entry (container : field_map) : object :=
  let entry := of_pairs [("name", VStr (protoString container 1)); ("image", VStr (protoString container 2))] in
  let entry := set_list entry "command" (protoStringList (fields_at container 3)) in
  let entry := set_list entry "args" (protoStringList (fields_at container 4)) in
  let entry := set_list entry "ports" (protoContainerPorts (fields_at container 6)) in
  let entry := set_list entry "env" (protoEnvVars (fields_at container 7)) in
  set_list entry "volumeMounts" (protoVolumeMounts (fields_at container 9)).
(** [nil] when the message does not scan. *)
Definition protoPodSpec (podSpecBytes : string) : object :=
  match protoBytesFields podSpecBytes with
  | None => []
  | Some spec =>
      let containers := flat_map (fun bytes => match protoBytesFields bytes with
                                               | None => []
                                               | Some container => [VMap (container_entry container)]
                                               end) (fields_at spec 20 ++ fields_at spec 2) in
      let out := set_list [] "containers" containers in
      let out := set_list out "volumes" (protoVolumes (fields_at spec 1)) in
      let out := set_string out "nodeName" (protoString spec 10) in
      let out := set_string out "restartPolicy" (protoString spec 3) in
      set_string out "serviceAccountName" (protoString spec 8)
  end.

(** ** The object *)
Inductive protoError := proto_magic | proto_invalid.
Definition k8s_magic : string := "k8s" +:+ str1 (chr 0).

Definition proto_metadata (raw : field_map) : object :=
  match protoNested raw 1 with
  | None => []
  | Some meta =>
      let metadata := set_string [] "name" (protoString meta 1) in
      let metadata := set_string metadata "generateName" (protoString meta 2) in
      let metadata := set_string metadata "namespace" (protoString meta 3) in
      let labels := protoStringMap meta 11 in
      let metadata := set_when (nonempty labels) metadata "labels" (VMap (stringMapValues labels)) in
      let annotations := protoStringMap meta 12 in
      set_when (nonempty annotations) metadata "annotations" (VMap (stringMapValues annotations))
  end.
Definition service_spec (specBytes : string) : object :=
  match protoBytesFields specBytes with
  | None => []
  | Some f =>
      let spec := set_list [] "ports" (protoServicePorts (fields_at f 1)) in
      let selector := protoStringMap f 2 in
      let spec := set_when (nonempty selector) spec "selector" (VMap (stringMapValues selector)) in
      set_string spec "type" (protoString f 4)
  end.
Definition workload_spec (specBytes : string) : object :=
  let spec := match varints_or_empty specBytes !! 1 with Some replicas => [("replicas", VInt replicas)] | None => [] end in
  match protoBytesFields specBytes with
  | None => spec
  | Some f =>
      let spec := match fields_at f 2 with
        | [] => spec
        | selectorBytes :: _ =>
            match protoBytesFields selectorBytes with
            | None => spec
            | Some selector =>
                let matchLabels := protoStringMap selector 1 in
                set_when (nonempty matchLabels) spec "selector" (VMap [("matchLabels", VMap (stringMapValues matchLabels))])
            end
        end in
      match fields_at f 3 with
      | [] => spec
      | templateBytes :: _ =>
          match protoBytesFields templateBytes with
          | None => spec
          | Some template =>
              match fields_at template 2 with
              | [] => spec
              | podSpecBytes :: _ =>
                  let podSpec := protoPodSpec podSpecBytes in
                  set_when (nonempty podSpec) spec "template" (VMap [("spec", VMap podSpec)])
              end
          end
      end
  end.
(** The fields after the metadata, by kind. *)
Definition typed_fields (kind : string) (raw : field_map) (rawVarints : varint_map) (object : object) : list (string * val) :=
  let with_spec decode := match fields_at raw 2 with
                          | [] => object
                          | specBytes :: _ => let spec : list (string * val) := decode specBytes in
                                              set_when (nonempty spec) object "spec" (VMap spec)
                          end in
  if String.eqb kind "Secret" then
    let data := protoBytesMap raw 2 in
    let object := set_when (nonempty data) object "data" (VStrMap data) in
    let object := set_string object "type" (protoString raw 3) in
    let stringData := protoStringMap raw 4 in
    set_when (nonempty stringData) object "stringData" (VStrMap stringData)
  else if String.eqb kind "ConfigMap" then
    let immutable := varint rawVarints 2 in
    let object := set_when (negb (immutable =? 0)) object "immutable" (VBool (immutable =? 1)) in
    let data := protoStringMap raw 3 in
    let object := set_when (nonempty data) object "data" (VStrMap data) in
    let binaryData := protoBytesMap raw 4 in
    set_when (nonempty binaryData) object "binaryData" (VStrMap binaryData)
  else if String.eqb kind "Pod" then with_spec protoPodSpec
  else if String.eqb kind "Scale" then
    with_spec (fun specBytes => match varints_or_empty specBytes !! 1 with
                                | Some replicas => [("replicas", VInt replicas)] | None => [] end)
  else if String.eqb kind "Service" then with_spec service_spec
  else if bool_decide (kind ∈ ["Deployment"; "ReplicaSet"; "StatefulSet"; "ReplicationController"]) then with_spec workload_spec
  else object.
Definition decodeProtobufObject (data : string) : object + protoError :=
  if negb (has_prefix data k8s_magic) then inr proto_magic
  else match protoBytesFields (str_drop 4 data) with
       | None => inr proto_invalid
       | Some envelope =>
           let object := match protoNested envelope 1 with
             | Some typeMeta => of_pairs [("apiVersion", VStr (protoString typeMeta 1)); ("kind", VStr (protoString typeMeta 2))]
             | None => []
             end in
           match fields_at envelope 2 with
           | [] => inl object
           | rawBytes :: _ =>
               match protoBytesFields rawBytes with
               | None => inr proto_invalid
               | Some raw =>
                   let kind := stringField object "kind" in
                   let object := oset object "metadata" (VMap (proto_metadata raw)) in
                   inl (typed_fields kind raw (varints_or_empty rawBytes) object)
               end
           end
       end.
End proto.

(** ** Termination *)
Lemma bytes_fields_fuel `{Protowire} f1 f2 data fields :
  (String.length data <= f1)%nat -> (String.length data <= f2)%nat ->
  bytes_fields f1 data fields = bytes_fields f2 data fields.
Proof.
  revert f2 data fields. induction f1 as [|f1 IH]; intros [|f2] [|c data] fields H1 H2; try done; simpl in H1, H2; try lia.
  cbn [bytes_fields]. destruct (ConsumeTag (String c data)) as [[[n t] k]|] eqn:Et; [|done]. cbn [mbind option_bind].
  apply ConsumeTag_progress in Et.
  assert (Hl : forall m, (String.length (str_drop m (str_drop k (String c data))) <= f1)%nat /\
                         (String.length (str_drop m (str_drop k (String c data))) <= f2)%nat).
  { intros m. rewrite !str_drop_length. simpl. lia. }
  destruct (t =? BytesType).
  - destruct (ConsumeBytes _) as [[v l]|]; [|done]. cbn [mbind option_bind]. apply IH; apply Hl.
  - destruct (ConsumeFieldValue _ _ _) as [v|]; [|done]. cbn [mbind option_bind]. apply IH; apply Hl.
Qed.
Lemma varint_fields_fuel `{Protowire} f1 f2 data fields :
  (String.length data <= f1)%nat -> (String.length data <= f2)%nat ->
  varint_fields f1 data fields = varint_fields f2 data fields.
Proof.
  revert f2 data fields. induction f1 as [|f1 IH]; intros [|f2] [|c data] fields H1 H2; try done; simpl in H1, H2; try lia.
  cbn [varint_fields]. destruct (ConsumeTag (String c data)) as [[[n t] k]|] eqn:Et; [|done]. cbn [mbind option_bind].
  apply ConsumeTag_progress in Et.
  assert (Hl : forall m, (String.length (str_drop m (str_drop k (String c data))) <= f1)%nat /\
                         (String.length (str_drop m (str_drop k (String c data))) <= f2)%nat).
  { intros m. rewrite !str_drop_length. simpl. lia. }
  destruct (t =? VarintType).
  - destruct (ConsumeVarint _) as [[v l]|]; [|done]. cbn [mbind option_bind]. apply IH; apply Hl.
  - destruct (ConsumeFieldValue _ _ _) as [v|]; [|done]. cbn [mbind option_bind]. apply IH; apply Hl.
Qed.

(** The scanners terminate: the length of the message is enough fuel, so a
    message that is refused is refused for its encoding, never for running out,
    and more fuel changes no answer. *)
Theorem scanners_terminate : forall `{Protowire} data extra,
  bytes_fields (String.length data + extra) data ∅ = protoBytesFields data /\
  varint_fields (String.length data + extra) data ∅ = protoVarintFields data.
Proof. intros. split; [apply bytes_fields_fuel|apply varint_fields_fuel]; lia. Qed.

(** ** A wire format to evaluate examples with

    Base-128 varints, 32- and 64-bit fields and length-delimited ones; groups
    are refused. *)
Fixpoint read_varint (fuel : nat) (shift : Z) (s : string) : option (Z * nat) :=
  match fuel, s with
  | S fuel, String c s =>
      let low := Z.shiftl (Z.land (code c) 127) shift in
      if code c <? 128 then if low <? 2 ^ 64 then Some (low, 1%nat) else None
      else '(v, n) ← read_varint fuel (shift + 7) s; Some (Z.lor low v, S n)
  | _, _ => None
  end.
Definition read_bytes (s : string) : option (string * nat) :=
  '(len, n) ← read_varint 10 0 s;
  if slen (str_drop n s) <? len then None else Some (str_take (Z.to_nat len) (str_drop n s), (n + Z.to_nat len)%nat).
Lemma read_varint_pos fuel shift s v n : read_varint fuel shift s = Some (v, n) -> (0 < n)%nat.
Proof.
  revert shift s v n. induction fuel as [|fuel IH]; intros shift [|c s] v n; try done. cbn [read_varint].
  destruct (code c <? 128).
  - case_match; [|done]. intros [= _ <-]. lia.
  - destruct (read_varint fuel (shift + 7) s) as [[v' n']|]; [|done]. intros [= _ <-]. lia.
Qed.
Definition wire : Protowire.
Proof.
  refine {|
    ConsumeTag s := '(v, n) ← read_varint 10 0 s;
                    if (v / 8 <? 1) || (2 ^ 31 <=? v / 8) then None else Some (v / 8, v mod 8, n);
    ConsumeBytes := read_bytes;
    ConsumeVarint := read_varint 10 0;
    ConsumeFieldValue number wireType s :=
      if wireType =? VarintType then snd <$> read_varint 10 0 s
      else if wireType =? 5 then if slen s <? 4 then None else Some 4%nat
      else if wireType =? 1 then if slen s <? 8 then None else Some 8%nat
      else if wireType =? BytesType then snd <$> read_bytes s else None |}.
  cbv beta. intros s n t c. destruct (read_varint 10 0 s) as [[v k]|] eqn:E; cbn [mbind option_bind]; [|done].
  destruct (_ || _); [done|]. intros [= _ _ <-]. by eapply read_varint_pos.
Defined.

(** A Deployment as client-go sends it. *)
Definition field (number : Z) (payload : string) : string :=
  str1 (chr (number * 8 + 2)) +:+ str1 (chr (slen payload)) +:+ payload.
Definition deployment_body : string :=
  let podspec := field 2 (field 1 "main" +:+ field 2 "nginx") in
  let spec := str1 (chr 8) +:+ str1 (chr 3) +:+ field 3 (field 2 podspec) in
  let raw := field 1 (field 1 "web" +:+ field 3 "default") +:+ field 2 spec in
  k8s_magic +:+ field 1 (field 1 "apps/v1" +:+ field 2 "Deployment") +:+ field 2 raw.
Example decode_deployment :
  @decodeProtobufObject wire deployment_body = inl
    [("apiVersion", VStr "apps/v1"); ("kind", VStr "Deployment");
     ("metadata", VMap [("name", VStr "web"); ("namespace", VStr "default")]);
     ("spec", VMap [("replicas", VInt 3);
                    ("template", VMap [("spec", VMap [("containers", VList [VMap [("image", VStr "nginx"); ("name", VStr "main")]])])])])].
Proof. vm_compute. reflexivity. Qed.
