(* ===== verification/Request.v ===== *)
(** * Requests and replies

    What the handlers of api.go read from a request and write to the response,
    the decoding of bodies by media type, and the shape check every written
    object passes.  The YAML decoder is an interface; a reply that is rendered
    as a table keeps its objects, [Table] renders them. *)
From S2P Require Import Prelude GoStrings GoCodec Value Json Names Selector Catalog Store Listing World Controllers Patch Proto.

#[local] Set Warnings "-clear-no-such-hyp,-notation-for-abbreviation".
#[local] Open Scope string_scope.
#[local] Open Scope list_scope.
#[local] Open Scope Z_scope.

(** ** Requests *)
Inductive body_in :=
  | body_nil                       (** no body *)
  | body_data (s : string)         (** what a complete read returns *)
  | body_over_limit                (** the server's own [MaxBytesReader] stopped it *)
  | body_unreadable.               (** any other read error *)
Record Request := {
  rq_method : string; rq_path : string; rq_remoteAddr : string; rq_contentType : string; rq_accept : string;
  rq_query : string -> string; rq_body : body_in;
}.

(** ** Replies *)
Inductive body_out :=
  | BJson (v : val)
  | BText (contentType text : string)
  | BTable (gv : groupVersion) (description : apiResource) (items : list object).
Record reply := { rp_code : Z; rp_headers : list (string * string); rp_body : body_out }.

Definition of_response (r : response) : reply := {| rp_code := resp_code r; rp_headers := []; rp_body := BJson (resp_body r) |}.
Definition failure (code : Z) (reason message name : string) : reply := of_response (status code reason message name).
Definition json (code : Z) (v : val) : reply := {| rp_code := code; rp_headers := []; rp_body := BJson v |}.
Definition with_header (name value : string) (r : reply) : reply :=
  {| rp_code := rp_code r; rp_headers := (name, value) :: rp_headers r; rp_body := rp_body r |}.
Definition capacityError : reply := failure 429 "TooManyRequests" "etcdserver: too many requests" "".

(** The YAML decoder, into a [map[string]any]: an error, a nil map or an object. *)
Class Yaml := { yaml_unmarshal : string -> option (option object) }.
(** A decoder that knows only the empty document, to evaluate examples with. *)
Definition no_yaml : Yaml := {| yaml_unmarshal s := if String.eqb s "" then Some None else None |}.

Section request.
Context `{Env} `{Protowire} `{Yaml}.

Definition notFound (rq : Request) : reply :=
  failure 404 "NotFound" ("the requested API path " +:+ go_quote (rq_path rq) +:+ " was not found") "".
Definition not_found_object (what name : string) : reply :=
  failure 404 "NotFound" (what +:+ " " +:+ go_quote name +:+ " not found") name.
Definition kind_not_found (description : apiResource) (name : string) : reply :=
  not_found_object (to_lower (r_kind description)) name.

(** ** Bodies *)
Definition maxRequestBody : Z := 64 * 2 ^ 10.
Inductive bodyErr := errRequestTooLarge | body_message (m : string).
Definition decodeBody (rq : Request) : string + bodyErr :=
  match rq_body rq with
  | body_nil => inr (body_message "request body is required")
  | body_over_limit => inr errRequestTooLarge
  | body_unreadable => inr (body_message "unable to read request body")
  | body_data body =>
      let data := str_take (Z.to_nat (maxRequestBody + 1)) body in
      if slen data =? 0 then inr (body_message "request body is required")
      else if maxRequestBody <? slen data then inr errRequestTooLarge
      else inl data
  end.
Definition requestMediaType (rq : Request) : string :=
  let contentType := rq_contentType rq in
  let contentType := match cut contentType ";" with Some (before, _) => before | None => contentType end in
  to_lower (trim_space contentType).
Definition yaml_types : list string :=
  ["application/yaml"; "application/x-yaml"; "application/apply-patch+yaml"; "text/yaml"].
Definition proto_message (e : protoError) : string :=
  match e with
  | proto_magic => "request body is not a supported Kubernetes object encoding"
  | proto_invalid => "request body is not a valid protobuf object"
  end.
Definition decodeObject (rq : Request) : object + bodyErr :=
  match decodeBody rq with
  | inr e => inr e
  | inl data =>
      let mediaType := requestMediaType rq in
      if String.eqb mediaType "application/vnd.kubernetes.protobuf" then
        match decodeProtobufObject data with inl o => inl o | inr e => inr (body_message (proto_message e)) end
      else if bool_decide (mediaType ∈ yaml_types) then
        match yaml_unmarshal data with
        | None => inr (body_message "request body must be a YAML object")
        | Some None => inr (body_message "request body must be a JSON object")
        | Some (Some o) => inl o
        end
      else match json_parse data with
           | Some (VMap o) => inl o
           | _ => inr (body_message "request body must be a JSON object")
           end
  end.

Definition validPatchOperation (op : string) : bool :=
  bool_decide (op ∈ ["add"; "remove"; "replace"; "move"; "copy"; "test"]).
Definition patch_operation (v : val) : option object :=
  match v with VMap o => Some o | VNil => Some [] | _ => None end.
Definition decodeJSONPatch (rq : Request) : list object + bodyErr :=
  match decodeBody rq with
  | inr e => inr e
  | inl data =>
      match json_parse data with
      | Some (VList l) =>
          match all_some (map patch_operation l) with
          | None | Some [] => inr (body_message "request body must be a JSON patch array")
          | Some operations =>
              if forallb (fun o => validPatchOperation (stringField o "op") && has_prefix (stringField o "path") "/") operations
              then inl operations else inr (body_message "invalid JSON patch operation")
          end
      | _ => inr (body_message "request body must be a JSON patch array")
      end
  end.

Definition bodyError (e : bodyErr) (name : string) : reply :=
  match e with
  | errRequestTooLarge => failure 413 "RequestEntityTooLarge" "request body exceeds the 64 KiB limit" name
  | body_message m => failure 400 "BadRequest" m name
  end.

(** ** [validateObjectShape]: [None] when the object passes *)
Definition allowed_fields (kind : string) : list string :=
  ["apiVersion"; "kind"; "metadata"; "spec"; "status"] ++
  (if String.eqb kind "Secret" then ["data"; "stringData"; "type"; "immutable"]
   else if String.eqb kind "ConfigMap" then ["data"; "binaryData"; "immutable"]
   else if String.eqb kind "Role" || String.eqb kind "ClusterRole" then ["rules"]
   else if String.eqb kind "RoleBinding" || String.eqb kind "ClusterRoleBinding" then ["subjects"; "roleRef"]
   else if String.eqb kind "StorageClass" then
     ["provisioner"; "parameters"; "reclaimPolicy"; "allowVolumeExpansion"; "mountOptions"; "volumeBindingMode"; "allowedTopologies"]
   else if String.eqb kind "Event" then
     ["type"; "reason"; "message"; "source"; "involvedObject"; "action"; "reportingComponent"; "reportingInstance"; "series";
      "regarding"; "related"; "deprecatedSource"; "deprecatedFirstTimestamp"; "deprecatedLastTimestamp"; "deprecatedCount";
      "firstTimestamp"; "lastTimestamp"; "count"]
   else if String.eqb kind "Endpoints" then ["subsets"]
   else if String.eqb kind "ServiceAccount" then ["secrets"; "imagePullSecrets"; "automountServiceAccountToken"]
   else if String.eqb kind "EndpointSlice" then ["addressType"; "endpoints"; "ports"]
   else []).
Definition allowed_metadata : list string :=
  ["name"; "generateName"; "namespace"; "labels"; "annotations"; "uid"; "resourceVersion"; "creationTimestamp";
   "deletionTimestamp"; "deletionGracePeriodSeconds"; "ownerReferences"; "finalizers"; "managedFields"].

(** The first failed check of a sequence. *)
Fixpoint first_error (l : list (option string)) : option string :=
  match l with [] => None | Some e :: _ => Some e | None :: l => first_error l end.
(** A key outside the list, the first in the order of iteration. *)
Definition unknown_key (site : nat) (allowed : list string) (o : object) (message : string -> string) : option string :=
  (fun kv => message kv.1) <$> List.find (fun kv => negb (bool_decide (kv.1 ∈ allowed))) (range_entries site o).
Definition is_string (v : val) : bool := match v with VStr _ => true | _ => false end.
Definition is_map (v : val) : bool := match v with VMap _ => true | _ => false end.

Definition check_name_field (metadata : object) (key : string) : option string :=
  match oget metadata key with
  | None => None
  | Some (VStr text) =>
      if String.eqb text "" then None
      else if String.eqb key "name" && negb (validObjectName text)
      then Some ("metadata." +:+ key +:+ " must be a valid DNS subdomain")
      else if String.eqb key "generateName" && negb (validObjectName (trim_suffix text "-"))
      then Some ("metadata." +:+ key +:+ " must be a valid DNS subdomain prefix")
      else if String.eqb key "namespace" && negb (validNamespaceName text)
      then Some "metadata.namespace must be a valid DNS label" else None
  | Some _ => Some ("metadata." +:+ key +:+ " must be a string")
  end.
Definition check_string_map (metadata : object) (key : string) : option string :=
  match oget metadata key with
  | None => None
  | Some (VMap values) =>
      if forallb (fun kv => is_string kv.2) values then None else Some ("metadata." +:+ key +:+ " values must be strings")
  | Some _ => Some ("metadata." +:+ key +:+ " must be an object of string values")
  end.
Definition check_metadata (o : object) : option string :=
  match oget o "metadata" with
  | None => None
  | Some (VMap metadata) =>
      first_error [unknown_key 31 allowed_metadata metadata
                     (fun key => "metadata field " +:+ go_quote key +:+ " is not supported");
                   check_name_field metadata "name"; check_name_field metadata "generateName"; check_name_field metadata "namespace";
                   check_string_map metadata "labels"; check_string_map metadata "annotations"]
  | Some _ => Some "metadata must be an object"
  end.
Definition check_exact (o : object) (key expected : string) : option string :=
  match oget o key with
  | None => None
  | Some (VStr actual) => if String.eqb actual expected then None else Some (key +:+ " must be " +:+ go_quote expected)
  | Some _ => Some (key +:+ " must be " +:+ go_quote expected)
  end.
Definition check_object_field (o : object) (key : string) : option string :=
  match oget o key with
  | Some v => if is_map v then None else Some (key +:+ " must be an object")
  | None => None
  end.
Definition validateObjectShape (o : object) (gv : groupVersion) (description : apiResource) (partial : bool) : option string :=
  first_error
    [check_exact o "kind" (r_kind description); check_exact o "apiVersion" (apiVersionFor gv);
     unknown_key 30 (allowed_fields (r_kind description)) o
       (fun key => "field " +:+ go_quote key +:+ " is not supported for " +:+ r_kind description);
     check_object_field o "spec"; check_object_field o "status"; check_metadata o;
     if partial || has_key o "metadata" then None else Some "metadata is required"].
End request.
