(* ===== verification/OpenApi.v ===== *)
(** * The OpenAPI documents

    The handlers of api.go under [/openapi] and the loading of the schema in
    schema.go: negotiation by media type and encoding, entity tags, the v3
    documents with their cache, and where the schema comes from.  Compression is
    an interface with its round trip; the OpenAPI parser and the protobuf
    encoder are libraries outside the repository, and parameters. *)
From S2P Require Import Prelude GoStrings GoCodec Value Json GoFloat Http JsonStruct Names Selector Catalog Store World Controllers Patch Proto Request.

#[local] Set Warnings "-clear-no-such-hyp,-notation-for-abbreviation".
#[local] Open Scope string_scope.
#[local] Open Scope list_scope.
#[local] Open Scope Z_scope.

(** [compress/gzip]: writing a text and closing the writer; opening a reader
    and reading all of it. *)
Class Gzip := {
  gzip : string -> option string;
  gunzip : string -> option string;
  gunzip_gzip : forall d z, gzip d = Some z -> gunzip z = Some d;
}.
Definition maxOpenAPIDocumentBytes : Z := 8 * 2 ^ 20.

(** ** Entity tags *)
Definition upper_digit (d : Z) : ascii := chr (if d <? 10 then 48 + d else 55 + d).
Definition upper_hex_byte (z : Z) : string := String (upper_digit (z / 16)) (str1 (upper_digit (z mod 16))).
Definition etag (data : string) : string := quote +:+ str_concat (map upper_hex_byte (sha256 data)) +:+ quote.
Definition matchesETag (header expected : string) : bool :=
  existsb (fun candidate => String.eqb (trim_space candidate) "*" || String.eqb (trim_space candidate) expected) (split (chr 44) header).

(** ** Negotiation *)
Section negotiation.
Context `{UnicodeTables}.

Definition one : spec_float := float_of_int 1.
Definition zero : spec_float := S754_zero false.
(** The quality a parameter sets: the last [q] wins; a wrong one is 0. *)
Fixpoint quality_of (quality : spec_float) (parameters : list string) : spec_float :=
  match parameters with
  | [] => quality
  | parameter :: parameters =>
      let parameter := trim_space parameter in
      quality_of (if has_prefix parameter "q=" then
                    match ParseFloat (trim_prefix parameter "q=") with
                    | Some parsed => if SFltb parsed zero || SFltb one parsed then zero else parsed
                    | None => zero
                    end
                  else quality) parameters
  end.
(** An item of a header: its name in lower case and its quality. *)
Definition weighted (item : string) : string * spec_float :=
  match split (chr 59) (trim_space item) with
  | name :: parameters => (to_lower (trim_space name), quality_of one parameters)
  | [] => ("", one)
  end.
Fixpoint gzip_quality (wildcard : spec_float) (items : list string) : bool :=
  match items with
  | [] => SFltb zero wildcard
  | item :: items =>
      let '(name, quality) := weighted item in
      if String.eqb name "*" then gzip_quality quality items
      else if String.eqb name "gzip" then SFltb zero quality else gzip_quality wildcard items
  end.
Definition acceptsGzip (header : string) : bool := gzip_quality zero (split (chr 44) header).
Definition media_matches (mediaType wanted : string) : bool :=
  String.eqb mediaType wanted || String.eqb mediaType "*/*" || (String.eqb mediaType "application/*" && has_prefix wanted "application/").
Definition best_quality (wanted : string) (quality : spec_float) (item : string) : spec_float :=
  let '(mediaType, itemQuality) := weighted item in
  if media_matches mediaType wanted && SFltb quality itemQuality then itemQuality else quality.
Definition mediaTypeQuality (header wanted : string) : spec_float :=
  if String.eqb (trim_space header) "" then zero else foldl (best_quality wanted) zero (split (chr 44) header).
End negotiation.

(** ** The documents [NewAPIContext] prepares *)
Record documents := {
  do_version : string; do_resources : resources;
  do_json : string; do_jsonGzip : string; do_protoGzip : string; do_tags : list (string * string);
  do_schemas : string; do_known : list string;
}.
(** [openAPIV3Schemas]: the definitions with their references moved, and their
    names; empty where there are none. *)
Definition openAPIV3Schemas (swaggerJSON : string) : string * list string :=
  match json_parse swaggerJSON with
  | Some (VMap document) =>
      match idx document "definitions" with
      | VMap (d :: definitions) =>
          match json_marshal (VMap (d :: definitions)) with
          | Some marshaled => (replace_all marshaled "#/definitions/" "#/components/schemas/", okeys (d :: definitions))
          | None => ("", [])
          end
      | _ => ("", [])
      end
  | _ => ("", [])
  end.

Definition strs (l : list (string * string)) : val := VStrMap (of_pairs l).
(** The state the handlers share: the one slot, and the cache. *)
Record openapi_state := { os_slots : Z; os_cache : gmap string string }.
Definition openapi_start : openapi_state := {| os_slots := 0; os_cache := ∅ |}.
Record oa_response := { oa_code : Z; oa_headers : list (string * string); oa_payload : string }.
Inductive oa_answer := oa_reply (r : reply) | oa_served (r : oa_response).
Record oa_headers_in := { oh_accept : string; oh_acceptEncoding : string; oh_ifNoneMatch : string }.

Section openapi.
Context `{Env} `{Gzip}.

Definition build_documents (version : string) (m : resources) (fixture binaryDoc : string) : option documents :=
  json_gzip ← gzip fixture;
  proto_gzip ← gzip binaryDoc;
  let '(schemas, known) := openAPIV3Schemas fixture in
  Some {| do_version := version; do_resources := m; do_json := fixture; do_jsonGzip := json_gzip; do_protoGzip := proto_gzip;
          do_tags := [("json", etag fixture); ("json-gzip", etag json_gzip); ("protobuf", etag binaryDoc); ("protobuf-gzip", etag proto_gzip)];
          do_schemas := schemas; do_known := known |}.

Definition no_document : oa_answer := oa_reply (failure 404 "NotFound" "the server could not find the requested resource" "").
Definition unavailable_document : oa_answer := oa_reply (failure 500 "InternalError" "the OpenAPI document is temporarily unavailable" "").
Definition protobufMediaType : string := "application/com.github.proto-openapi.spec.v2.v1.0+protobuf".
(** Holding the slot while a document is prepared. *)
Definition with_openapi_slot (s : openapi_state) (f : openapi_state -> openapi_state * oa_answer) : openapi_state * oa_answer :=
  if os_slots s <? 1 then
    let '(s', a) := f {| os_slots := os_slots s + 1; os_cache := os_cache s |} in ({| os_slots := os_slots s' - 1; os_cache := os_cache s' |}, a)
  else (s, oa_reply capacityError).

(** The representation of the v2 document a client gets: protobuf or JSON, or
    none that it accepts. *)
Definition v2_media (accept : string) : option bool :=
  let accept := trim_space accept in
  let protobufQuality := mediaTypeQuality accept protobufMediaType in
  let deprecated := mediaTypeQuality accept "application/com.github.proto-openapi.spec.v2@v1.0+protobuf" in
  let protobufQuality := if SFltb protobufQuality deprecated then deprecated else protobufQuality in
  let jsonQuality := if String.eqb accept "" then one else mediaTypeQuality accept "application/json" in
  if SFeqb protobufQuality zero && SFeqb jsonQuality zero then None else Some (SFltb jsonQuality protobufQuality).
Definition v2_payload (d : documents) (protobuf encodingGzip : bool) : option string :=
  if protobuf then
    if encodingGzip then Some (do_protoGzip d)
    else payload ← gunzip (do_protoGzip d); if maxOpenAPIDocumentBytes <? slen payload then None else Some payload
  else Some (if encodingGzip then do_jsonGzip d else do_json d).
Definition v2_name (protobuf encodingGzip : bool) : string := (if protobuf then "protobuf" else "json") +:+ (if encodingGzip then "-gzip" else "").
Definition serveOpenAPIV2 (d : documents) (h : oa_headers_in) (s : openapi_state) : openapi_state * oa_answer :=
  if String.eqb (do_json d) "" then (s, no_document)
  else with_openapi_slot s (fun s => (s,
    match v2_media (oh_accept h) with
    | None => oa_reply (failure 406 "NotAcceptable" "OpenAPI v2 supports application/json and protobuf responses" "")
    | Some protobuf =>
        let encodingGzip := acceptsGzip (oh_acceptEncoding h) in
        let contentType := if protobuf then protobufMediaType else "application/json" in
        match v2_payload d protobuf encodingGzip with
        | None => unavailable_document
        | Some payload =>
            let tag := default "" (oget (do_tags d) (v2_name protobuf encodingGzip)) in
            if matchesETag (oh_ifNoneMatch h) tag then oa_served {| oa_code := 304; oa_headers := [("ETag", tag)]; oa_payload := "" |}
            else oa_served {| oa_code := 200; oa_payload := payload;
                   oa_headers := [("ETag", tag); ("Vary", "Accept, Accept-Encoding"); ("Cache-Control", "public, max-age=0, must-revalidate"); ("Content-Type", contentType)]
                                 ++ (if encodingGzip then [("Content-Encoding", "gzip")] else []) |}
        end
    end)).

(** *** Version 3 *)
Definition v3_key (gv : groupVersion) : string :=
  if String.eqb (gv_group gv) "" then "api/" +:+ gv_version gv else "apis/" +:+ gv_group gv +:+ "/" +:+ gv_version gv.
Definition serveOpenAPIV3Index (d : documents) (s : openapi_state) : openapi_state * oa_answer :=
  if String.eqb (do_schemas d) "" then (s, no_document)
  else with_openapi_slot s (fun s => (s, oa_reply (json 200 (lit [("paths",
    VMap (foldl (fun m gv => oset m (v3_key gv) (strs [("serverRelativeURL", "/openapi/v3/" +:+ v3_key gv)])) []
           (range_entries 70 (map fst (map_to_list (do_resources d))))))])))).
Definition openAPIV3SchemaName (gv : groupVersion) (kind : string) : string :=
  let name package := package +:+ gv_version gv +:+ "." +:+ kind in
  if String.eqb (gv_group gv) "" then name "io.k8s.api.core."
  else if String.eqb (gv_group gv) "metrics.k8s.io" then name "io.k8s.metrics.pkg.apis.metrics."
  else if String.eqb (gv_group gv) "apiregistration.k8s.io" then name "io.k8s.kube-aggregator.pkg.apis.apiregistration."
  else if String.eqb (gv_group gv) "apiextensions.k8s.io" then name "io.k8s.apiextensions-apiserver.pkg.apis.apiextensions."
  else name ("io.k8s.api." +:+ gv_group gv +:+ ".").
Definition operation (gv : groupVersion) (action kind ref : string) : val :=
  lit [("x-kubernetes-action", VStr action);
       ("x-kubernetes-group-version-kind", strs [("group", gv_group gv); ("version", gv_version gv); ("kind", kind)]);
       ("responses", lit [("200", lit [("description", VStr "OK");
          ("content", lit [("application/json", lit [("schema", strs [("$ref", "#/components/schemas/" +:+ ref)])])])])])].
Definition resource_paths (gv : groupVersion) (known : list string) (paths : object) (description : apiResource) : object :=
  let kind := r_kind description in
  let schema := openAPIV3SchemaName gv kind in
  if negb (bool_decide (schema ∈ known)) then paths
  else
    let base := if String.eqb (gv_group gv) "" then "/api/v1" else "/apis/" +:+ gv_group gv +:+ "/" +:+ gv_version gv in
    let collection := if r_namespaced description then base +:+ "/namespaces/{namespace}/" +:+ r_name description else base +:+ "/" +:+ r_name description in
    oset (oset paths collection (lit [("get", operation gv "list" (kind +:+ "List") (schema +:+ "List")); ("post", operation gv "post" kind schema)]))
      (collection +:+ "/{name}")
      (lit [("get", operation gv "get" kind schema); ("put", operation gv "put" kind schema); ("patch", operation gv "patch" kind schema);
            ("delete", operation gv "delete" kind "io.k8s.apimachinery.pkg.apis.meta.v1.Status")]).
Definition openAPIV3Paths (d : documents) (gv : groupVersion) : val :=
  VMap (foldl (resource_paths gv (do_known d)) [] (map snd (range_entries 71 (map_to_list (items_of_gv (do_resources d) gv))))).
(** The document of a group and version. *)
Definition v3_document (d : documents) (gv : groupVersion) : option string :=
  (fun paths => q "{'openapi':'3.0.0','info':{'title':'Kubernetes','version':'" +:+ do_version d +:+ q ".0'},'paths':" +:+ paths
                +:+ q ",'components':{'schemas':" +:+ do_schemas d +:+ "}}") <$> json_marshal (openAPIV3Paths d gv).
Definition v3_target (segments : list string) : option groupVersion :=
  match segments with
  | ["api"; version] => Some (GV "" version)
  | ["apis"; group; version] => Some (GV group version)
  | _ => None
  end.
Definition cached_document (d : documents) (gv : groupVersion) (s : openapi_state) : openapi_state * option string :=
  let key := apiVersionFor gv in
  match os_cache s !! key with
  | Some cached => (s, Some cached)
  | None =>
      match doc ← v3_document d gv; gzip doc with
      | None => (s, None)
      | Some compressed =>
          ({| os_slots := os_slots s;
              os_cache := if Z.of_nat (size (os_cache s)) <? 8 then <[key := compressed]> (os_cache s) else os_cache s |}, Some compressed)
      end
  end.
Definition serveOpenAPIV3Doc (d : documents) (notFound : reply) (h : oa_headers_in) (segments : list string) (s : openapi_state) : openapi_state * oa_answer :=
  if String.eqb (do_schemas d) "" then (s, no_document)
  else match v3_target segments with
  | None => (s, oa_reply notFound)
  | Some gv =>
      match do_resources d !! gv with
      | None => (s, oa_reply notFound)
      | Some _ => with_openapi_slot s (fun s =>
          let '(s, cached) := cached_document d gv s in
          (s, match cached with
              | None => unavailable_document
              | Some cached =>
                  if acceptsGzip (oh_acceptEncoding h)
                  then oa_served {| oa_code := 200; oa_headers := [("Content-Type", "application/json"); ("Content-Encoding", "gzip")]; oa_payload := cached |}
                  else match gunzip cached with
                       | None => unavailable_document
                       | Some doc => oa_served {| oa_code := 200; oa_headers := [("Content-Type", "application/json")]; oa_payload := doc |}
                       end
              end))
      end
  end.
End openapi.

(** ** Where the schema comes from (schema.go)

    [SC_document] is the parsed form of the OpenAPI library, which is not part
    of the repository; neither is its parser. *)
Record schema_response := { sr_status : Z; sr_contentLength : Z; sr_body : body }.
Record schema_header := { hd_swagger : string; hd_paths : list (string * unit); hd_definitions : list (string * unit) }.
Definition decode_raw_map (old : list (string * unit)) (v : val) : option (list (string * unit)) :=
  match v with VNil => Some [] | VMap l => Some (foldl (fun m kv => oset m kv.1 tt) old l) | _ => None end.
Definition decode_header_member (h : schema_header) (kv : string * val) : option schema_header :=
  if same_name kv.1 "swagger" then
    s ← decode_string (hd_swagger h) kv.2; Some {| hd_swagger := s; hd_paths := hd_paths h; hd_definitions := hd_definitions h |}
  else if same_name kv.1 "paths" then
    m ← decode_raw_map (hd_paths h) kv.2; Some {| hd_swagger := hd_swagger h; hd_paths := m; hd_definitions := hd_definitions h |}
  else if same_name kv.1 "definitions" then
    m ← decode_raw_map (hd_definitions h) kv.2; Some {| hd_swagger := hd_swagger h; hd_paths := hd_paths h; hd_definitions := m |}
  else Some h.
Definition schema_shape (data : string) : bool :=
  match v ← json_raw data; decode_struct decode_header_member {| hd_swagger := ""; hd_paths := []; hd_definitions := [] |} v with
  | Some h => String.eqb (hd_swagger h) "2.0" && negb (bool_decide (hd_paths h = [])) && negb (bool_decide (hd_definitions h = []))
  | None => false
  end.
Definition readSchema (b : body) : string + string :=
  let data := match b with body_all s | body_error s => s end in
  if maxOpenAPIDocumentBytes <? slen data
  then inr ("OpenAPI schema exceeds the " +:+ itoa maxOpenAPIDocumentBytes +:+ "-byte limit")
  else match b with body_all s => inl s | body_error _ => inr "read error" end.

Section schema.
Context {document : Type} (parse_document : string -> option document).

Definition validateSchema (data : string) : document + string :=
  if schema_shape data then match parse_document data with Some doc => inl doc | None => inr "invalid OpenAPI v2 document" end
  else inr "expected an OpenAPI v2 document with paths and definitions".
(** The client: an answer, or an error of the transport. *)
Definition downloadSchema (client : string -> schema_response + string) (profile : SchemaProfile) : string + string :=
  match client (sp_SchemaURL profile) with
  | inr e => inr e
  | inl response =>
      if negb (sr_status response =? 200) then inr ("schema endpoint returned HTTP " +:+ itoa (sr_status response))
      else if maxOpenAPIDocumentBytes <? sr_contentLength response
      then inr ("OpenAPI schema exceeds the " +:+ itoa maxOpenAPIDocumentBytes +:+ "-byte limit")
      else readSchema (sr_body response)
  end.
(** The embedded files, and what reading one that is compressed gives: an
    opening error, or a stream. *)
Definition bundledSchema (embedded : string -> option string) (inflate : string -> option body) (offline : bool) (downloadErr : string) (profile : SchemaProfile)
    : (string * document) + string :=
  match embedded (sp_EmbeddedPath profile) with
  | None =>
      inr (if offline then "no bundled OpenAPI schema for " +:+ sp_Version profile +:+ "; disable schema_offline to download " +:+ sp_Release profile
           else "download OpenAPI schema for " +:+ sp_Release profile +:+ ": " +:+ downloadErr +:+ "; no matching bundled schema is available")
  | Some compressed =>
      match inflate compressed with
      | None => inr ("open bundled OpenAPI schema for " +:+ sp_Version profile)
      | Some stream =>
          match readSchema stream with
          | inr e => inr ("read bundled OpenAPI schema for " +:+ sp_Version profile +:+ ": " +:+ e)
          | inl data =>
              match validateSchema data with
              | inr e => inr ("validate bundled OpenAPI schema for " +:+ sp_Version profile +:+ ": " +:+ e)
              | inl doc => inl (data, doc)
              end
          end
      end
  end.
Definition loadOpenAPISchema (ctx_err ctx_err_after : option string) (client : string -> schema_response + string)
    (embedded : string -> option string) (inflate : string -> option body) (profile : SchemaProfile) (offline : bool) : (string * document) + string :=
  match ctx_err with
  | Some e => inr e
  | None =>
      if offline then bundledSchema embedded inflate offline "" profile
      else
        let downloaded := match downloadSchema client profile with
                          | inl data => match validateSchema data with inl doc => inl (data, doc) | inr e => inr e end
                          | inr e => inr e
                          end in
        match downloaded with
        | inl loaded => inl loaded
        | inr downloadErr =>
            match ctx_err_after with
            | Some e => inr e
            | None => bundledSchema embedded inflate offline downloadErr profile
            end
        end
  end.
End schema.
