(* ===== verification/OpenApiProps.v ===== *)
(** * The OpenAPI documents: properties

    What is served is the document that was loaded, in the representation the
    tag names; the cache of v3 documents cannot be observed; a schema is only
    ever taken from where its version says. *)
From S2P Require Import Prelude GoStrings GoCodec Value Json GoFloat Http JsonStruct Names Selector Catalog Store World Controllers Patch Proto Request OpenApi.

#[local] Set Warnings "-clear-no-such-hyp,-notation-for-abbreviation".
#[local] Open Scope string_scope.
#[local] Open Scope list_scope.
#[local] Open Scope Z_scope.

Section openapi.
Context `{Env} `{Gzip}.

(** ** Version 2 *)
Lemma slot_answer s f s' r : with_openapi_slot s f = (s', oa_served r) -> exists t, f {| os_slots := os_slots s + 1; os_cache := os_cache s |} = (t, oa_served r).
Proof. unfold with_openapi_slot. destruct (os_slots s <? 1); [|done]. destruct (f _) as [t a]. intros [= _ ->]. by exists t. Qed.
Lemma v2_tag version m fixture binaryDoc d protobuf encodingGzip payload : build_documents version m fixture binaryDoc = Some d ->
  v2_payload d protobuf encodingGzip = Some payload ->
  let doc := if protobuf then binaryDoc else fixture in
  default "" (oget (do_tags d) (v2_name protobuf encodingGzip)) = etag payload /\
  (if encodingGzip then gunzip payload = Some doc else payload = doc).
Proof.
  unfold build_documents. destruct (gzip fixture) as [zj|] eqn:Ej; [|done]. destruct (gzip binaryDoc) as [zp|] eqn:Ep; [|done]. cbn [mbind option_bind].
  destruct (openAPIV3Schemas fixture) as [schemas known]. intros [= <-]. apply gunzip_gzip in Ej, Ep.
  destruct protobuf, encodingGzip; cbn [v2_payload do_protoGzip do_json do_jsonGzip do_tags].
  - by intros [= <-].
  - rewrite Ep. cbn [mbind option_bind]. destruct (_ <? _); [done|]. by intros [= <-].
  - by intros [= <-].
  - by intros [= <-].
Qed.
(** What [/openapi/v2] serves is the loaded schema: as JSON or as protobuf
    according to the [Accept] header, compressed only for a client that accepts
    it, with the digest of the very bytes sent as its tag; a 304 is only given
    for a tag the client named. *)
Theorem openapi_v2_is_the_schema : forall version m fixture binaryDoc d h s s' r,
  build_documents version m fixture binaryDoc = Some d -> serveOpenAPIV2 d h s = (s', oa_served r) ->
  exists protobuf payload, v2_media (oh_accept h) = Some protobuf /\
    (if acceptsGzip (oh_acceptEncoding h) then gunzip payload = Some (if protobuf then binaryDoc else fixture) else payload = if protobuf then binaryDoc else fixture) /\
    oget (oa_headers r) "ETag" = Some (etag payload) /\
    (oa_code r = 304 /\ oa_payload r = "" /\ matchesETag (oh_ifNoneMatch h) (etag payload) = true \/
     oa_code r = 200 /\ oa_payload r = payload /\ matchesETag (oh_ifNoneMatch h) (etag payload) = false /\
       oget (oa_headers r) "Content-Type" = Some (if protobuf then protobufMediaType else "application/json") /\
       oget (oa_headers r) "Content-Encoding" = if acceptsGzip (oh_acceptEncoding h) then Some "gzip" else None).
Proof.
  intros version m fixture binaryDoc d h s s' r Hd Hs. unfold serveOpenAPIV2 in Hs. destruct (String.eqb (do_json d) ""); [done|].
  apply slot_answer in Hs as [t Hs]. destruct (v2_media (oh_accept h)) as [protobuf|]; [|done]. cbv zeta in Hs.
  destruct (v2_payload d protobuf _) as [payload|] eqn:Ep; [|done]. destruct (v2_tag _ _ _ _ _ _ _ _ Hd Ep) as [Et Hp]. rewrite Et in Hs.
  exists protobuf, payload. split; [done|]. split; [by destruct (acceptsGzip _)|]. destruct (matchesETag _ _) eqn:Em; injection Hs as _ <-.
  - split; [done|]. by left.
  - split; [by destruct (acceptsGzip _)|]. right. by destruct (acceptsGzip _).
Qed.

(** ** Version 3: the cache *)
Definition v3_request : Type := reply * oa_headers_in * list string.
Definition v3_run (d : documents) (l : list v3_request) : openapi_state :=
  foldl (fun s '(notFound, h, segments) => (serveOpenAPIV3Doc d notFound h segments s).1) openapi_start l.
(** Each served group and version has a key of its own. *)
Definition keys_apart (m : resources) : Prop := forall gv gv', is_Some (m !! gv) -> is_Some (m !! gv') -> apiVersionFor gv = apiVersionFor gv' -> gv = gv'.
Record cache_ok (d : documents) (s : openapi_state) : Prop := {
  co_entries : forall key z, os_cache s !! key = Some z -> exists gv doc, key = apiVersionFor gv /\ is_Some (do_resources d !! gv) /\ v3_document d gv = Some doc /\ gzip doc = Some z;
  co_size : Z.of_nat (size (os_cache s)) <= 8;
  co_slots : os_slots s = 0;
}.
Lemma cached_fresh d gv s : keys_apart (do_resources d) -> is_Some (do_resources d !! gv) ->
  (forall key z, os_cache s !! key = Some z -> exists gv doc, key = apiVersionFor gv /\ is_Some (do_resources d !! gv) /\ v3_document d gv = Some doc /\ gzip doc = Some z) ->
  (cached_document d gv s).2 = doc ← v3_document d gv; gzip doc.
Proof.
  intros Hk Hgv He. unfold cached_document. destruct (os_cache s !! apiVersionFor gv) as [z|] eqn:E.
  - destruct (He _ _ E) as (gv' & doc & Hkey & Hgv' & Hdoc & Hz). rewrite <- (Hk _ _ Hgv Hgv' Hkey) in Hdoc. cbn [snd]. rewrite Hdoc. cbn [mbind option_bind]. by rewrite Hz.
  - by destruct (doc ← v3_document d gv; gzip doc).
Qed.
Lemma cached_keeps d gv s : is_Some (do_resources d !! gv) -> cache_ok d s ->
  let s' := (cached_document d gv {| os_slots := os_slots s + 1; os_cache := os_cache s |}).1 in
  cache_ok d {| os_slots := os_slots s' - 1; os_cache := os_cache s' |}.
Proof.
  intros Hgv [He Hn Hs]. unfold cached_document. cbn [os_cache]. destruct (os_cache s !! apiVersionFor gv) as [z|] eqn:E; [split; cbn; [done|done|lia]|].
  destruct (v3_document d gv) as [doc|] eqn:Ed; cbn [mbind option_bind]; [|split; cbn; [done|done|lia]].
  destruct (gzip doc) as [z|] eqn:Ez; [|split; cbn; [done|done|lia]].
  destruct (Z.ltb_spec (Z.of_nat (size (os_cache s))) 8); split; cbn; try done; try lia.
  - intros key z' [[<- <-]|[_ Hz]]%lookup_insert_Some; [by exists gv, doc|by apply He].
  - rewrite map_size_insert_None by done. lia.
Qed.
Lemma v3_keeps d notFound h segments s : cache_ok d s -> cache_ok d (serveOpenAPIV3Doc d notFound h segments s).1.
Proof.
  intros Hs. unfold serveOpenAPIV3Doc. destruct (String.eqb _ ""); [done|]. destruct (v3_target segments) as [gv|]; [|done].
  destruct (do_resources d !! gv) as [x|] eqn:Egv; [|done]. unfold with_openapi_slot. rewrite (co_slots _ _ Hs). cbn [Z.ltb].
  pose proof (cached_keeps d gv s ltac:(by eexists) Hs) as Hc. rewrite (co_slots _ _ Hs) in Hc. by destruct (cached_document _ _ _) as [t c].
Qed.
Lemma v3_run_ok d l : cache_ok d (v3_run d l).
Proof.
  unfold v3_run. assert (Hstart : cache_ok d openapi_start) by (split; [intros key z; cbn; by rewrite lookup_empty|cbn [openapi_start os_cache]; rewrite map_size_empty; lia|done]).
  revert Hstart. generalize openapi_start. induction l as [|[[nf h] segments] l IH]; intros s Hs; [done|]. cbn [foldl]. apply IH. by apply v3_keeps.
Qed.
(** C38. The cache of v3 documents cannot be observed: after any requests at all
    a request is answered as a server that has just started would, and no more
    than eight documents are kept. *)
Theorem openapi_cache_is_transparent : forall d l notFound h segments, keys_apart (do_resources d) ->
  (serveOpenAPIV3Doc d notFound h segments (v3_run d l)).2 = (serveOpenAPIV3Doc d notFound h segments openapi_start).2 /\
  Z.of_nat (size (os_cache (v3_run d l))) <= 8.
Proof.
  intros d l notFound h segments Hk. pose proof (v3_run_ok d l) as Hs. split; [|apply Hs]. unfold serveOpenAPIV3Doc.
  destruct (String.eqb _ ""); [done|]. destruct (v3_target segments) as [gv|]; [|done]. destruct (do_resources d !! gv) as [x|] eqn:Egv; [|done].
  unfold with_openapi_slot. rewrite (co_slots _ _ Hs). cbn [Z.ltb Z.compare os_slots openapi_start].
  pose proof (cached_fresh d gv {| os_slots := 0 + 1; os_cache := os_cache (v3_run d l) |} Hk ltac:(by eexists) (co_entries _ _ Hs)) as E1.
  pose proof (cached_fresh d gv {| os_slots := 0 + 1; os_cache := os_cache openapi_start |} Hk ltac:(by eexists) ltac:(intros ? ?; cbn; by rewrite lookup_empty)) as E2.
  destruct (cached_document d gv {| os_slots := 0 + 1; os_cache := os_cache (v3_run d l) |}) as [t1 c1].
  destruct (cached_document d gv {| os_slots := 0 + 1; os_cache := os_cache openapi_start |}) as [t2 c2]. cbn [snd] in *. by rewrite E1, E2.
Qed.
End openapi.

(** The served groups and versions of every release have keys of their own. *)
Definition version_keys (m : resources) : list string := map apiVersionFor (served_versions m).
Lemma NoDup_map_apart {A B} (f : A -> B) l x y : NoDup (map f l) -> x ∈ l -> y ∈ l -> f x = f y -> x = y.
Proof.
  induction l as [|a l IH]; cbn; [by intros _ ?%elem_of_nil|]. intros [Ha Hl]%NoDup_cons [->|Hx]%elem_of_cons [->|Hy]%elem_of_cons E; auto.
  - exfalso. apply Ha. rewrite E. by apply list_elem_of_fmap_2.
  - exfalso. apply Ha. rewrite <- E. by apply list_elem_of_fmap_2.
Qed.
Lemma keys_apart_NoDup m : NoDup (version_keys m) -> keys_apart m.
Proof.
  intros Hn gv gv' [x Hx] [y Hy] E. assert (Hin : forall g z, m !! g = Some z -> g ∈ served_versions m).
  { intros g z Hz. unfold served_versions. apply list_elem_of_fmap. exists (g, z). split; [done|]. by apply elem_of_map_to_list. }
  by apply (NoDup_map_apart apiVersionFor (served_versions m)); eauto.
Qed.
Lemma catalogue_keys_apart minor : 19 <= minor <= 37 -> keys_apart (catalogue minor).
Proof.
  intros Hm. apply keys_apart_NoDup.
  enough (G : forall z, 0 <= z < Z.of_nat 19 -> NoDup (version_keys (catalogue (19 + z)))) by (specialize (G (minor - 19) ltac:(lia)); by replace (19 + (minor - 19)) with minor in G by lia).
  by_evaluation 19%nat.
Qed.

(** A compressor that only marks its output, to evaluate examples with. *)
Definition marking_gzip : Gzip.
Proof.
  refine {| gzip := fun d => Some ("Z" +:+ d); gunzip := fun z => if has_prefix z "Z" then Some (trim_prefix z "Z") else None |}.
  intros d z [= <-]. pose proof (has_prefix_app "Z" d) as E1. pose proof (trim_prefix_app "Z" d) as E2. cbn [String.append] in E1, E2 |- *. by rewrite E1, E2.
Defined.
Definition small_schema : string := q "{'definitions':{'io.k8s.api.core.v1.Pod':{'$ref':'#/definitions/x'}}}".
Definition small_documents : documents :=
  default {| do_version := ""; do_resources := ∅; do_json := ""; do_jsonGzip := ""; do_protoGzip := ""; do_tags := []; do_schemas := ""; do_known := [] |}
    (@build_documents marking_gzip "v1.30" (catalogue 30) small_schema "pb").
Lemma small_documents_built : @build_documents marking_gzip "v1.30" (catalogue 30) small_schema "pb" = Some small_documents.
Proof. vm_compute. reflexivity. Qed.
Lemma openapi_v2_is_the_schema_witness :
  let h := {| oh_accept := "application/com.github.proto-openapi.spec.v2@v1.0+protobuf, application/json;q=0.3"; oh_acceptEncoding := "br, gzip;q=0.5"; oh_ifNoneMatch := "" |} in
  exists s' r, @serveOpenAPIV2 test_env marking_gzip small_documents h openapi_start = (s', oa_served r) /\ @gunzip marking_gzip (oa_payload r) = Some "pb".
Proof.
  intros h. destruct (@serveOpenAPIV2 test_env marking_gzip small_documents h openapi_start) as [s' [rp|r]] eqn:E; [exfalso; vm_compute in E; discriminate|].
  exists s', r. split; [reflexivity|].
  destruct (@openapi_v2_is_the_schema test_env marking_gzip "v1.30" (catalogue 30) small_schema "pb" small_documents h openapi_start s' r small_documents_built E) as (protobuf & payload & Hm & Hp & _ & [(_ & _ & Hx)|(_ & Hpay & _)]).
  - exfalso. vm_compute in Hm. injection Hm as <-. vm_compute in Hp. vm_compute in Hx. discriminate.
  - vm_compute in Hm. injection Hm as <-. change (acceptsGzip (oh_acceptEncoding h)) with true in Hp. rewrite Hpay. exact Hp.
Defined.
Lemma openapi_cache_is_transparent_witness :
  let h := {| oh_accept := ""; oh_acceptEncoding := ""; oh_ifNoneMatch := "" |} in
  let missing := failure 404 "NotFound" "" "" in
  let l := [(missing, h, ["api"; "v1"]); (missing, h, ["apis"; "apps"; "v1"]); (missing, h, ["api"; "v1"])] in
  size (os_cache (@v3_run test_env marking_gzip small_documents l)) = 2%nat /\
  (@serveOpenAPIV3Doc test_env marking_gzip small_documents missing h ["api"; "v1"] (@v3_run test_env marking_gzip small_documents l)).2 =
  (@serveOpenAPIV3Doc test_env marking_gzip small_documents missing h ["api"; "v1"] openapi_start).2.
Proof.
  intros h missing l. split; [vm_compute; reflexivity|].
  apply (@openapi_cache_is_transparent test_env marking_gzip small_documents l missing h ["api"; "v1"]).
  change (do_resources small_documents) with (catalogue 30). apply catalogue_keys_apart. lia.
Defined.

(** ** Where the schema comes from *)
Section schema.
Context {document : Type} (parse_document : string -> option document).
Definition within_limit (data : string) : Prop := slen data <= maxOpenAPIDocumentBytes.
Lemma readSchema_ok b data : readSchema b = inl data -> b = body_all data /\ within_limit data.
Proof. unfold readSchema, within_limit. destruct b as [s|s]; destruct (Z.ltb_spec maxOpenAPIDocumentBytes (slen s)); try done. by intros [= ->]. Qed.
Lemma validateSchema_ok data doc : validateSchema parse_document data = inl doc -> schema_shape data = true /\ parse_document data = Some doc.
Proof. unfold validateSchema. destruct (schema_shape data); [|done]. destruct (parse_document data); [|done]. by intros [= ->]. Qed.
(** The document was sent, with status 200, by the address of the release. *)
Definition was_downloaded (client : string -> schema_response + string) (profile : SchemaProfile) (data : string) : Prop :=
  exists response, client (sp_SchemaURL profile) = inl response /\ sr_status response = 200 /\ sr_body response = body_all data.
(** The document is the one bundled for the version. *)
Definition was_bundled (embedded : string -> option string) (inflate : string -> option body) (profile : SchemaProfile) (data : string) : Prop :=
  exists compressed, embedded (sp_EmbeddedPath profile) = Some compressed /\ inflate compressed = Some (body_all data).
Lemma downloadSchema_ok client profile data : downloadSchema client profile = inl data -> was_downloaded client profile data /\ within_limit data.
Proof.
  unfold downloadSchema. destruct (client _) as [response|] eqn:E; [|done]. destruct (Z.eqb_spec (sr_status response) 200) as [Es|]; [cbn [negb]|done].
  destruct (_ <? _); [done|]. intros [Hb Hl]%readSchema_ok. split; [by exists response|done].
Qed.
Lemma bundledSchema_ok embedded inflate offline downloadErr profile data doc :
  bundledSchema parse_document embedded inflate offline downloadErr profile = inl (data, doc) ->
  was_bundled embedded inflate profile data /\ within_limit data /\ schema_shape data = true /\ parse_document data = Some doc.
Proof.
  unfold bundledSchema. destruct (embedded _) as [compressed|] eqn:Ee; [|done]. destruct (inflate compressed) as [stream|] eqn:Ei; [|done].
  destruct (readSchema stream) as [data'|] eqn:Er; [|done]. destruct (validateSchema _ _) as [doc'|] eqn:Ev; [|done]. intros [= <- <-].
  apply readSchema_ok in Er as [-> Hl]. apply validateSchema_ok in Ev as [Hs Hp]. split; [by exists compressed|done].
Qed.
(** C39. A schema the server runs with is an OpenAPI v2 document of at most
    8 MiB that the parser accepts; it is the one the release's address sent or
    the one bundled for that very version, and offline only the latter.  The
    bundled one stands in for a download only while the download gave no
    document of that kind. *)
Theorem loaded_schema_is_validated : forall ctx_err ctx_err_after client embedded inflate profile offline data doc,
  loadOpenAPISchema parse_document ctx_err ctx_err_after client embedded inflate profile offline = inl (data, doc) ->
  (within_limit data /\ schema_shape data = true /\ parse_document data = Some doc) /\
  (offline = false /\ was_downloaded client profile data \/
   was_bundled embedded inflate profile data /\
     (offline = false -> forall d doc', downloadSchema client profile = inl d -> validateSchema parse_document d <> inl doc')).
Proof.
  intros ctx_err ctx_err_after client embedded inflate profile offline data doc. unfold loadOpenAPISchema. destruct ctx_err; [done|]. destruct offline.
  - intros (Hb & Hrest)%bundledSchema_ok. split; [done|]. by right.
  - destruct (downloadSchema client profile) as [d|e] eqn:Ed; [destruct (validateSchema parse_document d) as [doc'|e] eqn:Ev|]; cbv zeta.
    + intros [= <- <-]. apply downloadSchema_ok in Ed as [Hw Hl]. apply validateSchema_ok in Ev as [Hs Hp]. split; [done|]. by left.
    + destruct ctx_err_after; [done|]. intros (Hb & Hrest)%bundledSchema_ok. split; [done|]. right. split; [done|].
      intros _ d' doc' [= <-]. by rewrite Ev.
    + destruct ctx_err_after; [done|]. intros (Hb & Hrest)%bundledSchema_ok. split; [done|]. right. by split.
Qed.
End schema.

(** The address answers with an error page; the bundled document is used. *)
Lemma loaded_schema_is_validated_witness :
  let profile := {| sp_Version := "v1.30"; sp_Release := "v1.30.0"; sp_SchemaURL := "https://example"; sp_EmbeddedPath := "embedded/openapi/v1.30_openapi.json.gz" |} in
  let data := q "{'swagger':'2.0','paths':{'/api/':{}},'definitions':{'a':{}}}" in
  let client := fun _ => inl {| sr_status := 404; sr_contentLength := 3; sr_body := body_all "no!" |} in
  let embedded := fun path => if String.eqb path "embedded/openapi/v1.30_openapi.json.gz" then Some ("Z" +:+ data) else None in
  let inflate := fun z => Some (body_all (trim_prefix z "Z")) in
  loadOpenAPISchema (fun d => Some (slen d)) None None client embedded inflate profile false = inl (data, 61) /\
  (was_downloaded client profile data \/ was_bundled embedded inflate profile data).
Proof.
  intros profile data client embedded inflate.
  assert (E : loadOpenAPISchema (fun d => Some (slen d)) None None client embedded inflate profile false = inl (data, 61)) by (vm_compute; reflexivity).
  split; [exact E|]. destruct (loaded_schema_is_validated _ _ _ _ _ _ _ _ _ _ E) as [_ [[_ Hd]|[Hb _]]]; [left; exact Hd|right; exact Hb].
Defined.
