(* ===== verification/Table.v ===== *)
(** * Tables

    table.go: the [meta.k8s.io] Table that a list or a get is answered with when
    the client asks for one.  Every kind has its columns and the cells of a row;
    the clock is that of the environment, and loops over label maps ask for
    their order. *)
From S2P Require Import Prelude GoStrings GoCodec ConfigModel Value Json GoTime Names Selector Catalog Store World Controllers Request.

#[local] Set Warnings "-clear-no-such-hyp,-notation-for-abbreviation".
#[local] Open Scope string_scope.
#[local] Open Scope list_scope.
#[local] Open Scope Z_scope.
#[local] Open Scope act_scope.

Record tableColumn := { tc_name : string; tc_columnType : string; tc_format : string; tc_description : string; tc_priority : Z }.
Definition col (name description : string) : tableColumn :=
  {| tc_name := name; tc_columnType := "string"; tc_format := ""; tc_description := description; tc_priority := 0 |}.
Definition wideCol (name description : string) : tableColumn :=
  {| tc_name := name; tc_columnType := "string"; tc_format := ""; tc_description := description; tc_priority := 1 |}.

(** ** Values as text

    [strconv.FormatFloat] with ['f'] and, for [fmt]'s [%v], with ['g'] and the
    shortest precision: an exponent of at least two digits below 1e-4 and from
    1e6 on. *)
Definition format_float (f : spec_float) : string :=
  match f with
  | S754_zero s => if s then "-0" else "0"
  | S754_finite s m e => let '(d, x) := shortest m e in print_lit (fixed_lit s d x)
  | S754_infinity s => if s then "-Inf" else "+Inf"
  | S754_nan => "NaN"
  end.
Definition exponent_text (s : bool) (d x : Z) : string :=
  let ds := to_base 10 d in
  let e := slen ds - 1 + x in
  (if s then "-" else "") +:+ str_take 1 ds +:+ (if slen ds =? 1 then "" else "." +:+ str_drop 1 ds)
  +:+ "e" +:+ (if e <? 0 then "-" else "+") +:+ zero_pad 2 (Z.abs e).
Definition sprint_float (f : spec_float) : string :=
  match f with
  | S754_finite s m e =>
      let '(d, x) := shortest m e in
      let exp := slen (to_base 10 d) - 1 + x in
      if (exp <? -4) || (6 <=? exp) then exponent_text s d x else print_lit (fixed_lit s d x)
  | f => format_float f
  end.
(** [fmt.Sprintf("%v", v)]; maps are printed in key order. *)
Fixpoint sprint (v : val) : string :=
  match v with
  | VNil => "<nil>"
  | VBool b => if b then "true" else "false"
  | VInt z => itoa z
  | VFloat f => sprint_float f
  | VStr s => s
  | VList l => "[" +:+ join (map sprint l) " " +:+ "]"
  | VMap m => "map[" +:+ join (map (fun kv => kv.1 +:+ ":" +:+ sprint kv.2) m) " " +:+ "]"
  | VStrMap m => "map[" +:+ join (map (fun kv => kv.1 +:+ ":" +:+ kv.2) m) " " +:+ "]"
  | VStrList l => "[" +:+ join l " " +:+ "]"
  | VMapList l => "[" +:+ join (map (fun m => "map[" +:+ join (map (fun kv => kv.1 +:+ ":" +:+ sprint kv.2) m) " " +:+ "]") l) " " +:+ "]"
  end.
Definition anyString (v : val) : string :=
  match v with VStr s => s | VFloat f => format_float f | VInt z => itoa z | VNil => "" | v => sprint v end.
Definition orDefault (value fallback : string) : string := if String.eqb value "" then fallback else value.

(** ** Ages

    A [Duration] is a number of nanoseconds.  [Seconds], [Minutes] and [Hours]
    are floating-point: the whole units plus the rest as a fraction. *)
Definition float_add : spec_float -> spec_float -> spec_float := SFadd 53 1024.
Definition float_div : spec_float -> spec_float -> spec_float := SFdiv 53 1024.
Definition in_units (unit d : Z) : spec_float :=
  float_add (float_of_int (Z.quot d unit)) (float_div (float_of_int (Z.rem d unit)) (float_of_int unit)).
Definition Second : Z := 10 ^ 9.
Definition Minute : Z := 60 * Second.
Definition Hour : Z := 60 * Minute.
Definition formatAge (d : Z) : string :=
  let d := if d <? 0 then 0 else d in
  if d <? 2 * Minute then itoa (trunc_float (in_units Second d)) +:+ "s"
  else if d <? 2 * Hour then itoa (trunc_float (in_units Minute d)) +:+ "m"
  else if d <? 48 * Hour then itoa (trunc_float (in_units Hour d)) +:+ "h"
  else
    let days := float_div (in_units Hour d) (float_of_int 24) in
    if d <? 365 * 24 * Hour then itoa (trunc_float days) +:+ "d"
    else
      let years := trunc_float (float_div days (float_of_int 365)) in
      itoa years +:+ "y" +:+ itoa (i64 (trunc_float days - i64 (years * 365))) +:+ "d".
(** [Time.Sub]: the difference in nanoseconds, saturated. *)
Definition instant (t : Z * Z) : Z := t.1 * Second + t.2.
Definition time_Sub (t u : Z) : Z :=
  let d := t - u in if d <? min_int64 then min_int64 else if max_int64 <? d then max_int64 else d.

Section ages.
Context `{Env}.
Definition shortAgo (raw : string) : act string :=
  match time_Parse raw with
  | None => ret "<unknown>"
  | Some parsed => let! now := now_ns in ret (formatAge (time_Sub now (instant parsed)))
  end.
Definition objectAge (meta : object) : act string := shortAgo (stringField meta "creationTimestamp").
Definition eventLastSeen (o : object) : act string :=
  match List.find (fun key => negb (String.eqb (stringField o key) "")) ["lastTimestamp"; "eventTime"; "firstTimestamp"] with
  | Some key => shortAgo (stringField o key)
  | None => ret "<unknown>"
  end.
Definition jobDuration (meta status : object) : act string :=
  match idx status "startTime" with
  | VStr start =>
      match time_Parse start with
      | None => ret ""
      | Some started =>
          let! now := now_ns in
          let end_ := match idx status "completionTime" with
                      | VStr finished => match time_Parse finished with Some parsed => instant parsed | None => now end
                      | _ => now
                      end in
          ret (formatAge (time_Sub end_ (instant started)))
      end
  | _ => ret ""
  end.
End ages.

(** ** Cells *)
Definition podReadiness (o : object) : Z * Z * Z :=
  let total := Z.of_nat (length (objectList (idx (objectMap (idx o "spec")) "containers"))) in
  let statuses := map objectMap (objectList (idx (objectMap (idx o "status")) "containerStatuses")) in
  let ready := Z.of_nat (length (List.filter (fun c => match idx c "ready" with VBool b => b | _ => false end) statuses)) in
  (ready, total, foldl (fun restarts c => i64 (restarts + intField c "restartCount")) 0 statuses).
Definition podPhase (o : object) : string := orDefault (stringField (objectMap (idx o "status")) "phase") "Running".
Definition podTemplateContainers (o : object) : list string * list string :=
  let template := objectMap (idx (objectMap (idx o "spec")) "template") in
  let containers := map objectMap (objectList (idx (objectMap (idx template "spec")) "containers")) in
  (map (fun c => stringField c "name") containers, map (fun c => stringField c "image") containers).
Definition service_port (entry : val) : string :=
  let port := objectMap entry in
  let out := anyString (idx port "port") in
  let target := anyString (idx port "targetPort") in
  let out := if negb (String.eqb target "") && negb (String.eqb target out) then out +:+ "/" +:+ target else out in
  let protocol := stringField port "protocol" in
  if negb (String.eqb protocol "") && negb (String.eqb protocol "TCP") then out +:+ "/" +:+ protocol else out.
Definition servicePorts (spec : object) : string := join (map service_port (objectList (idx spec "ports"))) ",".
Definition endpointAddresses (o : object) : string :=
  join (flat_map (fun subset => List.filter (fun ip => negb (String.eqb ip ""))
                                  (map (fun address => stringField (objectMap address) "ip") (objectList (idx (objectMap subset) "addresses"))))
         (objectList (idx o "subsets"))) ",".
Definition nodeReady (o : object) : string :=
  match List.find (fun c => String.eqb (stringField c "type") "Ready")
          (map objectMap (objectList (idx (objectMap (idx o "status")) "conditions"))) with
  | Some c => if String.eqb (stringField c "status") "True" then "Ready" else "NotReady"
  | None => "Ready"
  end.
Definition kubeletVersion (o : object) : string :=
  orDefault (stringField (objectMap (idx (objectMap (idx o "status")) "nodeInfo")) "kubeletVersion") "v1.37.0".

Section cells.
Context `{Env}.
Definition matchLabelsString (selector : object) : string :=
  match selector with
  | [] => "<none>"
  | _ =>
      let labels := objectMap (idx selector "matchLabels") in
      let labels := match labels with [] => selector | _ => labels end in
      join (map (fun kv => kv.1 +:+ "=" +:+ anyString kv.2) (range_entries 50 labels)) ","
  end.
Definition selectorString (spec : object) : string := matchLabelsString (objectMap (idx spec "selector")).
Definition node_role (kv : string * val) : option string :=
  if has_prefix kv.1 "node-role.kubernetes.io/" then Some (trim_prefix kv.1 "node-role.kubernetes.io/") else None.
Definition nodeRoles (meta : object) : string :=
  match omap node_role (range_entries 51 (objectMap (idx meta "labels"))) with [] => "<none>" | roles => join roles "," end.

(** ** Columns and rows, by kind *)
Definition obj (o : object) (k : string) : object := objectMap (idx o k).
Definition ratio (a b : Z) : val := VStr (itoa a +:+ "/" +:+ itoa b).
Definition count (l : list val) : val := VInt (Z.of_nat (length l)).
(** A row of cells that ends with, or holds, the age of the object. *)
Definition aged (o : object) (cells : val -> list val) : act (list val) :=
  let! age := objectAge (obj o "metadata") in ret (cells (VStr age)).
Definition name_of (o : object) : val := idx (obj o "metadata") "name".
Definition kind_spec : Type := list tableColumn * (object -> act (list val)).

Definition pod_spec : kind_spec :=
  ([col "NAME" "Name"; col "READY" "Ready containers"; col "STATUS" "Status"; col "RESTARTS" "Restarts"; col "AGE" "Age";
    wideCol "IP" "Pod IP"; wideCol "NODE" "Node"; wideCol "NOMINATED NODE" "Nominated node"; wideCol "READINESS GATES" "Readiness gates"],
   fun o =>
     let '(ready, total, restarts) := podReadiness o in
     let node := orDefault (stringField (obj o "spec") "nodeName") "<none>" in
     let ip := orDefault (stringField (obj o "status") "podIP") "<none>" in
     aged o (fun age => [name_of o; ratio ready total; VStr (podPhase o); VInt restarts; age; VStr ip; VStr node; VStr "<none>"; VStr "<none>"])).
Definition service_spec : kind_spec :=
  ([col "NAME" "Name"; col "TYPE" "Service type"; col "CLUSTER-IP" "Cluster IP"; col "EXTERNAL-IP" "External IP"; col "PORT(S)" "Ports"; col "AGE" "Age";
    wideCol "SELECTOR" "Selector"],
   fun o =>
     let spec := obj o "spec" in
     let serviceType := orDefault (stringField spec "type") "ClusterIP" in
     let external := if String.eqb serviceType "LoadBalancer" then "<pending>" else "<none>" in
     aged o (fun age => [name_of o; VStr serviceType; idx spec "clusterIP"; VStr external; VStr (servicePorts spec); age; VStr (selectorString spec)])).
Definition deployment_spec : kind_spec :=
  ([col "NAME" "Name"; col "READY" "Ready replicas"; col "UP-TO-DATE" "Updated replicas"; col "AVAILABLE" "Available replicas"; col "AGE" "Age";
    wideCol "CONTAINERS" "Containers"; wideCol "IMAGES" "Images"; wideCol "SELECTOR" "Selector"],
   fun o =>
     let spec := obj o "spec" in let status := obj o "status" in
     let '(containers, images) := podTemplateContainers o in
     aged o (fun age => [name_of o; ratio (intField status "readyReplicas") (intField spec "replicas"); VInt (intField status "updatedReplicas");
       VInt (intField status "availableReplicas"); age; VStr (join containers ","); VStr (join images ","); VStr (selectorString spec)])).
Definition replicas_spec : kind_spec :=
  ([col "NAME" "Name"; col "DESIRED" "Desired"; col "CURRENT" "Current"; col "READY" "Ready"; col "AGE" "Age"],
   fun o => aged o (fun age => [name_of o; VInt (intField (obj o "spec") "replicas"); VInt (intField (obj o "status") "replicas");
     VInt (intField (obj o "status") "readyReplicas"); age])).
Definition statefulset_spec : kind_spec :=
  ([col "NAME" "Name"; col "READY" "Ready replicas"; col "AGE" "Age"],
   fun o => aged o (fun age => [name_of o; ratio (intField (obj o "status") "readyReplicas") (intField (obj o "spec") "replicas"); age])).
Definition daemonset_spec : kind_spec :=
  ([col "NAME" "Name"; col "DESIRED" "Desired"; col "CURRENT" "Current"; col "READY" "Ready"; col "UP-TO-DATE" "Updated"; col "AVAILABLE" "Available";
    col "NODE SELECTOR" "Node selector"; col "AGE" "Age"],
   fun o => let status := obj o "status" in
     aged o (fun age => [name_of o; VInt (intField status "desiredNumberScheduled"); VInt (intField status "currentNumberScheduled");
       VInt (intField status "numberReady"); VInt (intField status "updatedNumberScheduled"); VInt (intField status "numberAvailable"); VStr "<none>"; age])).
Definition job_spec : kind_spec :=
  ([col "NAME" "Name"; col "COMPLETIONS" "Completions"; col "DURATION" "Duration"; col "AGE" "Age"],
   fun o => let status := obj o "status" in
     let! duration := jobDuration (obj o "metadata") status in
     aged o (fun age => [name_of o; ratio (intField status "succeeded") (intField (obj o "spec") "completions"); VStr duration; age])).
Definition cronjob_spec : kind_spec :=
  ([col "NAME" "Name"; col "SCHEDULE" "Schedule"; col "SUSPEND" "Suspended"; col "ACTIVE" "Active jobs"; col "LAST SCHEDULE" "Last scheduled"; col "AGE" "Age"],
   fun o => let spec := obj o "spec" in let status := obj o "status" in
     let suspend := match idx spec "suspend" with VBool true => "True" | _ => "False" end in
     let! last := match idx status "lastScheduleTime" with VStr scheduled => shortAgo scheduled | _ => ret "<none>" end in
     aged o (fun age => [name_of o; idx spec "schedule"; VStr suspend; count (objectList (idx status "active")); VStr last; age])).
Definition node_spec : kind_spec :=
  ([col "NAME" "Name"; col "STATUS" "Status"; col "ROLES" "Roles"; col "AGE" "Age"; col "VERSION" "Kubelet version"],
   fun o => aged o (fun age => [name_of o; VStr (nodeReady o); VStr (nodeRoles (obj o "metadata")); age; VStr (kubeletVersion o)])).
Definition namespace_spec : kind_spec :=
  ([col "NAME" "Name"; col "STATUS" "Status"; col "AGE" "Age"],
   fun o => aged o (fun age => [name_of o; VStr (orDefault (stringField (obj o "status") "phase") "Active"); age])).
Definition secret_spec : kind_spec :=
  ([col "NAME" "Name"; col "TYPE" "Type"; col "DATA" "Keys"; col "AGE" "Age"],
   fun o => aged o (fun age => [name_of o; VStr (orDefault (stringField o "type") "Opaque");
     VInt (Z.of_nat (length (obj o "data")) + Z.of_nat (length (obj o "stringData"))); age])).
Definition configmap_spec : kind_spec :=
  ([col "NAME" "Name"; col "DATA" "Keys"; col "AGE" "Age"], fun o => aged o (fun age => [name_of o; VInt (Z.of_nat (length (obj o "data"))); age])).
Definition serviceaccount_spec : kind_spec :=
  ([col "NAME" "Name"; col "SECRETS" "Secret count"; col "AGE" "Age"], fun o => aged o (fun age => [name_of o; count (objectList (idx o "secrets")); age])).
Definition event_spec : kind_spec :=
  ([col "LAST SEEN" "Last seen"; col "TYPE" "Type"; col "REASON" "Reason"; col "OBJECT" "Involved object"; col "MESSAGE" "Message"],
   fun o => let involved := obj o "involvedObject" in
     let! seen := eventLastSeen o in
     ret [VStr seen; idx o "type"; idx o "reason"; VStr (to_lower (stringField involved "kind") +:+ "/" +:+ stringField involved "name"); idx o "message"]).
Definition claim_spec : kind_spec :=
  ([col "NAME" "Name"; col "STATUS" "Status"; col "VOLUME" "Bound volume"; col "CAPACITY" "Capacity"; col "ACCESS MODES" "Access modes";
    col "STORAGECLASS" "Storage class"; col "AGE" "Age"],
   fun o => let spec := obj o "spec" in let status := obj o "status" in
     let capacity := stringField (obj status "capacity") "storage" in
     aged o (fun age => [name_of o; VStr (orDefault (stringField status "phase") "Bound"); VStr (orDefault (stringField spec "volumeName") "<none>");
       VStr (orDefault capacity "1Gi"); VStr "RWO"; VStr (orDefault (stringField spec "storageClassName") "standard"); age])).
Definition volume_spec : kind_spec :=
  ([col "NAME" "Name"; col "CAPACITY" "Capacity"; col "ACCESS MODES" "Access modes"; col "RECLAIM POLICY" "Reclaim policy"; col "STATUS" "Status";
    col "CLAIM" "Bound claim"; col "STORAGECLASS" "Storage class"; col "AGE" "Age"],
   fun o => let spec := obj o "spec" in let status := obj o "status" in
     let claim := match obj spec "claimRef" with [] => "<none>" | ref => stringField ref "namespace" +:+ "/" +:+ stringField ref "name" end in
     aged o (fun age => [name_of o; VStr (orDefault (stringField (obj spec "capacity") "storage") "1Gi"); VStr "RWO";
       VStr (orDefault (stringField spec "persistentVolumeReclaimPolicy") "Retain"); VStr (orDefault (stringField status "phase") "Available"); VStr claim;
       VStr (orDefault (stringField spec "storageClassName") "standard"); age])).
Definition ingress_spec : kind_spec :=
  ([col "NAME" "Name"; col "CLASS" "Ingress class"; col "HOSTS" "Hosts"; col "ADDRESS" "Address"; col "PORTS" "Ports"; col "AGE" "Age"],
   fun o => let spec := obj o "spec" in
     let hosts := List.filter (fun host => negb (String.eqb host "")) (map (fun rule => stringField (objectMap rule) "host") (objectList (idx spec "rules"))) in
     aged o (fun age => [name_of o; VStr (orDefault (stringField spec "ingressClassName") "nginx"); VStr (orDefault (join hosts ",") "*"); VStr ""; VStr "80"; age])).
Definition networkpolicy_spec : kind_spec :=
  ([col "NAME" "Name"; col "POD-SELECTOR" "Pod selector"; col "AGE" "Age"],
   fun o => let selector := matchLabelsString (obj (obj o "spec") "podSelector") in aged o (fun age => [name_of o; VStr selector; age])).
Definition budget_spec : kind_spec :=
  ([col "NAME" "Name"; col "MIN AVAILABLE" "Min available"; col "MAX UNAVAILABLE" "Max unavailable"; col "ALLOWED DISRUPTIONS" "Allowed disruptions"; col "AGE" "Age"],
   fun o => let spec := obj o "spec" in
     aged o (fun age => [name_of o; VStr (orDefault (anyString (idx spec "minAvailable")) "N/A"); VStr (orDefault (anyString (idx spec "maxUnavailable")) "N/A");
       VInt (intField (obj o "status") "disruptionsAllowed"); age])).
Definition autoscaler_spec : kind_spec :=
  ([col "NAME" "Name"; col "REFERENCE" "Scale target"; col "TARGETS" "Targets"; col "MINPODS" "Min replicas"; col "MAXPODS" "Max replicas"; col "REPLICAS" "Current"; col "AGE" "Age"],
   fun o => let spec := obj o "spec" in let target := obj spec "scaleTargetRef" in
     aged o (fun age => [name_of o; VStr (to_lower (stringField target "kind") +:+ "/" +:+ stringField target "name"); VStr "<unknown>/50%";
       VInt (intField spec "minReplicas"); VInt (intField spec "maxReplicas"); VInt (intField (obj o "status") "currentReplicas"); age])).
Definition created_spec : kind_spec :=
  ([col "NAME" "Name"; col "CREATED AT" "Created"], fun o => ret [name_of o; idx (obj o "metadata") "creationTimestamp"]).
Definition apiservice_spec : kind_spec :=
  ([col "NAME" "Name"; col "SERVICE" "Backend service"; col "AVAILABLE" "Availability"; col "AGE" "Age"],
   fun o =>
     let service := match obj (obj o "spec") "service" with [] => "Local" | backend => stringField backend "namespace" +:+ "/" +:+ stringField backend "name" end in
     let available := foldl (fun available c => if String.eqb (stringField c "type") "Available" then stringField c "status" else available) "True"
                        (map objectMap (objectList (idx (obj o "status") "conditions"))) in
     aged o (fun age => [name_of o; VStr service; VStr (available +:+ " (Local)"); age])).
Definition lease_spec : kind_spec :=
  ([col "NAME" "Name"; col "HOLDER" "Holder"; col "AGE" "Age"],
   fun o => aged o (fun age => [name_of o; VStr (orDefault (stringField (obj o "spec") "holderIdentity") "<none>"); age])).
Definition csr_spec : kind_spec :=
  ([col "NAME" "Name"; col "AGE" "Age"; col "SIGNERNAME" "Signer"; col "REQUESTOR" "Requestor"; col "REQUESTEDDURATION" "Duration"; col "CONDITION" "Condition"],
   fun o => let spec := obj o "spec" in
     aged o (fun age => [name_of o; age; VStr (orDefault (stringField spec "signerName") "kubernetes.io/kube-apiserver-client");
       VStr (orDefault (stringField spec "username") "system:node:worker-01"); VStr "<none>"; VStr "Approved"])).
Definition endpoints_spec : kind_spec :=
  ([col "NAME" "Name"; col "ENDPOINTS" "Addresses"; col "AGE" "Age"], fun o => aged o (fun age => [name_of o; VStr (endpointAddresses o); age])).
Definition endpointslice_spec : kind_spec :=
  ([col "NAME" "Name"; col "ADDRESSTYPE" "Address type"; col "PORTS" "Ports"; col "ENDPOINTS" "Endpoints"; col "AGE" "Age"],
   fun o => aged o (fun age => [name_of o; VStr (orDefault (stringField o "addressType") "IPv4"); VStr "443"; count (objectList (idx o "endpoints")); age])).
Definition default_spec : kind_spec := ([col "NAME" "Name"; col "AGE" "Age"], fun o => aged o (fun age => [name_of o; age])).

Definition created_kinds : list string :=
  ["CustomResourceDefinition"; "StorageClass"; "IngressClass"; "CSIDriver"; "ClusterRole"; "ClusterRoleBinding"; "MutatingWebhookConfiguration";
   "ValidatingWebhookConfiguration"; "ValidatingAdmissionPolicy"; "ValidatingAdmissionPolicyBinding"; "ComponentStatus"; "Role"; "RoleBinding"].
Definition kind_specs : list (string * kind_spec) :=
  [("Pod", pod_spec); ("Service", service_spec); ("Deployment", deployment_spec); ("ReplicaSet", replicas_spec); ("StatefulSet", statefulset_spec);
   ("DaemonSet", daemonset_spec); ("Job", job_spec); ("CronJob", cronjob_spec); ("Node", node_spec); ("Namespace", namespace_spec); ("Secret", secret_spec);
   ("ConfigMap", configmap_spec); ("ServiceAccount", serviceaccount_spec); ("Event", event_spec); ("PersistentVolumeClaim", claim_spec);
   ("PersistentVolume", volume_spec); ("Ingress", ingress_spec); ("NetworkPolicy", networkpolicy_spec); ("PodDisruptionBudget", budget_spec);
   ("HorizontalPodAutoscaler", autoscaler_spec); ("APIService", apiservice_spec); ("Lease", lease_spec); ("CertificateSigningRequest", csr_spec);
   ("Endpoints", endpoints_spec); ("EndpointSlice", endpointslice_spec); ("ReplicationController", replicas_spec)]
  ++ map (fun kind => (kind, created_spec)) created_kinds.
Definition tableSpec (description : apiResource) : kind_spec :=
  default default_spec (snd <$> List.find (fun ks => String.eqb ks.1 (r_kind description)) kind_specs).

(** ** The response *)
Definition column_definition (c : tableColumn) : val :=
  lit [("name", VStr (tc_name c)); ("type", VStr (tc_columnType c)); ("format", VStr (tc_format c));
       ("description", VStr (tc_description c)); ("priority", VInt (tc_priority c))].
Fixpoint table_rows (rowCells : object -> act (list val)) (items : list object) : act (list val) :=
  match items with
  | [] => ret []
  | item :: items =>
      let! cells := rowCells item in
      let! rows := table_rows rowCells items in
      ret (lit [("cells", VList cells); ("object", VMap item)] :: rows)
  end.
Definition tableResponse (description : apiResource) (items : list object) : act val :=
  let '(columns, rowCells) := tableSpec description in
  let! rows := table_rows rowCells items in
  ret (lit [("apiVersion", VStr "meta.k8s.io/v1"); ("kind", VStr "Table");
            ("columnDefinitions", VList (map column_definition columns)); ("rows", VList rows)]).
(** What is written for a reply: its code and its document. *)
Definition render (r : reply) : act (Z * val) :=
  match rp_body r with
  | BJson v => ret (rp_code r, v)
  | BText _ text => ret (rp_code r, VStr text)
  | BTable _ description items => let! t := tableResponse description items in ret (rp_code r, t)
  end.
End cells.

Example sprint_examples :
  map sprint [VFloat (float_of_int 1000000); VFloat (float_of_decimal false 5 (-1)); VMap [("a", VNil); ("b", VList [VInt 1; VBool true])]; VStrList ["x"; "y"]] =
  ["1e+06"; "0.5"; "map[a:<nil> b:[1 true]]"; "[x y]"].
Proof. vm_compute. reflexivity. Qed.
Example age_examples : map formatAge [-5; 119 * Second + 999999999; 2 * Minute; 47 * Hour + 59 * Minute; 48 * Hour; 364 * 24 * Hour; 800 * 24 * Hour] =
  ["0s"; "119s"; "2m"; "47h"; "2d"; "364d"; "2y70d"].
Proof. vm_compute. reflexivity. Qed.
