(* ===== verification/TableProps.v ===== *)
(** * Tables: properties

    Every table fits its columns; rendering only reads the clock. *)
From S2P Require Import Prelude GoStrings GoCodec ConfigModel Value Json GoTime Names Selector Catalog Store World Controllers Request Table.

#[local] Set Warnings "-clear-no-such-hyp,-notation-for-abbreviation".
#[local] Open Scope string_scope.
#[local] Open Scope list_scope.
#[local] Open Scope Z_scope.
#[local] Open Scope act_scope.

Section props.
Context `{Env}.
(** A computation that returns a value of which [P] holds, and moves nothing in
    the world but the clock. *)
Definition ticks_to {A} (m : act A) (P : A -> Prop) : Prop :=
  forall w, exists n a, m w = (set_ticks w n, Some a) /\ P a.
Lemma set_ticks_same w : set_ticks w (w_ticks w) = w.
Proof. by destruct w. Qed.
Lemma ticks_ret {A} (a : A) (P : A -> Prop) : P a -> ticks_to (ret a) P.
Proof. intros Ha w. exists (w_ticks w), a. by rewrite set_ticks_same. Qed.
Lemma ticks_bind {A B} (m : act A) (k : A -> act B) P Q : ticks_to m P -> (forall a, P a -> ticks_to (k a) Q) -> ticks_to (bind m k) Q.
Proof.
  intros Hm Hk w. destruct (Hm w) as (n & a & Ha & Pa). unfold bind. rewrite Ha. destruct (Hk a Pa (set_ticks w n)) as (n2 & b & Hb & Qb).
  exists n2, b. by rewrite Hb.
Qed.
Lemma ticks_now : ticks_to now_ns (fun _ => True).
Proof. intros w. by eexists _, _. Qed.
Lemma ticks_ago raw : ticks_to (shortAgo raw) (fun _ => True).
Proof.
  unfold shortAgo. destruct (time_Parse raw) as [t|]; [|by apply ticks_ret]. eapply ticks_bind; [apply ticks_now|]. intros n _. by apply ticks_ret.
Qed.
Lemma ticks_duration meta status : ticks_to (jobDuration meta status) (fun _ => True).
Proof.
  unfold jobDuration. destruct (idx status "startTime"); try by apply ticks_ret. destruct (time_Parse _); [|by apply ticks_ret].
  eapply ticks_bind; [apply ticks_now|]. intros n _. by apply ticks_ret.
Qed.
Lemma ticks_last_seen o : ticks_to (eventLastSeen o) (fun _ => True).
Proof. unfold eventLastSeen. destruct (List.find _ _); [apply ticks_ago|by apply ticks_ret]. Qed.
Lemma ticks_aged o cells n : (forall age, length (cells age) = n) -> ticks_to (aged o cells) (fun row => length row = n).
Proof. intros Hn. unfold aged, objectAge. eapply ticks_bind; [apply ticks_ago|]. intros age _. apply ticks_ret, Hn. Qed.

(** Rows of as many cells as there are columns. *)
Definition fits_columns (spec : kind_spec) : Prop := forall o, ticks_to (spec.2 o) (fun row => length row = length spec.1).
Ltac row_fits := intros o; cbn [fst snd]; cbv zeta;
  repeat match goal with |- context [let '(_, _) := ?x in _] => destruct x as [? ?] end;
  repeat (first [eapply ticks_bind; [first [apply ticks_duration|apply ticks_last_seen|apply ticks_ago]|intros ? _]]);
  first [apply ticks_aged; reflexivity|apply ticks_ret; reflexivity].
Lemma kinds_fit : Forall (fun ks => fits_columns ks.2) kind_specs.
Proof.
  unfold kind_specs. apply Forall_app. split.
  - repeat apply Forall_cons_2; try apply Forall_nil_2; cbn [snd]; try row_fits.
    intros o. unfold cronjob_spec. cbn [fst snd]. cbv zeta. eapply (ticks_bind _ _ (fun _ => True)).
    + destruct (idx _ "lastScheduleTime"); try by apply ticks_ret. apply ticks_ago.
    + intros last _. apply ticks_aged. reflexivity.
  - apply Forall_map, Forall_forall. intros kind _. row_fits.
Qed.
Lemma table_spec_fits description : fits_columns (tableSpec description).
Proof.
  unfold tableSpec. destruct (List.find _ kind_specs) as [[k spec]|] eqn:E; cbn [fmap option_fmap option_map default from_option id snd].
  - apply List.find_some in E as [Hin _]. pose proof kinds_fit as HF. rewrite Forall_forall in HF. apply list_elem_of_In in Hin. exact (HF _ Hin).
  - row_fits.
Qed.
(** C27. A table fits: for every kind, rendering the objects of a list returns,
    without touching anything but the clock, one row per object, in order, that
    holds the object and exactly one cell for each column of the header. *)
Theorem tables_fit_their_columns : forall description items w, exists ticks rows,
  tableResponse description items w = (set_ticks w ticks, Some (lit [("apiVersion", VStr "meta.k8s.io/v1"); ("kind", VStr "Table");
    ("columnDefinitions", VList (map column_definition (tableSpec description).1)); ("rows", VList rows)])) /\
  Forall2 (fun item row => exists cells, row = lit [("cells", VList cells); ("object", VMap item)] /\
    length cells = length (tableSpec description).1) items rows.
Proof.
  intros description items w. unfold tableResponse. pose proof (table_spec_fits description) as Hfit.
  destruct (tableSpec description) as [columns rowCells]. cbn [fst snd] in *. unfold fits_columns in Hfit. cbn [fst snd] in Hfit.
  assert (Hrows : ticks_to (table_rows rowCells items) (fun rows => Forall2 (fun item row => exists cells,
    row = lit [("cells", VList cells); ("object", VMap item)] /\ length cells = length columns) items rows)).
  { clear w. induction items as [|item items IH]; [apply ticks_ret; constructor|]. cbn [table_rows]. eapply ticks_bind; [apply Hfit|].
    intros cells Hc. eapply ticks_bind; [exact IH|]. intros rows Hr. apply ticks_ret. constructor; [|done]. by exists cells. }
  destruct (Hrows w) as (n & rows & E & HF). unfold bind. rewrite E. by exists n, rows.
Qed.
End props.

(** The labels of a selector are printed in the order the map is visited in, so
    the same object has more than one row; kubectl's server sorts them. *)
Definition reversed_env : Env.
Proof.
  refine {| env_order := {| range_entries := fun A _ l => reverse l |}; env_unicode := ascii_tables; env_clock := env_clock (Env := test_env) |}.
  intros A _ l. apply reverse_Permutation.
Defined.
Example selector_cell_varies :
  @matchLabelsString test_env [("app", VStr "web"); ("tier", VStr "db")] = "app=web,tier=db" /\
  @matchLabelsString reversed_env [("app", VStr "web"); ("tier", VStr "db")] = "tier=db,app=web".
Proof. split; vm_compute; reflexivity. Qed.
