(* ===== verification/Api.v ===== *)
(** * The object handlers of the API server

    [create], [update], [patch], [delete], [deleteCollection], [list], [watch]
    up to its stream, the subresources and the synthetic answers of api.go,
    each as an action on the world from a request to a reply. *)
From S2P Require Import Prelude GoStrings GoCodec ConfigModel Value Json Names Selector Catalog Store StoreFacts StoreProps Listing World Controllers Seed Patch JsonPatch Proto Request.

#[local] Set Warnings "-clear-no-such-hyp,-notation-for-abbreviation".
#[local] Open Scope string_scope.
#[local] Open Scope list_scope.
#[local] Open Scope Z_scope.

(** ** Defaults *)
Definition set_defaults (m : object) (l : list (string * val)) : object := foldl default_key m l.
Definition rolling_update (l : list (string * val)) : val :=
  lit (("type", VStr "RollingUpdate") :: match l with [] => [] | _ => [("rollingUpdate", lit l)] end).
(** A template whose pod spec is a map gets the defaults of a pod. *)
Definition default_template (spec : object) (change : object -> object) : object :=
  let template := objectMap (idx spec "template") in
  match idx template "spec" with
  | VMap podSpec => oset spec "template" (VMap (oset template "spec" (VMap (change (applyPodSpecDefaults podSpec)))))
  | _ => spec
  end.
Definition applyWorkloadDefaults (kind : string) (spec : object) : object :=
  let spec :=
    if String.eqb kind "Deployment" then set_defaults spec
      [("strategy", rolling_update [("maxUnavailable", VStr "25%"); ("maxSurge", VStr "25%")]);
       ("revisionHistoryLimit", VInt 10); ("progressDeadlineSeconds", VInt 600)]
    else if String.eqb kind "StatefulSet" then set_defaults spec
      [("updateStrategy", rolling_update []); ("podManagementPolicy", VStr "OrderedReady"); ("revisionHistoryLimit", VInt 10)]
    else if String.eqb kind "DaemonSet" then set_defaults spec
      [("updateStrategy", rolling_update [("maxUnavailable", VInt 1); ("maxSurge", VInt 0)]); ("revisionHistoryLimit", VInt 10)]
    else spec in
  default_template spec (fun podSpec => podSpec).

Definition desiredReplicas (o : object) : val :=
  match idx (objectMap (idx o "spec")) "replicas" with VNil => VInt 1 | v => v end.
(** The status fields that carry the replica count as the client wrote it. *)
Definition replica_keys (kind : string) : list string :=
  if String.eqb kind "Deployment" then ["replicas"; "updatedReplicas"; "readyReplicas"; "availableReplicas"]
  else if String.eqb kind "ReplicaSet" || String.eqb kind "ReplicationController" then ["replicas"; "readyReplicas"; "availableReplicas"]
  else if String.eqb kind "StatefulSet" then ["replicas"; "readyReplicas"; "currentReplicas"; "updatedReplicas"]
  else [].
Definition deployment_conditions (now : string) : val :=
  let condition type reason := lit [("type", VStr type); ("status", VStr "True"); ("reason", VStr reason);
                                    ("lastUpdateTime", VStr now); ("lastTransitionTime", VStr now)] in
  VList [condition "Available" "MinimumReplicasAvailable"; condition "Progressing" "NewReplicaSetAvailable"].
(** The other fields; [None] for the kinds without a synthetic status. *)
Definition status_base (kind now : string) (o : object) : option object :=
  if String.eqb kind "Deployment" then
    Some (of_pairs [("observedGeneration", VInt 1); ("conditions", deployment_conditions now)])
  else if bool_decide (kind ∈ ["ReplicaSet"; "ReplicationController"; "StatefulSet"]) then Some [("observedGeneration", VInt 1)]
  else if String.eqb kind "DaemonSet" then
    Some (of_pairs [("desiredNumberScheduled", VInt 3); ("currentNumberScheduled", VInt 3); ("numberReady", VInt 3);
                    ("numberAvailable", VInt 3); ("updatedNumberScheduled", VInt 3); ("observedGeneration", VInt 1)])
  else if String.eqb kind "Pod" then
    Some (of_pairs
      [("phase", VStr "Running"); ("qosClass", VStr "BestEffort");
       ("containerStatuses", VList (map (fun entry =>
          container_status now (stringField (objectMap entry) "name") (stringField (objectMap entry) "image"))
          (objectList (idx (objectMap (idx o "spec")) "containers"))));
       ("startTime", VStr now); ("conditions", ready_conditions now)])
  else if String.eqb kind "Job" then Some (of_pairs [("active", VInt 1); ("startTime", VStr now)])
  else if String.eqb kind "HorizontalPodAutoscaler" then
    Some (of_pairs
      [("currentReplicas", VInt 1); ("desiredReplicas", VInt 2);
       ("currentMetrics", VList [lit
          [("type", VStr "Resource");
           ("resource", lit [("name", VStr "cpu");
                             ("current", lit [("averageUtilization", VInt 42); ("averageValue", VStr "42m")])])]]);
       ("lastScaleTime", VStr now); ("observedGeneration", VInt 1);
       ("conditions", VList [lit [("type", VStr "AbleToScale"); ("status", VStr "True"); ("reason", VStr "ReadyForNewScale");
                                  ("lastTransitionTime", VStr now)]])])
  else if String.eqb kind "Ingress" then
    Some [("loadBalancer", lit [("ingress", VList [lit [("ip", VStr "10.0.0.50")]])])]
  else None.
Definition set_keys (m : object) (keys : list string) (v : val) : object := foldl (fun m k => oset m k v) m keys.
Definition status_of (kind now : string) (o : object) : option object :=
  (fun m => set_keys m (replica_keys kind) (desiredReplicas o)) <$> status_base kind now o.

Definition ephemeral_status (now name image : string) : val :=
  lit [("name", VStr name); ("ready", VBool false); ("restartCount", VInt 0);
       ("state", lit [("running", lit [("startedAt", VStr now)])]); ("started", VBool true);
       ("image", VStr image); ("imageID", VStr (repeat_char "c")); ("containerID", VStr (repeat_char "d"))].
(** The new entries: named containers without a status. *)
Definition ephemeral_entries (now : string) (existing : list string) (containers : list val) : list val :=
  flat_map (fun entry =>
    let name := stringField (objectMap entry) "name" in
    if String.eqb name "" || bool_decide (name ∈ existing) then []
    else [ephemeral_status now name (stringField (objectMap entry) "image")]) containers.

Definition digestByte (key : string) : Z := default 0 (head (sha256 key)).
Definition resourceNameNeedsNamespace (name : string) : bool := negb (String.eqb name "namespaces").

Section api.
Context `{Env} `{Protowire} `{Yaml}.
Variable a : API.
#[local] Open Scope act_scope.

(** An early return. *)
Definition check {A} (m : act (reply + A)) (k : A -> act reply) : act reply :=
  bind m (fun r => match r with inl rep => ret rep | inr x => k x end).

Definition syntheticStatus (kind : string) (o : object) : act (option object) :=
  let! now := now_rfc3339 in ret (status_of kind now o).
Definition syncEphemeralContainerStatus (pod : object) : act object :=
  let containers := objectList (idx (objectMap (idx pod "spec")) "ephemeralContainers") in
  if bool_decide (containers = []) then ret pod
  else
    let! now := now_rfc3339 in
    let status := objectMap (idx pod "status") in
    let statuses := objectList (idx status "ephemeralContainerStatuses") in
    let existing := map (fun entry => stringField (objectMap entry) "name") statuses in
    ret (oset pod "status" (VMap (oset status "ephemeralContainerStatuses"
           (VList (statuses ++ ephemeral_entries now existing containers))))).

(** [emitMutation] *)
Definition emitMutation (rq : Request) (operation : string) (o : object) : act unit :=
  if a_emits a then
    emit {| ev_Timestamp := ""; ev_EventID := ""; ev_Sensor := "kubernetes"; ev_SessionID := ""; ev_Action := "object." +:+ operation;
            ev_Outcome := "simulated"; ev_Profile := ""; ev_Target := stringField o "kind" +:+ "/" +:+ stringField (metadata_of o) "name";
            ev_RemoteAddr := rq_remoteAddr rq; ev_ClientAddr := ""; ev_Method := rq_method rq; ev_Path := rq_path rq; ev_StatusCode := 0;
            ev_BytesReceived := 0; ev_BytesSent := 0; ev_UserAgent := ""; ev_Detail := "" |}
  else ret tt.

(** ** [create] *)

(** The namespace the object goes to, and its metadata with it. *)
Definition create_namespace (description : apiResource) (namespace name : string) (metadata : object)
    : reply + (string * object) :=
  if negb (String.eqb namespace "") then
    let got := stringField metadata "namespace" in
    if negb (String.eqb got "") && negb (String.eqb got namespace)
    then inl (failure 400 "BadRequest" "metadata.namespace must match the request namespace" name)
    else inr (namespace, oset metadata "namespace" (VStr namespace))
  else if r_namespaced description && resourceNameNeedsNamespace (r_name description) then
    let ns := stringField metadata "namespace" in
    if String.eqb ns "" then inl (failure 400 "BadRequest" "metadata.namespace is required for this resource" name)
    else inr (ns, metadata)
  else inr (namespace, metadata).
Definition name_message (e : nameError) : string :=
  match e with
  | errGeneratedNameCapacity => "simulated API generated-name capacity reached"
  | errInvalidGeneratedName => "metadata.generateName cannot produce a valid object name"
  end.
Definition create_name (name : string) (metadata : object) : act (reply + string) :=
  if negb (String.eqb name "") then ret (inr name)
  else
    let generateName := stringField metadata "generateName" in
    if String.eqb generateName "" then
      ret (inl (failure 422 "Invalid" "metadata.name or metadata.generateName is required" ""))
    else
      let! r := store_nextName generateName in
      ret (match r with inl name => inr name | inr e => inl (failure 422 "Invalid" (name_message e) "") end).

(** The fields the server fills in, by kind. *)
Definition running_address (namespace name : string) (spec status : object) : object :=
  let hostIP := serviceAddress (a_ipBase a) 10 in
  let podIP := match idx spec "hostNetwork" with
               | VBool true => hostIP
               | _ => serviceAddress (a_ipBase a) (100 + digestByte name mod 100)
               end in
  foldl (fun m kv => oset m kv.1 kv.2) status
    [("podIP", VStr podIP); ("podIPs", VList [lit [("ip", VStr podIP)]]); ("hostIP", VStr hostIP)].
Definition default_pod (namespace name : string) (o : object) : act object :=
  let spec := applyPodSpecDefaults (objectMap (idx o "spec")) in
  let! spec := (if String.eqb (stringField spec "nodeName") "" then
                  let! n := nodeCount in
                  let! node := nodeName (digestByte (namespace +:+ "/" +:+ name) mod n) in
                  ret (oset spec "nodeName" (VStr node))
                else ret spec) in
  let o := oset o "spec" (VMap spec) in
  let status := objectMap (idx o "status") in
  ret (if String.eqb (stringField status "phase") "Running"
       then oset o "status" (VMap (running_address namespace name spec status)) else o).
Definition default_job (o : object) : object :=
  let spec := set_defaults (objectMap (idx o "spec"))
    [("completions", VInt 1); ("parallelism", VInt 1); ("backoffLimit", VInt 6); ("suspend", VBool false);
     ("completionMode", VStr "NonIndexed")] in
  oset o "spec" (VMap (default_template spec (fun podSpec => oset podSpec "restartPolicy" (VStr "Never")))).
(** The spec is stored back only when the address is allocated; before that the
    writes go to the object's own map, if it has one. *)
Definition default_service (namespace name : string) (o : object) : object :=
  let spec := set_defaults (objectMap (idx o "spec"))
    [("sessionAffinity", VStr "None"); ("ipFamilyPolicy", VStr "SingleStack"); ("internalTrafficPolicy", VStr "Cluster");
     ("externalTrafficPolicy", VStr "Cluster")] in
  let spec := default_key spec ("type", VStr "ClusterIP") in
  if String.eqb (stringField spec "clusterIP") "" then
    let ip := VStr (serviceAddress (a_ipBase a) (40 + digestByte (namespace +:+ "/" +:+ name) mod 40)) in
    oset o "spec" (VMap (foldl (fun m kv => oset m kv.1 kv.2) spec
      [("clusterIP", ip); ("clusterIPs", VList [ip]); ("ipFamilies", VList [VStr "IPv4"])]))
  else match idx o "spec" with VMap _ => oset o "spec" (VMap spec) | _ => o end.
Definition default_object (kind namespace name : string) (o : object) : act object :=
  let! o := (if String.eqb kind "Pod" then default_pod namespace name o else ret o) in
  let o := if String.eqb kind "Job" then default_job o else o in
  let o := if bool_decide (kind ∈ ["Deployment"; "StatefulSet"; "DaemonSet"])
           then oset o "spec" (VMap (applyWorkloadDefaults kind (objectMap (idx o "spec")))) else o in
  ret (if String.eqb kind "Service" then default_service namespace name o else o).

(** What follows a successful write. *)
Definition after_create (gv : groupVersion) (namespace name : string) (description : apiResource) (o : object) : act unit :=
  (if isWorkloadKind (r_kind description) && r_namespaced description then
     materializePods a gv namespace name o ;;; syncEndpointsForNamespace namespace
   else ret tt) ;;;
  (if String.eqb (r_kind description) "Service" then syncEndpointsForNamespace namespace else ret tt) ;;;
  (if String.eqb (r_kind description) "Namespace" then seedNamespaceObjects name else ret tt).

Definition resource_key (gv : groupVersion) (resource namespace name : string) : objectKey :=
  key_of (gv_group gv) (gv_version gv) resource namespace name.
Definition stamp_identity (gv : groupVersion) (namespace name : string) (description : apiResource) (metadata o : object)
    : act object :=
  let! uid_time := now_ns in
  let! created := now_rfc3339 in
  let uid := stableUID (apiVersionFor gv +:+ "/" +:+ namespace +:+ "/" +:+ r_name description +:+ "/" +:+ name +:+ "/" +:+ itoa uid_time) in
  let metadata := foldl (fun m kv => oset m kv.1 kv.2) metadata
    [("name", VStr name); ("uid", VStr uid); ("creationTimestamp", VStr created)] in
  ret (oset (oset (oset o "apiVersion" (VStr (apiVersionFor gv))) "kind" (VStr (r_kind description))) "metadata" (VMap metadata)).
(** The second half of [create]: the object has its name and namespace. *)
Definition create_object (rq : Request) (gv : groupVersion) (namespace name : string) (description : apiResource)
    (metadata o : object) : act reply :=
  let! o := stamp_identity gv namespace name description metadata o in
  let! o := (if has_key o "status" then ret o
             else let! st := syntheticStatus (r_kind description) o in
                  ret (match st with Some m => oset o "status" (VMap m) | None => o end)) in
  let! o := default_object (r_kind description) namespace name o in
  let! '(o, err) := store_put (resource_key gv (r_name description) namespace name) o "ADDED" in
  match err with
  | Some errObjectAlreadyExists =>
      ret (failure 409 "AlreadyExists" (to_lower (r_kind description) +:+ " " +:+ go_quote name +:+ " already exists") name)
  | Some errStoreCapacity => ret capacityError
  | None =>
      after_create gv namespace name description o ;;;
      emitMutation rq "create" o ;;;
      ret (with_header "Location" (rq_path rq +:+ "/" +:+ name) (json 201 (VMap o)))
  end.
Definition create (rq : Request) (gv : groupVersion) (namespace : string) (description : apiResource) : act reply :=
  if r_namespaced description && String.eqb namespace "" then
    ret (failure 400 "BadRequest" "namespaced resources must be created through a namespace path" "")
  else match decodeObject rq with
  | inr e => ret (bodyError e "")
  | inl o =>
  match validateObjectShape o gv description false with
  | Some message => ret (failure 422 "Invalid" message "")
  | None =>
    let name := stringField (metadata_of o) "name" in
    check (ret (create_namespace description namespace name (metadata_of o))) (fun '(namespace, metadata) =>
    let! there := (if negb (String.eqb (r_name description) "namespaces") && r_namespaced description
                   then reads (fun s => namespaceExists s namespace) else ret true) in
    if negb there then
      ret (failure 404 "NotFound" ("namespaces " +:+ go_quote namespace +:+ " not found") namespace)
    else
    check (create_name name metadata) (fun name =>
    create_object rq gv namespace name description metadata o))
  end end.

(** ** [update] *)
Definition write_kind (gv : groupVersion) (description : apiResource) (o metadata : object) : object :=
  oset (oset (oset o "apiVersion" (VStr (apiVersionFor gv))) "kind" (VStr (r_kind description))) "metadata" (VMap metadata).
Definition refresh_status (kind : string) (o : object) : act object :=
  if isWorkloadKind kind then
    let! st := syntheticStatus kind o in ret (oset o "status" (match st with Some m => VMap m | None => VNil end))
  else ret o.
(** The write of [update] and [patch], and what follows it. *)
Definition write_back (rq : Request) (operation : string) (gv : groupVersion) (namespace resourceName name : string)
    (description : apiResource) (o : object) : act reply :=
  let! '(o, err) := store_put (resource_key gv resourceName namespace name) o "MODIFIED" in
  match err with
  | Some _ => ret capacityError
  | None =>
      (if isWorkloadKind (r_kind description) then materializePods a gv namespace name o else ret tt) ;;;
      emitMutation rq operation o ;;;
      ret (json 200 (VMap o))
  end.
Definition update (rq : Request) (gv : groupVersion) (namespace resourceName name : string) (description : apiResource)
    : act reply :=
  match decodeObject rq with
  | inr e => ret (bodyError e name)
  | inl o =>
  match validateObjectShape o gv description false with
  | Some message => ret (failure 422 "Invalid" message name)
  | None =>
    let metadata := metadata_of o in
    let requestedName := stringField metadata "name" in
    let requestedNamespace := stringField metadata "namespace" in
    if String.eqb requestedName "" then ret (failure 422 "Invalid" "metadata.name is required for update" name)
    else if negb (String.eqb requestedName name) then
      ret (failure 400 "BadRequest" "metadata.name must match the request path" name)
    else if negb (String.eqb namespace "") && negb (String.eqb requestedNamespace "") && negb (String.eqb requestedNamespace namespace)
    then ret (failure 400 "BadRequest" "metadata.namespace must match the request namespace" name)
    else
      let metadata := if String.eqb namespace "" then metadata else oset metadata "namespace" (VStr namespace) in
      let! found := store_get (resource_key gv resourceName namespace name) in
      match found with
      | None => ret (kind_not_found description name)
      | Some previous =>
          let previousMetadata := metadata_of previous in
          let metadata := foldl (fun m kv => oset m kv.1 kv.2) metadata
            [("name", VStr name); ("uid", idx previousMetadata "uid");
             ("creationTimestamp", idx previousMetadata "creationTimestamp")] in
          let! o := refresh_status (r_kind description) (write_kind gv description o metadata) in
          write_back rq "update" gv namespace resourceName name description o
      end
  end end.

(** ** [patch]

    A merge patch works on a value.  A JSON patch works on the heap, where
    [copy] and [move] may have made parts of the document share maps; the
    writes that follow it, up to the stamping of [put], are writes to those
    maps. *)
Definition finish_patch (gv : groupVersion) (name : string) (description : apiResource) (current : object) : act object :=
  let current := write_kind gv description current (oset (metadata_of current) "name" (VStr name)) in
  let! current := (if String.eqb (r_kind description) "Pod" then syncEphemeralContainerStatus current else ret current) in
  refresh_status (r_kind description) current.

(** [objectMap] on the heap: the map itself, or a fresh one. *)
Definition h_objectMap (h : heap) (r : rval) : heap * Z :=
  match as_map r with Some p => (h, p) | None => let '(h', _) := alloc h [] in (h', h_next h) end.
Definition h_idx (h : heap) (r : rval) (key : string) : rval :=
  match as_map r with Some p => default (RLeaf VNil) (oget (h_get h p) key) | None => RLeaf VNil end.
Definition h_string (h : heap) (r : rval) (key : string) : string :=
  match h_idx h r key with RLeaf (VStr s) => s | _ => "" end.
Definition h_list (r : rval) : list rval := match r with RList l => l | _ => [] end.
Definition h_put (h : heap) (p : Z) (key : string) (r : rval) : heap := h_set h p (oset (h_get h p) key r).
Fixpoint load_all (h : heap) (l : list val) : heap * list rval :=
  match l with
  | [] => (h, [])
  | v :: l => let '(h, r) := load v h in let '(h, rs) := load_all h l in (h, r :: rs)
  end.

Definition h_write_kind (gv : groupVersion) (name : string) (description : apiResource) (h : heap) (root : Z) : heap :=
  let '(h, meta) := h_objectMap h (h_idx h (RMap root) "metadata") in
  let h := h_put h meta "name" (RLeaf (VStr name)) in
  let h := h_put h root "apiVersion" (RLeaf (VStr (apiVersionFor gv))) in
  let h := h_put h root "kind" (RLeaf (VStr (r_kind description))) in
  h_put h root "metadata" (RMap meta).
Definition h_sync_ephemeral (now : string) (h : heap) (root : Z) : heap :=
  let containers := h_list (h_idx h (h_idx h (RMap root) "spec") "ephemeralContainers") in
  let '(h, st) := h_objectMap h (h_idx h (RMap root) "status") in
  let statuses := h_list (h_idx h (RMap st) "ephemeralContainerStatuses") in
  let existing := map (fun entry => h_string h entry "name") statuses in
  let named := map (fun entry => of_pairs [("name", VStr (h_string h entry "name")); ("image", VStr (h_string h entry "image"))]) containers in
  let '(h, fresh) := load_all h (ephemeral_entries now existing (map VMap named)) in
  let h := h_put h st "ephemeralContainerStatuses" (RList (statuses ++ fresh)) in
  h_put h root "status" (RMap st).
Definition h_refresh_status (kind now : string) (h : heap) (root : Z) : heap :=
  let replicas := match h_idx h (h_idx h (RMap root) "spec") "replicas" with RLeaf VNil => RLeaf (VInt 1) | r => r end in
  let '(h, st) := load (VMap (default [] (status_base kind now []))) h in
  let h := match st with RMap p => foldl (fun h key => h_put h p key replicas) h (replica_keys kind) | _ => h end in
  h_put h root "status" st.
Definition h_finish_patch (gv : groupVersion) (name : string) (description : apiResource) (h : heap) (root : Z) : act heap :=
  let h := h_write_kind gv name description h root in
  let! h := (if String.eqb (r_kind description) "Pod"
                && negb (bool_decide (h_list (h_idx h (h_idx h (RMap root) "spec") "ephemeralContainers") = []))
             then let! now := now_rfc3339 in ret (h_sync_ephemeral now h root) else ret h) in
  if isWorkloadKind (r_kind description)
  then let! now := now_rfc3339 in ret (h_refresh_status (r_kind description) now h root) else ret h.
(** What [put] makes of the map it is given: the stamped document, or the
    refusal of one that cannot be encoded. *)
Definition h_stamp (h : heap) (root : Z) : act (option object) :=
  let! s := reads (fun s => s) in
  let '(h, meta) := h_objectMap h (h_idx h (RMap root) "metadata") in
  let h := h_put h meta "resourceVersion" (RLeaf (VStr (itoa (u64 (st_resourceRev s + 1))))) in
  let h := h_put h root "metadata" (RMap meta) in
  ret (match read_all h (RMap root) with Some (VMap o) => Some o | _ => None end).

Definition write_message (e : writeError) : string :=
  match e with
  | write_root => "document root cannot be modified"
  | write_not_addressable => "patch path is not addressable"
  | write_index leaf => "array index " +:+ go_quote leaf +:+ " is out of range"
  end.
Definition patch_message (e : patchError) : string :=
  match e with
  | patch_test_failed i => "test operation " +:+ itoa (Z.of_nat i) +:+ " failed"
  | patch_missing i => "operation " +:+ itoa (Z.of_nat i) +:+ " references a missing path"
  | patch_failed i e => "operation " +:+ itoa (Z.of_nat i) +:+ ": " +:+ write_message e
  end.
Definition apply_json_patch (rq : Request) (gv : groupVersion) (namespace resourceName name : string)
    (description : apiResource) (current : object) (operations : list object) : act reply :=
  let '(h, doc) := load (VMap current) empty_heap in
  let '(h, ops) := load_operations operations h in
  match applyJSONPatch h doc ops, as_map doc with
  | (_, Some e), _ => ret (failure 422 "Invalid" (patch_message e) name)
  | (h, None), Some root =>
      let! h := h_finish_patch gv name description h root in
      let! stamped := h_stamp h root in
      match stamped with
      | Some o => write_back rq "patch" gv namespace resourceName name description o
      | None => ret capacityError
      end
  | (_, None), None => ret capacityError
  end.
Definition patch (rq : Request) (gv : groupVersion) (namespace resourceName name : string) (description : apiResource)
    : act reply :=
  let! found := store_get (resource_key gv resourceName namespace name) in
  match found with
  | None => ret (kind_not_found description name)
  | Some current =>
      if String.eqb (requestMediaType rq) "application/json-patch+json" then
        match decodeJSONPatch rq with
        | inr e => ret (bodyError e name)
        | inl operations => apply_json_patch rq gv namespace resourceName name description current operations
        end
      else match decodeObject rq with
           | inr e => ret (bodyError e name)
           | inl p =>
               match validateObjectShape p gv description true with
               | Some message => ret (failure 422 "Invalid" message name)
               | None =>
                   let! o := finish_patch gv name description (mergeObject current p) in
                   write_back rq "patch" gv namespace resourceName name description o
               end
           end
  end.

(** ** [delete] *)
Definition success (details : list (string * val)) : reply :=
  json 200 (lit [("apiVersion", VStr "v1"); ("kind", VStr "Status"); ("status", VStr "Success"); ("code", VInt 200);
                 ("details", lit details)]).
Definition delete (rq : Request) (gv : groupVersion) (namespace resourceName name : string) (description : apiResource)
    : act reply :=
  let key := resource_key gv resourceName namespace name in
  let! victim := store_get key in
  let! deleted := store_delete key in
  match deleted with
  | None => ret (kind_not_found description name)
  | Some _ =>
      (if isWorkloadKind (r_kind description) && r_namespaced description then reapOwnedPods namespace name else ret tt) ;;;
      (if String.eqb (r_kind description) "Pod" then respawnDeletedPod a namespace victim else ret tt) ;;;
      (match victim with Some o => emitMutation rq "delete" o | None => ret tt end) ;;;
      ret (success [("name", VStr name); ("kind", VStr (to_lower (r_kind description)))])
  end.

(** *** Slots: a buffered channel used as a counter *)
Definition listSlots_capacity : Z := 4.
Definition watchSlots_capacity : Z := 8.
Definition requestSlots_capacity : Z := 32.
(** The body runs with a list slot taken, which is given back at the end, also
    by a panic; without a free slot the request is refused. *)
Definition with_list_slot (body : act reply) : act reply := fun w =>
  if w_listSlots w <? listSlots_capacity then
    let '(w', r) := body (set_slots w (w_requestSlots w) (w_listSlots w + 1) (w_watchSlots w)) in
    (set_slots w' (w_requestSlots w') (w_listSlots w' - 1) (w_watchSlots w'), r)
  else (w, Some capacityError).

Definition store_deleteMatching (gv : groupVersion) (namespace resource labelSelector fieldSelector : string) : act Z := fun w =>
  let '(s, n) := deleteMatching gv namespace resource labelSelector fieldSelector (w_store w) in (set_store w s, Some n).
Definition deleteCollection (rq : Request) (gv : groupVersion) (namespace : string) (description : apiResource) : act reply :=
  with_list_slot
    (match parseSelector (rq_query rq "labelSelector") with
     | None => ret (failure 400 "BadRequest" "labelSelector is invalid" "")
     | Some _ =>
         if negb (validFieldSelector (rq_query rq "fieldSelector")) then
           ret (failure 400 "BadRequest" "fieldSelector is invalid" "")
         else
           let! deleted := store_deleteMatching gv namespace (r_name description) (rq_query rq "labelSelector")
                             (rq_query rq "fieldSelector") in
           ret (success [("group", VStr (gv_group gv)); ("kind", VStr (to_lower (r_kind description))); ("causes", VList []);
                         ("deleted", VInt deleted)])
     end).

(** ** [list] and [get] *)

(** [requestsTable] of table.go: an [application/json] clause of the Accept
    header with the parameter [as=Table]. *)
Definition table_clause (clause : string) : bool :=
  match split ";" clause with
  | [] => false
  | mediaType :: params =>
      String.eqb (trim_space mediaType) "application/json" &&
      match foldl (fun last part => match cut (trim_space part) "=" with
                                    | Some (key, value) => if String.eqb (to_lower key) "as" then Some value else last
                                    | None => last
                                    end) None params with
      | Some value => String.eqb value "Table"
      | None => false
      end
  end.
Definition requestsTable (rq : Request) : bool := existsb table_clause (split "," (rq_accept rq)).

Definition list_query_of (rq : Request) : list_query :=
  {| q_labelSelector := rq_query rq "labelSelector"; q_fieldSelector := rq_query rq "fieldSelector"; q_limit := rq_query rq "limit";
     q_continue := rq_query rq "continue"; q_resourceVersion := rq_query rq "resourceVersion" |}.
Definition serve_list (rq : Request) (gv : groupVersion) (namespace : string) (description : apiResource) : act reply :=
  with_list_slot
    (let! r := reads (fun s => list_objects s gv namespace (r_name description) (list_query_of rq)) in
     ret (match r with
          | inl refused => of_response refused
          | inr page =>
              if requestsTable rq then {| rp_code := 200; rp_headers := []; rp_body := BTable gv description (lp_items page) |}
              else json 200 (VMap (list_document gv (r_kind description) page))
          end)).
Definition get_object (rq : Request) (gv : groupVersion) (namespace resourceName name : string) (description : apiResource) : act reply :=
  let! found := store_get (resource_key gv resourceName namespace name) in
  ret (match found with
       | None => kind_not_found description name
       | Some o => if requestsTable rq then {| rp_code := 200; rp_headers := []; rp_body := BTable gv description [o] |}
                   else json 200 (VMap o)
       end).

(** ** [watch], up to its stream

    A refusal, or the registered watcher, the seconds the stream lasts and the
    objects replayed first; [watch_close] is what the end of the request does. *)
Record watch_stream := { ws_watcher : watcher; ws_seconds : Z; ws_replay : list object }.
Definition store_watch (gv : groupVersion) (namespace resource : string) (labels fields : list selectorRequirement) : act watcher :=
  fun w => let '(s, wa) := watch gv namespace resource labels fields (w_store w) in (set_store w s, Some wa).
Definition watch_seconds (raw : string) : option Z :=
  if String.eqb raw "" then Some 5
  else match atoi raw with
       | Some parsed => if parsed <? 0 then None else Some (if (0 <? parsed) && (parsed <? 5) then parsed else 5)
       | None => None
       end.
Definition watch_open (rq : Request) (gv : groupVersion) (namespace resource : string) : act (reply + watch_stream) := fun w =>
  if watchSlots_capacity <=? w_watchSlots w then (w, Some (inl capacityError))
  else
    let refuse message := (w, Some (inl (failure 400 "BadRequest" message ""))) in
    match parseSelector (rq_query rq "labelSelector") with
    | None => refuse "labelSelector is invalid"
    | Some labels =>
        if negb (validFieldSelector (rq_query rq "fieldSelector")) then refuse "fieldSelector is invalid"
        else match watch_seconds (rq_query rq "timeoutSeconds") with
             | None => refuse "timeoutSeconds must be a non-negative integer"
             | Some seconds =>
                 let fields := default [] (parseSelector (rq_query rq "fieldSelector")) in
                 let w := set_slots w (w_requestSlots w) (w_listSlots w) (w_watchSlots w + 1) in
                 (let! wa := store_watch gv namespace resource labels fields in
                  let! replay := (if bool_decide (rq_query rq "resourceVersion" ∈ [""; "0"])
                                  then let! r := store_list gv namespace resource labels fields 0 maxListPageItems in
                                       ret (default [] (page_items r))
                                  else ret []) in
                  ret (inr {| ws_watcher := wa; ws_seconds := seconds; ws_replay := replay |})) w
             end
    end.
Definition watch_close (stream : watch_stream) : act unit := fun w =>
  let w := set_store w (unwatch (ws_watcher stream) (w_store w)) in
  (set_slots w (w_requestSlots w) (w_listSlots w) (w_watchSlots w - 1), Some tt).

(** ** Subresources *)
Definition method_not_allowed (allow message name : string) : reply :=
  with_header "Allow" allow (failure 405 "MethodNotAllowed" message name).

Definition serveEviction (rq : Request) (namespace name : string) : act reply :=
  if negb (String.eqb (rq_method rq) "POST") then ret (method_not_allowed "POST" "only POST is supported for evictions" name)
  else
    let! deleted := store_delete (core "pods" namespace name) in
    ret (match deleted with
         | None => not_found_object "pods" name
         | Some _ => json 201 (lit [("apiVersion", VStr "policy/v1"); ("kind", VStr "Eviction");
                                    ("metadata", lit [("name", VStr name); ("namespace", VStr namespace)])])
         end).

Definition syntheticJWT (namespace name : string) : string :=
  let header := base64_raw_url (q "{'alg':'RS256','kid':'" +:+ suffixFor "kid" 0 +:+ q "'}") in
  let claims := base64_raw_url
    (q "{'iss':'https://kubernetes.default.svc.cluster.local','kubernetes.io/serviceaccount/namespace':'" +:+ namespace
     +:+ q "','kubernetes.io/serviceaccount/service-account.name':'" +:+ name
     +:+ q "','sub':'system:serviceaccount:" +:+ namespace +:+ ":" +:+ name +:+ q "'}") in
  let signature := base64_raw_url (stableUID ("sig/" +:+ namespace +:+ "/" +:+ name)) in
  header +:+ "." +:+ claims +:+ "." +:+ signature.
Definition serveTokenRequest (rq : Request) (namespace name : string) : act reply :=
  if negb (String.eqb (rq_method rq) "POST") then ret (method_not_allowed "POST" "only POST is supported for token requests" name)
  else
    let! found := store_get (core "serviceaccounts" namespace name) in
    match found with
    | None => ret (not_found_object "serviceaccounts" name)
    | Some _ =>
        let token := syntheticJWT namespace name in
        let! created := now_rfc3339 in
        let! t := now in
        ret (json 201 (lit
          [("apiVersion", VStr "authentication.k8s.io/v1"); ("kind", VStr "TokenRequest");
           ("metadata", lit [("name", VStr name); ("namespace", VStr namespace); ("creationTimestamp", VStr created)]);
           ("status", lit [("token", VStr token); ("expirationTimestamp", VStr (rfc3339 (t + 3600)))])]))
    end.

Definition scaleOf (o : object) : object :=
  let metadata := metadata_of o in
  let replicas := idx (objectMap (idx o "spec")) "replicas" in
  of_pairs
    [("apiVersion", VStr "autoscaling/v1"); ("kind", VStr "Scale");
     ("metadata", lit (map (fun k => (k, idx metadata k)) ["name"; "namespace"; "uid"; "resourceVersion"; "creationTimestamp"]));
     ("spec", lit [("replicas", replicas)]); ("status", lit [("replicas", replicas)])].
Definition with_replicas (o : object) (replicas : val) : object :=
  let o := oset o "spec" (VMap (oset (objectMap (idx o "spec")) "replicas" replicas)) in
  match oget o "status" with
  | Some (VMap m) => oset o "status" (VMap (set_keys m ["replicas"; "readyReplicas"; "availableReplicas"; "updatedReplicas"] replicas))
  | _ => o
  end.
Definition serveScale (rq : Request) (gv : groupVersion) (namespace resourceName name : string) : act reply :=
  let key := resource_key gv resourceName namespace name in
  let! found := store_get key in
  match found with
  | None => ret (not_found_object (trim_suffix resourceName "s") name)
  | Some o =>
      if String.eqb (rq_method rq) "GET" then ret (json 200 (VMap (scaleOf o)))
      else if negb (String.eqb (rq_method rq) "PUT") && negb (String.eqb (rq_method rq) "PATCH") then
        ret (method_not_allowed "GET, PUT, PATCH" "only GET, PUT, and PATCH are supported for scale" name)
      else match decodeObject rq with
      | inr e => ret (bodyError e name)
      | inl p =>
          match oget (objectMap (idx p "spec")) "replicas" with
          | None => ret (json 200 (VMap (scaleOf o)))
          | Some replicas =>
              let! '(o, err) := store_put key (with_replicas o replicas) "MODIFIED" in
              match err with
              | Some _ => ret capacityError
              | None =>
                  (match items_of_gv (a_resources a) gv !! resourceName with
                   | Some description => if isWorkloadKind (r_kind description) then materializePods a gv namespace name o else ret tt
                   | None => ret tt
                   end) ;;;
                  ret (json 200 (VMap (scaleOf o)))
              end
          end
      end
  end.

(** ** Pod logs *)
Definition podContainerImage (pod : object) (container : string) : string :=
  match List.find (fun item => String.eqb (stringField (objectMap item) "name") container)
          (objectList (idx (objectMap (idx pod "spec")) "containers")) with
  | Some item => stringField (objectMap item) "image"
  | None => ""
  end.
Definition syntheticPodLog (pod : object) (container : string) : list string :=
  let image := podContainerImage pod container in
  map q
  (if contains image "coredns" then
     [".:53"; "CoreDNS-1.11.3"; "linux/amd64, go1.22.5";
      "[INFO] plugin/kubernetes: waiting for Kubernetes API";
      "[INFO] plugin/ready: Still waiting on: 'kubernetes'";
      "[INFO] plugin/reload: Running configuration SHA512 = 591cfbfcccc34f6c1bb255af4c3b1e31ba8e51be7a9f20d0d5a8d0b0e6a1a4f0";
      "CoreDNS-1.11.3";
      "[INFO] 127.0.0.1:47278 - 36888 'HINFO IN 5897144097345822150.7841117492784195755.' udp 57 false 512 -";
      "[INFO] plugin/ready: Still waiting on: 'kubernetes'"]
   else if contains image "kube-proxy" then
     ["I0924 12:51:02.184634       1 server.go:677] 'Watching pods' podCIDR=''";
      "I0924 12:51:02.189912       1 node.go:163] Successfully retrieved node IP";
      "I0924 12:51:02.190211       1 server_others.go:190] 'Using iptables proxy'";
      "I0924 12:51:02.209145       1 server.go:243] 'Kube-proxy is running' version='v1.37.0'";
      "I0924 12:51:02.212988       1 conntrack.go:60] 'Setting nf_conntrack_max' nfConntrackMax=131072";
      "I0924 12:51:03.412008       1 proxier.go:802] 'Syncing iptables rules'";
      "I0924 12:51:03.460114       1 bounded_frequency_runner.go:296] sync-runner: ran, next possible in 0s"]
   else if contains image "metrics-server" then
     ["I0924 12:51:03.022145       1 serving.go:342] 'Generated self-signed cert'";
      "I0924 12:51:03.732210       1 handler.go:275] 'Adding GroupVersion metrics.k8s.io v1beta1 to ResourceManager'";
      "I0924 12:51:04.109331       1 secure_serving.go:213] Serving securely on [::]:4443";
      "I0924 12:51:04.117802       1 requestheader_controller.go:169] 'Starting RequestHeaderAuthRequestController'";
      "I0924 12:51:05.420076       1 scraper.go:149] 'Scraping node' node='control-plane-01'"]
   else if contains image "redis" then
     ["1:C 24 Sep 2026 12:51:02.005 # oO0OoO0OoO0Oo Redis is starting oO0OoO0OoO0Oo";
      "1:C 24 Sep 2026 12:51:02.006 # Redis version=7.4.0, just started";
      "1:M 24 Sep 2026 12:51:02.031 * monotonic clock: POSIX clock_gettime";
      "1:M 24 Sep 2026 12:51:02.033 * Running mode=standalone, port=6379.";
      "1:M 24 Sep 2026 12:51:02.041 # Server initialized";
      "1:M 24 Sep 2026 12:51:02.043 * Ready to accept connections tcp"]
   else if contains image "nginx" then
     ["/docker-entrypoint.sh: Configuration complete; ready for start up";
      "2026/09/24 12:51:02 [notice] 1#1: using the 'epoll' event method";
      "2026/09/24 12:51:02 [notice] 1#1: nginx/1.30.5";
      "2026/09/24 12:51:02 [notice] 1#1: start worker processes"]
   else [])
  ++ (if existsb (contains image) ["coredns"; "kube-proxy"; "metrics-server"; "redis"; "nginx"] then []
      else [q "I0924 12:51:02.115512       1 main.go:46] 'Starting' component=" +:+ container;
            q "I0924 12:51:02.188240       1 main.go:88] 'Connected to apiserver'";
            q "I0924 12:51:03.402178       1 server.go:140] 'Listening' address=':8080'";
            q "I0924 12:51:04.221905       1 main.go:120] 'Ready' component=" +:+ container]).

(** The last [tail] lines; [None] for a parameter that is refused. *)
Definition tail_lines (raw : string) (lines : list string) : option (list string) :=
  if String.eqb raw "" then Some lines
  else match atoi raw with
       | Some tail =>
           if tail <? 0 then None
           else Some (if tail <? Z.of_nat (length lines) then drop (length lines - Z.to_nat tail) lines else lines)
       | None => None
       end.
(** Line [i] is dated two seconds after the one before it. *)
Fixpoint log_text (startedAt now since : Z) (timestamps : bool) (i : Z) (lines : list string) : string :=
  match lines with
  | [] => ""
  | line :: lines =>
      let at_ := startedAt + 2 * i in
      let age := Z.max min_int64 (Z.min max_int64 (now - at_ * 10 ^ 9)) in
      (if (0 <? since) && (i64 (since * 10 ^ 9) <? age) then ""
       else (if timestamps then rfc3339 at_ +:+ " " else "") +:+ line +:+ newline)
      +:+ log_text startedAt now since timestamps (i + 1) lines
  end.
Definition limit_bytes (raw output : string) : string :=
  match (if String.eqb raw "" then None else atoi raw) with
  | Some limit => if (0 <? limit) && (limit <? slen output) then str_take (Z.to_nat limit) output else output
  | None => output
  end.
Definition since_seconds (raw : string) : Z :=
  match (if String.eqb raw "" then None else atoi raw) with
  | Some parsed => if 0 <? parsed then parsed else 0
  | None => 0
  end.
Definition servePodLog (rq : Request) (namespace name : string) : act reply :=
  let! found := store_get (core "pods" namespace name) in
  match found with
  | None => ret (not_found_object "pods" name)
  | Some pod =>
      let containers := match podContainerNames pod with [] => ["main"] | l => l end in
      let requested := rq_query rq "container" in
      if negb (String.eqb requested "") && negb (bool_decide (requested ∈ containers)) then
        ret (failure 400 "BadRequest" ("container " +:+ go_quote requested +:+ " is not valid for pod " +:+ go_quote name) name)
      else
        let requested := if String.eqb requested "" then hd "" containers else requested in
        if String.eqb (rq_query rq "previous") "true" then
          ret (failure 400 "BadRequest" ("previous terminated container " +:+ go_quote requested +:+ " in pod " +:+ go_quote name +:+ " not found") name)
        else match tail_lines (rq_query rq "tailLines") (syntheticPodLog pod requested) with
        | None => ret (failure 400 "BadRequest" ("tailLines must be a positive integer: " +:+ go_quote (rq_query rq "tailLines")) name)
        | Some lines =>
            let! t := now_ns in
            let! startedAt := reads st_startedAt in
            let output := log_text startedAt t (since_seconds (rq_query rq "sinceSeconds"))
                            (String.eqb (rq_query rq "timestamps") "true") 0 lines in
            ret {| rp_code := 200; rp_headers := [];
                   rp_body := BText "text/plain; charset=utf-8" (limit_bytes (rq_query rq "limitBytes") output) |}
        end
  end.

(** ** Reviews and metrics *)
Definition serveAccessReview (rq : Request) (description : apiResource) : act reply :=
  if negb (String.eqb (rq_method rq) "POST") then ret (method_not_allowed "POST" "only POST is supported for access reviews" "")
  else match decodeObject rq with
  | inr e => ret (bodyError e "")
  | inl o =>
      let! now := now_rfc3339 in
      let spec := match oget o "spec" with Some spec => spec | None => VMap [] end in
      let st := if String.eqb (r_name description) "selfsubjectrulesreviews" then
          lit [("incomplete", VBool false);
               ("resourceRules", VList [lit [("verbs", VStrList ["*"]); ("apiGroups", VStrList ["*"]); ("resources", VStrList ["*"])]]);
               ("nonResourceRules", VList [lit [("verbs", VStrList ["*"]); ("nonResourceURLs", VStrList ["*"])]])]
        else
          lit [("allowed", VBool true);
               ("reason", VStr (q "RBAC: allowed by ClusterRoleBinding 'system:discovery' of ClusterRole 'cluster-admin' to Group 'system:unauthenticated'"))] in
      ret (json 201 (lit
        [("apiVersion", VStr "authorization.k8s.io/v1"); ("kind", VStr (r_kind description));
         ("metadata", lit [("creationTimestamp", VStr now)]); ("spec", spec); ("status", st)]))
  end.

Definition syntheticUsage (key : string) : string * string :=
  let digest := sha256 ("metrics.k8s.io/" +:+ key) in
  (itoa (15 + nth 0 digest 0 mod 600) +:+ "m", itoa (64 + nth 1 digest 0 mod 1900) +:+ "Mi").
Definition usage (key : string) : val :=
  let '(cpu, memory) := syntheticUsage key in VStrMap [("cpu", cpu); ("memory", memory)].
Definition metrics_item (kind : string) (metadata : list (string * val)) (timestamp : string) (rest : string * val) : val :=
  lit [("apiVersion", VStr "metrics.k8s.io/v1beta1"); ("kind", VStr kind); ("metadata", lit metadata);
       ("timestamp", VStr timestamp); ("window", VStr "30s"); rest].
Definition node_metrics (timestamp : string) (node : object) : val :=
  let nodeName := stringField (metadata_of node) "name" in
  metrics_item "NodeMetrics" [("name", VStr nodeName)] timestamp ("usage", usage nodeName).
Definition pod_metrics (timestamp : string) (pod : object) : val :=
  let podName := stringField (metadata_of pod) "name" in
  metrics_item "PodMetrics" [("name", VStr podName); ("namespace", idx (metadata_of pod) "namespace")] timestamp
    ("containers", VList (map (fun container =>
       lit [("name", VStr container); ("usage", usage (podName +:+ "/" +:+ container))]) (podContainerNames pod))).
Definition serveMetrics (rq : Request) (description : apiResource) (namespace name : string) : act reply :=
  if negb (String.eqb (rq_method rq) "GET") then ret (method_not_allowed "GET" "only GET is supported for metrics" "")
  else
    let! timestamp := now_rfc3339 in
    let nodes := String.eqb (r_name description) "nodes" in
    let! found := (if nodes then list_all (GV "" "v1") "" "nodes" else list_all (GV "" "v1") namespace "pods") in
    ret (match found with
         | None => failure 500 "InternalError" "metrics are temporarily unavailable" ""
         | Some objects =>
             let named := List.filter (fun o => String.eqb name "" || String.eqb (stringField (metadata_of o) "name") name) objects in
             let items := map (if nodes then node_metrics timestamp else pod_metrics timestamp) named in
             if negb (String.eqb name "") then
               match items with
               | [] => kind_not_found description name
               | item :: _ => json 200 item
               end
             else json 200 (lit
               [("apiVersion", VStr "metrics.k8s.io/v1beta1"); ("kind", VStr (r_kind description +:+ "List")); ("metadata", VMap []);
                ("items", match items with [] => VNil | _ => VList items end)])
         end).

(** ** Dispatch

    A watch request answers with its stream instead of a document. *)
Inductive outcome := replied (r : reply) | streaming (s : watch_stream).
Definition reply_with (m : act reply) : act outcome := let! r := m in ret (replied r).
Definition serve_watch (rq : Request) (gv : groupVersion) (namespace resource : string) : act outcome :=
  let! r := watch_open rq gv namespace resource in
  ret (match r with inl refused => replied refused | inr stream => streaming stream end).

Definition core_gv : groupVersion := GV "" "v1".
Definition unknown_subresource : reply := failure 404 "NotFound" "the server could not find the requested resource" "".
Definition upgrade_required (name : string) : reply := failure 400 "BadRequest" "Upgrade request required" name.
Definition described (gv : groupVersion) (resourceName : string) : option apiResource :=
  items_of_gv (a_resources a) gv !! resourceName.
Definition serve_status (rq : Request) (gv : groupVersion) (namespace resourceName name : string) : act reply :=
  if String.eqb (rq_method rq) "GET" then
    let! found := store_get (resource_key gv resourceName namespace name) in
    ret (match found with Some o => json 200 (VMap o) | None => not_found_object (trim_suffix resourceName "s") name end)
  else match described gv resourceName with
       | Some description =>
           if String.eqb (rq_method rq) "PATCH" then patch rq gv namespace resourceName name description
           else if String.eqb (rq_method rq) "PUT" then update rq gv namespace resourceName name description
           else ret unknown_subresource
       | None => ret unknown_subresource
       end.
Definition serve_ephemeral (rq : Request) (gv : groupVersion) (namespace resourceName name : string) : act reply :=
  let read := let! found := store_get (resource_key gv resourceName namespace name) in
              ret (match found with Some o => json 200 (VMap o) | None => not_found_object "pods" name end) in
  if String.eqb (rq_method rq) "PATCH" then
    match described gv resourceName with
    | Some description => patch rq gv namespace resourceName name description
    | None => read
    end
  else read.
Definition serveSubresource (rq : Request) (gv : groupVersion) (namespace resourceName name subresource : string) : act reply :=
  let pods := String.eqb resourceName "pods" in
  let is_core := bool_decide (gv = core_gv) in
  if String.eqb name "" then ret unknown_subresource
  else if String.eqb subresource "eviction" && is_core && pods then serveEviction rq namespace name
  else if String.eqb subresource "scale" && bool_decide (gv = GV "apps" "v1")
          && bool_decide (resourceName ∈ ["deployments"; "statefulsets"; "replicasets"])
  then serveScale rq gv namespace resourceName name
  else if String.eqb subresource "token" && is_core && String.eqb resourceName "serviceaccounts"
  then serveTokenRequest rq namespace name
  else if negb is_core then ret unknown_subresource
  else if String.eqb subresource "ephemeralcontainers" && pods then serve_ephemeral rq gv namespace resourceName name
  else if String.eqb subresource "log" && pods then servePodLog rq namespace name
  else if bool_decide (subresource ∈ ["exec"; "attach"; "portforward"]) && pods then ret (upgrade_required name)
  else if String.eqb subresource "proxy" && bool_decide (resourceName ∈ ["pods"; "services"; "nodes"])
  then ret (upgrade_required name)
  else if String.eqb subresource "status" then serve_status rq gv namespace resourceName name
  else ret unknown_subresource.

(** Namespace, resource, name and subresource of a path below the version. *)
Record target := { t_namespace : string; t_resource : string; t_name : string; t_subresource : option string }.
Definition parse_target (parts : list string) : option target :=
  match parts with
  | [] => None
  | first :: rest =>
      match String.eqb first "namespaces", rest with
      | true, ns :: resource :: rest =>
          Some {| t_namespace := ns; t_resource := resource; t_name := hd "" rest; t_subresource := nth_error rest 1 |}
      | _, _ => Some {| t_namespace := ""; t_resource := first; t_name := hd "" rest; t_subresource := nth_error rest 1 |}
      end
  end.
Definition serve_methods (rq : Request) (gv : groupVersion) (namespace resourceName name : string) (description : apiResource)
    : act reply :=
  let not_allowed message := ret (failure 405 "MethodNotAllowed" message "") in
  let collection := String.eqb name "" in
  let method := rq_method rq in
  if String.eqb method "GET" then
    if collection then serve_list rq gv namespace description else get_object rq gv namespace resourceName name description
  else if String.eqb method "POST" then
    if collection then create rq gv namespace description else not_allowed "POST is supported only on resource collections"
  else if String.eqb method "PUT" then
    if collection then not_allowed "PUT requires a resource name" else update rq gv namespace resourceName name description
  else if String.eqb method "PATCH" then
    if collection then not_allowed "PATCH requires a resource name" else patch rq gv namespace resourceName name description
  else if String.eqb method "DELETE" then
    if collection then deleteCollection rq gv namespace description else delete rq gv namespace resourceName name description
  else ret (method_not_allowed "GET, POST, PUT, PATCH, DELETE" "method is not supported for this resource" "").
Definition serveResourcePath (rq : Request) (gv : groupVersion) (parts : list string) : act outcome :=
  match parse_target parts with
  | None => ret (replied (notFound rq))
  | Some t =>
      let namespace := t_namespace t in
      let resourceName := t_resource t in
      let name := t_name t in
      match t_subresource t with
      | Some subresource => reply_with (serveSubresource rq gv namespace resourceName name subresource)
      | None =>
          match described gv resourceName with
          | None => ret (replied (notFound rq))
          | Some description =>
              if negb (r_namespaced description) && negb (String.eqb namespace "") then
                ret (replied (failure 404 "NotFound" "the requested resource is not namespaced" ""))
              else if r_namespaced description && String.eqb namespace "" && negb (String.eqb name "") then
                ret (replied (failure 404 "NotFound" "named namespaced resources require a namespace in the request path" name))
              else if bool_decide (gv = metricsGroupVersion) then reply_with (serveMetrics rq description namespace name)
              else if bool_decide (gv = authorizationGroupVersion) then reply_with (serveAccessReview rq description)
              else if bool_decide (rq_query rq "watch" ∈ ["true"; "1"]) then
                if negb (String.eqb name "") || negb (String.eqb (rq_method rq) "GET") then
                  ret (replied (failure 400 "BadRequest" "watch is supported only on resource collections" ""))
                else serve_watch rq gv namespace resourceName
              else reply_with (serve_methods rq gv namespace resourceName name description)
          end
      end
  end.

(** ** [ServeHTTP] *)

(** [path.Clean] of a rooted path, and [splitPath]: empty and dot segments
    vanish, a double dot removes the segment before it. *)
Fixpoint clean_segments (rooted : bool) (acc : list string) (l : list string) : list string :=
  match l with
  | [] => acc
  | s :: l =>
      if String.eqb s "" || String.eqb s "." then clean_segments rooted acc l
      else if String.eqb s ".." then
        match rev acc with
        | [] => clean_segments rooted (if rooted then [] else [".."]) l
        | last :: _ => if String.eqb last ".." then clean_segments rooted (acc ++ [".."]) l
                       else clean_segments rooted (removelast acc) l
        end
      else clean_segments rooted (acc ++ [s]) l
  end.
Definition splitPath (raw : string) : list string := clean_segments (has_prefix raw "/") [] (split "/" raw).

Definition health_paths : list string :=
  ["/healthz"; "/livez"; "/readyz"; "/healthz/etcd"; "/healthz/poststarthook"; "/healthz/log"; "/livez/etcd";
   "/livez/poststarthook"; "/readyz/etcd"; "/readyz/poststarthook"; "/readyz/informer-sync"; "/readyz/verbose";
   "/healthz/verbose"; "/livez/verbose"; "/readyz/shutdown"].
(** Where a path leads: the documents of discovery and OpenAPI, or an object. *)
Inductive route :=
  | to_health | to_metrics | to_version | to_openapi_v2 | to_openapi_v3_index | to_openapi_v3 (segments : list string)
  | to_root | to_api_versions | to_core_resources | to_groups | to_group (group : string) | to_group_version (gv : groupVersion)
  | to_resource (gv : groupVersion) (parts : list string) | to_unserved_core | to_not_found.
Definition route_of (path : string) : route :=
  if bool_decide (path ∈ health_paths) then to_health
  else if String.eqb path "/metrics" then to_metrics
  else if String.eqb path "/version" then to_version
  else if String.eqb path "/openapi/v2" then to_openapi_v2
  else if String.eqb path "/openapi/v3" || String.eqb path "/openapi/v3/" then to_openapi_v3_index
  else if String.eqb path "/" then to_root
  else if String.eqb path "/api" then to_api_versions
  else if String.eqb path "/api/v1" then to_core_resources
  else if String.eqb path "/apis" then to_groups
  else match splitPath path with
       | "openapi" :: "v3" :: (_ :: _) as segments => to_openapi_v3 (drop 2 segments)
       | ["apis"; group] => to_group group
       | ["apis"; group; version] => to_group_version (GV group version)
       | "apis" :: group :: version :: parts => to_resource (GV group version) parts
       | "api" :: version :: parts =>
           if negb (String.eqb version "v1") then to_unserved_core
           else match parts with [] => to_core_resources | _ => to_resource core_gv parts end
       | _ => to_not_found
       end.

Definition versionInfo : list (string * string) :=
  of_pairs
    [("major", "1"); ("minor", trim_prefix (a_version a) "v1."); ("gitVersion", a_version a +:+ ".0");
     ("gitCommit", hex_bytes (take 20 (sha256 ("helix-honeypot/" +:+ a_version a)))); ("gitTreeState", "clean");
     ("buildDate", rfc3339 (a_startedAt a)); ("goVersion", "go1.24.4"); ("compiler", "gc"); ("platform", "linux/amd64")].
Definition metrics_entries : list (string * string * string) :=
  [("GET", "namespaces", "200"); ("GET", "pods", "200"); ("LIST", "pods", "200"); ("GET", "secrets", "200");
   ("WATCH", "pods", "200"); ("POST", "pods", "201"); ("GET", "nodes", "200"); ("GET", "secrets", "404")].
Definition apiserverMetrics : string :=
  "# HELP apiserver_request_total [STABLE] Counter of apiserver requests broken out for each verb, dry run value, group, version, resource, subresource, scope, component, and HTTP response code." +:+ newline +:+
  "# TYPE apiserver_request_total counter" +:+ newline +:+
  str_concat (map (fun '(verb, resource, code) =>
    q "apiserver_request_total{component='apiserver',code='" +:+ code +:+ q "',dry_run='',group='',resource='" +:+ resource
    +:+ q "',scope='cluster',subresource='',verb='" +:+ verb +:+ q "',version='v1'} "
    +:+ itoa (1 + digestByte (verb +:+ resource) mod 48) +:+ newline) metrics_entries) +:+
  "# HELP apiserver_request_duration_seconds [STABLE] Response latency distribution in seconds for each verb, dry run value, group, version, resource, subresource, scope, and component." +:+ newline +:+
  "# TYPE apiserver_request_duration_seconds histogram" +:+ newline +:+
  "# HELP go_goroutines [STABLE] Number of goroutines that currently exist." +:+ newline +:+
  "# TYPE go_goroutines gauge" +:+ newline +:+ "go_goroutines 213" +:+ newline +:+
  "# HELP etcd_request_duration_seconds [STABLE] Etcd request latencies in seconds for each operation and object type." +:+ newline +:+
  "# TYPE etcd_request_duration_seconds histogram" +:+ newline.

(** A document of discovery is named, its content is a matter of [Catalog]. *)
Inductive answer := answered (o : outcome) | document (r : route).
Definition dispatch (rq : Request) : act answer :=
  let reply r := ret (answered (replied r)) in
  match route_of (rq_path rq) with
  | to_health => reply {| rp_code := 200; rp_headers := []; rp_body := BText "text/plain; charset=UTF-8" "ok" |}
  | to_metrics => reply {| rp_code := 200; rp_headers := [];
                           rp_body := BText "text/plain; version=0.0.4; charset=utf-8" apiserverMetrics |}
  | to_version => reply (json 200 (VStrMap versionInfo))
  | to_api_versions => reply (json 200 (lit
      [("kind", VStr "APIVersions"); ("apiVersion", VStr "v1"); ("versions", VStrList ["v1"]);
       ("serverAddressByClientCIDRs", VList [slit [("clientCIDR", "0.0.0.0/0"); ("serverAddress", a_serverAddress a)]])]))
  | to_unserved_core => reply (failure 404 "NotFound" "the requested core API version is not served" "")
  | to_not_found => reply (notFound rq)
  | to_resource gv parts => let! o := serveResourcePath rq gv parts in ret (answered o)
  | r => ret (document r)
  end.
(** Every request holds one of 32 slots while it runs. *)
Definition ServeHTTP (rq : Request) : act answer := fun w =>
  if w_requestSlots w <? requestSlots_capacity then
    let '(w', r) := dispatch rq (set_slots w (w_requestSlots w + 1) (w_listSlots w) (w_watchSlots w)) in
    (set_slots w' (w_requestSlots w' - 1) (w_listSlots w') (w_watchSlots w'), r)
  else (w, Some (answered (replied (failure 429 "TooManyRequests" "request has been rate limited" "")))).
End api.
