(* ===== verification/ApiProps.v ===== *)
(** * The object handlers: properties

    Reads are reads, slots are given back, what each handler may write, and the
    contracts of [create], [update], [patch] and [delete]. *)
From S2P Require Import Prelude GoStrings GoCodec ConfigModel Value Json Names Selector Catalog Store StoreFacts StoreProps Listing World Controllers ControllerProps Seed SeedProps Patch JsonPatch Proto Request Api.

#[local] Set Warnings "-clear-no-such-hyp,-notation-for-abbreviation".
#[local] Open Scope string_scope.
#[local] Open Scope list_scope.
#[local] Open Scope Z_scope.

Create HintDb reading.

(** ** Reads *)
Section reads.
Context {EN : Env} {PW : Protowire} {YM : Yaml} (a : API).

(** An action that returns and leaves store, events and slots alone; it may
    read the clock. *)
Record same_world (w w' : world) : Prop := {
  sw_store : w_store w' = w_store w; sw_events : w_events w' = w_events w;
  sw_requests : w_requestSlots w' = w_requestSlots w; sw_lists : w_listSlots w' = w_listSlots w;
  sw_watches : w_watchSlots w' = w_watchSlots w;
}.
Definition pure_read {A} (m : act A) : Prop := forall w, same_world w (m w).1 /\ is_Some (m w).2.

Lemma same_world_refl w : same_world w w.
Proof. by split. Qed.
Lemma same_world_trans w1 w2 w3 : same_world w1 w2 -> same_world w2 w3 -> same_world w1 w3.
Proof. intros [????] []. split; congruence. Qed.
Lemma pure_ret {A} (x : A) : pure_read (ret x).
Proof. intros w. split; [apply same_world_refl|by eexists]. Qed.
Lemma pure_bind {A B} (m : act A) (k : A -> act B) : pure_read m -> (forall x, pure_read (k x)) -> pure_read (bind m k).
Proof.
  intros Hm Hk w. unfold bind. destruct (Hm w) as [H1 [x Hx]]. destruct (m w) as [w' o]. cbn [fst snd] in *. subst o.
  destruct (Hk x w') as [H2 H3]. split; [by eapply same_world_trans|done].
Qed.
Lemma pure_reads {A} (f : objectStore -> A) : pure_read (reads f).
Proof. intros w. split; [apply same_world_refl|by eexists]. Qed.
Lemma pure_now_ns : pure_read now_ns.
Proof. intros w. split; [by split|by eexists]. Qed.
Lemma pure_now : pure_read now.
Proof. apply pure_bind; [apply pure_now_ns|]. intros. apply pure_ret. Qed.
Lemma pure_now_rfc3339 : pure_read now_rfc3339.
Proof. apply pure_bind; [apply pure_now|]. intros. apply pure_ret. Qed.
Lemma pure_list_slot body : pure_read body -> pure_read (with_list_slot body).
Proof.
  intros Hb w. unfold with_list_slot. destruct (_ <? _); [|split; [apply same_world_refl|by eexists]].
  set (w1 := set_slots _ _ _ _). destruct (Hb w1) as [[H1 H2 H3 H4 H5] H6]. destruct (body w1) as [w' r]. cbn [fst snd] in *.
  split; [|done]. split; cbn [w_store w_events w_requestSlots w_listSlots w_watchSlots set_slots]; try done.
  rewrite H4. cbn. lia.
Qed.
#[local] Hint Resolve pure_ret pure_reads pure_now pure_now_ns pure_now_rfc3339 : reading.
Ltac reading := repeat first
  [ solve [eauto with reading] | progress unfold store_get, store_list, list_all
  | apply pure_bind; [|intros ?] | case_match ].

Lemma pure_status rq gv ns r n : rq_method rq = "GET" -> pure_read (serve_status a rq gv ns r n).
Proof. intros Hm. unfold serve_status. rewrite Hm. cbn [String.eqb]. change (String.eqb "GET" "GET") with true. reading. Qed.
Lemma pure_ephemeral rq gv ns r n : rq_method rq = "GET" -> pure_read (serve_ephemeral a rq gv ns r n).
Proof. intros Hm. unfold serve_ephemeral. rewrite Hm. change (String.eqb "GET" "PATCH") with false. reading. Qed.
Lemma pure_scale rq gv ns r n : rq_method rq = "GET" -> pure_read (serveScale a rq gv ns r n).
Proof. intros Hm. unfold serveScale. rewrite Hm. change (String.eqb "GET" "GET") with true. reading. Qed.
Lemma pure_log rq ns n : pure_read (servePodLog rq ns n).
Proof. unfold servePodLog. reading. Qed.
Lemma pure_metrics rq d ns n : pure_read (serveMetrics rq d ns n).
Proof. unfold serveMetrics. reading. Qed.
Lemma pure_subresource rq gv ns r n sub : rq_method rq = "GET" -> pure_read (serveSubresource a rq gv ns r n sub).
Proof.
  intros Hm. unfold serveSubresource, serveEviction, serveTokenRequest. rewrite Hm. change (negb (String.eqb "GET" "POST")) with true.
  repeat case_match; eauto using pure_ret, pure_scale, pure_ephemeral, pure_log, pure_status.
Qed.
Lemma pure_methods rq gv ns r n d : rq_method rq = "GET" -> pure_read (serve_methods a rq gv ns r n d).
Proof.
  intros Hm. unfold serve_methods. rewrite Hm. change (String.eqb "GET" "GET") with true. destruct (String.eqb n "").
  - unfold serve_list. apply pure_list_slot. reading.
  - unfold get_object. reading.
Qed.
Lemma pure_resource_path rq gv parts : rq_method rq = "GET" -> rq_query rq "watch" ∉ ["true"; "1"] ->
  pure_read (serveResourcePath a rq gv parts).
Proof.
  intros Hm Hw. unfold serveResourcePath, reply_with. rewrite (bool_decide_eq_false_2 (rq_query rq "watch" ∈ _)) by done.
  destruct (parse_target parts) as [t|]; [|apply pure_ret]. destruct (t_subresource t).
  - apply pure_bind; [by apply pure_subresource|]. intros. apply pure_ret.
  - destruct (described a gv (t_resource t)) as [d|]; [|apply pure_ret].
    repeat (case_match; [solve [apply pure_ret | apply pure_bind; [first [apply pure_metrics | unfold serveAccessReview; rewrite Hm; apply pure_ret]|intros; apply pure_ret]]|]).
    apply pure_bind; [by apply pure_methods|]. intros. apply pure_ret.
Qed.

(** Reads are reads: a GET request that opens no watch, whatever its path
    and parameters, returns without a panic, writes nothing to the store,
    records no event and leaves every slot as it was. *)
Theorem get_only_reads : forall rq w, rq_method rq = "GET" -> rq_query rq "watch" ∉ ["true"; "1"] ->
  same_world w (ServeHTTP a rq w).1 /\ is_Some (ServeHTTP a rq w).2.
Proof.
  intros rq w Hm Hw. unfold ServeHTTP. destruct (_ <? _); [|split; [apply same_world_refl|by eexists]].
  set (w1 := set_slots _ _ _ _).
  assert (Hd : pure_read (dispatch a rq)).
  { unfold dispatch. destruct (route_of (rq_path rq)); try apply pure_ret.
    apply pure_bind; [by apply pure_resource_path|]. intros. apply pure_ret. }
  destruct (Hd w1) as [[H1 H2 H3 H4 H5] H6]. destruct (dispatch a rq w1) as [w' r]. cbn [fst snd] in *.
  split; [|done]. split; cbn [w_store w_events w_requestSlots w_listSlots w_watchSlots set_slots]; try done.
  rewrite H3. cbn. lia.
Qed.
End reads.

(** ** Footprints of the handlers *)
Definition server_kinds : list (string * string * string) :=
  workload_kinds ++ [endpoints_kind; slices_kind; ("", "v1", "serviceaccounts"); ("", "v1", "configmaps")].
Definition kind_of (k : objectKey) : string * string * string := (key_group k, key_version k, key_resource k).
(** The kind a request names, and the kinds controllers maintain. *)
Definition writes (gv : groupVersion) (resource : string) (k : objectKey) : Prop :=
  kind_of k = (gv_group gv, gv_version gv, resource) \/ kind_of k ∈ server_kinds.

Section footprint.
Context {EN : Env} {PW : Protowire} {YM : Yaml} (a : API).

Lemma writes_own gv r ns n : writes gv r (resource_key gv r ns n).
Proof. by left. Qed.
Lemma in_ns_writes kinds ns gv r k : (forall t, t ∈ kinds -> t ∈ server_kinds) -> in_ns kinds ns k -> writes gv r k.
Proof. intros Hk [_ Hin]. right. by apply Hk. Qed.
Lemma writes_core gv r kind ns n : ("", "v1", kind) ∈ server_kinds -> writes gv r (core kind ns n).
Proof. by right. Qed.
#[local] Hint Resolve writes_own : footprint.

Lemma handler_materialize gv0 r gv ns n o : confined (writes gv0 r) (materializePods a gv ns n o).
Proof.
  eapply confined_mono; [|apply confined_materialize]. intros k. apply in_ns_writes. unfold server_kinds. set_solver.
Qed.
Lemma handler_endpoints gv0 r ns : confined (writes gv0 r) (syncEndpointsForNamespace ns).
Proof.
  eapply confined_mono; [|apply confined_endpoints]. intros k. apply in_ns_writes. unfold server_kinds. set_solver.
Qed.
Lemma handler_reap gv0 r ns n : confined (writes gv0 r) (reapOwnedPods ns n).
Proof.
  eapply confined_mono; [|apply confined_reapOwned]. intros k. apply in_ns_writes. unfold server_kinds, workload_kinds. set_solver.
Qed.
Lemma handler_respawn gv0 r ns pod : confined (writes gv0 r) (respawnDeletedPod a ns pod).
Proof.
  eapply confined_mono; [|apply confined_respawn]. intros k. apply in_ns_writes. unfold server_kinds. set_solver.
Qed.
Lemma handler_namespace gv0 r ns : confined (writes gv0 r) (seedNamespaceObjects ns).
Proof.
  assert (forall n, writes gv0 r (core "serviceaccounts" ns n)) by (intros; apply writes_core; unfold server_kinds; set_solver).
  assert (forall n, writes gv0 r (core "configmaps" ns n)) by (intros; apply writes_core; unfold server_kinds; set_solver).
  unfold seedNamespaceObjects. confine.
Qed.
Lemma handler_mutation P rq op o : confined P (emitMutation a rq op o).
Proof. unfold emitMutation. confine. Qed.
Lemma handler_status P k o : confined P (syntheticStatus k o).
Proof. unfold syntheticStatus. confine. Qed.
#[local] Hint Resolve handler_materialize handler_endpoints handler_reap handler_respawn handler_namespace handler_mutation
  handler_status confined_nodeCount confined_nodeName : footprint.

Lemma handler_default P kind ns n o : confined P (default_object a kind ns n o).
Proof. unfold default_object, default_pod. confine. Qed.
Lemma handler_after gv0 r gv ns n d o : confined (writes gv0 r) (after_create a gv ns n d o).
Proof. unfold after_create. confine. Qed.
Lemma handler_refresh P k o : confined P (refresh_status k o).
Proof. unfold refresh_status. confine. Qed.
Lemma handler_write_back gv rq op ns r n d o : confined (writes gv r) (write_back a rq op gv ns r n d o).
Proof. unfold write_back. confine. Qed.
#[local] Hint Resolve handler_default handler_after handler_refresh handler_write_back : footprint.

Lemma handler_check P {A} (m : act (reply + A)) k : confined P m -> (forall x, confined P (k x)) -> confined P (check m k).
Proof. intros Hm Hk. unfold check. apply confined_bind; [done|]. intros [r|x]; [apply confined_ret|apply Hk]. Qed.
Lemma handler_create rq gv ns d : confined (writes gv (r_name d)) (create a rq gv ns d).
Proof.
  unfold create. case_match; [apply confined_ret|]. destruct (decodeObject rq) as [o|]; [|apply confined_ret].
  destruct (validateObjectShape _ _ _ _); [apply confined_ret|].
  apply handler_check; [apply confined_ret|]. intros [ns' md]. apply confined_bind; [case_match; confine|]. intros there.
  case_match; [apply confined_ret|]. apply handler_check; [unfold create_name; confine|]. intros name.
  unfold create_object, stamp_identity. apply confined_bind; [confine|]. intros o1. apply confined_bind; [confine|]. intros o2.
  apply confined_bind; [auto with footprint|]. intros o3. apply confined_bind; [auto with footprint|]. intros [o4 e].
  destruct e as [[]|]; [apply confined_ret..|]. confine.
Qed.
Lemma handler_update rq gv ns r n d : confined (writes gv r) (update a rq gv ns r n d).
Proof.
  unfold update. destruct (decodeObject rq) as [o|]; [|apply confined_ret].
  destruct (validateObjectShape _ _ _ _); [apply confined_ret|].
  repeat (case_match; [apply confined_ret|]). apply confined_bind; [apply confined_reads|]. intros [prev|]; [|apply confined_ret].
  confine.
Qed.
Lemma handler_json_patch rq gv ns r n d cur ops : confined (writes gv r) (apply_json_patch a rq gv ns r n d cur ops).
Proof.
  unfold apply_json_patch, h_finish_patch, h_stamp. destruct (load _ _) as [h doc], (load_operations _ _) as [h' l].
  destruct (applyJSONPatch _ _ _) as [h2 [e|]]; [apply confined_ret|]. destruct (as_map doc) as [root|]; [|apply confined_ret].
  apply confined_bind.
  - apply confined_bind; [destruct (_ && _); confine|]. intros h3. destruct (isWorkloadKind _); confine.
  - intros h3. apply confined_bind; [|intros [o|]; [auto with footprint|apply confined_ret]].
    apply confined_bind; [apply confined_reads|]. intros s. destruct (h_objectMap _ _). apply confined_ret.
Qed.
Lemma handler_patch rq gv ns r n d : confined (writes gv r) (patch a rq gv ns r n d).
Proof.
  unfold patch. apply confined_bind; [apply confined_reads|]. intros [cur|]; [|apply confined_ret].
  destruct (String.eqb _ _).
  - destruct (decodeJSONPatch rq); [apply handler_json_patch|apply confined_ret].
  - destruct (decodeObject rq) as [p|]; [|apply confined_ret]. destruct (validateObjectShape _ _ _ _); [apply confined_ret|].
    unfold finish_patch, syncEphemeralContainerStatus. confine.
Qed.
Lemma handler_delete rq gv ns r n d : confined (writes gv r) (delete a rq gv ns r n d).
Proof. unfold delete. confine. Qed.
Lemma delete_many gv r l s n : (forall k, k ∈ l -> writes gv r k) ->
  rtc (touch (writes gv r)) s (foldl (fun sn key => let '(s', d) := delete_obj key sn.1 in
    (s', match d with Some _ => sn.2 + 1 | None => sn.2 end)) (s, n) l).1.
Proof.
  revert s n. induction l as [|k l IH]; intros s n Hl; cbn [foldl fst snd]; [apply rtc_refl|].
  pose proof (touch_delete (writes gv r) k s (Hl k ltac:(set_solver))) as Ht.
  destruct (delete_obj k s) as [s' d]. eapply rtc_l; [exact Ht|]. apply IH. set_solver.
Qed.
Lemma handler_slot P body : confined P body -> confined P (with_list_slot body).
Proof.
  intros Hb w. unfold with_list_slot. destruct (_ <? _); [|split; [apply rtc_refl|done]].
  set (w1 := set_slots _ _ _ _). destruct (Hb w1) as [H1 H2]. destruct (body w1) as [w' r]. cbn [fst] in *.
  split; [exact H1|]. unfold slots_of in *. cbn in H2 |- *. injection H2 as Ha Hl Hk. rewrite Ha, Hl, Hk.
  do 2 f_equal. lia.
Qed.
Lemma handler_deleteCollection rq gv ns d : confined (writes gv (r_name d)) (deleteCollection rq gv ns d).
Proof.
  unfold deleteCollection. apply handler_slot. destruct (parseSelector _); [|apply confined_ret].
  destruct (negb _); [apply confined_ret|]. apply confined_bind; [|intros; apply confined_ret].
  intros w. unfold store_deleteMatching, deleteMatching. destruct (foldl _ _ _) as [s n] eqn:E. split; [|done].
  replace s with (s, n).1 by done. rewrite <- E. apply delete_many. intros k (ko & -> & Hko)%list_elem_of_fmap.
  apply list_elem_of_In, filter_In in Hko as [_ Hs]. unfold selects in Hs. bool_to_prop. left. unfold kind_of. congruence.
Qed.
Lemma handler_scale rq gv ns r n : confined (writes gv r) (serveScale a rq gv ns r n).
Proof. unfold serveScale. confine. Qed.
Lemma handler_eviction gv r rq ns n : confined (writes gv r) (serveEviction rq ns n).
Proof.
  assert (writes gv r (core "pods" ns n)) by (apply writes_core; unfold server_kinds, workload_kinds; set_solver).
  unfold serveEviction. confine.
Qed.
#[local] Hint Resolve handler_create handler_update handler_patch handler_delete handler_deleteCollection handler_scale
  handler_eviction handler_slot : footprint.
Lemma handler_subresource rq gv ns r n sub : confined (writes gv r) (serveSubresource a rq gv ns r n sub).
Proof.
  unfold serveSubresource, serve_status, serve_ephemeral, serveTokenRequest, servePodLog.
  repeat (case_match; [solve [confine]|]). confine.
Qed.
End footprint.

(** ** The catalogue files every description under its name *)
Definition well_named (m : resources) : Prop := forall gv n d, items_of_gv m gv !! n = Some d -> r_name d = n.
Lemma well_named_insert m gv items : well_named m -> (forall n d, items !! n = Some d -> r_name d = n) ->
  well_named (<[gv := items]> m).
Proof.
  intros Hm Hi gv' n d. unfold items_of_gv. destruct (decide (gv' = gv)) as [->|Hne].
  - rewrite lookup_insert_eq. apply Hi.
  - rewrite lookup_insert_ne by done. apply Hm.
Qed.
Lemma well_named_copy m s d n : well_named m -> well_named (copyResource m s d n).
Proof.
  intros Hm. unfold copyResource. destruct (items_of_gv m s !! n) as [item|] eqn:E; [|done].
  apply well_named_insert; [done|]. intros k x Hk. destruct (decide (k = n)) as [->|Hne].
  - rewrite lookup_insert_eq in Hk. simplify_eq. by eapply Hm.
  - rewrite lookup_insert_ne in Hk by done. by eapply Hm.
Qed.
Lemma well_named_move m s d n : well_named m -> well_named (moveResource m s d n).
Proof.
  intros Hm. unfold moveResource. cbn zeta. pose proof (well_named_copy m s d n Hm) as Hc.
  destruct (copyResource m s d n !! s) as [items|] eqn:E; [|done]. apply well_named_insert; [done|].
  intros k x [_ Hk]%lookup_delete_Some. apply (Hc s). unfold items_of_gv. by rewrite E.
Qed.
Lemma well_named_category m gv names : well_named m -> well_named (add_category m gv names).
Proof.
  revert m. induction names as [|n names IH]; intros m Hm; [done|]. simpl. apply IH.
  destruct (items_of_gv m gv !! n) as [e|] eqn:E; [|done]. apply well_named_insert; [done|].
  intros k x Hk. destruct (decide (k = n)) as [->|Hne].
  - rewrite lookup_insert_eq in Hk. simplify_eq. exact (Hm _ _ _ E).
  - rewrite lookup_insert_ne in Hk by done. exact (Hm _ _ _ Hk).
Qed.
Lemma by_name_named l n d : by_name l !! n = Some d -> r_name d = n.
Proof.
  unfold by_name. assert (G : forall m : gmap string apiResource, (forall n d, m !! n = Some d -> r_name d = n) ->
    forall n d, foldl (fun m r => <[r_name r := r]> m) m l !! n = Some d -> r_name d = n).
  { induction l as [|r l IH]; intros m Hm; [exact Hm|]. simpl. apply IH. intros k x Hk.
    destruct (decide (k = r_name r)) as [->|Hne]; [rewrite lookup_insert_eq in Hk; by simplify_eq|].
    rewrite lookup_insert_ne in Hk by done. by apply Hm. }
  apply G. intros k x Hk. by rewrite lookup_empty in Hk.
Qed.
Lemma by_name_map_named (m : gmap groupVersion (list apiResource)) : well_named (by_name <$> m).
Proof.
  intros gv n d. unfold items_of_gv. rewrite lookup_fmap. destruct (m !! gv) as [l|]; cbn.
  - apply by_name_named.
  - by rewrite lookup_empty.
Qed.
Lemma well_named_filter (P : groupVersion * gmap string apiResource -> Prop) `{!forall x, Decision (P x)} m :
  well_named m -> well_named (filter P m).
Proof.
  intros Hm gv n d. unfold items_of_gv. destruct (filter P m !! gv) as [items|] eqn:E; cbn; [|by rewrite lookup_empty].
  apply map_lookup_filter_Some in E as [E _]. intros Hn. eapply (Hm gv). unfold items_of_gv. by rewrite E.
Qed.
Lemma resources_named m minor : well_named m -> well_named (resourcesForMinor m minor).
Proof.
  intros Hm. unfold resourcesForMinor. apply well_named_filter.
  repeat case_match; repeat first [apply well_named_move | apply well_named_copy]; done.
Qed.
Lemma catalogue_named minor : well_named (catalogue minor).
Proof.
  unfold catalogue. do 3 apply well_named_category. apply resources_named. apply by_name_map_named.
Qed.

Section requests.
Context {EN : Env} {PW : Protowire} {YM : Yaml} (a : API).

Lemma handler_reply P m : confined P m -> confined P (reply_with m).
Proof. intros Hm. unfold reply_with. apply confined_bind; [done|]. intros. apply confined_ret. Qed.
Lemma handler_list P rq gv ns d : confined P (serve_list rq gv ns d).
Proof. unfold serve_list. apply handler_slot. confine. Qed.
Lemma handler_methods rq gv ns r n d : r_name d = r -> confined (writes gv r) (serve_methods a rq gv ns r n d).
Proof.
  intros <-. unfold serve_methods, get_object.
  repeat case_match; eauto using confined_ret, handler_list, handler_create, handler_update, handler_patch, handler_delete,
    handler_deleteCollection.
  all: confine.
Qed.
Lemma handler_resource_path rq gv parts t : well_named (a_resources a) -> parse_target parts = Some t ->
  rq_query rq "watch" ∉ ["true"; "1"] ->
  confined (writes gv (t_resource t)) (serveResourcePath a rq gv parts).
Proof.
  intros Hn Ht Hw. unfold serveResourcePath. rewrite Ht, (bool_decide_eq_false_2 (rq_query rq "watch" ∈ _)) by done.
  destruct (t_subresource t); [apply handler_reply, handler_subresource|].
  destruct (described a gv (t_resource t)) as [d|] eqn:Ed; [|apply confined_ret].
  do 2 (destruct (_ && _); [apply confined_ret|]).
  destruct (bool_decide _); [apply handler_reply; unfold serveMetrics, list_all; confine|].
  destruct (bool_decide _); [apply handler_reply; unfold serveAccessReview; confine|].
  apply handler_reply, handler_methods. by eapply Hn.
Qed.

(** C3. What a request may write: objects of the kind its path names and of the
    kinds the controllers maintain (pods, events, ReplicaSets, Deployments,
    endpoints, and the two objects every namespace gets), nothing else.  A
    request about Pods never touches a Secret, a node or a Namespace; the store
    keeps its invariant and every slot taken is given back, also when the
    request ends in a panic. *)
Theorem requests_write_their_kind : forall rq gv parts t w k, well_named (a_resources a) -> store_inv (w_store w) ->
  parse_target parts = Some t -> rq_query rq "watch" ∉ ["true"; "1"] ->
  let w' := (serveResourcePath a rq gv parts w).1 in
  store_inv (w_store w') /\ slots_of w' = slots_of w /\
  (~ writes gv (t_resource t) k -> get (w_store w') k = get (w_store w) k).
Proof.
  intros rq gv parts t w k Hn Hw Ht Hq. pose proof (handler_resource_path rq gv parts t Hn Ht Hq) as Hc.
  cbn zeta. split; [by eapply confined_inv|]. split; [apply Hc|]. intros Hk. unfold get.
  by rewrite (confined_frame _ _ w k Hc Hw Hk).
Qed.

End requests.

(** ** Witnesses *)
Section witnesses.
#[local] Existing Instance test_env.
#[local] Existing Instance wire.
#[local] Existing Instance no_yaml.

Definition request (method path body : string) : Request :=
  {| rq_method := method; rq_path := path; rq_remoteAddr := "192.0.2.7:41022"; rq_contentType := "application/json";
     rq_accept := "*/*"; rq_query _ := ""; rq_body := if String.eqb body "" then body_nil else body_data body |}.
(** A server with the namespace [default], and one Secret in it. *)
Definition w_default : world :=
  set_store w_secret (put (core "namespaces" "" "default") [("kind", VStr "Namespace")] "ADDED" (w_store w_secret)).1.1.
Lemma w_default_inv : store_inv (w_store w_default).
Proof. apply put_inv, w_secret_inv. Qed.

Lemma get_only_reads_witness :
  let r := request "GET" "/api/v1/namespaces/default/secrets/token" "" in
  same_world w_default (ServeHTTP api0 r w_default).1 /\ is_Some (ServeHTTP api0 r w_default).2.
Proof.
  exact (get_only_reads api0 (request "GET" "/api/v1/namespaces/default/secrets/token" "") w_default eq_refl
    (bool_decide_eq_false_1 ("" ∈ ["true"; "1"]) eq_refl)).
Defined.
(** A pod is created; the Secret beside it stays. *)
Definition pod_request : Request :=
  request "POST" "/api/v1/namespaces/default/pods" (q "{'metadata':{'name':'web'},'spec':{'containers':[{'name':'c'}]}}").
Lemma requests_write_their_kind_witness :
  get (w_store (serveResourcePath api0 pod_request core_gv ["namespaces"; "default"; "pods"] w_default).1) secret_key
    = get (w_store w_default) secret_key /\
  is_Some (get (w_store (serveResourcePath api0 pod_request core_gv ["namespaces"; "default"; "pods"] w_default).1)
    (core "pods" "default" "web")).
Proof.
  split; [|vm_compute; by eexists].
  refine (proj2 (proj2 (requests_write_their_kind api0 pod_request core_gv ["namespaces"; "default"; "pods"] _ w_default secret_key
    (catalogue_named 29) w_default_inv eq_refl (bool_decide_eq_false_1 ("" ∈ ["true"; "1"]) eq_refl))) _).
  intros [Hk|Hk]; [discriminate Hk|]. revert Hk. apply (bool_decide_eq_false_1 (_ ∈ _)). vm_compute. reflexivity.
Defined.
End witnesses.
