(* ===== verification/ApiContracts.v ===== *)
(** * The object handlers: contracts

    A request that fails writes nothing; what [create], [update] and [delete]
    answer and leave in the store; the address a pod log, a scale and a path
    are cut to. *)
From S2P Require Import Prelude GoStrings GoCodec ConfigModel Value Json Names Selector Catalog Store StoreFacts StoreProps Listing World Controllers ControllerProps Seed SeedProps Patch JsonPatch Proto Request Api ApiProps.

#[local] Set Warnings "-clear-no-such-hyp,-notation-for-abbreviation".
#[local] Open Scope string_scope.
#[local] Open Scope list_scope.
#[local] Open Scope Z_scope.

(** ** Failures are atomic *)
Section atomic.
Context {EN : Env} {PW : Protowire} {YM : Yaml} (a : API).

(** The objects stay. *)
Definition steady {A} (m : act A) : Prop := forall w, st_objects (w_store (m w).1) = st_objects (w_store w).
(** No reply is a failure. *)
Definition succeeds (m : act reply) : Prop := forall w r, (m w).2 = Some r -> rp_code r < 400.
(** A reply that is a failure comes with the objects unchanged. *)
Definition atomic (m : act reply) : Prop := forall w r, (m w).2 = Some r -> 400 <= rp_code r ->
  st_objects (w_store (m w).1) = st_objects (w_store w).

Lemma pure_steady {A} (m : act A) : pure_read m -> steady m.
Proof. intros Hm w. by rewrite (sw_store _ _ (proj1 (Hm w))). Qed.
Lemma steady_ret {A} (x : A) : steady (ret x).
Proof. done. Qed.
Lemma steady_panic {A} : steady (panic (A:=A)).
Proof. done. Qed.
Lemma steady_bind {A B} (m : act A) (k : A -> act B) : steady m -> (forall x, steady (k x)) -> steady (bind m k).
Proof.
  intros Hm Hk w. unfold bind. specialize (Hm w). destruct (m w) as [w' [x|]]; cbn [fst] in *; [|done].
  by rewrite (Hk x w').
Qed.
Lemma steady_nextName p : steady (store_nextName p).
Proof. intros w. unfold store_nextName. pose proof (nextName_objects p (w_store w)) as Ho. by destruct (nextName _ _). Qed.
Lemma steady_emit e : steady (emit e).
Proof. done. Qed.

Lemma atomic_steady (m : act reply) : steady m -> atomic m.
Proof. intros Hm w r _ _. apply Hm. Qed.
Lemma atomic_succeeds (m : act reply) : succeeds m -> atomic m.
Proof. intros Hm w r Hr Hc. specialize (Hm w r Hr). lia. Qed.
Lemma atomic_bind {A} (m : act A) (k : A -> act reply) : steady m -> (forall x, atomic (k x)) -> atomic (bind m k).
Proof.
  intros Hm Hk w r. unfold bind. specialize (Hm w). destruct (m w) as [w' [x|]]; cbn [fst snd] in *; [|done].
  intros Hr Hc. by rewrite (Hk x w' r Hr Hc).
Qed.
Lemma atomic_check {A} (m : act (reply + A)) k : steady m -> (forall x, atomic (k x)) -> atomic (check m k).
Proof. intros Hm Hk. apply atomic_bind; [done|]. intros [r|x]; [by apply atomic_steady|apply Hk]. Qed.
Lemma succeeds_bind {A} (m : act A) (k : A -> act reply) : (forall x, succeeds (k x)) -> succeeds (bind m k).
Proof. intros Hk w r. unfold bind. destruct (m w) as [w' [x|]]; [|done]. apply Hk. Qed.
Lemma succeeds_ret r : rp_code r < 400 -> succeeds (ret r).
Proof. by intros Hr w r' [= <-]. Qed.
(** A refused write leaves the objects; what follows an accepted one does not fail. *)
Lemma atomic_put key obj ev (k : object * option storeError -> act reply) :
  (forall o e, atomic (k (o, Some e))) -> (forall o, succeeds (k (o, None))) -> atomic (bind (store_put key obj ev) k).
Proof.
  intros He Hn w r. unfold bind, store_put, put. cbn zeta.
  repeat first [progress cbv beta iota | destruct (json_marshal _) | destruct (_ <? _) | destruct (_ && _)];
    intros Hr Hc; solve [by rewrite (He _ _ _ _ Hr Hc) | exfalso; apply Hn in Hr; lia].
Qed.
Lemma atomic_delete key (k : option object -> act reply) :
  atomic (k None) -> (forall o, succeeds (k (Some o))) -> atomic (bind (store_delete key) k).
Proof.
  intros Hn Hs w r. unfold bind, store_delete, delete_obj. destruct (st_objects _ !! _); cbv beta iota; intros Hr Hc.
  - exfalso. apply Hs in Hr. lia.
  - by rewrite (Hn _ _ Hr Hc).
Qed.

Create HintDb atomic.
#[local] Hint Resolve steady_ret steady_panic steady_nextName steady_emit succeeds_ret : atomic.
#[local] Hint Extern 3 (steady (reads _)) => apply pure_steady, pure_reads : atomic.
#[local] Hint Extern 3 (steady now) => apply pure_steady, pure_now : atomic.
#[local] Hint Extern 3 (steady now_ns) => apply pure_steady, pure_now_ns : atomic.
#[local] Hint Extern 3 (steady now_rfc3339) => apply pure_steady, pure_now_rfc3339 : atomic.
#[local] Hint Extern 3 (_ < _) => done : atomic.
Ltac by_atomic := repeat first
  [ solve [eauto with atomic] | solve [apply atomic_steady; eauto with atomic]
  | progress unfold store_get, store_list, list_all, syntheticStatus
  | apply atomic_put; [intros ? [] | intros ?] | apply atomic_delete; [|intros ?] | apply atomic_check; [|intros ?]
  | apply atomic_bind; [|intros ?] | apply succeeds_bind; intros ? | apply steady_bind; [|intros ?] | case_match ].

Lemma write_back_atomic rq op gv ns r n d o : atomic (write_back a rq op gv ns r n d o).
Proof. unfold write_back. by_atomic. Qed.
Lemma refresh_steady k o : steady (refresh_status k o).
Proof. unfold refresh_status. by_atomic. Qed.
Lemma default_steady k ns n o : steady (default_object a k ns n o).
Proof. unfold default_object, default_pod, nodeCount, nodeName. by_atomic. Qed.
#[local] Hint Resolve write_back_atomic refresh_steady default_steady : atomic.
Lemma create_atomic rq gv ns d : atomic (create a rq gv ns d).
Proof.
  unfold create. case_match; [by_atomic|]. destruct (decodeObject rq) as [o|]; [|by_atomic].
  destruct (validateObjectShape _ _ _ _); [by_atomic|]. apply atomic_check; [by_atomic|]. intros [ns' md].
  apply atomic_bind; [by_atomic|]. intros there. case_match; [by_atomic|].
  apply atomic_check; [unfold create_name; by_atomic|]. intros name. unfold create_object, stamp_identity. by_atomic.
Qed.
Lemma update_atomic rq gv ns r n d : atomic (update a rq gv ns r n d).
Proof.
  unfold update. destruct (decodeObject rq); [|by_atomic]. destruct (validateObjectShape _ _ _ _); [by_atomic|].
  repeat (case_match; [by_atomic|]). by_atomic.
Qed.
Lemma json_patch_atomic rq gv ns r n d cur ops : atomic (apply_json_patch a rq gv ns r n d cur ops).
Proof.
  unfold apply_json_patch, h_finish_patch, h_stamp. destruct (load _ _) as [h doc], (load_operations _ _) as [h' l].
  destruct (applyJSONPatch _ _ _) as [h2 [e|]]; [by_atomic|]. destruct (as_map doc) as [root|]; [|by_atomic].
  apply atomic_bind; [cbv zeta; by_atomic|]. intros h3. apply atomic_bind; [|intros [o|]; by_atomic].
  apply steady_bind; [by_atomic|]. intros s. destruct (h_objectMap _ _). by_atomic.
Qed.
Lemma patch_atomic rq gv ns r n d : atomic (patch a rq gv ns r n d).
Proof.
  unfold patch. apply atomic_bind; [by_atomic|]. intros [cur|]; [|by_atomic]. destruct (String.eqb _ _).
  - destruct (decodeJSONPatch rq); [apply json_patch_atomic|by_atomic].
  - destruct (decodeObject rq); [|by_atomic]. destruct (validateObjectShape _ _ _ _); [by_atomic|].
    unfold finish_patch, syncEphemeralContainerStatus. by_atomic.
Qed.
Lemma delete_atomic rq gv ns r n d : atomic (delete a rq gv ns r n d).
Proof. unfold delete. by_atomic. Qed.
Lemma slot_atomic body : atomic body -> atomic (with_list_slot body).
Proof.
  intros Hb w r. unfold with_list_slot. destruct (_ <? _); [|done].
  specialize (Hb (set_slots w (w_requestSlots w) (w_listSlots w + 1) (w_watchSlots w)) r).
  destruct (body _) as [w' o]. exact Hb.
Qed.
Lemma collection_atomic rq gv ns d : atomic (deleteCollection rq gv ns d).
Proof.
  unfold deleteCollection. apply slot_atomic. destruct (parseSelector _); [|by_atomic].
  destruct (negb _); [by_atomic|]. apply atomic_succeeds. by_atomic.
Qed.
Lemma scale_atomic rq gv ns r n : atomic (serveScale a rq gv ns r n).
Proof. unfold serveScale. by_atomic. Qed.
Lemma eviction_atomic rq ns n : atomic (serveEviction rq ns n).
Proof. unfold serveEviction. by_atomic. Qed.
#[local] Hint Resolve create_atomic update_atomic patch_atomic delete_atomic collection_atomic scale_atomic eviction_atomic : atomic.
Lemma subresource_atomic rq gv ns r n sub : atomic (serveSubresource a rq gv ns r n sub).
Proof.
  unfold serveSubresource, serve_status, serve_ephemeral, serveTokenRequest, servePodLog.
  repeat (case_match; [solve [by_atomic]|]). by_atomic.
Qed.
Lemma list_atomic rq gv ns d : atomic (serve_list rq gv ns d).
Proof. unfold serve_list. apply slot_atomic. by_atomic. Qed.
#[local] Hint Resolve list_atomic : atomic.
Lemma methods_atomic rq gv ns r n d : atomic (serve_methods a rq gv ns r n d).
Proof.
  unfold serve_methods, get_object. repeat (case_match; [solve [by_atomic]|]).
  all: by_atomic.
Qed.
Lemma review_atomic rq d : atomic (serveAccessReview rq d).
Proof. unfold serveAccessReview. by_atomic. Qed.
Lemma metrics_atomic rq d ns n : atomic (serveMetrics rq d ns n).
Proof. unfold serveMetrics. by_atomic. Qed.

(** The same for an answer. *)
Definition fails (o : outcome) : Prop := match o with replied r => 400 <= rp_code r | streaming _ => False end.
Definition atomic_outcome (m : act outcome) : Prop := forall w o, (m w).2 = Some o -> fails o ->
  st_objects (w_store (m w).1) = st_objects (w_store w).
Lemma outcome_ret o : atomic_outcome (ret o).
Proof. done. Qed.
Lemma outcome_reply m : atomic m -> atomic_outcome (reply_with m).
Proof.
  intros Hm w o. unfold reply_with, bind. specialize (Hm w). destruct (m w) as [w' [r|]]; cbn [fst snd] in *; [|done].
  intros [= <-] Hf. by apply (Hm r).
Qed.
Lemma watch_refused rq gv ns r w rep : (watch_open rq gv ns r w).2 = Some (inl rep) -> (watch_open rq gv ns r w).1 = w.
Proof.
  unfold watch_open. destruct (_ <=? _); [done|]. destruct (parseSelector _); [|done]. destruct (negb _); [done|].
  destruct (watch_seconds _); [|done]. unfold bind, store_watch. destruct (watch _ _ _ _ _ _) as [s wa].
  by destruct (bool_decide _).
Qed.
Lemma outcome_watch rq gv ns r : atomic_outcome (serve_watch rq gv ns r).
Proof.
  intros w o. unfold serve_watch, bind. pose proof (watch_refused rq gv ns r w) as Hr.
  destruct (watch_open rq gv ns r w) as [w' [[rep|s]|]]; cbn [fst snd] in *; [|by intros [= <-] []|done].
  by rewrite (Hr rep).
Qed.
Lemma resource_path_atomic rq gv parts : atomic_outcome (serveResourcePath a rq gv parts).
Proof.
  unfold serveResourcePath. destruct (parse_target parts) as [t|]; [|apply outcome_ret].
  destruct (t_subresource t); [apply outcome_reply, subresource_atomic|].
  destruct (described a gv _) as [d|]; [|apply outcome_ret]. do 2 (destruct (_ && _); [apply outcome_ret|]).
  destruct (bool_decide _); [apply outcome_reply, metrics_atomic|].
  destruct (bool_decide _); [apply outcome_reply, review_atomic|].
  destruct (bool_decide _); [|apply outcome_reply, methods_atomic].
  destruct (_ || _); [apply outcome_ret|apply outcome_watch].
Qed.

End atomic.

(** ** What the writing handlers answer *)
Section contracts.
Context {EN : Env} {PW : Protowire} {YM : Yaml} (a : API).

Lemma bind_inv {A B} (m : act A) (k : A -> act B) w y : (bind m k w).2 = Some y ->
  exists x, (m w).2 = Some x /\ (k x (m w).1).2 = Some y /\ (bind m k w).1 = (k x (m w).1).1.
Proof. unfold bind. destruct (m w) as [w' [x|]]; cbn [fst snd]; [|done]. eauto. Qed.
Lemma put_result key o ev w o' : store_inv (w_store w) -> (store_put key o ev w).2 = Some (o', None) ->
  o' = stamp (w_store w) o /\
  st_objects (w_store (store_put key o ev w).1) = <[key := cloneObject o']> (st_objects (w_store w)).
Proof.
  intros Hw. unfold store_put. destruct (put key o ev (w_store w)) as [[s o1] e] eqn:E. cbn [fst snd]. intros [= -> ->].
  destruct (put_accepted _ _ _ _ _ _ Hw E) as (-> & Ho & _). done.
Qed.
Lemma stamp_keeps s o k : k <> "metadata" -> oget (stamp s o) k = oget o k.
Proof. intros Hk. unfold stamp. by rewrite oget_oset_ne. Qed.
Lemma stamp_metadata s o k : k <> "resourceVersion" -> idx (metadata_of (stamp s o)) k = idx (metadata_of o) k.
Proof. intros Hk. unfold metadata_of, stamp. rewrite idx_oset_eq. cbn [objectMap].
  rewrite idx_oset. by rewrite (proj2 (String.eqb_neq _ _) Hk).
Qed.
Lemma stringField_keeps (o o' : object) k : oget o' k = oget o k -> stringField o' k = stringField o k.
Proof. intros E. unfold stringField, idx. by rewrite E. Qed.

(** [m] returns an object that agrees with [o] outside [spec] and [status]. *)
Definition outside (keys : list string) (o o' : object) : Prop := forall k, k ∉ keys -> oget o' k = oget o k.
Lemma outside_refl keys o : outside keys o o.
Proof. done. Qed.
Lemma outside_oset keys o o' k v : k ∈ keys -> outside keys o o' -> outside keys o (oset o' k v).
Proof. intros Hk Ho j Hj. rewrite oget_oset_ne; [by apply Ho|]. by intros ->. Qed.
Definition filled : list string := ["spec"; "status"].
Lemma outside_spec o o' v : outside filled o o' -> outside filled o (oset o' "spec" v).
Proof. apply outside_oset. unfold filled. set_solver. Qed.
Lemma outside_status o o' v : outside filled o o' -> outside filled o (oset o' "status" v).
Proof. apply outside_oset. unfold filled. set_solver. Qed.

Ltac outside := repeat first
  [ apply outside_spec | apply outside_status | assumption | apply outside_refl
  | match goal with |- outside _ _ (if ?b then _ else _) => destruct b end ].

Lemma default_job_outside (o o' : object) : outside filled o o' -> outside filled o (default_job o').
Proof. intros Ho. unfold default_job. outside. Qed.
Lemma default_service_outside ns n o o' : outside filled o o' -> outside filled o (default_service a ns n o').
Proof. intros Ho. unfold default_service. cbv zeta. outside. case_match; outside. Qed.
Lemma default_object_outside kind ns n o w o' : (default_object a kind ns n o w).2 = Some o' -> outside filled o o'.
Proof.
  unfold default_object. intros (o1 & Ho & Hr & _)%bind_inv. cbn [snd ret] in Hr.
  assert (H1 : outside filled o o1).
  { destruct (String.eqb kind "Pod"); [|injection Ho as <-; outside]. unfold default_pod in Ho.
    apply bind_inv in Ho as (spec & _ & Ho & _). injection Ho as <-. outside. }
  injection Hr as <-. destruct (String.eqb kind "Service"); [apply default_service_outside|];
    outside; by apply default_job_outside.
Qed.
Lemma refresh_outside kind o w o' : (refresh_status kind o w).2 = Some o' -> outside filled o o'.
Proof. unfold refresh_status. case_match; intros Hr; injection Hr as <-; outside. Qed.

(** ** Shape of names *)
Lemma first_error_none l : first_error l = None <-> Forall (fun e => e = None) l.
Proof.
  induction l as [|[e|] l IH]; simpl; [by split| |]; rewrite Forall_cons; [by split; [|intros [? _]]|]. rewrite IH. naive_solver.
Qed.
Lemma shape_name gv d o : validateObjectShape o gv d false = None ->
  stringField (metadata_of o) "name" = "" \/ validObjectName (stringField (metadata_of o) "name") = true.
Proof.
  unfold validateObjectShape. rewrite first_error_none, !Forall_cons. intros (_ & _ & _ & _ & _ & Hm & _).
  unfold check_metadata in Hm. unfold metadata_of. change (idx o "metadata") with (default VNil (oget o "metadata")).
  destruct (oget o "metadata") as [[| | | | | |md| | |]|]; try by left.
  cbn [default objectMap id] in *. rewrite first_error_none, !Forall_cons in Hm. destruct Hm as (_ & Hn & _).
  unfold stringField, idx. unfold check_name_field in Hn. destruct (oget md "name") as [[]|]; cbn; try by left.
  destruct (String.eqb s "") eqn:E; [left; by apply String.eqb_eq|]. right.
  change (String.eqb "name" "name") with true in Hn. by destruct (validObjectName s).
Qed.
Lemma nextName_valid prefix s n : (nextName prefix s).2 = inl n -> validObjectName n = true.
Proof.
  unfold nextName. destruct (_ =? _); [done|]. cbv zeta. destruct (validObjectName _) eqn:E; [|done].
  cbn [negb snd]. by intros [= <-].
Qed.

(** The kinds [after_create] may write. *)
Definition follow_up (d : apiResource) : list (string * string * string) :=
  (if isWorkloadKind (r_kind d) && r_namespaced d then workload_kinds ++ [endpoints_kind; slices_kind] else []) ++
  (if String.eqb (r_kind d) "Service" then [endpoints_kind; slices_kind] else []) ++
  (if String.eqb (r_kind d) "Namespace" then [("", "v1", "serviceaccounts"); ("", "v1", "configmaps")] else []).
Lemma confined_kinds kinds ns (l : list (string * string * string)) {A} (m : act A) :
  (forall t, t ∈ kinds -> t ∈ l) -> confined (in_ns kinds ns) m -> confined (fun k => kind_of k ∈ l) m.
Proof. intros Hl. apply confined_mono. intros k [_ Hk]. by apply Hl. Qed.
Lemma after_create_kinds gv ns n d o : confined (fun k => kind_of k ∈ follow_up d) (after_create a gv ns n d o).
Proof.
  unfold after_create, follow_up. apply confined_bind; [|intros _; apply confined_bind; [|intros _]].
  - destruct (_ && _); [|apply confined_ret]. apply confined_bind; [|intros _].
    + eapply confined_kinds; [|apply confined_materialize]. set_solver.
    + eapply confined_kinds; [|apply confined_endpoints]. set_solver.
  - destruct (String.eqb _ "Service"); [|apply confined_ret].
    eapply confined_kinds; [|apply confined_endpoints]. set_solver.
  - destruct (String.eqb _ "Namespace"); [|apply confined_ret]. unfold seedNamespaceObjects.
    apply confined_bind; [apply confined_now_rfc3339|intros t].
    repeat (apply confined_bind; [apply confined_put; unfold kind_of, core; cbn; set_solver|intros _]). apply confined_ret.
Qed.

(** What [create_name] returns is a valid object name. *)
Lemma create_name_valid name metadata w n : name = "" \/ validObjectName name = true ->
  (create_name name metadata w).2 = Some (inr n) -> validObjectName n = true /\ (name <> "" -> n = name).
Proof.
  intros Hv. unfold create_name. destruct (String.eqb_spec name "") as [->|Hne]; cbn [negb].
  - destruct (String.eqb _ ""); [done|]. intros (r & Hr & Hk & _)%bind_inv. unfold store_nextName in Hr.
    pose proof (nextName_valid (stringField metadata "generateName") (w_store w)) as Hg.
    destruct (nextName _ _) as [s [m|e]]; cbn [fst snd] in *; injection Hr as <-; [|done].
    injection Hk as ->. split; [by apply Hg|done].
  - intros [= <-]. by destruct Hv.
Qed.
Lemma create_name_refused name md w r : (create_name name md w).2 = Some (inl r) -> rp_code r = 422.
Proof.
  unfold create_name. destruct (String.eqb name ""); cbn [negb]; [|intros Hx; discriminate Hx].
  destruct (String.eqb _ _); [intros Hx; by injection Hx as <-|].
  intros (x & _ & Hx & _)%bind_inv. destruct x; [discriminate Hx|]. by injection Hx as <-.
Qed.
Lemma steady_create_name name md : steady (create_name name md).
Proof.
  unfold create_name. destruct (String.eqb name ""); cbn [negb]; [|done]. destruct (String.eqb _ _); [done|].
  apply steady_bind; [apply steady_nextName|done].
Qed.
Lemma confined_create_name name metadata : confined (fun _ => False) (create_name name metadata).
Proof. unfold create_name. confine. Qed.

Lemma put_fresh key o w o' : store_inv (w_store w) -> (store_put key o "ADDED" w).2 = Some (o', None) ->
  st_objects (w_store w) !! key = None.
Proof.
  intros Hw. unfold store_put. destruct (put key o "ADDED" (w_store w)) as [[s o1] e] eqn:E. cbn [snd]. intros [= -> ->].
  destruct (put_accepted _ _ _ _ _ _ Hw E) as (_ & _ & _ & Hr). revert Hr. unfold put_refuses.
  destruct (encoded_len _); [|done]. case_match; [done|]. by destruct (st_objects (w_store w) !! key).
Qed.
(** The steps of [create] once the name is known, up to the reply. *)
Lemma stamp_identity_result gv ns n d md o w o' : (stamp_identity gv ns n d md o w).2 = Some o' ->
  w_store (stamp_identity gv ns n d md o w).1 = w_store w /\
  stringField o' "kind" = r_kind d /\ stringField o' "apiVersion" = apiVersionFor gv /\
  stringField (metadata_of o') "name" = n.
Proof.
  intros Hr. unfold stamp_identity in *. split; [done|]. injection Hr as <-.
  unfold metadata_of. rewrite !idx_oset_eq. cbn [objectMap foldl fst snd].
  rewrite !stringField_oset. by cbn.
Qed.
Definition created (gv : groupVersion) (d : apiResource) (n : string) (o : object) : Prop :=
  stringField o "kind" = r_kind d /\ stringField o "apiVersion" = apiVersionFor gv /\
  stringField (metadata_of o) "name" = n.
Lemma created_outside gv d n o o' : created gv d n o -> outside filled o o' -> created gv d n o'.
Proof.
  intros (H1 & H2 & H3) Ho. unfold created, metadata_of, idx.
  rewrite (stringField_keeps o o' "kind"), (stringField_keeps o o' "apiVersion") by (apply Ho; unfold filled; set_solver).
  rewrite (Ho "metadata") by (unfold filled; set_solver). done.
Qed.
Lemma created_stamp gv d n o s : created gv d n o -> created gv d n (stamp s o).
Proof.
  intros (H1 & H2 & H3). split; [|split].
  - rewrite <- H1. by apply stringField_keeps, stamp_keeps.
  - rewrite <- H2. by apply stringField_keeps, stamp_keeps.
  - rewrite <- H3. unfold stringField. by rewrite stamp_metadata.
Qed.

Lemma steady_default_stays kind ns n o w : w_store (default_object a kind ns n o w).1 = w_store w.
Proof.
  unfold default_object, default_pod, nodeCount, nodeName, store_list, reads, bind, ret, panic.
  repeat first [done | case_match; cbn [fst snd] in *; simplify_eq].
Qed.
Lemma create_object_spec rq gv ns n d md o w rep : store_inv (w_store w) ->
  (create_object a rq gv ns n d md o w).2 = Some rep -> rp_code rep = 201 ->
  let key := resource_key gv (r_name d) ns n in
  exists o', rp_body rep = BJson (VMap o') /\ created gv d n o' /\ st_objects (w_store w) !! key = None /\
    (kind_of key ∉ follow_up d ->
     st_objects (w_store (create_object a rq gv ns n d md o w).1) !! key = Some (cloneObject o')).
Proof.
  intros Hw Hr Hc. unfold create_object in *.
  apply bind_inv in Hr as (o1 & H1 & Hr & ->). destruct (stamp_identity_result _ _ _ _ _ _ _ _ H1) as (Hw1 & Hid).
  set (w1 := (stamp_identity gv ns n d md o w).1) in *. clearbody w1. clear H1.
  apply bind_inv in Hr as (o2 & H2 & Hr & ->). match type of Hr with context [(?m w1).1] => set (w2 := (m w1).1) in * end.
  assert (Hw2 : w_store w2 = w_store w1) by (unfold w2; by destruct (has_key o1 "status")).
  assert (Ho2 : outside filled o1 o2).
  { destruct (has_key o1 "status"); [injection H2 as <-; outside|]. injection H2 as <-. case_match; outside. }
  clearbody w2. clear H2. apply bind_inv in Hr as (o3 & H3 & Hr & ->). pose proof (default_object_outside _ _ _ _ _ _ H3) as Ho3.
  pose proof (steady_default_stays (r_kind d) ns n o2 w2) as Hw3. set (w3 := (default_object _ _ _ _ _ _).1) in *. clearbody w3. clear H3.
  apply bind_inv in Hr as ([o4 e] & H4 & Hr & ->). rewrite Hw2, Hw1 in Hw3.
  destruct e as [[]|]; [injection Hr as <-; discriminate Hc..|]. rewrite <- Hw3 in *.
  destruct (put_result _ _ _ _ _ Hw H4) as (Ho4 & Hput). pose proof (put_fresh _ _ _ _ Hw H4) as Hfresh.
  set (key := resource_key gv (r_name d) ns n) in *.
  assert (Hw4 : store_inv (w_store (store_put key o3 "ADDED" w3).1)).
  { eapply (confined_inv (fun _ => True)); [by apply confined_put|done]. }
  set (w4 := (store_put key o3 "ADDED" w3).1) in *. clearbody w4. cbn zeta.
  apply bind_inv in Hr as (u & _ & Hr & ->). pose proof (confined_frame _ _ w4 key (after_create_kinds gv ns n d o4) Hw4) as Hframe.
  set (w5 := (after_create a gv ns n d o4 w4).1) in *. clearbody w5.
  apply bind_inv in Hr as (u' & _ & Hr & ->). injection Hr as <-. exists o4. split; [done|].
  split; [subst o4; apply created_stamp; eapply created_outside, Ho3; by eapply created_outside, Ho2|].
  split; [done|]. intros Hk. cbn [fst ret].
  assert (Hm : forall w, w_store (emitMutation a rq "create" o4 w).1 = w_store w) by (intros; unfold emitMutation; by case_match).
  rewrite Hm, Hframe, Hput by done. by rewrite lookup_insert_eq.
Qed.


Lemma write_back_spec rq op gv ns r n d o w rep : store_inv (w_store w) ->
  (write_back a rq op gv ns r n d o w).2 = Some rep -> rp_code rep = 200 ->
  let key := resource_key gv r ns n in
  rp_body rep = BJson (VMap (stamp (w_store w) o)) /\
  (isWorkloadKind (r_kind d) = false ->
   st_objects (w_store (write_back a rq op gv ns r n d o w).1) =
     <[key := cloneObject (stamp (w_store w) o)]> (st_objects (w_store w))).
Proof.
  intros Hw Hr Hc. unfold write_back in *. apply bind_inv in Hr as ([o' e] & H1 & Hr & ->).
  destruct e; [injection Hr as <-; discriminate Hc|]. destruct (put_result _ _ _ _ _ Hw H1) as (-> & Hput).
  apply bind_inv in Hr as (u & _ & Hr & ->). apply bind_inv in Hr as (u' & _ & Hr & ->). injection Hr as <-.
  split; [done|]. intros ->. cbn [fst ret]. rewrite <- Hput. unfold emitMutation. by destruct (a_emits a).
Qed.


(** An action that keeps the invariant and brings no object. *)
Definition shrinks {A} (m : act A) : Prop := forall w, store_inv (w_store w) ->
  store_inv (w_store (m w).1) /\ forall k, st_objects (w_store w) !! k = None -> st_objects (w_store (m w).1) !! k = None.
Lemma shrinks_same {A} (m : act A) : (forall w, w_store (m w).1 = w_store w) -> shrinks m.
Proof. intros Hm w Hw. by rewrite Hm. Qed.
Lemma shrinks_bind {A B} (m : act A) (k : A -> act B) : shrinks m -> (forall x, shrinks (k x)) -> shrinks (bind m k).
Proof.
  intros Hm Hk w Hw. unfold bind. destruct (Hm w Hw) as [Hi Ho]. destruct (m w) as [w' [x|]]; cbn [fst] in *; [|done].
  destruct (Hk x w' Hi) as [Hi' Ho']. split; [done|]. intros j Hj. by apply Ho', Ho.
Qed.
Lemma shrinks_delete key : shrinks (store_delete key).
Proof.
  intros w Hw. unfold store_delete. pose proof (delete_inv key _ Hw) as Hi.
  destruct (st_objects (w_store w) !! key) as [o|] eqn:E.
  - destruct (delete_fields key _ o (si_watchers _ Hw) E) as [Ho _]. destruct (delete_obj key (w_store w)) as [s x].
    cbn [fst w_store set_store] in *. split; [done|]. intros k Hk. rewrite Ho. by apply lookup_delete_None; right.
  - rewrite delete_absent in * by done. done.
Qed.
Lemma shrinks_for_each {A} (l : list A) body : (forall x, shrinks (body x)) -> shrinks (for_each l body).
Proof. intros Hb. induction l as [|x l IH]; simpl; [by apply shrinks_same|]. by apply shrinks_bind. Qed.
Lemma shrinks_reap ns n : shrinks (reapOwnedPods ns n).
Proof.
  assert (Hp : forall site wanted existing, shrinks (reap_pods site ns wanted existing)).
  { intros. unfold reap_pods. apply shrinks_for_each. intros p. case_match; [by apply shrinks_same|].
    apply shrinks_bind; [apply shrinks_delete|]. intros. by apply shrinks_same. }
  unfold reapOwnedPods. apply shrinks_bind; [by apply shrinks_same|]. intros owned.
  apply shrinks_bind; [apply Hp|]. intros _. apply shrinks_bind; [by apply shrinks_same|]. intros sets.
  apply shrinks_for_each. intros rs. apply shrinks_bind; [by apply shrinks_same|]. intros owned'.
  apply shrinks_bind; [apply Hp|]. intros _. apply shrinks_bind; [apply shrinks_delete|]. intros. by apply shrinks_same.
Qed.

(** [delete] answers 404 exactly when there is no such object, and then
    leaves the store as it was; otherwise it answers 200 and the object is
    gone, whatever pods and ReplicaSets go with it.  (A deleted pod may be
    replaced by its controller, under the same name for a StatefulSet.) *)
Theorem delete_contract : forall rq gv ns r n d w rep, store_inv (w_store w) ->
  (delete a rq gv ns r n d w).2 = Some rep ->
  let key := resource_key gv r ns n in
  match st_objects (w_store w) !! key with
  | None => rp_code rep = 404 /\ w_store (delete a rq gv ns r n d w).1 = w_store w
  | Some _ => rp_code rep = 200 /\
      (r_kind d <> "Pod" -> st_objects (w_store (delete a rq gv ns r n d w).1) !! key = None)
  end.
Proof.
  intros rq gv ns r n d w rep Hw Hr. unfold delete in *. set (key := resource_key gv r ns n) in *. cbn zeta in *.
  apply bind_inv in Hr as (victim & _ & Hr & ->). change (store_get key w).1 with w in *.
  apply bind_inv in Hr as (deleted & H2 & Hr & ->). destruct (shrinks_delete key w Hw) as [Hw1 _].
  destruct (st_objects (w_store w) !! key) as [old|] eqn:E.
  - destruct (delete_fields key _ old (si_watchers _ Hw) E) as (Hdel & _). unfold store_delete in *.
    assert (Hd : (delete_obj key (w_store w)).2 = Some (cloneObject old)) by (unfold delete_obj; rewrite E; by case_match).
    destruct (delete_obj key (w_store w)) as [s x]. cbn [fst snd] in *. subst x. injection H2 as <-.
    apply bind_inv in Hr as (u & _ & Hr & ->).
    match type of Hr with context [(?m (set_store w s)).1] => assert (Hm : shrinks m) end.
    { destruct (_ && _); [apply shrinks_reap|by apply shrinks_same]. }
    destruct (Hm _ Hw1) as [_ Hgone]. cbn [w_store set_store] in Hgone. specialize (Hgone key).
    rewrite Hdel, lookup_delete_eq in Hgone. set (w2 := (_ (set_store w s)).1) in *. clearbody w2.
    apply bind_inv in Hr as (u1 & _ & Hr & ->). apply bind_inv in Hr as (u2 & _ & Hr & ->). injection Hr as <-.
    split; [done|]. intros Hk. rewrite (proj2 (String.eqb_neq _ _) Hk). cbn [fst ret].
    destruct victim; [|by apply Hgone]. unfold emitMutation. by destruct (a_emits a); apply Hgone.
  - unfold store_delete in *. rewrite (delete_absent _ _ E) in *. injection H2 as <-. by injection Hr as <-.
Qed.
End contracts.

(** ** Paths *)
Definition segment_free (s : string) : bool := all_bytes (fun c => negb (Ascii.eqb c "/"%char)) s.
Definition clean_segment (s : string) : Prop := s <> "" /\ s <> "." /\ s <> ".." /\ segment_free s = true.

Lemma clean_segments_clean acc l : Forall clean_segment acc -> Forall (fun t => segment_free t = true) l ->
  Forall clean_segment (clean_segments true acc l).
Proof.
  revert acc. induction l as [|s l IH]; intros acc Ha Hl; [done|]. inversion Hl; subst. cbn [clean_segments].
  destruct (String.eqb_spec s ""); [by apply IH|]. destruct (String.eqb_spec s "."); [by apply IH|]. cbn [orb].
  destruct (String.eqb_spec s "..").
  - destruct (rev acc) as [|x t] eqn:E; [by apply IH|].
    assert (Hx : Forall clean_segment acc) by done. rewrite <- (rev_involutive acc), E in Hx. cbn [rev] in Hx.
    apply Forall_app in Hx as [Ht Hx]. inversion Hx as [|?? (_ & _ & Hne & _) _]; subst.
    rewrite (proj2 (String.eqb_neq _ _) Hne). apply IH; [|done].
    rewrite <- (rev_involutive acc), E. cbn [rev]. by rewrite removelast_last.
  - apply IH; [|done]. apply Forall_app. split; [done|]. by repeat constructor.
Qed.
Lemma clean_segments_id rooted acc l : Forall clean_segment l -> clean_segments rooted acc l = acc ++ l.
Proof.
  revert acc. induction l as [|s l IH]; intros acc Hl; cbn [clean_segments]; [by rewrite app_nil_r|].
  inversion Hl as [|?? (H1 & H2 & H3 & _) Hl']; subst. rewrite !(proj2 (String.eqb_neq _ _)) by done. cbn [orb].
  rewrite IH by done. by rewrite <- app_assoc.
Qed.

Lemma splitPath_join l : Forall clean_segment l -> splitPath ("/" +:+ join l "/") = l.
Proof.
  intros Hc. unfold splitPath. change ("/" +:+ ?s) with (String "/"%char s).
  rewrite has_prefix_cons, Ascii.eqb_refl, has_prefix_nil. cbn [andb].
  change (split "/" (String "/"%char ?s)) with ("" :: split "/"%char s). cbn [clean_segments].
  change (String.eqb "" "") with true. cbn [orb]. destruct l as [|x l]; [done|].
  assert (Hf : Forall (fun t => segment_free t = true) (x :: l)) by (eapply Forall_impl; [exact Hc|]; by intros t (_ & _ & _ & Ht)).
  pose proof (split_join "/"%char (x :: l) ltac:(done) Hf) as Hj. change (str1 "/"%char) with "/" in Hj. rewrite Hj.
  by rewrite clean_segments_id.
Qed.

(** The path of a request is cut safely: of any rooted path, [splitPath]
    gives segments that are not empty, hold no slash and are neither a dot nor
    a double dot, so no path climbs out of the tree; and the path rebuilt from
    the segments is cut into the same segments again. *)
Theorem splitPath_clean : forall raw, has_prefix raw "/" = true ->
  Forall clean_segment (splitPath raw) /\ splitPath ("/" +:+ join (splitPath raw) "/") = splitPath raw.
Proof.
  intros raw Hr. assert (Hc : Forall clean_segment (splitPath raw)).
  { unfold splitPath. rewrite Hr. apply clean_segments_clean; [constructor|]. apply split_free. }
  split; [done|by apply splitPath_join].
Qed.
Lemma splitPath_clean_witness : splitPath "/api/../../etc//./passwd" = ["etc"; "passwd"] /\
  Forall clean_segment (splitPath "/api/../../etc//./passwd").
Proof.
  split; [vm_compute; reflexivity|]. exact (proj1 (splitPath_clean "/api/../../etc//./passwd" eq_refl)).
Defined.

(** ** Pod logs *)
Section log.
Variables (startedAt now since : Z) (timestamps : bool).

Definition line_date (i : Z) : Z := startedAt + 2 * i.
Definition line_text (il : Z * string) : string :=
  (if timestamps then rfc3339 (line_date il.1) +:+ " " else "") +:+ il.2 +:+ newline.
(** No older than the window the client asked for. *)
Definition recent (il : Z * string) : bool := now - line_date il.1 * 10 ^ 9 <=? since * 10 ^ 9.

Lemma log_text_window i lines : 0 < since -> since * 10 ^ 9 <= max_int64 ->
  log_text startedAt now since timestamps i lines = str_concat (map line_text (List.filter recent (zip_index i lines))).
Proof.
  intros Hs Hm. revert i. induction lines as [|line lines IH]; intros i; [done|].
  cbn [log_text zip_index List.filter]. rewrite IH.
  assert (Hr : (0 <? since) && (i64 (since * 10 ^ 9) <? Z.max min_int64 (Z.min max_int64 (now - (startedAt + 2 * i) * 10 ^ 9)))
    = negb (recent (i, line))).
  { unfold recent, line_date, max_int64, min_int64 in *. cbn [fst]. rewrite i64_small by lia.
    rewrite (proj2 (Z.ltb_lt 0 since)) by lia. cbn [andb]. symmetry. rewrite Z.leb_antisym, negb_involutive.
    apply eq_bool_prop_intro. rewrite !Is_true_true, !Z.ltb_lt. lia. }
  rewrite Hr. destruct (recent (i, line)); [|done]. cbn [negb map str_concat]. unfold line_text at 2. cbn [fst snd].
  unfold line_date. by rewrite !str_app_assoc.
Qed.
Lemma log_text_overflow i lines : 0 <= i -> 0 <= now -> startedAt + 2 * (i + Z.of_nat (length lines)) < 9 * 10 ^ 9 ->
  9223372037 <= since <= 9446744073 -> log_text startedAt now since timestamps i lines = "".
Proof.
  intros Hi Hn Hl Hs. revert i Hi Hl. induction lines as [|line lines IH]; intros i Hi Hl; [done|].
  cbn [log_text length] in *. rewrite IH by lia.
  assert (E : i64 (since * 10 ^ 9) = since * 10 ^ 9 - 2 ^ 64) by (unfold i64; dlia).
  rewrite E. match goal with |- (if ?b then _ else _) +:+ _ = _ => assert (b = true) as -> end; [|done].
  rewrite andb_true_iff, !Z.ltb_lt. unfold max_int64, min_int64. lia.
Qed.
End log.

(** The window of a pod log.  With [sinceSeconds] up to 9223372036 the log
    holds exactly the lines no older than the window, in order.  One second
    more and the product with a second's nanoseconds wraps to a negative
    duration: the widest windows give an empty log. *)
Theorem log_since_window : forall startedAt now since timestamps lines, 0 < since ->
  (since <= 9223372036 -> log_text startedAt now since timestamps 0 lines =
     str_concat (map (line_text startedAt timestamps) (List.filter (recent startedAt now since) (zip_index 0 lines)))) /\
  (9223372037 <= since <= 9446744073 -> 0 <= now -> startedAt + 2 * Z.of_nat (length lines) < 9 * 10 ^ 9 ->
   log_text startedAt now since timestamps 0 lines = "").
Proof.
  intros startedAt now since timestamps lines Hs. split.
  - intros Hm. apply log_text_window; [done|]. unfold max_int64. lia.
  - intros. by apply log_text_overflow.
Qed.
Lemma log_since_window_witness :
  log_text 1000 (2000 * 10 ^ 9) 9223372036 false 0 ["up"] = "up" +:+ newline /\
  log_text 1000 (2000 * 10 ^ 9) 9223372037 false 0 ["up"] = "".
Proof.
  split; [vm_compute; reflexivity|].
  apply (log_since_window 1000 (2000 * 10 ^ 9) 9223372037 false ["up"]); [lia|lia|lia|vm_compute; reflexivity].
Defined.

(** ** Witnesses *)
Section witnesses.
#[local] Existing Instance test_env.
#[local] Existing Instance wire.
#[local] Existing Instance no_yaml.

Definition config_maps : apiResource := default (resource "configmaps" "ConfigMap" true "cm") (described api0 core_gv "configmaps").
Definition config_map (data : string) : string := q ("{'metadata':{'name':'settings','uid':'mine'},'data':{'mode':'" +:+ data +:+ "'}}").
Definition collection_path : string := "/api/v1/namespaces/default/configmaps".
Definition post_map : Request := request "POST" collection_path (config_map "a").
Definition put_map : Request := request "PUT" (collection_path +:+ "/settings") (config_map "b").
Definition is_code (code : Z) (o : option reply) : bool := match o with Some r => rp_code r =? code | None => false end.
Definition w_map : world := (create api0 post_map core_gv "default" config_maps w_default).1.
Lemma w_map_inv : store_inv (w_store w_map).
Proof. eapply confined_inv; [apply handler_create|apply w_default_inv]. Qed.
Lemma is_code_some code o : is_code code o = true -> exists r, o = Some r /\ rp_code r = code.
Proof. destruct o as [r|]; [|done]. intros H. exists r. split; [done|]. by apply Z.eqb_eq. Qed.

Lemma post_creates : is_code 201 (create api0 post_map core_gv "default" config_maps w_default).2 = true.
Proof. vm_compute. reflexivity. Qed.
Lemma put_updates : is_code 200 (update api0 put_map core_gv "default" "configmaps" "settings" config_maps w_map).2 = true.
Proof. vm_compute. reflexivity. Qed.
Lemma delete_deletes : is_code 200 (delete api0 put_map core_gv "default" "configmaps" "settings" config_maps w_map).2 = true.
Proof. vm_compute. reflexivity. Qed.

Lemma delete_contract_witness :
  is_Some (st_objects (w_store w_map) !! resource_key core_gv "configmaps" "default" "settings") /\
  st_objects (w_store (delete api0 put_map core_gv "default" "configmaps" "settings" config_maps w_map).1)
    !! resource_key core_gv "configmaps" "default" "settings" = None.
Proof.
  split; [vm_compute; by eexists|].
  destruct (is_code_some _ _ delete_deletes) as (r & Hr & Hc).
  pose proof (delete_contract api0 put_map core_gv "default" "configmaps" "settings" config_maps w_map r w_map_inv Hr) as Hd.
  cbv zeta in Hd. destruct (st_objects (w_store w_map) !! _) eqn:E; [|exfalso; destruct Hd as [Hd _]; clear -Hd Hc; lia].
  refine (proj2 Hd _). vm_compute. discriminate.
Defined.
End witnesses.
