(* ===== verification/Watch.v ===== *)
(** * The stream of a watch

    What [watch] of api.go does once its watcher is registered: the objects
    replayed, then the loop over the channel, the timer and the end of the
    request, interleaved with whatever other requests do to the store. *)
From S2P Require Import Prelude GoStrings Value Json Names Selector Catalog Store StoreFacts StoreProps World Controllers Seed Patch Proto Request Api.

#[local] Set Warnings "-clear-no-such-hyp,-notation-for-abbreviation".
#[local] Open Scope string_scope.
#[local] Open Scope list_scope.
#[local] Open Scope Z_scope.

(** Before the replay, in the loop, or returned; what has been written. *)
Inductive stream_phase := opening | looping | over.
Record stream := { sm_watcher : watcher; sm_phase : stream_phase; sm_written : list watchEvent }.
Definition stream_open (w : watcher) : stream := {| sm_watcher := w; sm_phase := opening; sm_written := [] |}.
Definition stream_to (sm : stream) (p : stream_phase) (written : list watchEvent) : stream :=
  {| sm_watcher := sm_watcher sm; sm_phase := p; sm_written := written |}.

Section watch.
Context `{RangeOrder}.

(** The replay: [encodes] says which writes succeed; the first that fails ends
    the request. *)
Fixpoint replay (encodes : nat -> bool) (i : nat) (items : list object) : list watchEvent * bool :=
  match items with
  | [] => ([], true)
  | item :: items =>
      if encodes i then let '(l, all) := replay encodes (S i) items in ({| we_type := "ADDED"; we_object := item |} :: l, all)
      else ([], false)
  end.
Definition replays (resourceVersion : string) : bool := bool_decide (resourceVersion ∈ [""; "0"]).
(** Up to the loop: a response that cannot be flushed ends the request. *)
Definition stream_begin (canFlush : bool) (resourceVersion : string) (encodes : nat -> bool) (sm : stream) (s : objectStore) : stream :=
  let w := sm_watcher sm in
  if negb canFlush then stream_to sm over []
  else if replays resourceVersion then
    match listPage s (GV (w_group w) (w_version w)) (w_namespace w) (w_resource w) (w_labels w) (w_fields w) 0 maxListPageItems with
    | inl (items, _, _) => let '(l, all) := replay encodes 0 items in stream_to sm (if all : bool then looping else over) l
    | inr _ => stream_to sm looping []
    end
  else stream_to sm looping [].

(** One turn of the loop: the request was cancelled, the timer fired, or the
    channel gave something; [None] where there is nothing to receive. *)
Inductive stream_turn := turn_cancelled | turn_timer | turn_receive (encodes : bool).
Definition turn (t : stream_turn) (sm : stream) (s : objectStore) : option (stream * objectStore) :=
  match t with
  | turn_cancelled | turn_timer => Some (stream_to sm over (sm_written sm), s)
  | turn_receive encodes =>
      match receive (sm_watcher sm) s with
      | (s', Some (Some e)) => Some (if encodes then stream_to sm looping (sm_written sm ++ [e]) else stream_to sm over (sm_written sm), s')
      | (s', Some None) => Some (stream_to sm over (sm_written sm), s')
      | (_, None) => None
      end
  end.

(** ** All interleavings

    The events that are the watcher's: of the objects put and deleted that it
    selects. *)
Definition put_events (w : watcher) (key : objectKey) (obj : object) (ev : string) (s : objectStore) : list watchEvent :=
  match put key obj ev s with
  | (_, obj', None) => if watcher_selects w key (cloneObject obj') then [event_of ev (cloneObject obj')] else []
  | (_, _, Some _) => []
  end.
Definition delete_events (w : watcher) (key : objectKey) (s : objectStore) : list watchEvent :=
  match st_objects s !! key with
  | Some o => if watcher_selects w key (cloneObject o) then [event_of "DELETED" (cloneObject o)] else []
  | None => []
  end.
(** The store, the stream, and the watcher's events so far.  Other requests
    come between any two steps; the numbers of their watchers are others. *)
Definition watch_state : Type := objectStore * stream * list watchEvent.
Inductive watch_step : watch_state -> watch_state -> Prop :=
  | ws_put key obj ev s sm l : watch_step (s, sm, l) ((put key obj ev s).1.1, sm, l ++ put_events (sm_watcher sm) key obj ev s)
  | ws_delete key s sm l : watch_step (s, sm, l) ((delete_obj key s).1, sm, l ++ delete_events (sm_watcher sm) key s)
  | ws_watch gv ns r ls fs s sm l : w_id (watch gv ns r ls fs s).2 <> w_id (sm_watcher sm) -> watch_step (s, sm, l) ((watch gv ns r ls fs s).1, sm, l)
  | ws_unwatch w s sm l : w_id w <> w_id (sm_watcher sm) -> watch_step (s, sm, l) (unwatch w s, sm, l)
  | ws_receive w s sm l : w_id w <> w_id (sm_watcher sm) -> watch_step (s, sm, l) ((receive w s).1, sm, l)
  | ws_nextName prefix s sm l : watch_step (s, sm, l) ((nextName prefix s).1, sm, l)
  | ws_begin canFlush rv encodes s sm l : sm_phase sm = opening -> watch_step (s, sm, l) (s, stream_begin canFlush rv encodes sm s, l)
  | ws_turn t s sm l sm' s' : sm_phase sm = looping -> turn t sm s = Some (sm', s') -> watch_step (s, sm, l) (s', sm', l)
  | ws_close s sm l : sm_phase sm = over -> watch_step (s, sm, l) (unwatch (sm_watcher sm) s, sm, l).
End watch.
