(* ===== verification/WatchProps.v ===== *)
(** * The stream of a watch: properties

    A client sees every event of its selection, in order and once, until the
    stream ends: an event is never skipped, not even by a client too slow for
    its channel. *)
From S2P Require Import Prelude GoStrings Value Json Names Selector Catalog Store StoreFacts StoreProps World Controllers Seed Patch Proto Request Api Watch.

#[local] Set Warnings "-clear-no-such-hyp,-notation-for-abbreviation".
#[local] Open Scope string_scope.
#[local] Open Scope list_scope.
#[local] Open Scope Z_scope.

Section watch.
Context `{RangeOrder}.

(** The channel of a watcher: what was taken from it, what waits in it, and,
    where the watcher has been dropped, what came after that. *)
Record on_channel (w : watcher) (s : objectStore) (l taken : list watchEvent) (ch : channel) (missed : list watchEvent) : Prop := {
  oc_channel : st_channels s !! w_id w = Some ch;
  oc_events : l = (taken ++ ch_buffer ch) ++ missed;
  oc_state : st_watchers s !! w_id w = Some w /\ ch_closed ch = false /\ missed = [] \/ st_watchers s !! w_id w = None /\ ch_closed ch = true;
}.
Definition chan_ok (w : watcher) (s : objectStore) (l taken : list watchEvent) : Prop := exists ch missed, on_channel w s l taken ch missed.
Lemma chan_ok_same w s s' l taken : st_channels s' !! w_id w = st_channels s !! w_id w -> st_watchers s' !! w_id w = st_watchers s !! w_id w ->
  chan_ok w s l taken -> chan_ok w s' l taken.
Proof. intros E1 E2 (ch & missed & [H1 H2 H3]). exists ch, missed. split; [by rewrite E1|done|by rewrite E2]. Qed.
Lemma publish_chan w key ev obj s l taken : watchers_ok s -> chan_ok w s l taken ->
  chan_ok w (publishLocked key ev obj s) (l ++ if watcher_selects w key obj then [event_of ev obj] else []) taken.
Proof.
  intros Hok (ch & missed & [Hch Hl Hst]). destruct (publish_spec key ev obj s Hok) as (_ & Hnone & Hsome). cbn zeta in *.
  destruct Hst as [(Hw & Hopen & ->)|(Hw & Hclosed)].
  - destruct (Hsome _ _ _ Hw Hch) as [E1 E2]. unfold published, has_room in *. rewrite app_nil_r in Hl. destruct (watcher_selects w key obj).
    + destruct (_ <? _).
      * exists {| ch_buffer := ch_buffer ch ++ [event_of ev obj]; ch_closed := false |}, []. split; [done| |by left].
        cbn [ch_buffer]. by rewrite Hl, app_nil_r, app_assoc.
      * exists {| ch_buffer := ch_buffer ch; ch_closed := true |}, [event_of ev obj]. split; [done|cbn [ch_buffer]; by rewrite Hl|by right].
    + exists ch, []. split; [done|by rewrite app_nil_r, Hl, app_nil_r|by left].
  - destruct (Hnone _ Hw) as [E1 E2]. exists ch, (missed ++ if watcher_selects w key obj then [event_of ev obj] else []).
    split; [by rewrite E2|by rewrite Hl, !app_assoc|right; by rewrite E1].
Qed.
Lemma put_chan w key obj ev s l taken : store_inv s -> chan_ok w s l taken -> chan_ok w (put key obj ev s).1.1 (l ++ put_events w key obj ev s) taken.
Proof.
  intros Hs Hc. unfold put_events. rewrite put_unfold by apply Hs. destruct (put_refuses s key obj ev); cbn [fst]; [by rewrite app_nil_r|].
  unfold put_store. apply publish_chan; [apply Hs|]. by apply (chan_ok_same w s).
Qed.
Lemma delete_chan w key s l taken : store_inv s -> chan_ok w s l taken -> chan_ok w (delete_obj key s).1 (l ++ delete_events w key s) taken.
Proof.
  intros Hs Hc. unfold delete_events, delete_obj. destruct (st_objects s !! key) as [o|]; cbn [fst]; [|by rewrite app_nil_r].
  apply publish_chan; [destruct (encoded_len o); apply Hs|]. apply (chan_ok_same w s); [by destruct (encoded_len o)..|done].
Qed.
Lemma watch_chan w gv ns r ls fs s l taken : w_id (watch gv ns r ls fs s).2 <> w_id w -> chan_ok w s l taken -> chan_ok w (watch gv ns r ls fs s).1 l taken.
Proof.
  intros Hne. cbn [watch snd w_id] in Hne. apply chan_ok_same; cbn [watch fst set_watch st_channels st_watchers]; by rewrite lookup_insert_ne.
Qed.
Lemma drop_other w id s l taken : id <> w_id w -> chan_ok w s l taken -> chan_ok w (drop_watcher s id) l taken.
Proof.
  intros Hne. apply chan_ok_same; unfold drop_watcher, close_channel; cbn [set_watch st_channels st_watchers]; repeat case_match;
    cbn [set_watch st_channels st_watchers]; rewrite ?lookup_insert_ne, ?lookup_delete_ne by done; done.
Qed.
Lemma unwatch_chan w w' s l taken : w_id w' <> w_id w -> chan_ok w s l taken -> chan_ok w (unwatch w' s) l taken.
Proof. intros Hne Hc. unfold unwatch. destruct (st_watchers s !! w_id w'); [by apply drop_other|done]. Qed.
Lemma receive_chan w w' s l taken : w_id w' <> w_id w -> chan_ok w s l taken -> chan_ok w (receive w' s).1 l taken.
Proof.
  intros Hne Hc. unfold receive. destruct (st_channels s !! w_id w') as [ch|]; [|done]. destruct (ch_buffer ch); [done|].
  apply (chan_ok_same w s); cbn [fst set_watch st_channels st_watchers]; by rewrite ?lookup_insert_ne.
Qed.
(** The receive of the stream itself takes the oldest event. *)
Lemma receive_own w s l taken s' e : chan_ok w s l taken -> receive w s = (s', Some (Some e)) -> chan_ok w s' l (taken ++ [e]).
Proof.
  intros (ch & missed & [Hch Hl Hst]). unfold receive. rewrite Hch. destruct (ch_buffer ch) as [|e' rest] eqn:Eb; [by destruct (ch_closed ch)|].
  intros [= <- <-]. exists {| ch_buffer := rest; ch_closed := ch_closed ch |}, missed. cbn [set_watch st_channels st_watchers ch_buffer ch_closed].
  split; [cbn [set_watch st_channels]; by rewrite lookup_insert_eq|cbn [ch_buffer]; rewrite Hl; by rewrite <- (app_assoc taken [e'])|done].
Qed.
Lemma receive_end w s s' r : receive w s = (s', r) -> match r with Some (Some _) => True | _ => s' = s end.
Proof. unfold receive. destruct (st_channels s !! w_id w) as [ch|]; [destruct (ch_buffer ch); [destruct (ch_closed ch)|]|]; by intros [= <- <-]. Qed.
(** Leaving the stream closes the channel; what waits in it is lost. *)
Lemma unwatch_own w s l taken : chan_ok w s l taken -> chan_ok w (unwatch w s) l taken.
Proof.
  intros Hc. unfold unwatch. destruct (st_watchers s !! w_id w) as [w'|] eqn:Ew; [|done]. destruct Hc as (ch & missed & [Hch Hl Hst]).
  destruct Hst as [(_ & Hopen & ->)|(Hno & _)]; [|congruence]. exists {| ch_buffer := ch_buffer ch; ch_closed := true |}, [].
  unfold drop_watcher, close_channel. cbn [set_watch st_channels st_watchers]. rewrite Hch, Hopen. cbn [set_watch st_channels st_watchers].
  split; [cbn [set_watch st_channels]; by rewrite lookup_insert_eq|done|]. right. cbn [set_watch st_watchers]. by rewrite lookup_delete_eq.
Qed.

(** What a stream has written: the replay, then what it took from its channel;
    the last may be missing once the stream is over. *)
Definition written_ok (sm : stream) (taken : list watchEvent) : Prop :=
  exists replayed, Forall (fun e => we_type e = "ADDED") replayed /\
  match sm_phase sm with
  | opening => sm_written sm = [] /\ taken = []
  | looping => sm_written sm = replayed ++ taken
  | over => exists p, sm_written sm = replayed ++ p /\ p `prefix_of` taken
  end.
Record follows (w : watcher) (st : watch_state) : Prop := {
  fl_store : store_inv st.1.1;
  fl_watcher : sm_watcher st.1.2 = w;
  fl_events : exists taken, chan_ok w st.1.1 st.2 taken /\ written_ok st.1.2 taken;
}.
Lemma replay_added encodes i items : Forall (fun e => we_type e = "ADDED") (replay encodes i items).1.
Proof.
  revert i. induction items as [|item items IH]; intros i; cbn [replay]; [done|]. destruct (encodes i); [|done].
  specialize (IH (S i)). destruct (replay encodes (S i) items) as [l all]. cbn [fst] in *. by constructor.
Qed.
Lemma begin_ok canFlush rv encodes sm s : sm_phase sm = opening -> written_ok sm [] -> written_ok (stream_begin canFlush rv encodes sm s) [].
Proof.
  intros Ho (r & _ & Hw). rewrite Ho in Hw. unfold stream_begin. destruct canFlush; cbn [negb]; [|exists []; split; [done|by exists []]].
  destruct (replays rv); [|by exists []]. destruct (listPage _ _ _ _ _ _ _ _) as [[[items ?] ?]|]; [|by exists []].
  pose proof (replay_added encodes 0 items) as Hr. destruct (replay encodes 0 items) as [l all]. cbn [fst] in Hr. exists l. split; [done|].
  destruct all; cbn [stream_to sm_phase sm_written]; [by rewrite app_nil_r|]. exists []. by rewrite app_nil_r.
Qed.
Lemma step_follows w st st' : follows w st -> watch_step st st' -> follows w st'.
Proof.
  intros [Hs Hw (taken & Hc & Hwr)] Hstep.
  destruct Hstep as [key obj ev s sm l|key s sm l|gv ns r ls fs s sm l Hne|w' s sm l Hne|w' s sm l Hne|prefix s sm l|canFlush rv encodes s sm l Ho|t s sm l sm' s' Hl Ht|s sm l Hov]; cbn [fst snd] in *; subst w.
  - split; [by apply put_inv|done|]. exists taken. split; [by apply put_chan|done].
  - split; [by apply delete_inv|done|]. exists taken. split; [by apply delete_chan|done].
  - split; [by apply watch_inv|done|]. exists taken. split; [by apply watch_chan|done].
  - split; [by apply unwatch_inv|done|]. exists taken. split; [by apply unwatch_chan|done].
  - split; [by apply receive_inv|done|]. exists taken. split; [by apply receive_chan|done].
  - split; [by apply nextName_inv|done|]. exists taken. split; [|done]. revert Hc. apply chan_ok_same; cbn [fst]; unfold nextName; by repeat case_match.
  - assert (taken = []) as -> by (destruct Hwr as (r & _ & Hwr); rewrite Ho in Hwr; by destruct Hwr).
    split; [done|unfold stream_begin; by repeat case_match|]. exists []. split; [done|by apply begin_ok].
  - destruct Hwr as (r & Hr & Hwr). rewrite Hl in Hwr. unfold turn in Ht. destruct t as [| |encodes].
    + injection Ht as <- <-. split; [done|done|]. exists taken. split; [done|]. exists r. split; [done|]. by exists taken.
    + injection Ht as <- <-. split; [done|done|]. exists taken. split; [done|]. exists r. split; [done|]. by exists taken.
    + pose proof (receive_inv (sm_watcher sm) s Hs) as Hinv. destruct (receive (sm_watcher sm) s) as [s1 [[e|]|]] eqn:Er; [| |done].
      * pose proof (receive_own _ _ _ _ _ _ Hc Er) as Hc'. assert (s' = s1) as -> by (destruct encodes; congruence).
        split; [done|by destruct encodes; injection Ht as <-|]. exists (taken ++ [e]). split; [done|]. exists r. split; [done|].
        destruct encodes; injection Ht as <-; cbn [stream_to sm_phase sm_written]; rewrite Hwr; [by rewrite app_assoc|]. exists taken. split; [done|by eexists].
      * pose proof (receive_end _ _ _ _ Er) as ->. injection Ht as <- <-. split; [done|done|]. exists taken. split; [done|]. exists r. split; [done|]. by exists taken.
  - split; [by apply unwatch_inv|done|]. exists taken. split; [by apply unwatch_own|done].
Qed.
Lemma watch_follows gv ns r ls fs s : store_inv s ->
  follows (watch gv ns r ls fs s).2 ((watch gv ns r ls fs s).1, stream_open (watch gv ns r ls fs s).2, []).
Proof.
  intros Hs. split; [by apply watch_inv|done|]. exists []. split; [|by exists []].
  exists {| ch_buffer := []; ch_closed := false |}, []. cbn [watch fst snd w_id]. split; cbn [set_watch st_channels st_watchers w_id]; [by rewrite lookup_insert_eq|done|].
  left. by rewrite lookup_insert_eq.
Qed.
Lemma steps_follow w st st' : rtc watch_step st st' -> follows w st -> follows w st'.
Proof. induction 1 as [|st1 st2 st3 Hstep _ IH]; [done|]. intros Hf. apply IH. by eapply step_follows. Qed.

(** C9. A watch tells the truth: whatever other requests do between the steps
    of its stream, what it has written is a replay, of [ADDED] events only,
    followed by a beginning of the events of the objects it selects, in order,
    none skipped and none twice (what was stored before the replay was read may
    be in both parts).  While its watcher is registered nothing but
    the at most four events waiting in the channel is still to be written.  A
    watcher that was dropped for being slow ends the stream where the first event
    is missing: the loop takes what waits and then returns. *)
Theorem watch_stream_is_faithful : forall gv ns r ls fs s0 s sm published, store_inv s0 ->
  rtc watch_step ((watch gv ns r ls fs s0).1, stream_open (watch gv ns r ls fs s0).2, []) (s, sm, published) ->
  exists replayed taken ch missed, Forall (fun e => we_type e = "ADDED") replayed /\
    st_channels s !! w_id (sm_watcher sm) = Some ch /\ Z.of_nat (length (ch_buffer ch)) <= 4 /\
    published = taken ++ ch_buffer ch ++ missed /\ sm_written sm `prefix_of` replayed ++ taken /\
    (sm_phase sm <> over -> sm_written sm = replayed ++ taken) /\
    (st_watchers s !! w_id (sm_watcher sm) <> None -> missed = []) /\
    (st_watchers s !! w_id (sm_watcher sm) = None -> sm_phase sm = looping -> forall encodes, exists sm' s', turn (turn_receive encodes) sm s = Some (sm', s') /\
       (ch_buffer ch = [] -> sm_phase sm' = over /\ sm_written sm' = sm_written sm)).
Proof.
  intros gv ns r ls fs s0 s sm published Hs0 Hsteps. destruct (steps_follow _ _ _ Hsteps (watch_follows gv ns r ls fs s0 Hs0)) as [Hs Hw (taken & (ch & missed & Hc) & Hwr)].
  cbn [fst snd] in *. destruct Hc as [Hch Hl Hst]. destruct Hwr as (rp & Hrp & Hwr). rewrite <- Hw in *.
  exists (match sm_phase sm with opening => [] | _ => rp end), taken, ch, missed. split; [by destruct (sm_phase sm)|]. split; [done|].
  split; [exact (si_buffers _ Hs _ _ Hch)|]. split; [by rewrite app_assoc|]. split; [|split; [|split]].
  - destruct (sm_phase sm); [destruct Hwr as [-> _]; apply prefix_nil|by rewrite Hwr|]. destruct Hwr as (p & -> & Hp). by apply prefix_app.
  - intros Hno. destruct (sm_phase sm); [by destruct Hwr as [-> ->]|done|done].
  - intros Hreg. by destruct Hst as [(_ & _ & ?)|(? & _)].
  - intros Hun Hloop encodes. destruct Hst as [(Hreg & _)|(_ & Hclosed)]; [congruence|]. cbn [turn]. unfold receive. rewrite Hch.
    destruct (ch_buffer ch) as [|e rest]; [rewrite Hclosed; eexists _, _; by split|]. destruct encodes; eexists _, _; by split.
Qed.
End watch.

(** A watch of the ConfigMaps of a namespace; one is stored before the
    replay. *)
Definition watched_key : objectKey := {| key_group := ""; key_version := "v1"; key_resource := "configmaps"; key_namespace := "default"; key_name := "cm" |}.
Definition watched_object : object := [("apiVersion", VStr "v1"); ("kind", VStr "ConfigMap"); ("metadata", VMap [("name", VStr "cm"); ("namespace", VStr "default")])].
Definition registered : objectStore * watcher := watch (GV "" "v1") "default" "configmaps" [] [] (newObjectStore 0).
Definition after_put : objectStore := (@put key_order watched_key watched_object "ADDED" registered.1).1.1.
Definition replayed_stream : stream := @stream_begin key_order true "" (fun _ => true) (stream_open registered.2) after_put.
Definition received : stream * objectStore := default (replayed_stream, after_put) (@turn (turn_receive true) replayed_stream after_put).
Lemma received_steps : rtc (@watch_step key_order) (registered.1, stream_open registered.2, [])
  (received.2, received.1, @put_events key_order registered.2 watched_key watched_object "ADDED" registered.1).
Proof.
  eapply rtc_l; [apply (ws_put watched_key watched_object "ADDED")|]. eapply rtc_l; [by apply (ws_begin true "" (fun _ => true))|].
  apply rtc_once. apply (ws_turn (turn_receive true)); [vm_compute; reflexivity|vm_compute; reflexivity].
Qed.
Lemma watch_stream_is_faithful_witness : exists replayed taken, Forall (fun e => we_type e = "ADDED") replayed /\ sm_written received.1 = replayed ++ taken.
Proof.
  destruct (@watch_stream_is_faithful key_order (GV "" "v1") "default" "configmaps" [] [] (newObjectStore 0) _ _ _ (new_store_inv 0) received_steps)
    as (replayed & taken & ch & missed & H1 & _ & _ & _ & _ & H2 & _).
  exists replayed, taken. split; [exact H1|]. apply H2. vm_compute. discriminate.
Defined.
(** The watcher is registered before the replay is read, in two steps: what is
    stored between them is written twice, as a replayed object and as an event. *)
Example replay_race_duplicates : map we_type (sm_written received.1) = ["ADDED"; "ADDED"] /\
  match sm_written received.1 with [a; b] => we_object a = we_object b | _ => False end.
Proof. vm_compute. by split. Qed.
