(* ===== verification/Netlimit.v ===== *)
(** * The capped listener

    listener.go of [netlimit]: a listener wrapped so that no more than a given
    number of accepted connections are open at once.  The goroutines that call
    [Accept] and [Close] interleave; each atomic step of theirs is an [action],
    which is [None] where the goroutine would block. *)
From S2P Require Import Prelude.

#[local] Open Scope Z_scope.
#[local] Arguments map_sum : simpl never.

(** [slots] is a buffered channel used as a counter, [done] a channel that is
    only ever closed.  A connection is known by a number, with the state of its
    [releaseOnce]. *)
Record cappedListener := {
  cl_capacity : Z;
  cl_slots : Z;                  (** elements in [slots] *)
  cl_done : bool;                (** [done] is closed *)
  cl_closeErr : option Z;        (** set by [closeOnce]: the error of the inner close, 0 for nil *)
  cl_accepting : Z;              (** calls of [Accept] that hold a slot and wait for the inner one *)
  cl_conns : gmap nat bool;      (** accepted connections: has the slot been released? *)
}.
Definition errors_listener_required : Z := 1.
Definition errors_max_positive : Z := 2.
Definition NewCappedListener (listener : bool) (maxConnections : Z) : cappedListener + Z :=
  if negb listener then inr errors_listener_required
  else if maxConnections <? 1 then inr errors_max_positive
  else inl {| cl_capacity := maxConnections; cl_slots := 0; cl_done := false; cl_closeErr := None; cl_accepting := 0; cl_conns := ∅ |}.

Definition set_slots (l : cappedListener) (slots accepting : Z) (conns : gmap nat bool) : cappedListener :=
  {| cl_capacity := cl_capacity l; cl_slots := slots; cl_done := cl_done l; cl_closeErr := cl_closeErr l;
     cl_accepting := accepting; cl_conns := conns |}.

(** The receive [<-l.slots]. *)
Definition release_slot (l : cappedListener) : option cappedListener :=
  if 0 <? cl_slots l then Some (set_slots l (cl_slots l - 1) (cl_accepting l) (cl_conns l)) else None.

Inductive action :=
  | accept_acquire                      (** [Accept]: the send on [slots] is chosen *)
  | accept_refused                      (** [Accept]: [done] is chosen, [net.ErrClosed] *)
  | accept_connected (id : nat)         (** the inner [Accept] returns a connection *)
  | accept_failed                       (** the inner [Accept] returns an error *)
  | conn_close (id : nat)               (** [Close] of a connection *)
  | listener_close (err : Z).           (** [Close] of the listener; [err] is what the inner close returns *)

Definition Accept_acquire (l : cappedListener) : option cappedListener :=
  if cl_slots l <? cl_capacity l then Some (set_slots l (cl_slots l + 1) (cl_accepting l + 1) (cl_conns l)) else None.
Definition Accept_failed (l : cappedListener) : option cappedListener :=
  if 0 <? cl_accepting l
  then release_slot (set_slots l (cl_slots l) (cl_accepting l - 1) (cl_conns l)) else None.
Definition Accept_connected (id : nat) (l : cappedListener) : option cappedListener :=
  if 0 <? cl_accepting l
  then match cl_conns l !! id with
       | None => Some (set_slots l (cl_slots l) (cl_accepting l - 1) (<[id := false]> (cl_conns l)))
       | Some _ => None
       end
  else None.
(** The close of the inner connection, then [releaseOnce.Do]. *)
Definition cappedConn_Close (id : nat) (l : cappedListener) : option cappedListener :=
  match cl_conns l !! id with
  | Some false => release_slot (set_slots l (cl_slots l) (cl_accepting l) (<[id := true]> (cl_conns l)))
  | Some true => Some l
  | None => None
  end.
Definition cappedListener_Close (err : Z) (l : cappedListener) : cappedListener * Z :=
  match cl_closeErr l with
  | Some e => (l, e)
  | None => ({| cl_capacity := cl_capacity l; cl_slots := cl_slots l; cl_done := true; cl_closeErr := Some err;
                cl_accepting := cl_accepting l; cl_conns := cl_conns l |}, err)
  end.
Definition run_action (a : action) (l : cappedListener) : option cappedListener :=
  match a with
  | accept_acquire => Accept_acquire l
  | accept_refused => if cl_done l then Some l else None
  | accept_connected id => Accept_connected id l
  | accept_failed => Accept_failed l
  | conn_close id => cappedConn_Close id l
  | listener_close err => Some (cappedListener_Close err l).1
  end.
Fixpoint run_actions (l : list action) (s : cappedListener) : option cappedListener :=
  match l with [] => Some s | a :: l => s' ← run_action a s; run_actions l s' end.

(** ** The specification: a counting semaphore

    A holder of a slot is an [Accept] in progress or an open connection. *)
Definition open_conns (l : cappedListener) : Z := map_sum (fun released : bool => if released then 0 else 1) (cl_conns l).
Definition holders (l : cappedListener) : Z := cl_accepting l + open_conns l.
Record capped_ok (l : cappedListener) : Prop := {
  co_held : cl_slots l = holders l;
  co_bound : cl_slots l <= cl_capacity l;
  co_accepting : 0 <= cl_accepting l;
  co_closed : cl_done l = true <-> is_Some (cl_closeErr l);
}.
(** What an action does to the semaphore: the counter, its maximum. *)
Definition sem_step (a : action) (held capacity held' : Z) : Prop :=
  match a with
  | accept_acquire => held < capacity /\ held' = held + 1
  | accept_failed => held' = held - 1
  | accept_refused | accept_connected _ | listener_close _ => held' = held
  | conn_close _ => held' = held \/ held' = held - 1
  end.

Lemma open_nonneg l : 0 <= open_conns l.
Proof. apply map_sum_nonneg. by intros []. Qed.
Lemma new_capped_ok n l : NewCappedListener true n = inl l -> capped_ok l.
Proof.
  unfold NewCappedListener. simpl. destruct (n <? 1) eqn:E; [done|]. intros [= <-]. bool_to_prop.
  split; unfold holders, open_conns; cbn; [by rewrite map_sum_empty|lia|lia|]. split; [done|by intros [? ?]].
Qed.
Ltac capped := split; [split|split]; unfold holders, open_conns; cbn; try match goal with H : _ <-> _ |- _ => exact H end; try done.
Lemma step_ok a l l' : capped_ok l -> run_action a l = Some l' ->
  capped_ok l' /\ cl_capacity l' = cl_capacity l /\ sem_step a (holders l) (cl_capacity l) (holders l').
Proof.
  intros [Hh Hb Ha Hc]. pose proof (open_nonneg l) as Ho. unfold holders, open_conns in *.
  destruct a as [| |id| |id|err]; cbn [run_action].
  - unfold Accept_acquire. destruct (_ <? _) eqn:E; [|done]. intros [= <-]. bool_to_prop. capped; lia.
  - destruct (cl_done l) eqn:Ed; [|done]. intros [= <-]. capped; by rewrite Ed.
  - unfold Accept_connected. destruct (_ <? _) eqn:E; [|done]. destruct (cl_conns l !! id) eqn:Ei; [done|].
    intros [= <-]. bool_to_prop. capped; rewrite ?map_sum_insert by done; lia.
  - unfold Accept_failed, release_slot. destruct (_ <? _) eqn:E; [|done]. cbn. destruct (0 <? cl_slots l) eqn:E'; [|done].
    intros [= <-]. bool_to_prop. capped; lia.
  - unfold cappedConn_Close, release_slot. destruct (cl_conns l !! id) as [[]|] eqn:Ei; [| |done].
    { intros [= <-]. capped; [done..|by left]. }
    cbn. destruct (0 <? cl_slots l) eqn:E'; [|done]. intros [= <-]. bool_to_prop.
    capped; rewrite ?(map_sum_overwrite _ _ _ _ _ Ei); lia.
  - intros [= <-]. unfold cappedListener_Close. destruct (cl_closeErr l) eqn:Ee; [capped; by rewrite Ee|].
    split; [split|]; unfold holders, open_conns; cbn; try done. all: by split; [eexists|].
Qed.
Lemma run_ok l s s' : capped_ok s -> run_actions l s = Some s' -> capped_ok s' /\ cl_capacity s' = cl_capacity s.
Proof.
  revert s. induction l as [|a l IH]; cbn [run_actions]; intros s Hs; [by intros [= <-]|].
  destruct (run_action a s) as [s1|] eqn:E; [|done]. simpl. intros Hr.
  destruct (step_ok a s s1 Hs E) as (H1 & H2 & _). destruct (IH s1 H1 Hr) as [H3 H4]. split; [done|congruence].
Qed.

(** C19. The listener is a counting semaphore of the given capacity, whatever the
    interleaving of its goroutines.  In every reachable state the channel holds
    one element per [Accept] in progress and per open connection, so no more
    than [maxConnections] connections are open; every further action is an
    action of the semaphore; and a goroutine that gives back a slot never
    blocks on the empty channel, so closing a connection, once or twice, always
    returns. *)
Theorem listener_is_semaphore : forall n s0 trace s, NewCappedListener true n = inl s0 -> run_actions trace s0 = Some s ->
  open_conns s <= n /\ cl_slots s = holders s /\
  (forall a s', run_action a s = Some s' -> sem_step a (holders s) n (holders s') /\ holders s' <= n) /\
  (forall id released, cl_conns s !! id = Some released -> is_Some (cappedConn_Close id s)) /\
  (0 < cl_accepting s -> is_Some (Accept_failed s)).
Proof.
  intros n s0 trace s Hnew Hrun. pose proof (new_capped_ok n s0 Hnew) as H0.
  destruct (run_ok trace s0 s H0 Hrun) as (Hok & Hcap).
  assert (Hn : cl_capacity s = n).
  { rewrite Hcap. unfold NewCappedListener in Hnew. cbn in Hnew. destruct (n <? 1); [done|]. by injection Hnew as <-. }
  pose proof Hok as [Hh Hb Ha Hc]. pose proof (open_nonneg s) as Ho. rewrite Hn in *.
  split; [unfold holders in *; lia|]. split; [done|]. split; [|split].
  - intros a s' Hs. destruct (step_ok a s s' Hok Hs) as ([Hh' Hb' _ _] & Hcap' & Hsem). rewrite Hn in *. split; [done|lia].
  - intros id [] Hid; unfold cappedConn_Close; rewrite Hid; [by eexists|]. unfold release_slot. cbn.
    assert ((0 <? cl_slots s) = true) as ->; [|by eexists]. apply Z.ltb_lt. rewrite Hh. unfold holders, open_conns in *.
    rewrite (map_sum_delete _ _ _ _ Hid) in *.
    assert (0 <= map_sum (fun released : bool => if released then 0 else 1) (delete id (cl_conns s)))
      by (apply map_sum_nonneg; by intros []). lia.
  - intros Hacc. unfold Accept_failed, release_slot. rewrite (proj2 (Z.ltb_lt _ _) Hacc). cbn.
    assert ((0 <? cl_slots s) = true) as ->; [|by eexists]. apply Z.ltb_lt. rewrite Hh. unfold holders in *. lia.
Qed.

(** Two connections through a listener of capacity two, and a third that has to
    wait for one of them. *)
Definition two_conns : list action :=
  [accept_acquire; accept_acquire; accept_connected 1; accept_connected 2; conn_close 1; conn_close 1; accept_acquire].
Definition capped_two : cappedListener :=
  {| cl_capacity := 2; cl_slots := 0; cl_done := false; cl_closeErr := None; cl_accepting := 0; cl_conns := ∅ |}.
Definition after_two : cappedListener :=
  {| cl_capacity := 2; cl_slots := 2; cl_done := false; cl_closeErr := None; cl_accepting := 1;
     cl_conns := <[1%nat := true]> (<[2%nat := false]> ∅) |}.
Lemma listener_is_semaphore_witness : open_conns after_two <= 2 /\ run_action accept_acquire after_two = None.
Proof.
  split; [|vm_compute; reflexivity].
  refine (proj1 (listener_is_semaphore 2 capped_two two_conns after_two eq_refl _)). vm_compute. reflexivity.
Defined.
