(* ===== verification/Sink.v ===== *)
(** * Event sinks

    sink.go: the asynchronous batch shipper the remote sinks share.  The goroutines
    that call [Emit] and [Close] and the shipper's own [run] interleave; each of
    their atomic steps is an action, [None] where it is not enabled. *)
From S2P Require Import Prelude GoStrings GoCodec.

#[local] Set Warnings "-clear-no-such-hyp,-notation-for-abbreviation".
#[local] Open Scope string_scope.
#[local] Open Scope list_scope.
#[local] Open Scope Z_scope.

Definition sinkQueueSize : Z := 1024.
Definition sinkBatchEvents : Z := 64.
Definition sinkBatchBytes : Z := 256 * 2 ^ 10.
Definition sinkSendAttempts : nat := 2.

(** Of the event only the timestamp is read again, by the Splunk body. *)
Record sinkPayload := { sp_timestamp : string; sp_json : string }.
#[export] Instance sinkPayload_eq_dec : EqDecision sinkPayload.
Proof. solve_decision. Defined.

(** ** The batch shipper *)
Inductive phase := running | draining | exited.
#[export] Instance phase_eq_dec : EqDecision phase.
Proof. solve_decision. Defined.
Record batchShipper := {
  sh_queue : list sinkPayload;           (** the buffered channel *)
  sh_batch : list sinkPayload;           (** local to [run] *)
  sh_batchBytes : Z;
  sh_phase : phase;                      (** where [run] is *)
  sh_closed : bool;
  sh_done : bool;                        (** the channel [done] is closed *)
  sh_dropped : Z;
  sh_emitting : list sinkPayload;        (** calls of [Emit] past the check of [closed] *)
  (* history *)
  sh_emitted : list sinkPayload;         (** every payload given to [Emit] *)
  sh_accepted : list sinkPayload;        (** sent to the queue, in order *)
  sh_rejected : list sinkPayload;        (** dropped by [Emit] *)
  sh_batches : list (list sinkPayload * bool);  (** given to [send], and whether it succeeded in the end *)
}.
Definition newBatchShipper : batchShipper :=
  {| sh_queue := []; sh_batch := []; sh_batchBytes := 0; sh_phase := running; sh_closed := false; sh_done := false;
     sh_dropped := 0; sh_emitting := []; sh_emitted := []; sh_accepted := []; sh_rejected := []; sh_batches := [] |}.

Definition set_queue (s : batchShipper) (q emitting accepted : list sinkPayload) : batchShipper :=
  {| sh_queue := q; sh_batch := sh_batch s; sh_batchBytes := sh_batchBytes s; sh_phase := sh_phase s;
     sh_closed := sh_closed s; sh_done := sh_done s; sh_dropped := sh_dropped s; sh_emitting := emitting;
     sh_emitted := sh_emitted s; sh_accepted := accepted; sh_rejected := sh_rejected s; sh_batches := sh_batches s |}.
Definition set_batch (s : batchShipper) (q b : list sinkPayload) (n : Z) : batchShipper :=
  {| sh_queue := q; sh_batch := b; sh_batchBytes := n; sh_phase := sh_phase s;
     sh_closed := sh_closed s; sh_done := sh_done s; sh_dropped := sh_dropped s; sh_emitting := sh_emitting s;
     sh_emitted := sh_emitted s; sh_accepted := sh_accepted s; sh_rejected := sh_rejected s; sh_batches := sh_batches s |}.
Definition set_phase (s : batchShipper) (ph : phase) (closed done_ : bool) : batchShipper :=
  {| sh_queue := sh_queue s; sh_batch := sh_batch s; sh_batchBytes := sh_batchBytes s; sh_phase := ph;
     sh_closed := closed; sh_done := done_; sh_dropped := sh_dropped s; sh_emitting := sh_emitting s;
     sh_emitted := sh_emitted s; sh_accepted := sh_accepted s; sh_rejected := sh_rejected s; sh_batches := sh_batches s |}.
(** The calls of [Emit] in progress, and the drops. *)
Definition set_emitters (s : batchShipper) (emitting emitted rejected : list sinkPayload) (dropped : Z) : batchShipper :=
  {| sh_queue := sh_queue s; sh_batch := sh_batch s; sh_batchBytes := sh_batchBytes s; sh_phase := sh_phase s;
     sh_closed := sh_closed s; sh_done := sh_done s; sh_dropped := dropped; sh_emitting := emitting;
     sh_emitted := emitted; sh_accepted := sh_accepted s; sh_rejected := rejected; sh_batches := sh_batches s |}.
Definition record_batch (s : batchShipper) (b : list sinkPayload) (ok : bool) (dropped : Z) : batchShipper :=
  {| sh_queue := sh_queue s; sh_batch := sh_batch s; sh_batchBytes := sh_batchBytes s; sh_phase := sh_phase s;
     sh_closed := sh_closed s; sh_done := sh_done s; sh_dropped := dropped; sh_emitting := sh_emitting s;
     sh_emitted := sh_emitted s; sh_accepted := sh_accepted s; sh_rejected := sh_rejected s;
     sh_batches := sh_batches s ++ [(b, ok)] |}.

(** [Emit], up to the check of [closed] and from there. *)
Definition emit_check (p : sinkPayload) (s : batchShipper) : batchShipper :=
  if sh_closed s
  then set_emitters s (sh_emitting s) (sh_emitted s ++ [p]) (sh_rejected s ++ [p]) (u64 (sh_dropped s + 1))
  else set_emitters s (sh_emitting s ++ [p]) (sh_emitted s ++ [p]) (sh_rejected s) (sh_dropped s).
Definition emit_send (i : nat) (s : batchShipper) : option batchShipper :=
  p ← sh_emitting s !! i;
  let rest := delete i (sh_emitting s) in
  Some (if Z.of_nat (length (sh_queue s)) <? sinkQueueSize
        then set_queue s (sh_queue s ++ [p]) rest (sh_accepted s ++ [p])
        else set_emitters s rest (sh_emitted s) (sh_rejected s ++ [p]) (u64 (sh_dropped s + 1))).

(** [deliver]: at most two attempts; [outcome] tells how each would end. *)
Fixpoint attempts (outcome : nat -> bool) (attempt left_ : nat) : bool :=
  match left_ with
  | O => false
  | S left_ => if outcome attempt then true else attempts outcome (S attempt) left_
  end.
Definition deliver (outcome : nat -> bool) (batch : list sinkPayload) (s : batchShipper) : batchShipper :=
  match batch with
  | [] => s
  | _ => let ok := attempts outcome 0 sinkSendAttempts in
         record_batch s batch ok (if ok then sh_dropped s else u64 (sh_dropped s + Z.of_nat (length batch)))
  end.
Definition flush (outcome : nat -> bool) (s : batchShipper) : batchShipper :=
  let s := deliver outcome (sh_batch s) s in set_batch s (sh_queue s) [] 0.

(** The turns of [run]. *)
Definition run_receive (outcome : nat -> bool) (s : batchShipper) : option batchShipper :=
  match sh_phase s, sh_queue s with
  | running, p :: q =>
      let s := set_batch s q (sh_batch s ++ [p]) (sh_batchBytes s + slen (sp_json p)) in
      Some (if (sinkBatchEvents <=? Z.of_nat (length (sh_batch s))) || (sinkBatchBytes <=? sh_batchBytes s)
            then flush outcome s else s)
  | _, _ => None
  end.
Definition run_tick (outcome : nat -> bool) (s : batchShipper) : option batchShipper :=
  match sh_phase s with running => Some (flush outcome s) | _ => None end.
Definition run_stop (s : batchShipper) : option batchShipper :=
  match sh_phase s, sh_done s with running, true => Some (set_phase s draining (sh_closed s) true) | _, _ => None end.
Definition run_drain (outcome : nat -> bool) (s : batchShipper) : option batchShipper :=
  match sh_phase s, sh_queue s with
  | draining, p :: q => Some (set_batch s q (sh_batch s ++ [p]) (sh_batchBytes s))
  | draining, [] => Some (set_phase (flush outcome s) exited (sh_closed s) (sh_done s))
  | _, _ => None
  end.

Inductive action :=
  | Emit_check (p : sinkPayload) | Emit_send (i : nat)
  | Close_swap                                         (** the compare-and-swap of [Close] *)
  | Close_done                                         (** its [close(s.done)] *)
  | Run_receive (outcome : nat -> bool) | Run_tick (outcome : nat -> bool) | Run_stop | Run_drain (outcome : nat -> bool).
Definition shipper_step (a : action) (s : batchShipper) : option batchShipper :=
  match a with
  | Emit_check p => Some (emit_check p s)
  | Emit_send i => emit_send i s
  | Close_swap => Some (set_phase s (sh_phase s) true (sh_done s))
  | Close_done => if sh_closed s && negb (sh_done s) then Some (set_phase s (sh_phase s) true true) else None
  | Run_receive o => run_receive o s
  | Run_tick o => run_tick o s
  | Run_stop => run_stop s
  | Run_drain o => run_drain o s
  end.
Fixpoint shipper_run (l : list action) (s : batchShipper) : option batchShipper :=
  match l with [] => Some s | a :: l => s' ← shipper_step a s; shipper_run l s' end.
(** A call of [Close] that has returned: [run] has exited. *)
Definition Close_returned (s : batchShipper) : Prop := sh_closed s = true /\ sh_phase s = exited.

(** ** What holds of every interleaving *)
Definition bytes_of_batch (b : list sinkPayload) : Z := sum_Z (map (fun p => slen (sp_json p)) b).
Definition failed_events (l : list (list sinkPayload * bool)) : Z :=
  sum_Z (map (fun bo : list sinkPayload * bool => if bo.2 then 0 else Z.of_nat (length bo.1)) l).
#[global] Arguments bytes_of_batch : simpl never.
#[global] Arguments failed_events : simpl never.
#[global] Arguments u64 : simpl never.
#[global] Arguments attempts : simpl never.
Definition shipped (s : batchShipper) : list sinkPayload := concat (sh_batches s).*1.
(** The limits the README gives for a batch. *)
Definition batch_ok (b : list sinkPayload) : Prop :=
  b <> [] /\ Z.of_nat (length b) <= sinkBatchEvents /\ bytes_of_batch (removelast b) < sinkBatchBytes.
Record shipper_core (s : batchShipper) : Prop := {
  so_queue : Z.of_nat (length (sh_queue s)) <= sinkQueueSize;
  so_once : sh_emitted s ≡ₚ sh_emitting s ++ sh_rejected s ++ sh_accepted s;
  so_order : sh_accepted s = shipped s ++ sh_batch s ++ sh_queue s;
  so_dropped : sh_dropped s = u64 (Z.of_nat (length (sh_rejected s)) + failed_events (sh_batches s));
  so_exited : sh_phase s = exited -> sh_batch s = [];
  so_batches : exists bs fin, (sh_batches s).*1 = bs ++ fin /\ Forall batch_ok bs /\ (length fin <= 1)%nat /\
    (sh_phase s <> exited -> fin = []);
  so_done : (sh_phase s <> running -> sh_done s = true) /\ (sh_done s = true -> sh_closed s = true);
}.
Definition shipper_ok (s : batchShipper) : Prop := shipper_core s /\ (sh_phase s = running ->
  Z.of_nat (length (sh_batch s)) < sinkBatchEvents /\ sh_batchBytes s = bytes_of_batch (sh_batch s) /\ sh_batchBytes s < sinkBatchBytes).

Lemma bytes_app a b : bytes_of_batch (a ++ b) = bytes_of_batch a + bytes_of_batch b.
Proof. unfold bytes_of_batch. by rewrite map_app, sum_Z_app. Qed.
Lemma bytes_nonneg b : 0 <= bytes_of_batch b.
Proof. apply sum_Z_nonneg, Forall_map, Forall_forall. intros p _. apply slen_nonneg. Qed.
Lemma failed_snoc l b ok : failed_events (l ++ [(b, ok)]) = failed_events l + (if ok then 0 else Z.of_nat (length b)).
Proof. unfold failed_events. rewrite map_app, sum_Z_app. cbn [map snd fst sum_Z foldr]. lia. Qed.
Lemma u64_add a b : u64 (u64 a + b) = u64 (a + b).
Proof. unfold u64. by rewrite Zplus_mod_idemp_l. Qed.
Lemma concat_snoc {A} (l : list (list A)) b : concat (l ++ [b]) = concat l ++ b.
Proof. rewrite concat_app. cbn [concat]. by rewrite app_nil_r. Qed.

(** A flush ships the batch as one, and empties it. *)
Lemma flush_spec outcome s : shipper_core s -> (sh_phase s <> exited) ->
  let s' := flush outcome s in
  sh_batch s' = [] /\ sh_batchBytes s' = 0 /\ sh_queue s' = sh_queue s /\ sh_phase s' = sh_phase s /\
  sh_closed s' = sh_closed s /\ sh_done s' = sh_done s /\ sh_emitting s' = sh_emitting s /\ sh_emitted s' = sh_emitted s /\
  sh_accepted s' = sh_accepted s /\ sh_rejected s' = sh_rejected s /\
  shipped s' = shipped s ++ sh_batch s /\
  sh_dropped s' = u64 (Z.of_nat (length (sh_rejected s')) + failed_events (sh_batches s')) /\
  (sh_batches s').*1 = (sh_batches s).*1 ++ (match sh_batch s with [] => [] | b => [b] end).
Proof.
  intros Hs Hp. unfold flush, deliver. destruct (sh_batch s) as [|p b] eqn:Eb; cbn zeta; repeat split; cbn; try done.
  - unfold shipped. cbn. by rewrite app_nil_r.
  - apply (so_dropped _ Hs).
  - by rewrite app_nil_r.
  - unfold shipped. cbn. rewrite fmap_app, concat_app. cbn. by rewrite app_nil_r.
  - rewrite failed_snoc, (so_dropped _ Hs). destruct (attempts outcome 0 sinkSendAttempts).
    + f_equal. lia.
    + rewrite u64_add. f_equal. cbn [length]. lia.
  - by rewrite fmap_app.
Qed.
(** A batch below the limits, with one payload more, may be shipped. *)
Lemma batch_ok_snoc b p : Z.of_nat (length b) < sinkBatchEvents -> bytes_of_batch b < sinkBatchBytes -> batch_ok (b ++ [p]).
Proof.
  intros Hl Hb. split; [by destruct b|]. rewrite length_app, removelast_last. cbn. split; [lia|done].
Qed.
Lemma batch_ok_small b : b <> [] -> Z.of_nat (length b) < sinkBatchEvents -> bytes_of_batch b < sinkBatchBytes -> batch_ok b.
Proof.
  intros Hne Hl Hb. destruct b as [|p b'] using rev_ind; [done|]. rewrite length_app, bytes_app in *.
  pose proof (bytes_nonneg [p]). cbn in Hl. apply batch_ok_snoc; lia.
Qed.
Lemma flush_ok outcome s : shipper_core s -> sh_phase s = running -> sh_batch s = [] \/ batch_ok (sh_batch s) ->
  shipper_ok (flush outcome s).
Proof.
  intros Hs Hp Hb0.
  destruct (flush_spec outcome s Hs ltac:(by rewrite Hp)) as (H1 & H2 & H3 & H4 & H5 & H6 & H7 & H8 & H9 & H10 & H11 & H12 & H13).
  split; [|intros _; rewrite H1, H2; by repeat split]. split.
  - rewrite H3. apply Hs.
  - rewrite H7, H8, H9, H10. apply Hs.
  - rewrite H1, H3, H9, H11, (so_order _ Hs). by rewrite <- !app_assoc.
  - exact H12.
  - by rewrite H4, Hp.
  - destruct (so_batches _ Hs) as (bs & fin & Hb & Hok & _ & Hfin).
    rewrite H4, H13, Hb, (Hfin ltac:(by rewrite Hp)), app_nil_r.
    exists (bs ++ match sh_batch s with [] => [] | b => [b] end), []. rewrite app_nil_r.
    split; [done|]. split; [|by split; [simpl; lia|]].
    apply Forall_app. split; [done|]. destruct (sh_batch s) as [|p b]; [constructor|]. destruct Hb0; [done|]. constructor; [done|constructor].
  - rewrite H4, H5, H6. apply Hs.
Qed.
Lemma new_shipper_ok : shipper_ok newBatchShipper.
Proof.
  split; [|by intros _; repeat split]. split; cbn; try done.
  - exists [], []. repeat split; [constructor|cbn; lia].
Qed.
Lemma emit_check_ok p s : shipper_ok s -> shipper_ok (emit_check p s).
Proof.
  intros [Hs Hr]. unfold emit_check. pose proof (so_done _ Hs) as [Hd1 Hd2].
  destruct (sh_closed s) eqn:Ec; (split; [|exact Hr]); split; cbn; rewrite ?Ec; try apply Hs; try done.
  - rewrite (so_once _ Hs). solve_Permutation.
  - rewrite (so_dropped _ Hs), u64_add, length_app. cbn. f_equal. lia.
  - rewrite (so_once _ Hs). solve_Permutation.
Qed.
Lemma emit_send_ok i s s' : shipper_ok s -> emit_send i s = Some s' -> shipper_ok s'.
Proof.
  intros [Hs Hr]. unfold emit_send. destruct (sh_emitting s !! i) as [p|] eqn:Ei; [|done]. cbn [mbind option_bind].
  pose proof (delete_Permutation _ _ _ Ei) as Hp.
  destruct (_ <? _) eqn:Eq; intros [= <-]; bool_to_prop; (split; [|exact Hr]); split; cbn; try apply Hs.
  - rewrite length_app. cbn. lia.
  - rewrite (so_once _ Hs), Hp at 1. solve_Permutation.
  - rewrite (so_order _ Hs), <- !app_assoc. done.
  - rewrite (so_once _ Hs), Hp at 1. solve_Permutation.
  - rewrite (so_dropped _ Hs), u64_add, length_app. cbn. f_equal. lia.
Qed.
Lemma run_receive_ok o s s' : shipper_ok s -> run_receive o s = Some s' -> shipper_ok s'.
Proof.
  intros [Hs Hr]. unfold run_receive. destruct (sh_phase s) eqn:Ep; [|done..]. destruct (sh_queue s) as [|p q] eqn:Eq; [done|].
  set (s1 := set_batch s q _ _). intros [= <-]. destruct (Hr eq_refl) as (Hl & Hby & Hlt).
  assert (Hcore : shipper_core s1).
  { destruct Hs as [H1 H2 H3 H4 H5 H6 H7]. rewrite Eq, Ep in *.
    split; cbn; rewrite ?Ep; try done; [cbn in H1; lia|]. unfold shipped in *. cbn. rewrite H3. by rewrite <- !app_assoc. }
  assert (Hbytes : sh_batchBytes s1 = bytes_of_batch (sh_batch s1)).
  { cbn. rewrite bytes_app, Hby. unfold bytes_of_batch. cbn. lia. }
  destruct (_ || _) eqn:Ef.
  - apply flush_ok; [done|done|]. right. cbn. apply batch_ok_snoc; lia.
  - split; [done|]. intros _. by bool_to_prop.
Qed.
Lemma run_drain_ok o s s' : shipper_ok s -> run_drain o s = Some s' -> shipper_ok s'.
Proof.
  intros [Hs _]. unfold run_drain. destruct (sh_phase s) eqn:Ep; [done| |done]. destruct (sh_queue s) as [|p q] eqn:Eq.
  - intros [= <-]. destruct (flush_spec o s Hs ltac:(by rewrite Ep)) as (H1 & H2 & H3 & H4 & H5 & H6 & H7 & H8 & H9 & H10 & H11 & H12 & H13).
    set (f := flush o s) in *. clearbody f. pose proof (so_done _ Hs) as [Hd1 Hd2]. split; [|done]. split; cbn; try done.
    + rewrite H3. apply Hs.
    + rewrite H7, H8, H9, H10. apply Hs.
    + unfold shipped in *. cbn. rewrite H1, H3, H9, H11, (so_order _ Hs). by rewrite <- !app_assoc.
    + destruct (so_batches _ Hs) as (bs & fin & Hb & Hok & _ & Hfin). rewrite H13, Hb, (Hfin ltac:(by rewrite Ep)), app_nil_r.
      exists bs, (match sh_batch s with [] => [] | b => [b] end). repeat split; [done|destruct (sh_batch s); cbn; lia|done].
    + split; [|done]. intros _. apply Hd1. by rewrite Ep.
  - intros [= <-]. split; [|cbn; by rewrite Ep]. destruct Hs as [H1 H2 H3 H4 H5 H6 H7]. rewrite Eq, Ep in *.
    split; cbn; rewrite ?Ep; try done; [cbn in H1; lia|]. unfold shipped in *. cbn. rewrite H3. by rewrite <- !app_assoc.
Qed.
Lemma set_phase_ok s ph closed done_ : shipper_ok s -> (ph = sh_phase s \/ ph = draining /\ sh_phase s = running /\ done_ = true) ->
  (sh_done s = true -> done_ = true) -> (done_ = true -> closed = true) -> shipper_ok (set_phase s ph closed done_).
Proof.
  intros [Hs Hr] Hph Hd Hc. split.
  - destruct Hs as [H1 H2 H3 H4 H5 H6 H7]. split; cbn; try done.
    + destruct Hph as [->|(-> & _ & _)]; done.
    + destruct H6 as (bs & fin & Hb & Hok & Hl & Hfin). exists bs, fin. repeat split; [done..|].
      destruct Hph as [->|(-> & Hp & _)]; [done|]. intros _. apply Hfin. by rewrite Hp.
    + split; [|done]. destruct Hph as [->|(-> & _ & ->)]; [|done]. intros Hne. by apply Hd, H7.
  - cbn. destruct Hph as [->|(-> & _ & _)]; done.
Qed.
Lemma shipper_step_ok a s s' : shipper_ok s -> shipper_step a s = Some s' -> shipper_ok s'.
Proof.
  intros Hs. pose proof (proj2 (so_done _ (proj1 Hs))) as Hdc. destruct a as [p|i| | |o|o| |o]; cbn [shipper_step].
  - intros [= <-]. by apply emit_check_ok.
  - by apply emit_send_ok.
  - intros [= <-]. apply set_phase_ok; auto.
  - destruct (_ && _) eqn:E; [|done]. intros [= <-]. apply set_phase_ok; auto.
  - by apply run_receive_ok.
  - unfold run_tick. destruct (sh_phase s) eqn:Ep; [|done..]. intros [= <-]. destruct Hs as [Hs Hr]. destruct (Hr Ep) as (H1 & H2 & H3).
    apply flush_ok; [done..|]. destruct (sh_batch s) as [|p b] eqn:Eb; [by left|]. right. apply batch_ok_small; [done|done|lia].
  - unfold run_stop. destruct (sh_phase s) eqn:Ep; [|done..]. destruct (sh_done s) eqn:Ed; [|done]. intros [= <-].
    apply set_phase_ok; auto.
  - by apply run_drain_ok.
Qed.
Lemma shipper_run_ok l s s' : shipper_ok s -> shipper_run l s = Some s' -> shipper_ok s'.
Proof.
  revert s. induction l as [|a l IH]; cbn [shipper_run]; intros s Hs; [by intros [= <-]|].
  destruct (shipper_step a s) as [s1|] eqn:E; [|done]. cbn. apply IH. by eapply shipper_step_ok.
Qed.


(** ** Shutdown *)
Lemma shipper_run_app l1 l2 s : shipper_run (l1 ++ l2) s = s' ← shipper_run l1 s; shipper_run l2 s'.
Proof.
  revert s. induction l1 as [|a l1 IH]; intros s; [done|]. cbn [app shipper_run]. destruct (shipper_step a s); [|done]. apply IH.
Qed.
(** The turns of [run] that empty the queue. *)
Fixpoint drain_turns (o : nat -> bool) (n : nat) : list action :=
  match n with O => [Run_drain o] | S n => Run_drain o :: drain_turns o n end.
Lemma drain_all o s : sh_phase s = draining -> shipper_ok s -> sh_emitting s = [] ->
  exists s', shipper_run (drain_turns o (length (sh_queue s))) s = Some s' /\
    sh_phase s' = exited /\ sh_queue s' = [] /\ sh_closed s' = sh_closed s /\ sh_accepted s' = sh_accepted s /\
    sh_emitted s' = sh_emitted s /\ sh_emitting s' = [].
Proof.
  remember (sh_queue s) as q eqn:Eq. revert s Eq. induction q as [|p q IH]; intros s Eq Hp Hok He; cbn [length drain_turns shipper_run].
  - cbn [shipper_step]. unfold run_drain. rewrite Hp, <- Eq. eexists. split; [done|].
    destruct (flush_spec o s (proj1 Hok) ltac:(by rewrite Hp)) as (H1 & H2 & H3 & H4 & H5 & H6 & H7 & H8 & H9 & _).
    set (f := flush o s) in *. clearbody f. cbn. rewrite H3, H7, H8, H9. done.
  - assert (Hs : shipper_step (Run_drain o) s = Some (set_batch s q (sh_batch s ++ [p]) (sh_batchBytes s))).
    { cbn [shipper_step]. unfold run_drain. by rewrite Hp, <- Eq. }
    rewrite Hs. cbn [mbind option_bind]. apply (IH (set_batch s q (sh_batch s ++ [p]) (sh_batchBytes s))); [done|done| |done].
    by eapply shipper_step_ok.
Qed.

(** C18. [Close] completes and delivers what was accepted: once [done] is closed
    and no call of [Emit] is in progress, the shipper's own turns, no more than
    the queue is long and two, bring it to its exit, where everything it ever
    accepted has been given to [send]; then [Close] returns. *)
Theorem close_ships_everything : forall trace s o, shipper_run trace newBatchShipper = Some s ->
  sh_done s = true -> sh_emitting s = [] -> sh_phase s <> exited ->
  exists l s', shipper_run l s = Some s' /\ (length l <= length (sh_queue s) + 2)%nat /\
    (forall a, a ∈ l -> a = Run_stop \/ a = Run_drain o) /\
    Close_returned s' /\ shipped s' = sh_accepted s /\ sh_emitted s ≡ₚ sh_rejected s' ++ shipped s'.
Proof.
  intros trace s o Hrun Hd He Hp. pose proof (shipper_run_ok _ _ _ new_shipper_ok Hrun) as Hok.
  pose proof (proj2 (so_done _ (proj1 Hok)) Hd) as Hc.
  assert (Hturns : forall n a, a ∈ drain_turns o n -> a = Run_drain o) by (induction n; cbn; set_solver).
  assert (Hlen : forall n, length (drain_turns o n) = S n) by (induction n; cbn; lia).
  assert (Hdrain : forall s1, sh_phase s1 = draining -> shipper_ok s1 -> sh_emitting s1 = [] -> sh_closed s1 = true ->
    exists s', shipper_run (drain_turns o (length (sh_queue s1))) s1 = Some s' /\
    Close_returned s' /\ shipped s' = sh_accepted s1 /\ sh_emitted s1 ≡ₚ sh_rejected s' ++ shipped s').
  { intros s1 Hp1 Hok1 He1 Hc1. destruct (drain_all o s1 Hp1 Hok1 He1) as (s' & Hr & Hx & Hq & Hcl & Ha & Hem & Hei).
    destruct (shipper_run_ok _ _ _ Hok1 Hr) as [Hs' _]. exists s'. split; [done|]. split; [split; [congruence|done]|].
    assert (Hsh : shipped s' = sh_accepted s').
    { rewrite (so_order _ Hs'), Hq, (so_exited _ Hs' Hx). by rewrite !app_nil_r. }
    split; [congruence|]. rewrite <- Hem, (so_once _ Hs'), Hei, Hsh. done. }
  destruct (sh_phase s) eqn:Ep; [| |done].
  - assert (Hs : shipper_step Run_stop s = Some (set_phase s draining (sh_closed s) true))
      by (cbn [shipper_step]; unfold run_stop; by rewrite Ep, Hd).
    destruct (Hdrain (set_phase s draining (sh_closed s) true)) as (s' & Hr & Hrest); [done|by eapply shipper_step_ok|done..|].
    exists (Run_stop :: drain_turns o (length (sh_queue s))), s'. cbn [shipper_run]. rewrite Hs. split; [done|].
    split; [cbn; rewrite Hlen; lia|]. split; [|done]. intros a [->|Ha]%elem_of_cons; [by left|right; by eapply Hturns].
  - destruct (Hdrain s Ep Hok He Hc) as (s' & Hr & Hrest). exists (drain_turns o (length (sh_queue s))), s'.
    split; [done|]. split; [rewrite Hlen; lia|]. split; [|done]. intros a Ha. right. by eapply Hturns.
Qed.

Lemma exited_step a s s' : sh_phase s = exited -> shipper_step a s = Some s' ->
  sh_phase s' = exited /\ sh_batches s' = sh_batches s /\ exists t, sh_queue s' = sh_queue s ++ t.
Proof.
  intros Hp. assert (Hn : exists t, sh_queue s = sh_queue s ++ t) by (exists []; by rewrite app_nil_r).
  destruct a as [p|i| | |o|o| |o]; cbn [shipper_step]; unfold run_receive, run_tick, run_stop, run_drain; rewrite ?Hp; try done.
  - intros [= <-]. unfold emit_check. by destruct (sh_closed s).
  - unfold emit_send. destruct (_ !! i) as [p|]; [|done]. cbn [mbind option_bind]. destruct (_ <? _); intros [= <-]; cbn; [|done].
    split; [done|]. split; [done|]. by exists [p].
  - by intros [= <-].
  - destruct (_ && _); [|done]. by intros [= <-].
Qed.
Lemma exited_run l s s' : sh_phase s = exited -> shipper_run l s = Some s' ->
  sh_batches s' = sh_batches s /\ exists t, sh_queue s' = sh_queue s ++ t.
Proof.
  revert s. induction l as [|a l IH]; intros s Hp; cbn [shipper_run].
  - intros [= <-]. split; [done|]. exists []. by rewrite app_nil_r.
  - destruct (shipper_step a s) as [s1|] eqn:E; [|done]. cbn. intros Hr. destruct (exited_step a s s1 Hp E) as (Hp1 & Hb & t & Hq).
    destruct (IH s1 Hp1 Hr) as [Hb' [t' Hq']]. split; [congruence|]. exists (t ++ t'). by rewrite Hq', Hq, app_assoc.
Qed.

(** The check of [closed] and the send on the queue are two steps; the shipper
    may exit between them. *)
Definition race (p : sinkPayload) : list action :=
  let o := fun _ => true in [Emit_check p; Close_swap; Close_done; Run_stop; Run_drain o; Emit_send 0].

(** The race at shutdown: a call of [Emit] that passed its check before
    [Close] and sends after the shipper's exit leaves its event in the queue,
    where it stays for ever: [Close] has returned, the event is neither shipped
    nor counted as dropped. *)
Theorem shutdown_race_strands_event : forall p, exists s, shipper_run (race p) newBatchShipper = Some s /\
  Close_returned s /\ sh_emitting s = [] /\ sh_dropped s = 0 /\
  forall l s', shipper_run l s = Some s' -> sh_batches s' = [] /\ p ∈ sh_queue s'.
Proof.
  intros p. eexists. split; [reflexivity|]. split; [done|]. split; [done|]. split; [done|].
  intros l s' Hr. apply exited_run in Hr as [Hb [t Hq]]; [|done]. rewrite Hb, Hq. cbn. split; [done|]. set_solver.
Qed.

(** A full batch, a second one of one event whose delivery fails twice, and a
    close while the queue is empty. *)
Definition sample (n : nat) : sinkPayload := {| sp_timestamp := ""; sp_json := str_repeat "x" n |}.
Definition emit_all (n : nat) : list action := concat (repeat [Emit_check (sample 3); Emit_send 0] n).
Definition receive_all (n : nat) : list action := repeat (Run_receive (fun _ => true)) n.
Definition busy_trace : list action :=
  emit_all 65 ++ receive_all 65 ++ [Run_tick (fun _ => false)] ++ emit_all 2 ++ [Close_swap; Emit_check (sample 1); Close_done].
Definition busy_shipper : batchShipper := default newBatchShipper (shipper_run busy_trace newBatchShipper).
Lemma close_ships_everything_witness : length (sh_queue busy_shipper) = 2%nat /\
  exists l s', shipper_run l busy_shipper = Some s' /\ (length l <= 4)%nat /\ shipped s' = sh_accepted busy_shipper.
Proof.
  split; [vm_compute; reflexivity|].
  assert (Hrun : shipper_run busy_trace newBatchShipper = Some busy_shipper) by (vm_compute; reflexivity).
  assert (Hd : sh_done busy_shipper = true) by (vm_compute; reflexivity).
  assert (He : sh_emitting busy_shipper = []) by (vm_compute; reflexivity).
  assert (Hp : sh_phase busy_shipper <> exited) by (vm_compute; discriminate).
  assert (Hq : length (sh_queue busy_shipper) = 2%nat) by (vm_compute; reflexivity).
  destruct (close_ships_everything busy_trace busy_shipper (fun _ => true) Hrun Hd He Hp) as (l & s' & H1 & H2 & _ & _ & H5 & _).
  exists l, s'. rewrite Hq in H2. exact (conj H1 (conj H2 H5)).
Defined.

(** What a row of calls of [Emit] and the final drain do to an idle shipper. *)
Lemma emit_all_spec n s : sh_closed s = false -> sh_emitting s = [] ->
  Z.of_nat (length (sh_queue s)) + Z.of_nat n <= sinkQueueSize ->
  exists s', shipper_run (emit_all n) s = Some s' /\ sh_queue s' = sh_queue s ++ repeat (sample 3) n /\
    sh_batch s' = sh_batch s /\ sh_batches s' = sh_batches s /\ sh_phase s' = sh_phase s /\ sh_closed s' = false /\
    sh_done s' = sh_done s /\ sh_emitting s' = [].
Proof.
  revert s. induction n as [|n IH]; intros s Hc He Hlen.
  - exists s. cbn. rewrite app_nil_r. done.
  - unfold emit_all. cbn [repeat concat]. rewrite shipper_run_app. cbn [shipper_run shipper_step mbind option_bind].
    unfold emit_check, emit_send. rewrite Hc, He. cbn. destruct (_ <? _) eqn:E; bool_to_prop; [|lia].
    edestruct (IH (set_queue (set_emitters s [sample 3] (sh_emitted s ++ [sample 3]) (sh_rejected s) (sh_dropped s))
      (sh_queue s ++ [sample 3]) [] (sh_accepted s ++ [sample 3]))) as (s' & Hr & Hq & H); [done|done| |].
    { cbn. rewrite length_app. cbn. lia. }
    exists s'. split; [exact Hr|]. split; [|exact H]. rewrite Hq. cbn. by rewrite <- app_assoc.
Qed.
Lemma drain_batches o s : sh_phase s = draining ->
  exists s', shipper_run (drain_turns o (length (sh_queue s))) s = Some s' /\ sh_phase s' = exited /\
    sh_closed s' = sh_closed s /\ sh_batches s' = sh_batches (deliver o (sh_batch s ++ sh_queue s) s).
Proof.
  remember (sh_queue s) as q eqn:Eq. revert s Eq. induction q as [|p q IH]; intros s Eq Hp; cbn [length drain_turns shipper_run].
  - cbn [shipper_step]. unfold run_drain. rewrite Hp, <- Eq, app_nil_r. eexists. split; [done|]. split; [done|].
    split; [|done]. cbn. done.
  - assert (Hs : shipper_step (Run_drain o) s = Some (set_batch s q (sh_batch s ++ [p]) (sh_batchBytes s))).
    { cbn [shipper_step]. unfold run_drain. by rewrite Hp, <- Eq. }
    rewrite Hs. cbn [mbind option_bind].
    destruct (IH (set_batch s q (sh_batch s ++ [p]) (sh_batchBytes s)) eq_refl Hp) as (s' & Hr & Hx & Hc & Hb).
    exists s'. split; [done|]. split; [done|]. split; [done|]. rewrite Hb. cbn [sh_batch set_batch]. rewrite <- app_assoc.
    change ([p] ++ q) with (p :: q). unfold deliver. by destruct (sh_batch s ++ p :: q).
Qed.

Lemma close_stop s : sh_phase s = running -> sh_done s = false ->
  shipper_run [Close_swap; Close_done; Run_stop] s = Some (set_phase s draining true true).
Proof.
  intros Hp Hd. cbn [shipper_run shipper_step mbind option_bind]. cbn [set_phase sh_closed sh_done]. rewrite Hd.
  cbn [andb negb mbind option_bind]. unfold run_stop. cbn [set_phase sh_closed sh_done sh_phase]. rewrite Hp. reflexivity.
Qed.

(** The final drain does not keep the batch limits: a queue that holds more
    than 64 events when [Close] is called goes out as one batch, however long. *)
Theorem final_drain_exceeds_batch_limit : forall n : nat, sinkBatchEvents < Z.of_nat n <= sinkQueueSize ->
  exists s, shipper_run (emit_all n ++ [Close_swap; Close_done; Run_stop] ++ drain_turns (fun _ => true) n) newBatchShipper = Some s /\
    Close_returned s /\ sh_batches s = [(repeat (sample 3) n, true)] /\ ~ batch_ok (repeat (sample 3) n).
Proof.
  intros n Hn. destruct (emit_all_spec n newBatchShipper eq_refl eq_refl) as (s1 & Hr & Hq & Hb & Hbs & Hp & Hc & Hd & He); [cbn; lia|].
  cbn in Hq, Hb, Hbs, Hp, Hd. rewrite shipper_run_app, Hr. cbn [mbind option_bind].
  rewrite shipper_run_app, (close_stop s1 Hp Hd). cbn [mbind option_bind]. set (s2 := set_phase s1 draining true true).
  assert (Hq2 : sh_queue s2 = repeat (sample 3) n) by exact Hq.
  destruct (drain_batches (fun _ => true) s2 eq_refl) as (s' & Hr' & Hx & Hc' & Hb').
  rewrite Hq2, repeat_length in Hr'. rewrite Hq2 in Hb'. exists s'. split; [exact Hr'|]. split; [by split; [rewrite Hc'|]|].
  assert (Hne : repeat (sample 3) n <> []) by (destruct n; [unfold sinkBatchEvents in Hn; lia|done]).
  split.
  - rewrite Hb'. change (sh_batch s2) with (sh_batch s1). rewrite Hb. cbn [app]. unfold deliver.
    destruct (repeat (sample 3) n) eqn:E; [done|]. cbn. by rewrite Hbs.
  - intros (_ & Hlen & _). rewrite repeat_length in Hlen. lia.
Qed.
Lemma final_drain_exceeds_batch_limit_witness : exists s,
  shipper_run (emit_all 65 ++ [Close_swap; Close_done; Run_stop] ++ drain_turns (fun _ => true) 65) newBatchShipper = Some s /\
  map (fun bo : list sinkPayload * bool => length bo.1) (sh_batches s) = [65%nat].
Proof.
  assert (Hn : sinkBatchEvents < Z.of_nat 65 <= sinkQueueSize) by (vm_compute; split; [reflexivity|discriminate]).
  destruct (final_drain_exceeds_batch_limit 65 Hn) as (s & Hr & _ & Hb & _). exists s. split; [exact Hr|]. rewrite Hb. reflexivity.
Defined.
