(* ===== verification/Netip.v ===== *)
(** * Internet addresses

    What config.go and logger.go use of the packages [net] and [net/netip]:
    addresses, their text, prefixes and [SplitHostPort].  An IPv6 address is its
    eight groups of 16 bits, an IPv4 address its four octets. *)
From S2P Require Import Prelude GoStrings.

#[local] Set Warnings "-clear-no-such-hyp,-notation-for-abbreviation".
#[local] Open Scope string_scope.
#[local] Open Scope list_scope.
#[local] Open Scope Z_scope.

Inductive Addr :=
  | Addr4 (octets : list Z)
  | Addr6 (groups : list Z) (zone : string).
#[export] Instance Addr_eq_dec : EqDecision Addr.
Proof. solve_decision. Defined.

Definition dot_char : ascii := chr 46.
Definition colon : ascii := chr 58.
Definition percent : ascii := chr 37.
Definition slash_char : ascii := chr 47.

(** ** Parsing *)

(** The fields seen so far, the value and the number of digits of the next. *)
Fixpoint parseIPv4Fields (s : string) (fields : list Z) (val digLen : Z) : option (list Z) :=
  match s with
  | "" => if Z.of_nat (length fields) <? 3 then None else Some (fields ++ [val])
  | String c s =>
      if is_digit c then
        if (digLen =? 1) && (val =? 0) then None
        else let val := val * 10 + (code c - 48) in
             if 255 <? val then None else parseIPv4Fields s fields val (digLen + 1)
      else if Ascii.eqb c dot_char then
        if (digLen =? 0) || String.eqb s "" then None
        else if Z.of_nat (length fields) =? 3 then None
        else parseIPv4Fields s (fields ++ [val]) 0 0
      else None
  end.
Definition hex_val (c : ascii) : option Z :=
  if is_digit c then Some (code c - 48)
  else if in_range 97 102 c then Some (code c - 87)
  else if in_range 65 70 c then Some (code c - 55)
  else None.
(** The digits of a group: their number, their value and the rest. *)
Fixpoint hex_group (s : string) (off acc : Z) : option (Z * Z * string) :=
  match s with
  | "" => Some (off, acc, "")
  | String c s' =>
      match hex_val c with
      | None => Some (off, acc, s)
      | Some d =>
          let acc := acc * 16 + d in
          if (3 <? off) || (65535 <? acc) then None else hex_group s' (off + 1) acc
      end
  end.
(** [room] groups may follow those read; [ellipsis] is where the [::] stood. *)
Fixpoint parse6_loop (room : nat) (s : string) (gs : list Z) (ellipsis : option nat) : option (list Z * option nat) :=
  match room with
  | O => if String.eqb s "" then Some (gs, ellipsis) else None
  | S room =>
      '(off, acc, rest) ← hex_group s 0 0;
      if off =? 0 then None
      else match rest with
      | "" => Some (gs ++ [acc], ellipsis)
      | String c t =>
          if Ascii.eqb c dot_char then
            if (negb (bool_decide (is_Some ellipsis)) && negb (Z.of_nat (length gs) =? 6)) || (6 <? Z.of_nat (length gs)) then None
            else match parseIPv4Fields s [] 0 0 with
                 | Some [a; b; c; d] => Some (gs ++ [a * 256 + b; c * 256 + d], ellipsis)
                 | _ => None
                 end
          else if negb (Ascii.eqb c colon) then None
          else match t with
          | "" => None
          | String c2 t2 =>
              if Ascii.eqb c2 colon then
                match ellipsis with
                | Some _ => None
                | None => if String.eqb t2 "" then Some (gs ++ [acc], Some (S (length gs)))
                          else parse6_loop room t2 (gs ++ [acc]) (Some (S (length gs)))
                end
              else parse6_loop room t (gs ++ [acc]) ellipsis
          end
      end
  end.
Definition expand_ellipsis (gs : list Z) (ellipsis : option nat) : option (list Z) :=
  match (8 - length gs)%nat, ellipsis with
  | O, None => Some gs
  | O, Some _ => None
  | S _, None => None
  | n, Some e => Some (take e gs ++ repeat 0 n ++ drop e gs)
  end.
Definition parse6_text (s : string) : option (list Z) :=
  match s with
  | String c (String c2 s2) =>
      if Ascii.eqb c colon && Ascii.eqb c2 colon then
        if String.eqb s2 "" then Some (repeat 0 8)
        else '(gs, e) ← parse6_loop 8 s2 [] (Some O); expand_ellipsis gs e
      else '(gs, e) ← parse6_loop 8 s [] None; expand_ellipsis gs e
  | _ => '(gs, e) ← parse6_loop 8 s [] None; expand_ellipsis gs e
  end.
Definition parseIPv6 (s : string) : option Addr :=
  match cut s "%" with
  | Some (_, "") => None
  | Some (s, zone) => gs ← parse6_text s; Some (Addr6 gs zone)
  | None => gs ← parse6_text s; Some (Addr6 gs "")
  end.
(** The first of the characters [.], [:] and [%] decides. *)
Fixpoint first_mark (s : string) : option ascii :=
  match s with
  | "" => None
  | String c s => if Ascii.eqb c dot_char || Ascii.eqb c colon || Ascii.eqb c percent then Some c else first_mark s
  end.
Definition ParseAddr (s : string) : option Addr :=
  match first_mark s with
  | Some c => if Ascii.eqb c dot_char then Addr4 <$> parseIPv4Fields s [] 0 0
              else if Ascii.eqb c colon then parseIPv6 s else None
  | None => None
  end.

(** ** Classification *)
Definition Zone (a : Addr) : string := match a with Addr4 _ => "" | Addr6 _ z => z end.
Definition BitLen (a : Addr) : Z := match a with Addr4 _ => 32 | Addr6 _ _ => 128 end.
Definition octets_of (g : Z) : list Z := [g / 256; g mod 256].
(** The IPv4 address inside an IPv4-mapped IPv6 address. *)
Definition mapped4 (gs : list Z) : option (list Z) :=
  match gs with
  | [0; 0; 0; 0; 0; 65535; g; h] => Some (octets_of g ++ octets_of h)
  | _ => None
  end.
Definition Is4In6 (a : Addr) : bool :=
  match a with Addr4 _ => false | Addr6 gs _ => bool_decide (is_Some (mapped4 gs)) end.
Definition Unmap (a : Addr) : Addr :=
  match a with
  | Addr4 _ => a
  | Addr6 gs _ => match mapped4 gs with Some o => Addr4 o | None => a end
  end.
(** [net.ParseIP]: an address without a zone. *)
Definition net_ParseIP (s : string) : option Addr :=
  a ← ParseAddr s; if String.eqb (Zone a) "" then Some a else None.
(** [IP.To4]. *)
Definition To4 (a : Addr) : option (list Z) :=
  match Unmap a with Addr4 o => Some o | Addr6 _ _ => None end.
Definition IsPrivate (a : Addr) : bool :=
  match To4 a, a with
  | Some (x :: y :: _), _ => (x =? 10) || ((x =? 172) && (Z.land y 240 =? 16)) || ((x =? 192) && (y =? 168))
  | None, Addr6 (g :: _) _ => Z.land (g / 256) 254 =? 252
  | _, _ => false
  end.

(** ** Text *)
Definition string4 (o : list Z) : string := join (map itoa o) ".".
(** The longest run of two or more zero groups, the first of them. *)
Fixpoint zero_run (gs : list Z) : nat :=
  match gs with g :: gs => if g =? 0 then S (zero_run gs) else O | [] => O end.
Fixpoint best_run (i : nat) (gs : list Z) (best : option (nat * nat)) : option (nat * nat) :=
  match gs with
  | [] => best
  | g :: gs' =>
      let l := zero_run gs in
      let best' := if (2 <=? l)%nat && match best with Some (a, b) => (b - a <? l)%nat | None => true end
                   then Some (i, i + l)%nat else best in
      best_run (S i) gs' best'
  end.
(** The groups from the [i]th on; those before [skip] are inside the run. *)
Fixpoint groups_text (i : nat) (run : option (nat * nat)) (gs : list Z) : string :=
  match gs with
  | [] => ""
  | g :: gs =>
      match run with
      | Some (a, b) =>
          if (i =? a)%nat then "::" +:+ groups_text (S i) run gs
          else if (a <? i)%nat && (i <? b)%nat then groups_text (S i) run gs
          else (if (0 <? i)%nat && negb (i =? b)%nat then ":" else "") +:+ to_hex g +:+ groups_text (S i) run gs
      | None => (if (0 <? i)%nat then ":" else "") +:+ to_hex g +:+ groups_text (S i) run gs
      end
  end.
Definition string6 (gs : list Z) (zone : string) : string :=
  groups_text 0 (best_run 0 gs None) gs +:+ (if String.eqb zone "" then "" else "%" +:+ zone).
Definition Addr_String (a : Addr) : string :=
  match a with
  | Addr4 o => string4 o
  | Addr6 gs zone =>
      match mapped4 gs with
      | Some o => "::ffff:" +:+ string4 o +:+ (if String.eqb zone "" then "" else "%" +:+ zone)
      | None => string6 gs zone
      end
  end.

(** ** Prefixes *)
Record Prefix := { px_addr : Addr; px_bits : Z }.
#[export] Instance Prefix_eq_dec : EqDecision Prefix.
Proof. solve_decision. Defined.
(** The text after the last byte [c], and before it. *)
Definition cut_last (c : ascii) (s : string) : option (string * string) :=
  match index (str_rev s) (str1 c) with
  | Some i => let n := (String.length s - S i)%nat in Some (str_take n s, str_drop (S n) s)
  | None => None
  end.
Definition ParsePrefix (s : string) : option Prefix :=
  '(addr, bitsStr) ← cut_last slash_char s;
  ip ← ParseAddr addr;
  if negb (String.eqb (Zone ip) "") then None
  else if (1 <? slen bitsStr) && match bitsStr with String c _ => (code c <? 49) || (57 <? code c) | "" => false end then None
  else bits ← atoi bitsStr;
       if (bits <? 0) || (BitLen ip <? bits) then None else Some {| px_addr := ip; px_bits := bits |}.
(** An address as one number. *)
Definition addr_num (a : Addr) : Z :=
  match a with
  | Addr4 o => foldl (fun n b => n * 256 + b) 0 o
  | Addr6 gs _ => foldl (fun n g => n * 65536 + g) 0 gs
  end.
Definition Contains (p : Prefix) (a : Addr) : bool :=
  (BitLen (px_addr p) =? BitLen a) && String.eqb (Zone a) "" &&
  let sh := BitLen a - px_bits p in
  Z.shiftr (addr_num a) sh =? Z.shiftr (addr_num (px_addr p)) sh.
(** The [n] most significant bits of the fields of [w] bits each. *)
Fixpoint mask_fields (w n : Z) (l : list Z) : list Z :=
  match l with
  | [] => []
  | f :: l => (if w <=? n then f else if n <=? 0 then 0 else Z.shiftl (Z.shiftr f (w - n)) (w - n)) :: mask_fields w (n - w) l
  end.
(** [Prefix.Masked]. *)
Definition Masked (p : Prefix) : Prefix :=
  {| px_addr := match px_addr p with
                | Addr4 o => Addr4 (mask_fields 8 (px_bits p) o)
                | Addr6 gs z => Addr6 (mask_fields 16 (px_bits p) gs) ""
                end;
     px_bits := px_bits p |}.
(** [net.ParseCIDR]: only whether it succeeds is used.  [dtoi] reads decimal
    digits below 0xFFFFFF, leading zeros included. *)
Fixpoint dtoi (s : string) (n : Z) : option Z :=
  match s with
  | "" => Some n
  | String c s => if is_digit c then let n := n * 10 + (code c - 48) in if 16777215 <=? n then None else dtoi s n else None
  end.
Definition net_ParseCIDR (s : string) : option (Addr * Z) :=
  '(addr, mask) ← cut s "/";
  ip ← ParseAddr addr;
  if negb (String.eqb (Zone ip) "") || String.eqb mask "" then None
  else n ← dtoi mask 0; if BitLen ip <? n then None else Some (ip, n).

(** ** [net.SplitHostPort] *)
Definition index_byte (c : ascii) (s : string) : option nat := index s (str1 c).
Definition has_byte (c : ascii) (s : string) : bool := any_byte (Ascii.eqb c) s.
Definition SplitHostPort (hostport : string) : option (string * string) :=
  '(before, port) ← cut_last colon hostport;
  let i := String.length before in
  match hostport with
  | String c _ =>
      if Ascii.eqb c (chr 91) then
        end_ ← index_byte (chr 93) hostport;
        if negb (S end_ =? i)%nat then None
        else if has_byte (chr 91) (str_drop 1 hostport) || has_byte (chr 93) (str_drop (S end_) hostport) then None
        else Some (str_drop 1 (str_take end_ hostport), port)
      else if has_byte colon before then None
      else if has_byte (chr 91) hostport || has_byte (chr 93) hostport then None
      else Some (before, port)
  | "" => None
  end.

Example parse4 : ParseAddr "10.42.0.1" = Some (Addr4 [10; 42; 0; 1]). Proof. reflexivity. Qed.
Example parse4_zero : ParseAddr "10.042.0.1" = None /\ ParseAddr "1.2.3" = None /\ ParseAddr "1.2.3.4.5" = None /\ ParseAddr "256.1.1.1" = None.
Proof. repeat split. Qed.
Example parse6 : ParseAddr "fe80::1%eth0" = Some (Addr6 [65152; 0; 0; 0; 0; 0; 0; 1] "eth0") /\ ParseAddr "::" = Some (Addr6 (repeat 0 8) "") /\
  ParseAddr "::ffff:10.0.0.1" = Some (Addr6 [0; 0; 0; 0; 0; 65535; 2560; 1] "") /\ ParseAddr "1::2::3" = None /\
  ParseAddr "1:2:3:4:5:6:7:8::" = None /\ ParseAddr "1:2:3:4:5:6:7::" = Some (Addr6 [1;2;3;4;5;6;7;0] "").
Proof. repeat split. Qed.
Example string6_examples : Addr_String (Addr6 [8193; 3512; 0; 0; 1; 0; 0; 1] "") = "2001:db8::1:0:0:1" /\
  Addr_String (Addr6 (repeat 0 8) "") = "::" /\ Addr_String (Addr6 [0;0;1;0;0;0;0;0] "") = "0:0:1::" /\
  Addr_String (Addr6 [0;0;0;0;0;65535;2560;1] "") = "::ffff:10.0.0.1".
Proof. repeat split. Qed.
Example contains_examples : Contains (default {| px_addr := Addr4 []; px_bits := 0 |} (ParsePrefix "10.0.0.0/8")) (Addr4 [10;200;3;4]) = true /\
  ParsePrefix "10.0.0.0/08" = None /\ net_ParseCIDR "10.0.0.0/08" = Some (Addr4 [10;0;0;0], 8).
Proof. repeat split. Qed.
Example split_examples : SplitHostPort "[::1]:80" = Some ("::1", "80") /\ SplitHostPort "10.0.0.1:5" = Some ("10.0.0.1", "5") /\
  SplitHostPort "::1" = None /\ SplitHostPort "10.0.0.1" = None /\ SplitHostPort "[::1]" = None.
Proof. repeat split. Qed.
