(* ===== verification/NetipProps.v ===== *)
(** * Internet addresses: text and back

    Parsing yields well-formed addresses, and the text of a well-formed address
    without a zone parses to the address, compressed zeros and IPv4-mapped
    addresses included. *)
From S2P Require Import Prelude GoStrings Names Netip.

#[local] Set Warnings "-clear-no-such-hyp,-notation-for-abbreviation".
#[local] Open Scope string_scope.
#[local] Open Scope list_scope.
#[local] Open Scope Z_scope.

Definition is_group (g : Z) : Prop := 0 <= g < 65536.
Definition wf_addr (a : Addr) : Prop :=
  match a with
  | Addr4 o => length o = 4%nat /\ Forall is_byte o
  | Addr6 gs _ => length gs = 8%nat /\ Forall is_group gs
  end.

(** ** What parsing yields *)
Lemma Forall_snoc_2 {A} (P : A -> Prop) l x : Forall P l -> P x -> Forall P (l ++ [x]).
Proof. intros. apply Forall_app. split; [done|]. by constructor. Qed.
Lemma ipv4_fields_wf s fields val digLen o : parseIPv4Fields s fields val digLen = Some o ->
  Forall is_byte fields -> is_byte val -> (length fields <= 3)%nat -> length o = 4%nat /\ Forall is_byte o.
Proof.
  revert fields val digLen. induction s as [|c s IH]; intros fields val digLen; cbn [parseIPv4Fields].
  - destruct (_ <? _) eqn:E; [done|]. intros [= <-] Hf Hv Hl. bool_to_prop. rewrite length_app. split; [cbn; lia|].
    by apply Forall_snoc_2.
  - destruct (is_digit c) eqn:Ed.
    + destruct (_ && _); [done|]. cbv zeta. destruct (255 <? _) eqn:Ev; [done|]. intros Hp Hf Hv Hl.
      apply (IH _ _ _ Hp Hf); [|done]. unfold is_digit in Ed. unfold is_byte in *. bool_to_prop. lia.
    + destruct (Ascii.eqb _ _); [|done]. destruct (_ || _); [done|]. destruct (_ =? 3) eqn:E3; [done|]. intros Hp Hf Hv Hl.
      bool_to_prop. apply (IH _ _ _ Hp); [by apply Forall_snoc_2|unfold is_byte; lia|].
      rewrite length_app. cbn. lia.
Qed.
Lemma hex_val_range c d : hex_val c = Some d -> 0 <= d < 16.
Proof.
  unfold hex_val, is_digit, in_range. repeat case_match; intros [= <-]; bool_to_prop; lia.
Qed.
Lemma hex_group_range s off acc r : hex_group s off acc = Some r -> is_group acc -> is_group r.1.2.
Proof.
  revert off acc. induction s as [|c s IH]; intros off acc; cbn [hex_group]; [by intros [= <-]|].
  destruct (hex_val c) as [d|] eqn:Ed; [|by intros [= <-]]. cbv zeta. destruct (_ || _) eqn:E; [done|]. intros Hr Ha.
  apply (IH _ _ Hr). apply hex_val_range in Ed. unfold is_group in *. bool_to_prop. lia.
Qed.
Lemma group_of_bytes a b : is_byte a -> is_byte b -> is_group (a * 256 + b).
Proof. unfold is_byte, is_group. lia. Qed.
Definition loop_ok (gs : list Z) (e : option nat) : Prop :=
  Forall is_group gs /\ (length gs <= 8)%nat /\ match e with Some e => (e <= length gs)%nat | None => True end.
Lemma parse6_loop_wf room s gs e gs' e' : parse6_loop room s gs e = Some (gs', e') ->
  loop_ok gs e -> (length gs + room = 8)%nat -> loop_ok gs' e'.
Proof.
  revert s gs e. induction room as [|room IH]; intros s gs e; cbn [parse6_loop].
  { destruct (String.eqb s ""); [by intros [= <- <-]|done]. }
  destruct (hex_group s 0 0) as [[[off acc] rest]|] eqn:Eh; [|done]. cbn [mbind option_bind].
  apply hex_group_range in Eh; [|unfold is_group; lia]. cbn in Eh. destruct (off =? 0); [done|]. intros Hp (Hf & Hl & He) Hroom.
  assert (Hsnoc : forall e1, match e1 with Some e => (e <= S (length gs))%nat | None => True end -> loop_ok (gs ++ [acc]) e1).
  { intros e1 He1. split; [by apply Forall_snoc_2|]. rewrite length_app, Nat.add_comm. cbn. split; [lia|done]. }
  assert (He0 : match e with Some e => (e <= S (length gs))%nat | None => True end) by (destruct e; [lia|done]).
  assert (Hlen : (length (gs ++ [acc]) + room = 8)%nat) by (rewrite length_app; cbn; lia).
  destruct rest as [|c t]; [injection Hp as <- <-; by apply Hsnoc|].
  destruct (Ascii.eqb c dot_char).
  - destruct (_ || _) eqn:E6; [done|]. destruct (parseIPv4Fields s [] 0 0) as [o|] eqn:E4; [|done].
    destruct (ipv4_fields_wf _ _ _ _ _ E4) as [Hlo Hfo]; [constructor|unfold is_byte; lia|cbn; lia|].
    destruct o as [|a [|b [|c' [|d [|? ?]]]]]; try done. injection Hp as <- <-. bool_to_prop.
    inversion_clear Hfo as [|? ? Ha Hfo']. inversion_clear Hfo' as [|? ? Hb Hfo]. inversion_clear Hfo as [|? ? Hc Hfo']. inversion_clear Hfo' as [|? ? Hd _].
    split; [apply Forall_app; split; [done|]; repeat constructor; by apply group_of_bytes|].
    rewrite length_app. cbn. split; [lia|]. destruct e; [lia|done].
  - destruct (negb _); [done|]. destruct t as [|c2 t2]; [done|]. destruct (Ascii.eqb c2 colon).
    + destruct e; [done|]. assert (Hs : loop_ok (gs ++ [acc]) (Some (S (length gs)))) by (apply Hsnoc; lia).
      destruct (String.eqb t2 ""); [by injection Hp as <- <-|]. by eapply IH.
    + by eapply IH; [|apply Hsnoc|].
Qed.
Lemma expand_wf gs e gs' : loop_ok gs e -> expand_ellipsis gs e = Some gs' -> length gs' = 8%nat /\ Forall is_group gs'.
Proof.
  intros (Hf & Hl & He). unfold expand_ellipsis. destruct (8 - length gs)%nat as [|n] eqn:En; destruct e as [e|]; try done.
  - intros [= <-]. split; [lia|done].
  - assert (Hzs : length (repeat 0 (S n)) = S n) by apply repeat_length.
    assert (Hz : Forall is_group (repeat 0 (S n))).
    { apply Forall_forall. intros x Hx. apply list_elem_of_In, repeat_spec in Hx. subst. unfold is_group. lia. }
    revert Hzs Hz. generalize (repeat 0 (S n)). intros zs Hzs Hz [= <-]. rewrite !length_app, Hzs, length_take, length_drop.
    split; [lia|]. apply Forall_app. split; [by apply Forall_take|]. apply Forall_app. split; [done|by apply Forall_drop].
Qed.
Lemma parse6_text_wf s gs : parse6_text s = Some gs -> length gs = 8%nat /\ Forall is_group gs.
Proof.
  assert (Hloop : forall s e, match e with Some e => (e <= 0)%nat | None => True end ->
    (x ← parse6_loop 8 s [] e; let '(gs, e) := x in expand_ellipsis gs e) = Some gs -> length gs = 8%nat /\ Forall is_group gs).
  { intros s0 e He. destruct (parse6_loop 8 s0 [] e) as [[g1 e1]|] eqn:El; [|done]. cbn. apply expand_wf.
    eapply parse6_loop_wf; [done| |done]. split; [constructor|]. cbn. split; [lia|done]. }
  unfold parse6_text. destruct s as [|c [|c2 s2]]; [by apply Hloop..|]. destruct (_ && _); [|by apply Hloop].
  destruct (String.eqb s2 ""); [|by apply Hloop]. intros [= <-]. split; [done|]. by repeat constructor.
Qed.
Lemma ParseAddr_wf s a : ParseAddr s = Some a -> wf_addr a.
Proof.
  unfold ParseAddr, parseIPv6. destruct (first_mark s) as [c|]; [|done]. destruct (Ascii.eqb c dot_char).
  - destruct (parseIPv4Fields s [] 0 0) as [o|] eqn:E; [|done]. intros [= <-].
    eapply ipv4_fields_wf; [done|constructor|unfold is_byte; lia|cbn; lia].
  - destruct (Ascii.eqb c colon); [|done].
    assert (H6 : forall s zone, (gs ← parse6_text s; Some (Addr6 gs zone)) = Some a -> wf_addr a).
    { intros s0 zone. destruct (parse6_text s0) as [gs|] eqn:E; [|done]. intros [= <-]. by eapply parse6_text_wf. }
    destruct (cut s "%") as [[s1 [|z zs]]|]; [done|apply H6..].
Qed.
Lemma byte_div g : is_group g -> is_byte (g / 256) /\ is_byte (g mod 256).
Proof. unfold is_group, is_byte. intros. split; dlia. Qed.
Lemma mapped4_inv gs o : mapped4 gs = Some o -> exists g h, gs = [0; 0; 0; 0; 0; 65535; g; h] /\ o = octets_of g ++ octets_of h.
Proof.
  unfold mapped4. destruct gs as [|g0 [|g1 [|g2 [|g3 [|g4 [|g5 [|g [|h [|]]]]]]]]]; repeat case_match; try done; subst; intros [= <-]; by eexists _, _.
Qed.
Lemma Unmap_wf a : wf_addr a -> wf_addr (Unmap a).
Proof.
  destruct a as [o|gs z]; [done|]. cbn [Unmap]. destruct (mapped4 gs) as [o|] eqn:E; [|done].
  apply mapped4_inv in E as (g & h & -> & ->). intros [_ Hf]. do 6 apply Forall_inv_tail in Hf.
  destruct (byte_div g (Forall_inv Hf)). apply Forall_inv_tail in Hf. destruct (byte_div h (Forall_inv Hf)). split; [done|]. unfold octets_of. cbn [app]. by rewrite !Forall_cons, Forall_nil.
Qed.
Lemma Unmap_idemp a : Unmap (Unmap a) = Unmap a.
Proof. destruct a as [o|gs z]; [done|]. cbn. destruct (mapped4 gs) eqn:E; [done|]. cbn. by rewrite E. Qed.
Lemma Unmap_zone a : Zone a = "" -> Zone (Unmap a) = "".
Proof. destruct a as [o|gs z]; [done|]. cbn. by destruct (mapped4 gs). Qed.

(** ** What printing writes *)
Definition addr_char (c : ascii) : bool := bool_decide (is_Some (hex_val c)) || Ascii.eqb c colon || Ascii.eqb c dot_char.
Definition hex_digits (s : string) : bool := all_bytes (fun c => bool_decide (is_Some (hex_val c))) s.
(** Text after a number: nothing that could be one of its digits. *)
Definition ends_number (t : string) : Prop := match t with "" => True | String c _ => hex_val c = None end.

Lemma ipv4_byte b : is_byte b -> forall fields t, match t with "" => True | String c _ => is_digit c = false end ->
  parseIPv4Fields (itoa b +:+ t) fields 0 0 = parseIPv4Fields t fields b (slen (itoa b)).
Proof.
  intros Hb. assert (H : Forall (fun b => forall fields t, match t with "" => True | String c _ => is_digit c = false end ->
    parseIPv4Fields (itoa b +:+ t) fields 0 0 = parseIPv4Fields t fields b (slen (itoa b))) (Z.of_nat <$> seq 0 256)).
  { repeat constructor; intros fields t Ht; reflexivity. }
  rewrite Forall_forall in H. apply H. apply list_elem_of_fmap. exists (Z.to_nat b). unfold is_byte in Hb. split; [lia|].
  apply elem_of_seq. lia.
Qed.
Lemma itoa_digits b : 0 <= b -> all_bytes is_digit (itoa b) = true /\ itoa b <> "".
Proof. intros Hb. destruct (itoa_decimal b Hb) as [H1 H2 _ _ _]. done. Qed.
Lemma dot_code : is_digit dot_char = false. Proof. reflexivity. Qed.
Lemma string4_parse o : length o = 4%nat -> Forall is_byte o -> parseIPv4Fields (string4 o) [] 0 0 = Some o.
Proof.
  destruct o as [|a [|b [|c [|d [|]]]]]; try done. intros _. rewrite !Forall_cons. intros (Ha & Hb & Hc & Hd & _).
  unfold string4. cbn [map join]. change "." with (str1 dot_char).
  assert (Hdot : forall fields v t, is_byte v -> (length fields < 3)%nat -> t <> "" ->
    parseIPv4Fields (itoa v +:+ str1 dot_char +:+ t) fields 0 0 = parseIPv4Fields t (fields ++ [v]) 0 0).
  { intros fields v t Hv Hl Ht. rewrite (ipv4_byte v Hv) by done. cbn [str1 String.append parseIPv4Fields].
    rewrite dot_code. change (Ascii.eqb dot_char dot_char) with true.
    assert (Hs : (slen (itoa v) =? 0) = false).
    { apply Z.eqb_neq. unfold is_byte in Hv. destruct (itoa_digits v) as [_ Hn]; [lia|]. destruct (itoa v); [done|]. unfold slen. cbn. lia. }
    rewrite Hs. assert (String.eqb t "" = false) as -> by by apply String.eqb_neq. cbn [orb].
    by assert ((Z.of_nat (length fields) =? 3) = false) as -> by (apply Z.eqb_neq; lia). }
  assert (Hne : forall v t, is_byte v -> itoa v +:+ t <> "").
  { intros v t Hv. unfold is_byte in Hv. destruct (itoa_digits v) as [_ Hn]; [lia|]. by destruct (itoa v). }
  rewrite !Hdot; cbn [app length]; try lia; try done; try by apply Hne.
  - rewrite <- (str_app_nil (itoa d)), (ipv4_byte d Hd) by done. reflexivity.
  - rewrite <- (str_app_nil (itoa d)). by apply Hne.
Qed.

(** A group in hexadecimal. *)
Definition hex_ok (g : Z) : Prop := hex_group (to_hex g) 0 0 = Some (slen (to_hex g), g, "") /\ hex_digits (to_hex g) = true /\ 0 < slen (to_hex g).
Definition is_nibble (d : Z) : Prop := 0 <= d < 16.
Definition digits_text (ds : list Z) (s : string) : string := foldr (fun d s => String (digit_char d) s) s ds.
Lemma hex_val_digit d : is_nibble d -> hex_val (digit_char d) = Some d.
Proof. unfold is_nibble. revert d. by_evaluation 16%nat. Qed.
Lemma to_base_hex k fuel n acc : 0 <= n < 16 ^ Z.of_nat (S k) -> (k < fuel)%nat ->
  exists ds, to_base_go fuel 16 n acc = digits_text ds acc /\ (1 <= length ds <= S k)%nat /\ Forall is_nibble ds /\
    foldl (fun a d => a * 16 + d) 0 ds = n.
Proof.
  revert fuel n acc. induction k as [|k IH]; intros fuel n acc Hn Hk; (destruct fuel as [|fuel]; [lia|]); cbn [to_base_go]; cbv zeta.
  - change (16 ^ Z.of_nat 1) with 16 in Hn. rewrite (proj2 (Z.ltb_lt n 16)) by lia. exists [n]. rewrite Z.mod_small by lia.
    cbn. split; [done|]. split; [lia|]. split; [by constructor|lia].
  - assert (Hm : is_nibble (n mod 16)) by (unfold is_nibble; dlia). destruct (n <? 16) eqn:E; bool_to_prop.
    + exists [n]. rewrite Z.mod_small by lia. cbn. split; [done|]. split; [lia|]. split; [constructor; [unfold is_nibble; lia|constructor]|lia].
    + destruct (IH fuel (n / 16) (String (digit_char (n mod 16)) acc)) as (ds & Hd & Hl & Hf & Hv); [|lia|].
      { replace (16 ^ Z.of_nat (S (S k))) with (16 * 16 ^ Z.of_nat (S k)) in Hn by (rewrite (Nat2Z.inj_succ (S k)), Z.pow_succ_r; lia).
        split; [apply Z.div_pos; lia|]. apply Z.div_lt_upper_bound; lia. }
      exists (ds ++ [n mod 16]). split; [by rewrite Hd; unfold digits_text; rewrite foldr_app|]. rewrite length_app. cbn [length].
      split; [lia|]. split; [by apply Forall_snoc_2|]. rewrite foldl_snoc, Hv. pose proof (Z.div_mod n 16). lia.
Qed.
Lemma hex_group_digits ds off acc : Forall is_nibble ds -> 0 <= off -> off + Z.of_nat (length ds) <= 4 -> 0 <= acc < 16 ^ off ->
  hex_group (digits_text ds "") off acc = Some (off + Z.of_nat (length ds), foldl (fun a d => a * 16 + d) acc ds, "").
Proof.
  intros Hf. revert off acc. induction Hf as [|d ds Hd Hf IH]; intros off acc Ho Hl Ha.
  - cbn. do 3 f_equal. lia.
  - change (digits_text (d :: ds) "") with (String (digit_char d) (digits_text ds "")). cbn [hex_group]. rewrite (hex_val_digit d Hd). cbv zeta.
    cbn [length] in *. rewrite (proj2 (Z.ltb_ge 3 off)) by lia. assert (Hp : acc * 16 + d < 16 ^ (off + 1)).
    { rewrite Z.pow_add_r by lia. unfold is_nibble in Hd. lia. }
    assert (16 ^ (off + 1) <= 16 ^ 4) by (apply Z.pow_le_mono_r; lia). change (16 ^ 4) with 65536 in *.
    rewrite (proj2 (Z.ltb_ge 65535 _)) by lia. cbn [orb]. rewrite IH; [|lia|lia|unfold is_nibble in Hd; lia].
    cbn [foldl]. do 3 f_equal. lia.
Qed.
Lemma digits_text_props ds : Forall is_nibble ds -> hex_digits (digits_text ds "") = true /\ slen (digits_text ds "") = Z.of_nat (length ds).
Proof.
  induction 1 as [|d ds Hd Hf [IH1 IH2]]; [done|]. change (digits_text (d :: ds) "") with (String (digit_char d) (digits_text ds "")).
  unfold hex_digits in *. cbn [all_bytes length]. rewrite (hex_val_digit d Hd), IH1, slen_cons, IH2. split; [done|lia].
Qed.
Lemma hex_group_all g : is_group g -> hex_ok g.
Proof.
  intros Hg. unfold is_group in Hg. destruct (decide (g < 16)) as [Hs|Hs].
  { revert g Hg Hs. assert (H : forall g, 0 <= g < 16 -> hex_ok g); [|intros; apply H; lia]. unfold hex_ok. by_evaluation 16%nat. }
  assert (Hfuel : exists fuel, to_hex g = to_base_go fuel 16 g "" /\ (3 < fuel)%nat).
  { eexists. split; [reflexivity|]. pose proof (Z.log2_le_mono 16 g). change (Z.log2 16) with 4 in *. lia. }
  destruct Hfuel as (fuel & E & Hk). destruct (to_base_hex 3 fuel g "") as (ds & Hd & Hl & Hf & Hv); [split; [lia|cbn; lia]|done|].
  unfold hex_ok. rewrite E, Hd. destruct (digits_text_props ds Hf) as [H1 H2]. rewrite H2.
  split; [|split; [done|lia]]. rewrite hex_group_digits; [|done|lia|lia|cbn; lia]. by rewrite Hv.
Qed.
Lemma hex_group_app s off acc n v t : hex_group s off acc = Some (n, v, "") -> ends_number t -> hex_group (s +:+ t) off acc = Some (n, v, t).
Proof.
  revert off acc. induction s as [|c s IH]; intros off acc; cbn [hex_group String.append].
  - intros [= <- <-] Ht. destruct t as [|c t]; cbn [hex_group ends_number] in *; [done|]. by rewrite Ht.
  - destruct (hex_val c); [|done]. cbv zeta. destruct (_ || _); [done|]. apply IH.
Qed.
Lemma parse_group room g t gs e : is_group g -> ends_number t ->
  parse6_loop (S room) (to_hex g +:+ t) gs e =
  match t with
  | "" => Some (gs ++ [g], e)
  | String c u =>
      if Ascii.eqb c dot_char then parse6_loop (S room) (to_hex g +:+ t) gs e
      else if negb (Ascii.eqb c colon) then None
      else match u with
           | "" => None
           | String c2 t2 =>
               if Ascii.eqb c2 colon then
                 match e with
                 | Some _ => None
                 | None => if String.eqb t2 "" then Some (gs ++ [g], Some (S (length gs)))
                           else parse6_loop room t2 (gs ++ [g]) (Some (S (length gs)))
                 end
               else parse6_loop room u (gs ++ [g]) e
           end
  end.
Proof.
  intros Hg Ht. destruct (hex_group_all g Hg) as (Hh & _ & Hl). pose proof (hex_group_app _ _ _ _ _ _ Hh Ht) as E.
  destruct t as [|c u].
  - cbn [parse6_loop]. rewrite E. cbn [mbind option_bind]. by rewrite (proj2 (Z.eqb_neq _ 0)) by lia.
  - destruct (Ascii.eqb c dot_char) eqn:Ed; [done|]. cbn [parse6_loop]. rewrite E. cbn [mbind option_bind].
    rewrite (proj2 (Z.eqb_neq _ 0)) by lia. by rewrite Ed.
Qed.
Definition join6 (gs : list Z) : string := join (map to_hex gs) ":".
Lemma hex_head g t : is_group g -> exists c s, to_hex g +:+ t = String c s /\ is_Some (hex_val c).
Proof.
  intros Hg. destruct (hex_group_all g Hg) as (_ & Hd & Hl). destruct (to_hex g) as [|c s]; [done|].
  exists c, (s +:+ t). split; [done|]. unfold hex_digits in Hd. cbn [all_bytes] in Hd. bool_to_prop. done.
Qed.
Lemma hex_not_colon c : is_Some (hex_val c) -> Ascii.eqb c colon = false /\ Ascii.eqb c dot_char = false /\ Ascii.eqb c percent = false.
Proof.
  intros [d Hd]. assert (Hn : forall x, hex_val x = None -> Ascii.eqb c x = false).
  { intros x Hx. apply Ascii.eqb_neq. intros ->. congruence. }
  split; [|split]; by apply Hn.
Qed.
Lemma join6_head g gs t : is_group g -> exists c s, join6 (g :: gs) +:+ t = String c s /\ is_Some (hex_val c).
Proof.
  intros Hg. unfold join6. cbn [map join]. destruct (map to_hex gs) as [|w l]; [by apply hex_head|].
  rewrite <- str_app_assoc. by apply hex_head.
Qed.
(** Groups separated by colons, to the end or to a double colon. *)
Lemma parse_groups gs room acc e t : Forall is_group gs -> gs <> [] -> (length gs <= room)%nat ->
  match t with
  | "" => parse6_loop room (join6 gs) acc e = Some (acc ++ gs, e)
  | _ => parse6_loop room (join6 gs +:+ "::") acc None = Some (acc ++ gs, Some (length (acc ++ gs))) /\
         parse6_loop room (join6 gs +:+ "::" +:+ t) acc None =
           parse6_loop (room - length gs) t (acc ++ gs) (Some (length (acc ++ gs)))
  end.
Proof.
  revert room acc. induction gs as [|g gs IH]; intros room acc Hf Hne Hl; [done|]. destruct room as [|room]; [cbn in Hl; lia|].
  apply Forall_cons in Hf as [Hg Hf]. cbn [length] in Hl.
  destruct gs as [|g2 gs].
  - unfold join6. cbn [map join]. rewrite !length_app, Nat.add_comm. destruct t as [|c t].
    + rewrite <- (str_app_nil (to_hex g)). by rewrite parse_group.
    + cbn [length]. rewrite Nat.sub_succ, Nat.sub_0_r. split; by rewrite parse_group.
  - assert (E : join6 (g :: g2 :: gs) = to_hex g +:+ ":" +:+ join6 (g2 :: gs)) by done.
    assert (Hstep : forall u e, parse6_loop (S room) (join6 (g :: g2 :: gs) +:+ u) acc e = parse6_loop room (join6 (g2 :: gs) +:+ u) (acc ++ [g]) e).
    { intros u e'. rewrite E, <- !str_app_assoc, parse_group by done. change (":" +:+ ?x) with (String colon x).
      destruct (join6_head g2 gs u (Forall_inv Hf)) as (c & s & -> & Hc). destruct (hex_not_colon c Hc) as (-> & _). done. }
    specialize (IH room (acc ++ [g]) Hf ltac:(done) ltac:(cbn in *; lia)). rewrite <- app_assoc in IH. cbn [app] in IH.
    destruct t as [|c t].
    + rewrite <- (str_app_nil (join6 _)), Hstep, str_app_nil. exact IH.
    + rewrite !Hstep. exact IH.
Qed.

(** ** Compressed zeros *)
Definition tail6 (gs : list Z) : string := str_concat (map (fun g => ":" +:+ to_hex g) gs).
Lemma join6_cons g gs : join6 (g :: gs) = to_hex g +:+ tail6 gs.
Proof.
  revert g. induction gs as [|g2 gs IH]; intros g; [unfold join6, tail6; cbn; by rewrite str_app_nil|].
  change (join6 (g :: g2 :: gs)) with (to_hex g +:+ ":" +:+ join6 (g2 :: gs)). rewrite IH. unfold tail6. cbn [map str_concat]. reflexivity.
Qed.
Lemma groups_none i gs : (0 < i)%nat -> groups_text i None gs = tail6 gs.
Proof.
  revert i. induction gs as [|g gs IH]; intros i Hi; [done|]. cbn [groups_text]. rewrite (proj2 (Nat.ltb_lt 0 i)) by done.
  rewrite IH by lia. unfold tail6. cbn [map str_concat]. by rewrite <- str_app_assoc.
Qed.
Section run.
Context (a b : nat) (Hab : (a < b)%nat).
Let run : option (nat * nat) := Some (a, b).
Lemma groups_beyond i gs : (b < i)%nat -> groups_text i run gs = tail6 gs.
Proof using Hab.
  revert i. induction gs as [|g gs IH]; intros i Hi; [done|]. cbn [groups_text run].
  assert ((i =? a)%nat = false) as -> by (apply Nat.eqb_neq; lia). assert ((i <? b)%nat = false) as -> by (apply Nat.ltb_ge; lia).
  assert ((0 <? i)%nat = true) as -> by (apply Nat.ltb_lt; lia). assert ((i =? b)%nat = false) as -> by (apply Nat.eqb_neq; lia).
  rewrite andb_false_r. cbn [negb andb]. rewrite (IH (S i)) by lia. unfold tail6. cbn [map str_concat]. by rewrite <- str_app_assoc.
Qed.
Lemma groups_after i gs : (a < i <= b)%nat -> groups_text i run gs = join6 (drop (b - i) gs).
Proof using Hab.
  revert i. induction gs as [|g gs IH]; intros i Hi; [by destruct (b - i)%nat|]. cbn [groups_text run].
  assert ((i =? a)%nat = false) as -> by (apply Nat.eqb_neq; lia). assert ((a <? i)%nat = true) as -> by (apply Nat.ltb_lt; lia).
  destruct (decide (i = b)) as [->|Hn].
  - rewrite Nat.ltb_irrefl, Nat.eqb_refl, Nat.sub_diag. cbn [negb andb drop]. rewrite andb_false_r, groups_beyond, join6_cons by lia. done.
  - assert ((i <? b)%nat = true) as -> by (apply Nat.ltb_lt; lia). cbn [andb]. rewrite IH by lia.
    replace (b - i)%nat with (S (b - S i)) by lia. done.
Qed.
Lemma groups_at gs : gs <> [] -> groups_text a run gs = "::" +:+ join6 (drop (b - a) gs).
Proof using Hab.
  destruct gs as [|g gs]; [done|]. intros _. cbn [groups_text run]. rewrite Nat.eqb_refl, groups_after by lia.
  replace (b - a)%nat with (S (b - S a)) by lia. done.
Qed.
Lemma groups_before i gs : (0 < i <= a)%nat -> (a - i < length gs)%nat ->
  groups_text i run gs = tail6 (take (a - i) gs) +:+ "::" +:+ join6 (drop (b - i) gs).
Proof using Hab.
  revert i. induction gs as [|g gs IH]; intros i Hi Hl; [cbn in Hl; lia|]. destruct (decide (i = a)) as [->|Hn].
  - rewrite groups_at by done. by rewrite Nat.sub_diag.
  - cbn [groups_text run]. assert ((i =? a)%nat = false) as -> by (apply Nat.eqb_neq; lia).
    assert ((a <? i)%nat = false) as -> by (apply Nat.ltb_ge; lia). assert ((0 <? i)%nat = true) as -> by (apply Nat.ltb_lt; lia).
    assert ((i =? b)%nat = false) as -> by (apply Nat.eqb_neq; lia). cbn [andb negb length] in *.
    rewrite (IH (S i)) by lia. replace (a - i)%nat with (S (a - S i)) by lia. replace (b - i)%nat with (S (b - S i)) by lia.
    cbn [take drop]. unfold tail6. cbn [map str_concat]. by rewrite <- !str_app_assoc.
Qed.
Lemma groups_run gs : (a < length gs)%nat -> groups_text 0 run gs = join6 (take a gs) +:+ "::" +:+ join6 (drop b gs).
Proof using Hab.
  intros Hl. destruct (decide (a = O)) as [E|Hn].
  - assert (gs <> []) by (by destruct gs; [cbn in Hl; lia|]). pose proof (groups_at gs H) as Hg. rewrite E in Hg. rewrite Hg, E, Nat.sub_0_r. done.
  - destruct gs as [|g gs]; [cbn in Hl; lia|]. cbn [length] in Hl. cbn [groups_text run].
    assert ((0 =? a)%nat = false) as -> by (apply Nat.eqb_neq; lia). assert ((a <? 0)%nat = false) as -> by (apply Nat.ltb_ge; lia).
    cbn [andb Nat.ltb Nat.leb]. rewrite (groups_before 1) by lia. destruct a as [|a']; [done|]. destruct b as [|b']; [lia|].
    cbn [take drop]. rewrite join6_cons, !Nat.sub_succ, !Nat.sub_0_r. by rewrite <- str_app_assoc.
Qed.
End run.
(** The run found is a run of at least two zeros. *)
Definition run_of (gs : list Z) (r : nat * nat) : Prop :=
  (r.1 + 2 <= r.2 <= length gs)%nat /\ gs = take r.1 gs ++ repeat 0 (r.2 - r.1) ++ drop r.2 gs.
Lemma zero_run_spec gs : exists rest, gs = repeat 0 (zero_run gs) ++ rest.
Proof.
  induction gs as [|g gs [rest IH]]; [by exists []|]. cbn [zero_run]. destruct (g =? 0) eqn:E; bool_to_prop; [|by exists (g :: gs)].
  subst. exists rest. cbn [repeat app]. by rewrite <- IH.
Qed.
Lemma best_run_spec pre gs best r : best_run (length pre) gs best = Some r ->
  match best with Some r => run_of (pre ++ gs) r | None => True end -> run_of (pre ++ gs) r.
Proof.
  revert pre best. induction gs as [|g gs IH]; intros pre best; cbn [best_run]; [by intros ->|]. cbv zeta.
  intros Hr Hb. replace (pre ++ g :: gs) with ((pre ++ [g]) ++ gs) in * by (by rewrite <- app_assoc).
  eapply (IH (pre ++ [g])); [rewrite length_app, Nat.add_comm; exact Hr|].
  destruct (_ && _) eqn:E; [|done]. apply andb_true_iff in E as [El _]. apply Nat.leb_le in El.
  destruct (zero_run_spec (g :: gs)) as [rest Hz]. set (n := zero_run (g :: gs)) in *. rewrite <- app_assoc. cbn [app].
  unfold run_of. cbn [fst snd]. rewrite Hz. rewrite !length_app, repeat_length. split; [lia|].
  assert (Hd : drop (length pre + n) (pre ++ repeat 0 n ++ rest) = rest).
  { rewrite app_assoc. apply drop_app_length'. by rewrite length_app, repeat_length. }
  rewrite Hd, take_app_length. by replace (length pre + n - length pre)%nat with n by lia.
Qed.

(** ** The round trip *)
Lemma cut_none c s : str_in c s = false -> cut s (str1 c) = None.
Proof. intros H. rewrite <- contains_single in H. unfold contains, cut in *. by destruct (index s (str1 c)). Qed.
Lemma hex_clean s : hex_digits s = true -> str_in percent s = false.
Proof.
  unfold hex_digits. induction s as [|c s IH]; cbn [all_bytes str_in]; [done|]. intros H. bool_to_prop.
  destruct (hex_not_colon c) as (_ & _ & ->); [done|]. by apply IH.
Qed.
Lemma digit_hex c : is_digit c = true -> is_Some (hex_val c).
Proof. intros H. unfold hex_val. rewrite H. by eexists. Qed.
Lemma itoa_hex b : 0 <= b -> hex_digits (itoa b) = true.
Proof.
  intros Hb. destruct (itoa_digits b Hb) as [H _]. revert H. unfold hex_digits. induction (itoa b) as [|c s IH]; [done|].
  cbn [all_bytes]. intros H. bool_to_prop. rewrite IH by done. rewrite bool_decide_eq_true_2; [done|by apply digit_hex].
Qed.
Lemma tail6_clean gs : Forall is_group gs -> str_in percent (tail6 gs) = false.
Proof.
  induction 1 as [|g gs Hg Hf IH]; [done|]. unfold tail6 in *. cbn [map str_concat]. rewrite !str_in_app, IH.
  rewrite (hex_clean (to_hex g)) by by apply hex_group_all. done.
Qed.
Lemma join6_clean gs : Forall is_group gs -> str_in percent (join6 gs) = false.
Proof.
  destruct 1 as [|g gs Hg Hf]; [done|]. rewrite join6_cons, str_in_app, tail6_clean by done. by rewrite (hex_clean (to_hex g)) by by apply hex_group_all.
Qed.
Lemma string4_clean o : Forall is_byte o -> str_in percent (string4 o) = false.
Proof.
  intros Hf. unfold string4. induction Hf as [|b o Hb Hf IH]; [done|]. unfold is_byte in Hb. pose proof (hex_clean _ (itoa_hex b (proj1 Hb))) as Hc.
  destruct o as [|b2 o]; [exact Hc|]. change (join (map itoa (b :: b2 :: o)) ".") with (itoa b +:+ "." +:+ join (map itoa (b2 :: o)) ".").
  by rewrite !str_in_app, Hc, IH.
Qed.
Lemma first_mark_hex s t : hex_digits s = true -> first_mark (s +:+ t) = first_mark t.
Proof.
  unfold hex_digits. induction s as [|c s IH]; cbn [all_bytes String.append first_mark]; [done|]. intros H. bool_to_prop.
  destruct (hex_not_colon c) as (-> & -> & ->); [done|]. by apply IH.
Qed.
Lemma parse_colon s gs : first_mark s = Some colon -> str_in percent s = false -> parse6_text s = Some gs -> ParseAddr s = Some (Addr6 gs "").
Proof.
  intros Hm Hc Hp. unfold ParseAddr, parseIPv6. rewrite Hm. change (Ascii.eqb colon dot_char) with false. change (Ascii.eqb colon colon) with true.
  change "%" with (str1 percent). by rewrite cut_none, Hp.
Qed.
Lemma parse4_text o : length o = 4%nat -> Forall is_byte o -> ParseAddr (string4 o) = Some (Addr4 o).
Proof.
  intros Hl Hf. unfold ParseAddr. assert (Hm : first_mark (string4 o) = Some dot_char).
  { destruct o as [|a [|b o]]; [done..|]. pose proof (Forall_inv Hf) as Ha. unfold is_byte in Ha.
    change (string4 (a :: b :: o)) with (itoa a +:+ "." +:+ string4 (b :: o)). rewrite first_mark_hex by (apply itoa_hex; lia). done. }
  rewrite Hm. change (Ascii.eqb dot_char dot_char) with true. by rewrite string4_parse.
Qed.
Lemma parse6_head_hex s : (exists c t, s = String c t /\ is_Some (hex_val c)) ->
  parse6_text s = x ← parse6_loop 8 s [] None; let '(gs, e) := x in expand_ellipsis gs e.
Proof.
  intros (c & t & -> & Hc). destruct (hex_not_colon c Hc) as (E & _). unfold parse6_text. destruct t as [|c2 t]; [done|]. by rewrite E.
Qed.
Lemma parse6_plain gs : length gs = 8%nat -> Forall is_group gs -> parse6_text (join6 gs) = Some gs.
Proof.
  intros Hl Hf. destruct gs as [|g gs]; [done|]. rewrite parse6_head_hex.
  - pose proof (parse_groups (g :: gs) 8 [] None "" Hf ltac:(done) ltac:(lia)) as E. cbn [app] in E. rewrite E. cbn [mbind option_bind].
    unfold expand_ellipsis. by rewrite Hl.
  - destruct (join6_head g gs "" (Forall_inv Hf)) as (c & t & E & Hc). rewrite str_app_nil in E. by exists c, t.
Qed.
Lemma expand_run gs a b : length gs = 8%nat -> run_of gs (a, b) -> expand_ellipsis (take a gs ++ drop b gs) (Some a) = Some gs.
Proof.
  intros Hl [Hab Hgs]. cbn [fst snd] in *. unfold expand_ellipsis. rewrite length_app, length_take, length_drop, Hl.
  replace (8 - (a `min` 8 + (8 - b)))%nat with (S (b - a - 1)) by lia. replace (S (b - a - 1)) with (b - a)%nat by lia.
  rewrite take_app_length', drop_app_length' by (rewrite length_take; lia). by rewrite <- Hgs.
Qed.
Lemma parse6_loop_rest a gs b : Forall is_group gs -> (a <= b)%nat -> (b < length gs)%nat -> length gs = 8%nat ->
  parse6_loop (8 - a) (join6 (drop b gs)) (take a gs) (Some a) = Some (take a gs ++ drop b gs, Some a).
Proof.
  intros Hf Hab Hb Hl. apply (parse_groups (drop b gs) (8 - a) (take a gs) (Some a) "").
  - by apply Forall_drop.
  - intros E. apply (f_equal length) in E. rewrite length_drop in E. cbn in E. lia.
  - rewrite length_drop. lia.
Qed.
Lemma join6_nonempty gs : Forall is_group gs -> gs <> [] -> exists c t, join6 gs = String c t /\ is_Some (hex_val c).
Proof.
  intros Hf Hn. destruct gs as [|g gs]; [done|]. destruct (join6_head g gs "" (Forall_inv Hf)) as (c & t & E & Hc).
  rewrite str_app_nil in E. by exists c, t.
Qed.
Lemma parse6_run gs a b : length gs = 8%nat -> Forall is_group gs -> run_of gs (a, b) ->
  parse6_text (join6 (take a gs) +:+ "::" +:+ join6 (drop b gs)) = Some gs.
Proof.
  intros Hl Hf Hr. pose proof (expand_run gs a b Hl Hr) as He. destruct Hr as [Hab Hgs]. cbn [fst snd] in *.
  assert (Hrest : (b < length gs)%nat -> exists c t, join6 (drop b gs) = String c t /\ is_Some (hex_val c)).
  { intros Hb. apply join6_nonempty; [by apply Forall_drop|]. intros E. apply (f_equal length) in E. rewrite length_drop in E. cbn in E. lia. }
  destruct (decide (a = O)) as [->|Ha].
  - change (join6 (take 0 gs)) with "". destruct (decide (b < length gs)%nat) as [Hb|Hb].
    + pose proof (parse6_loop_rest 0 gs b Hf ltac:(lia) Hb Hl) as E. destruct (Hrest Hb) as (c & t & Ec & _). rewrite Ec in *.
      change (parse6_text _) with (x ← parse6_loop 8 (String c t) [] (Some O); let '(gs, e) := x in expand_ellipsis gs e).
      change (take 0 gs) with (@nil Z) in *. change (8 - 0)%nat with 8%nat in E. rewrite E. exact He.
    + rewrite drop_ge in * by lia. change (parse6_text _) with (Some (repeat 0 8)). rewrite Hgs, app_nil_r.
      replace b with 8%nat by lia. done.
  - assert (Hne : take a gs <> []). { intros E. apply (f_equal length) in E. rewrite length_take in E. cbn in E. lia. }
    assert (Hft : Forall is_group (take a gs)) by by apply Forall_take.
    assert (Hla : length (take a gs) = a) by (rewrite length_take; lia).
    rewrite parse6_head_hex.
    2:{ destruct (join6_nonempty _ Hft Hne) as (c & t & E & Hc). rewrite E. by eexists c, _. }
    destruct (decide (b < length gs)%nat) as [Hb|Hb].
    + pose proof (parse6_loop_rest a gs b Hf ltac:(lia) Hb Hl) as E. destruct (Hrest Hb) as (c & t & Ec & _). rewrite Ec in *.
      destruct (parse_groups (take a gs) 8 [] None (String c t) Hft Hne ltac:(lia)) as [_ E2]. cbn [app] in E2.
      rewrite E2, Hla, E. exact He.
    + rewrite drop_ge in * by lia. change (join6 []) with "". rewrite str_app_nil, app_nil_r in *.
      destruct (parse_groups (take a gs) 8 [] None "x" Hft Hne ltac:(lia)) as [E2 _]. cbn [app] in E2. rewrite E2, Hla. exact He.
Qed.
Lemma ends_dot t : ends_number (String dot_char t). Proof. reflexivity. Qed.
Lemma byte_group b : is_byte b -> exists n v, hex_group (itoa b) 0 0 = Some (n, v, "") /\ (n =? 0) = false.
Proof.
  intros Hb. assert (H : match hex_group (itoa b) 0 0 with Some (n, _, "") => negb (n =? 0) | _ => false end = true).
  { unfold is_byte in Hb. revert b Hb. by_evaluation 256%nat. }
  destruct (hex_group (itoa b) 0 0) as [[[n v] []]|]; [|done..]. exists n, v. by apply negb_true_iff in H.
Qed.
Lemma parse6_mapped g h : is_group g -> is_group h ->
  parse6_text ("::ffff:" +:+ string4 (octets_of g ++ octets_of h)) = Some [0; 0; 0; 0; 0; 65535; g; h].
Proof.
  intros Hg Hh. destruct (byte_div g Hg) as [Ha Hb], (byte_div h Hh) as [Hc Hd].
  assert (H4 : parseIPv4Fields (string4 (octets_of g ++ octets_of h)) [] 0 0 = Some (octets_of g ++ octets_of h)).
  { apply string4_parse; [done|]. unfold octets_of. cbn [app]. by rewrite !Forall_cons, Forall_nil. }
  set (u := string4 _) in *. assert (Hu : exists t, u = itoa (g / 256) +:+ String dot_char t) by (by eexists).
  change (parse6_text _) with (x ← parse6_loop 8 ("ffff:" +:+ u) [] (Some O); let '(gs, e) := x in expand_ellipsis gs e).
  assert (Hhead : exists c t, u = String c t /\ Ascii.eqb c colon = false).
  { destruct Hu as [t ->]. unfold is_byte in Ha. destruct (itoa_digits (g / 256) (proj1 Ha)) as [Hdig Hn].
    destruct (itoa (g / 256)) as [|c s]; [done|]. exists c, (s +:+ String dot_char t). split; [done|].
    cbn [all_bytes] in Hdig. bool_to_prop. by apply (hex_not_colon c), digit_hex. }
  change ("ffff:" +:+ u) with (to_hex 65535 +:+ String colon u). rewrite parse_group by (done || (unfold is_group; lia)).
  change (Ascii.eqb colon dot_char) with false. change (Ascii.eqb colon colon) with true. cbn [negb].
  assert (Hl : parse6_loop 7 u ([] ++ [65535]) (Some O) = Some ([65535; g; h], Some O)).
  { clear Hhead. cbn [parse6_loop]. destruct Hu as [t Ht]. rewrite Ht at 1. destruct (byte_group _ Ha) as (n & v & Eh & Hn).
    rewrite (hex_group_app _ _ _ _ _ _ Eh (ends_dot t)). cbn [mbind option_bind]. rewrite Hn.
    change (Ascii.eqb dot_char dot_char) with true. rewrite H4. cbn [app octets_of length]. rewrite bool_decide_eq_true_2 by by eexists.
    cbn. do 2 f_equal. f_equal. f_equal; [|f_equal]; [pose proof (Z.div_mod g 256)|pose proof (Z.div_mod h 256)]; lia. }
  destruct Hhead as (c & t & E & Hcol). rewrite E in *. rewrite Hcol, Hl. reflexivity.
Qed.

(** The text of a well-formed address without a zone parses to the address,
    with its longest run of zeros compressed and its embedded IPv4 part in
    dotted form where it is IPv4-mapped. *)
Lemma addr_text_parses a : wf_addr a -> Zone a = "" -> ParseAddr (Addr_String a) = Some a.
Proof.
  destruct a as [o|gs z]; cbn [wf_addr Zone Addr_String].
  { intros [Hl Hf] _. by apply parse4_text. }
  intros [Hl Hf] ->. destruct (mapped4 gs) as [o|] eqn:Em; cbn [String.eqb].
  - destruct (mapped4_inv gs o Em) as (g & h & -> & ->). rewrite str_app_nil. do 6 apply Forall_inv_tail in Hf.
    pose proof (Forall_inv Hf) as Hg. apply Forall_inv_tail in Hf. pose proof (Forall_inv Hf) as Hh.
    apply parse_colon; [done| |by apply parse6_mapped]. cbn [String.append str_in]. destruct (byte_div g Hg), (byte_div h Hh).
    rewrite string4_clean; [done|]. unfold octets_of. cbn [app]. by rewrite !Forall_cons, Forall_nil.
  - unfold string6. rewrite str_app_nil. destruct (best_run 0 gs None) as [[a b]|] eqn:Eb.
    + apply (best_run_spec []) in Eb; [|done]. cbn [app] in Eb. pose proof Eb as [Hab _]. cbn [fst snd] in Hab.
      rewrite groups_run by lia. apply parse_colon; [| |by apply parse6_run].
      * destruct (decide (take a gs = [])) as [->|Hne]; [done|].
        assert (Hft : Forall is_group (take a gs)) by by apply Forall_take. destruct (take a gs) as [|g l]; [done|].
        rewrite join6_cons, <- str_app_assoc, first_mark_hex by by apply hex_group_all, (Forall_inv Hft). by destruct l.
      * rewrite !str_in_app, !join6_clean by (by apply Forall_take || by apply Forall_drop). done.
    + destruct gs as [|g [|g2 gs]]; [done..|]. assert (E : groups_text 0 None (g :: g2 :: gs) = join6 (g :: g2 :: gs)).
      { rewrite join6_cons. cbn [groups_text Nat.ltb Nat.leb]. by rewrite <- (groups_none 1 (g2 :: gs)) by lia. }
      rewrite E. apply parse_colon; [|by apply join6_clean|by apply parse6_plain].
      rewrite join6_cons, first_mark_hex by by apply hex_group_all, (Forall_inv Hf). done.
Qed.
Example address_example : Addr_String (Addr6 [8193; 3512; 0; 0; 1; 0; 0; 1] "") = "2001:db8::1:0:0:1" /\
  ParseAddr (Addr_String (Addr6 [8193; 3512; 0; 0; 1; 0; 0; 1] "")) = Some (Addr6 [8193; 3512; 0; 0; 1; 0; 0; 1] "").
Proof. split; reflexivity. Qed.
