(* ===== verification/Config.v ===== *)
(** * Configuration

    config.go: the defaults, the overlay of environment variables, the
    normalisation and the validation that a configuration passes before any
    listener is opened.  An error is its text; [None] stands for the nil error
    of a validator. *)
From S2P Require Import Prelude GoStrings Value Names Netip ConfigModel.

#[local] Set Warnings "-clear-no-such-hyp,-notation-for-abbreviation".
#[local] Open Scope string_scope.
#[local] Open Scope list_scope.
#[local] Open Scope Z_scope.

Definition maxConfigBytes : Z := 2 ^ 20.
Definition maxTokenCount : Z := 64.
Definition maxTokenBytes : Z := 256.
Definition maxTokenTotal : Z := 16 * 2 ^ 10.
Definition maxNamespaceCount : Z := 64.
Definition maxHoneytokenCount : Z := 64.
Definition maxHoneytokenDataEntries : Z := 16.
Definition maxTotalHoneytokenDataEntries : Z := 256.
Definition maxHoneytokenValueBytes : Z := 4 * 2 ^ 10.
Definition maxSecretPayloadBytes : Z := 16 * 2 ^ 10.
Definition maxTrustedProxyCIDRs : Z := 16.
Definition maxTrustedProxyCIDRBytes : Z := 64.
Definition maxSinkCount : Z := 8.
Definition maxSinkURLBytes : Z := 2048.
Definition maxSinkPathBytes : Z := 1024.
Definition maxSinkFieldBytes : Z := 256.
Definition maxSinkCredentialBytes : Z := 2048.
Definition maxSinkIndexBytes : Z := 255.
Definition maxSinkHeaders : Z := 16.
Definition maxSinkHeaderNameBytes : Z := 128.
Definition maxSinkHeaderValueBytes : Z := 2048.

Definition len {A} (l : list A) : Z := Z.of_nat (length l).
Definition err : Type := option string.
(** A value or an error. *)
Definition result (A : Type) : Type := A + string.
Definition rbind {A B} (m : result A) (k : A -> result B) : result B :=
  match m with inl a => k a | inr e => inr e end.
Notation "'try!' x := m 'in' k" := (rbind m (fun x => k)) (at level 10, x name, m at level 100, k at level 200).
(** The first of two checks that fails. *)
Definition andthen (a b : err) : err := match a with Some e => Some e | None => b end.
Infix "&>" := andthen (at level 60, right associativity).
Definition require (b : bool) (message : string) : err := if b then None else Some message.
(** A check of each entry of a list, with its number from 1. *)
Fixpoint each {A} (check : Z -> A -> err) (i : Z) (l : list A) : err :=
  match l with [] => None | a :: l => check i a &> each check (i + 1) l end.

Definition Defaults : Config := {|
  c_AI := {| ai_Host := "127.0.0.1"; ai_Port := "11434"; ai_Token := "" |};
  c_Docker := {| docker_Host := "127.0.0.1"; docker_Port := "2375" |};
  c_HTTP := {| http_Host := "127.0.0.1"; http_Port := "8081" |};
  c_UDP := {| udp_Host := "127.0.0.1"; udp_Port := "9053" |};
  c_TCP := {| tcp_Host := "127.0.0.1"; tcp_Port := "9022" |};
  c_Kubelet := {| kl_Host := "127.0.0.1"; kl_Port := "10250"; kl_NodeName := "worker-01"; kl_TLSEnabled := None;
                  kl_TLSCertFile := ""; kl_TLSKeyFile := "" |};
  c_K8S := {| k_APIVersion := "v1.37"; k_SchemaOffline := false; k_IPBase := "10.42.0.0"; k_GenerateKubeSys := true;
              k_GenerateRand := false; k_Host := "127.0.0.1"; k_Port := "8080"; k_TLSEnabled := false; k_TLSCertFile := "";
              k_TLSKeyFile := ""; k_Namespaces := []; k_Honeytokens := []; k_TokenValues := []; k_TokenNames := [] |};
  c_RunMode := {| rm_RunMode := "k8s" |};
  c_Logging := {| lg_Format := "json"; lg_IncludeUserAgent := false; lg_TrustedProxyCIDRs := []; lg_Sinks := [] |};
|}.

(** ** The environment *)
Section environment.
Context `{UnicodeTables} `{RangeOrder} (LookupEnv : string -> option string).

Fixpoint firstSetEnv (keys : list string) : option string :=
  match keys with
  | [] => None
  | key :: keys =>
      match LookupEnv key with
      | Some value => if negb (String.eqb (trim_space value) "") then Some (trim_space value) else firstSetEnv keys
      | None => firstSetEnv keys
      end
  end.
Definition firstEnv (keys : list string) : string := default "" (firstSetEnv keys).
Definition setString (target : string) (keys : list string) : string := default target (firstSetEnv keys).
(** A variable that overrides a field when it is set. *)
Definition override {A} (current : A) (keys : list string) (parse : string -> result A) : result A :=
  match firstSetEnv keys with Some value => parse value | None => inl current end.
Definition env_bool (name : string) (value : string) : result bool :=
  match parse_bool value with Some b => inl b | None => inr ("invalid boolean for " +:+ name) end.

(** [splitList]: the cursor [start] moves past one comma a turn. *)
Fixpoint splitList_loop (fuel : nat) (value variable : string) (maxCount maxEntryBytes : Z) (start : nat) (values : list string)
    : result (list string) :=
  match fuel with
  | O => inl values
  | S fuel =>
      if (String.length value <? start)%nat then inl values
      else
        let end_ := match index_byte (chr 44) (str_drop start value) with
                    | None => String.length value
                    | Some e => (e + start)%nat
                    end in
        let part := trim_space (str_take (end_ - start) (str_drop start value)) in
        let continue values := if (end_ =? String.length value)%nat then inl values
                               else splitList_loop fuel value variable maxCount maxEntryBytes (end_ + 1) values in
        if String.eqb part "" then continue values
        else if len values =? maxCount then inr (variable +:+ " may contain at most " +:+ itoa maxCount +:+ " entries")
        else if maxEntryBytes <? slen part then inr (variable +:+ " entries may be at most " +:+ itoa maxEntryBytes +:+ " bytes")
        else continue (values ++ [part])
  end.
Definition splitList (value variable : string) (maxCount maxEntryBytes maxInputBytes : Z) : result (list string) :=
  if maxInputBytes <? slen value then inr (variable +:+ " exceeds the token-list size limit")
  else splitList_loop (S (S (String.length value))) value variable maxCount maxEntryBytes 0 [].

(** [parseEnvHoneytokens]: the pairs of one entry, then the entries. *)
Definition maxEnvBytes : Z := 64 * 2 ^ 10.
Fixpoint parse_pairs (index : Z) (pairs : list string) (fields : strmap) : result strmap :=
  match pairs with
  | [] => inl fields
  | pair_ :: pairs =>
      let malformed := "HELIX_K8S_HONEYTOKENS entry " +:+ itoa index +:+ " contains a malformed key=value pair" in
      match cut pair_ "=" with
      | None => inr malformed
      | Some (key, fieldValue) =>
          let key := trim_space key in
          if String.eqb key "" then inr malformed
          else match oget fields key with
               | Some _ => inr ("HELIX_K8S_HONEYTOKENS entry " +:+ itoa index +:+ " repeats a data key")
               | None => parse_pairs index pairs (oset fields key fieldValue)
               end
      end
  end.
Definition parse_entry (index : Z) (entry : string) : result K8SHoneytoken :=
  match cut entry ":" with
  | None => inr ("HELIX_K8S_HONEYTOKENS entry " +:+ itoa index +:+ " lacks a 'name:key=value' separator")
  | Some (head, data) =>
      let '(name, namespace) := match cut (trim_space head) "@" with
                                | Some (a, b) => (a, b)
                                | None => (trim_space head, "")
                                end in
      try! fields := parse_pairs index (split (chr 44) data) [] in
      inl {| ht_Name := name; ht_Namespace := namespace; ht_Type := ""; ht_Data := fields |}
  end.
Fixpoint parse_entries (entries : list string) (tokens : list K8SHoneytoken) : result (list K8SHoneytoken) :=
  match entries with
  | [] => inl tokens
  | entry :: entries =>
      let entry := trim_space entry in
      if String.eqb entry "" then parse_entries entries tokens
      else if maxHoneytokenCount <=? len tokens
      then inr ("HELIX_K8S_HONEYTOKENS may contain at most " +:+ itoa maxHoneytokenCount +:+ " entries")
      else try! token := parse_entry (len tokens + 1) entry in parse_entries entries (tokens ++ [token])
  end.
Definition parseEnvHoneytokens (value : string) : result (list K8SHoneytoken) :=
  if maxEnvBytes <? slen value then inr ("HELIX_K8S_HONEYTOKENS exceeds the " +:+ itoa maxEnvBytes +:+ "-byte limit")
  else
    try! tokens := parse_entries (split (chr 59) value) [] in
    if len tokens =? 0 then inr "HELIX_K8S_HONEYTOKENS contains no entries" else inl tokens.

(** ** Headers of sinks *)
Definition header_char (c : ascii) : bool :=
  isLowerAlphaNumeric (code c) || is_upper c || any_byte (Ascii.eqb c) "!#$%&'*+-.^_`|~".
Definition validSinkHeaderName (value : string) : bool := negb (String.eqb value "") && all_bytes header_char value.
Definition check_header (h : string * string) : err :=
  require (validSinkHeaderName h.1 && (slen h.1 <=? maxSinkHeaderNameBytes)) "sink headers contain an invalid name" &>
  require ((slen h.2 <=? maxSinkHeaderValueBytes) && negb (contains_any h.2 (String (chr 13) (str1 (chr 10)))))
    ("sink headers contain an invalid value for " +:+ go_quote h.1).
Definition validateSinkHeaders (headers : strmap) : err :=
  require (len headers <=? maxSinkHeaders) ("sink headers may contain at most " +:+ itoa maxSinkHeaders +:+ " entries") &>
  each (fun _ => check_header) 1 (range_entries 32 headers).
Fixpoint parse_headers (variable : string) (entries : list string) (headers : strmap) : result strmap :=
  match entries with
  | [] => inl headers
  | entry :: entries =>
      let entry := trim_space entry in
      if String.eqb entry "" then parse_headers variable entries headers
      else if maxSinkHeaders <=? len headers
      then inr (variable +:+ " may contain at most " +:+ itoa maxSinkHeaders +:+ " headers")
      else match cut entry ":" with
           | None => inr (variable +:+ " contains a malformed 'Name:Value' entry")
           | Some (name, headerValue) =>
               let name := trim_space name in
               if String.eqb name "" then inr (variable +:+ " contains a malformed 'Name:Value' entry")
               else parse_headers variable entries (oset headers name (trim_space headerValue))
           end
  end.
Definition parseEnvHeaders (value variable : string) : result strmap :=
  if maxEnvBytes <? slen value then inr (variable +:+ " exceeds the " +:+ itoa maxEnvBytes +:+ "-byte limit")
  else
    try! headers := parse_headers variable (split (chr 59) value) [] in
    match validateSinkHeaders headers with
    | Some e => inr (variable +:+ ": " +:+ e)
    | None => inl headers
    end.

(** ** The overlay *)
Definition env_sink (keys : list string) (build : string -> LogSinkConfig) : list LogSinkConfig :=
  match firstSetEnv keys with Some anchor => [build anchor] | None => [] end.
Definition splunk_sink (url : string) : LogSinkConfig :=
  {| ls_Type := "splunk"; ls_URL := url; ls_Path := ""; ls_Index := firstEnv ["HELIX_SPLUNK_INDEX"];
     ls_Source := firstEnv ["HELIX_SPLUNK_SOURCE"]; ls_Sourcetype := firstEnv ["HELIX_SPLUNK_SOURCETYPE"];
     ls_Token := firstEnv ["HELIX_SPLUNK_TOKEN"]; ls_Username := ""; ls_Password := ""; ls_Headers := [] |}.
Definition elasticsearch_sink (url : string) : LogSinkConfig :=
  {| ls_Type := "elasticsearch"; ls_URL := url; ls_Path := ""; ls_Index := firstEnv ["HELIX_ELASTICSEARCH_INDEX"];
     ls_Source := ""; ls_Sourcetype := ""; ls_Token := firstEnv ["HELIX_ELASTICSEARCH_TOKEN"];
     ls_Username := firstEnv ["HELIX_ELASTICSEARCH_USERNAME"]; ls_Password := firstEnv ["HELIX_ELASTICSEARCH_PASSWORD"]; ls_Headers := [] |}.
Definition http_sink (url : string) (headers : strmap) : LogSinkConfig :=
  {| ls_Type := "http"; ls_URL := url; ls_Path := ""; ls_Index := ""; ls_Source := ""; ls_Sourcetype := "";
     ls_Token := firstEnv ["HELIX_HTTP_SINK_TOKEN"]; ls_Username := ""; ls_Password := ""; ls_Headers := headers |}.
Definition file_sink (path : string) : LogSinkConfig :=
  {| ls_Type := "file"; ls_URL := ""; ls_Path := path; ls_Index := ""; ls_Source := ""; ls_Sourcetype := "";
     ls_Token := ""; ls_Username := ""; ls_Password := ""; ls_Headers := [] |}.
(** [applyEnvSinks]: the sinks it appends. *)
Definition applyEnvSinks (sinks : list LogSinkConfig) : result (list LogSinkConfig) :=
  let sinks := sinks ++ env_sink ["HELIX_LOG_FILE"] file_sink in
  let sinks := sinks ++ env_sink ["HELIX_SPLUNK_URL"] splunk_sink in
  let sinks := sinks ++ env_sink ["HELIX_ELASTICSEARCH_URL"; "HELIX_ELK_URL"] elasticsearch_sink in
  match firstSetEnv ["HELIX_HTTP_SINK_URL"] with
  | None => inl sinks
  | Some url =>
      try! headers := override [] ["HELIX_HTTP_SINK_HEADERS"] (fun value => parseEnvHeaders value "HELIX_HTTP_SINK_HEADERS") in
      inl (sinks ++ [http_sink url headers])
  end.

Definition overlay_runmode (r : RunModeConfig) : RunModeConfig :=
  {| rm_RunMode := setString (rm_RunMode r) ["HELIX_RUN_MODE"; "RUN_MODE"] |}.
Definition overlay_kubelet (k : KubeletConfig) (tls : option bool) : KubeletConfig :=
  {| kl_Host := setString (kl_Host k) ["HELIX_KUBELET_HOST"]; kl_Port := setString (kl_Port k) ["HELIX_KUBELET_PORT"];
     kl_NodeName := setString (kl_NodeName k) ["HELIX_KUBELET_NODE_NAME"]; kl_TLSEnabled := tls;
     kl_TLSCertFile := setString (kl_TLSCertFile k) ["HELIX_KUBELET_TLS_CERT_FILE"];
     kl_TLSKeyFile := setString (kl_TLSKeyFile k) ["HELIX_KUBELET_TLS_KEY_FILE"] |}.
Definition env_list (name : string) (maxCount maxEntryBytes maxInputBytes : Z) (value : string) : result (list string) :=
  splitList value name maxCount maxEntryBytes maxInputBytes.
(** [applyEnvironment]; a later check is not reached once one has failed. *)
Definition applyEnvironment (c : Config) : result Config :=
  let k := c_K8S c in
  let lg := c_Logging c in
  try! schemaOffline := override (k_SchemaOffline k) ["HELIX_K8S_SCHEMA_OFFLINE"]
    (fun v => env_bool "HELIX_K8S_SCHEMA_OFFLINE" (trim_space v)) in
  try! tlsEnabled := override (k_TLSEnabled k) ["HELIX_K8S_TLS_ENABLED"] (fun v => env_bool "HELIX_K8S_TLS_ENABLED" (trim_space v)) in
  try! kubeletTLS := override (kl_TLSEnabled (c_Kubelet c)) ["HELIX_KUBELET_TLS_ENABLED"]
    (fun v => try! b := env_bool "HELIX_KUBELET_TLS_ENABLED" (trim_space v) in inl (Some b)) in
  try! generateKubeSys := override (k_GenerateKubeSys k) ["HELIX_K8S_GENERATE_KUBE_SYSTEM"; "GENERATE_KUBE_SYSTEM"]
    (env_bool "HELIX_K8S_GENERATE_KUBE_SYSTEM") in
  try! generateRand := override (k_GenerateRand k) ["HELIX_K8S_GENERATE_RANDOMNESS"; "GENERATE_RANDOMNESS"]
    (env_bool "HELIX_K8S_GENERATE_RANDOMNESS") in
  try! tokenValues := override (k_TokenValues k) ["HELIX_K8S_TOKEN_VALUES"]
    (env_list "HELIX_K8S_TOKEN_VALUES" maxTokenCount maxTokenBytes (maxTokenTotal + maxTokenCount - 1)) in
  try! tokenNames := override (k_TokenNames k) ["HELIX_K8S_TOKEN_NAMES"]
    (env_list "HELIX_K8S_TOKEN_NAMES" maxTokenCount maxTokenBytes (maxTokenTotal + maxTokenCount - 1)) in
  try! namespaces := override (k_Namespaces k) ["HELIX_K8S_NAMESPACES"]
    (env_list "HELIX_K8S_NAMESPACES" maxNamespaceCount maxNamespaceBytes (maxNamespaceCount * (maxNamespaceBytes + 1))) in
  try! honeytokens := override (k_Honeytokens k) ["HELIX_K8S_HONEYTOKENS"]
    (fun v => try! honeytokens := parseEnvHoneytokens v in inl (k_Honeytokens k ++ honeytokens)) in
  try! includeUserAgent := override (lg_IncludeUserAgent lg) ["HELIX_LOG_INCLUDE_USER_AGENT"] (env_bool "HELIX_LOG_INCLUDE_USER_AGENT") in
  try! cidrs := override (lg_TrustedProxyCIDRs lg) ["HELIX_LOG_TRUSTED_PROXY_CIDRS"]
    (env_list "HELIX_LOG_TRUSTED_PROXY_CIDRS" maxTrustedProxyCIDRs maxTrustedProxyCIDRBytes (maxTrustedProxyCIDRs * (maxTrustedProxyCIDRBytes + 1))) in
  try! sinks := applyEnvSinks (lg_Sinks lg) in
  inl {|
    c_AI := {| ai_Host := setString (ai_Host (c_AI c)) ["HELIX_AI_HOST"]; ai_Port := setString (ai_Port (c_AI c)) ["HELIX_AI_PORT"];
               ai_Token := setString (ai_Token (c_AI c)) ["HELIX_AI_TOKEN"] |};
    c_Docker := {| docker_Host := setString (docker_Host (c_Docker c)) ["HELIX_DOCKER_HOST"];
                   docker_Port := setString (docker_Port (c_Docker c)) ["HELIX_DOCKER_PORT"] |};
    c_HTTP := {| http_Host := setString (http_Host (c_HTTP c)) ["HELIX_HTTP_HOST"]; http_Port := setString (http_Port (c_HTTP c)) ["HELIX_HTTP_PORT"] |};
    c_UDP := {| udp_Host := setString (udp_Host (c_UDP c)) ["HELIX_UDP_HOST"]; udp_Port := setString (udp_Port (c_UDP c)) ["HELIX_UDP_PORT"] |};
    c_TCP := {| tcp_Host := setString (tcp_Host (c_TCP c)) ["HELIX_TCP_HOST"]; tcp_Port := setString (tcp_Port (c_TCP c)) ["HELIX_TCP_PORT"] |};
    c_Kubelet := overlay_kubelet (c_Kubelet c) kubeletTLS;
    c_K8S := {| k_APIVersion := setString (k_APIVersion k) ["HELIX_K8S_API_VERSION"; "K8SAPI_VERSION"]; k_SchemaOffline := schemaOffline;
                k_IPBase := setString (k_IPBase k) ["HELIX_K8S_IP_BASE"; "IP_BASE"];
                k_GenerateKubeSys := generateKubeSys; k_GenerateRand := generateRand;
                k_Host := setString (k_Host k) ["HELIX_K8S_HOST"; "K8S_HOST"]; k_Port := setString (k_Port k) ["HELIX_K8S_PORT"; "K8S_PORT"];
                k_TLSEnabled := tlsEnabled; k_TLSCertFile := setString (k_TLSCertFile k) ["HELIX_K8S_TLS_CERT_FILE"];
                k_TLSKeyFile := setString (k_TLSKeyFile k) ["HELIX_K8S_TLS_KEY_FILE"];
                k_Namespaces := namespaces; k_Honeytokens := honeytokens; k_TokenValues := tokenValues; k_TokenNames := tokenNames |};
    c_RunMode := overlay_runmode (c_RunMode c);
    c_Logging := {| lg_Format := setString (lg_Format lg) ["HELIX_LOG_FORMAT"]; lg_IncludeUserAgent := includeUserAgent;
                    lg_TrustedProxyCIDRs := cidrs; lg_Sinks := sinks |} |}.
End environment.

(** ** Normalisation *)
Section normalize.
Context `{UnicodeTables}.
Definition normalize_honeytoken (h : K8SHoneytoken) : K8SHoneytoken :=
  {| ht_Name := ht_Name h; ht_Namespace := trim_space (ht_Namespace h);
     ht_Type := if String.eqb (trim_space (ht_Type h)) "" then "Opaque" else trim_space (ht_Type h); ht_Data := ht_Data h |}.
Definition normalize_sink (s : LogSinkConfig) : LogSinkConfig :=
  {| ls_Type := to_lower (trim_space (ls_Type s)); ls_URL := trim_space (ls_URL s); ls_Path := ls_Path s;
     ls_Index := trim_space (ls_Index s); ls_Source := ls_Source s; ls_Sourcetype := ls_Sourcetype s; ls_Token := ls_Token s;
     ls_Username := ls_Username s; ls_Password := ls_Password s; ls_Headers := ls_Headers s |}.
Definition normalize (c : Config) : Config :=
  let k := c_K8S c in
  let version := trim_space (k_APIVersion k) in
  let format := to_lower (trim_space (lg_Format (c_Logging c))) in
  {| c_AI := c_AI c; c_Docker := c_Docker c; c_HTTP := c_HTTP c; c_UDP := c_UDP c; c_TCP := c_TCP c;
     c_Kubelet := {| kl_Host := kl_Host (c_Kubelet c); kl_Port := kl_Port (c_Kubelet c); kl_NodeName := trim_space (kl_NodeName (c_Kubelet c));
                     kl_TLSEnabled := kl_TLSEnabled (c_Kubelet c); kl_TLSCertFile := kl_TLSCertFile (c_Kubelet c);
                     kl_TLSKeyFile := kl_TLSKeyFile (c_Kubelet c) |};
     c_K8S := {| k_APIVersion := if has_prefix version "1." then "v" +:+ version else version; k_SchemaOffline := k_SchemaOffline k;
                 k_IPBase := trim_space (k_IPBase k); k_GenerateKubeSys := k_GenerateKubeSys k; k_GenerateRand := k_GenerateRand k;
                 k_Host := k_Host k; k_Port := k_Port k; k_TLSEnabled := k_TLSEnabled k; k_TLSCertFile := k_TLSCertFile k;
                 k_TLSKeyFile := k_TLSKeyFile k; k_Namespaces := k_Namespaces k;
                 k_Honeytokens := map normalize_honeytoken (k_Honeytokens k); k_TokenValues := k_TokenValues k; k_TokenNames := k_TokenNames k |};
     c_RunMode := {| rm_RunMode := to_lower (trim_space (rm_RunMode (c_RunMode c))) |};
     c_Logging := {| lg_Format := if String.eqb format "" then "json" else format; lg_IncludeUserAgent := lg_IncludeUserAgent (c_Logging c);
                     lg_TrustedProxyCIDRs := lg_TrustedProxyCIDRs (c_Logging c); lg_Sinks := map normalize_sink (lg_Sinks (c_Logging c)) |} |}.
End normalize.

(** ** Validation

    [url.Parse] is an interface: the validators look at these parts of its
    result and rely on nothing else. *)
Record URL := { url_Scheme : string; url_Host : string; url_Path : string; url_Fragment : string; url_User : bool }.
Class UrlPackage := { url_Parse : string -> option URL; url_String : URL -> string }.

Definition validateHost (host : string) : err :=
  match net_ParseIP host with
  | None => Some "must be an IPv4 or IPv6 literal (hostnames are not resolved)"
  | Some _ => None
  end.
Definition validatePort (port : string) : err :=
  let bad := Some "must be a decimal port from 1 through 65535" in
  match atoi port with
  | Some n => if (n <? 1) || (65535 <? n) || negb (String.eqb (itoa n) port) then bad else None
  | None => bad
  end.

Definition validateTokens (cfg : K8SConfig) : err :=
  require (len (k_TokenValues cfg) <=? maxTokenCount) ("Kubernetes token_values may contain at most " +:+ itoa maxTokenCount +:+ " entries") &>
  require (len (k_TokenNames cfg) <=? maxTokenCount) ("Kubernetes token_names may contain at most " +:+ itoa maxTokenCount +:+ " entries") &>
  each (fun i value =>
    require (negb (String.eqb (trim_space value) "")) ("Kubernetes token_values entry " +:+ itoa i +:+ " must not be empty") &>
    require (slen value <=? maxTokenBytes)
      ("Kubernetes token_values entry " +:+ itoa i +:+ " exceeds the " +:+ itoa maxTokenBytes +:+ "-byte limit")) 1 (k_TokenValues cfg) &>
  each (fun i name => require (validTokenName name)
    ("invalid Kubernetes token_names entry " +:+ itoa i +:+ ": expected a lowercase DNS subdomain name")) 1 (k_TokenNames cfg) &>
  require (total_bytes (k_TokenValues cfg) + total_bytes (k_TokenNames cfg) <=? maxTokenTotal)
    ("Kubernetes token_names and token_values exceed the " +:+ itoa maxTokenTotal +:+ "-byte aggregate limit").

(** Loops that refuse an entry they have seen: [seen] is the Go set. *)
Fixpoint namespaces_loop (i : Z) (l seen : list string) : err :=
  match l with
  | [] => None
  | namespace :: l =>
      require (validDNSLabel namespace) ("invalid Kubernetes namespaces entry " +:+ itoa i +:+ ": expected a lowercase DNS label") &>
      require (negb (bool_decide (namespace ∈ seen))) ("duplicate Kubernetes namespaces entry " +:+ itoa i) &>
      namespaces_loop (i + 1) l (namespace :: seen)
  end.
Definition validateNamespaces (namespaces : list string) : err :=
  require (len namespaces <=? maxNamespaceCount) ("Kubernetes namespaces may contain at most " +:+ itoa maxNamespaceCount +:+ " entries") &>
  namespaces_loop 1 namespaces [].

Definition effective_namespace (h : K8SHoneytoken) : string :=
  if String.eqb (ht_Namespace h) "" then "default" else ht_Namespace h.
Definition secretID (h : K8SHoneytoken) : string := effective_namespace h +:+ str1 (chr 0) +:+ ht_Name h.
Definition ht_entry (i : Z) (text : string) : string := "Kubernetes honeytokens entry " +:+ itoa i +:+ text.
Section validate.
Context `{UnicodeTables} `{RangeOrder} `{UrlPackage}.

Definition check_data (i : Z) (kv : string * string) : err :=
  require (config_validSecretDataKey kv.1) (ht_entry i " contains an invalid data key") &>
  require (slen kv.2 <=? maxHoneytokenValueBytes) (ht_entry i (" data values may be at most " +:+ itoa maxHoneytokenValueBytes +:+ " bytes")).
Definition check_honeytoken (allowed : list string) (i : Z) (h : K8SHoneytoken) (seen : list string) : err :=
  require (validTokenName (ht_Name h)) ("invalid " +:+ ht_entry i " name: expected a lowercase DNS subdomain") &>
  require (validDNSLabel (effective_namespace h)) ("invalid " +:+ ht_entry i " namespace: expected a lowercase DNS label") &>
  require (bool_decide (effective_namespace h ∈ allowed))
    (ht_entry i " uses a namespace that is neither built in nor configured in k8s.namespaces") &>
  require (negb (bool_decide (secretID h ∈ seen))) ("duplicate " +:+ ht_entry i " name and namespace") &>
  require (validHoneytokenType (ht_Type h)) ("invalid " +:+ ht_entry i " type") &>
  require (negb (len (ht_Data h) =? 0)) (ht_entry i " must include at least one data entry") &>
  require (len (ht_Data h) <=? maxHoneytokenDataEntries) (ht_entry i (" may contain at most " +:+ itoa maxHoneytokenDataEntries +:+ " data entries")) &>
  each (fun _ => check_data i) 1 (range_entries 33 (ht_Data h)).
Fixpoint honeytokens_loop (allowed : list string) (i : Z) (l : list K8SHoneytoken) (seen : list string) : err :=
  match l with
  | [] => None
  | h :: l => check_honeytoken allowed i h seen &> honeytokens_loop allowed (i + 1) l (secretID h :: seen)
  end.
Definition data_entries (l : list K8SHoneytoken) : Z := sum_Z (map (fun h => len (ht_Data h)) l).
Definition secret_bytes (cfg : K8SConfig) : Z :=
  total_bytes (k_TokenValues cfg) + sum_Z (map (fun h => total_bytes (ht_Data h).*2) (k_Honeytokens cfg)).
Definition validateHoneytokens (cfg : K8SConfig) : err :=
  require (len (k_Honeytokens cfg) <=? maxHoneytokenCount) ("Kubernetes honeytokens may contain at most " +:+ itoa maxHoneytokenCount +:+ " entries") &>
  honeytokens_loop (["default"; "kube-system"; "kube-public"; "kube-node-lease"] ++ k_Namespaces cfg) 1 (k_Honeytokens cfg) [] &>
  require (data_entries (k_Honeytokens cfg) <=? maxTotalHoneytokenDataEntries)
    ("Kubernetes honeytokens may contain at most " +:+ itoa maxTotalHoneytokenDataEntries +:+ " data entries in total") &>
  require (secret_bytes cfg <=? maxSecretPayloadBytes)
    ("Kubernetes token and honeytoken data exceeds the " +:+ itoa maxSecretPayloadBytes +:+ "-byte aggregate payload limit").

Definition validateKubernetesProfile (cfg : K8SConfig) : err :=
  let version := trim_prefix (k_APIVersion cfg) "v1." in
  let bad := Some ("invalid Kubernetes profile " +:+ go_quote (k_APIVersion cfg) +:+ ": supported simulated profiles are v1.19 through v1.37") in
  (if negb (has_prefix (k_APIVersion cfg) "v1.") then bad
   else match atoi version with
        | None => bad
        | Some minor => if (minor <? 19) || (37 <? minor) || negb (String.eqb (itoa minor) version) then bad else None
        end) &>
  require (match net_ParseIP (k_IPBase cfg) with
           | Some ip => bool_decide (is_Some (To4 ip)) && IsPrivate ip
           | None => false
           end) ("invalid Kubernetes pod network base " +:+ go_quote (k_IPBase cfg) +:+ ": use an RFC 1918 IPv4 address").

Definition cidr_entry (i : Z) : string := "logging trusted_proxy_cidrs entry " +:+ itoa i.
Fixpoint cidrs_loop (i : Z) (l seen : list string) : err :=
  match l with
  | [] => None
  | cidr :: l =>
      require (slen cidr <=? maxTrustedProxyCIDRBytes) (cidr_entry i +:+ " exceeds the " +:+ itoa maxTrustedProxyCIDRBytes +:+ "-byte limit") &>
      require (bool_decide (is_Some (net_ParseCIDR cidr))) ("invalid " +:+ cidr_entry i +:+ ": expected a CIDR") &>
      require (negb (bool_decide (cidr ∈ seen))) ("duplicate " +:+ cidr_entry i) &>
      cidrs_loop (i + 1) l (cidr :: seen)
  end.
Definition validateLogging (cfg : LoggingConfig) : err :=
  require (String.eqb (lg_Format cfg) "json" || String.eqb (lg_Format cfg) "text") "logging format must be json or text" &>
  require (len (lg_TrustedProxyCIDRs cfg) <=? maxTrustedProxyCIDRs)
    ("logging trusted_proxy_cidrs may contain at most " +:+ itoa maxTrustedProxyCIDRs +:+ " entries") &>
  cidrs_loop 1 (lg_TrustedProxyCIDRs cfg) [].

Definition validateSinkURL (raw : string) : err :=
  if String.eqb raw "" || (maxSinkURLBytes <? slen raw)
  then Some ("sink url is required and may be at most " +:+ itoa maxSinkURLBytes +:+ " bytes")
  else match url_Parse raw with
  | None => Some "sink url must be an absolute URL"
  | Some parsed =>
      require (negb (String.eqb (url_Host parsed) "")) "sink url must be an absolute URL" &>
      require (String.eqb (url_Scheme parsed) "http" || String.eqb (url_Scheme parsed) "https") "sink url scheme must be http or https" &>
      require (negb (url_User parsed)) "sink url must not embed credentials: use token, username, or password fields" &>
      require (String.eqb (url_Fragment parsed) "") "sink url must not contain a fragment"
  end.
Definition validSinkIndex (value : string) : bool :=
  if (slen value =? 0) || (maxSinkIndexBytes <? slen value) || negb (String.eqb (to_lower value) value) then false
  else if contains_any value ("\/ *?" +:+ quote +:+ "<>|,#:") then false
  else negb (String.eqb value "." || String.eqb value ".." ||
             bool_decide (str_head value ∈ [Some (chr 45); Some (chr 95); Some (chr 43); Some (chr 46)])).
Definition check_sink (i : Z) (s : LogSinkConfig) : err :=
  let entry text := "invalid logging sinks entry " +:+ itoa i +:+ ": " +:+ text in
  let wrap (e : err) : err := match e with Some e => Some (entry e) | None => None end in
  require ((slen (ls_Token s) <=? maxSinkCredentialBytes) && (slen (ls_Password s) <=? maxSinkCredentialBytes))
    (entry ("credentials exceed the " +:+ itoa maxSinkCredentialBytes +:+ "-byte limit")) &>
  require ((slen (ls_Username s) <=? maxSinkFieldBytes) && (slen (ls_Source s) <=? maxSinkFieldBytes) && (slen (ls_Sourcetype s) <=? maxSinkFieldBytes))
    (entry ("fields exceed the " +:+ itoa maxSinkFieldBytes +:+ "-byte limit")) &>
  wrap (validateSinkHeaders (ls_Headers s)) &>
  (if String.eqb (ls_Type s) "file" then
     require (negb (String.eqb (ls_Path s) "") && (slen (ls_Path s) <=? maxSinkPathBytes) && negb (has_byte (chr 0) (ls_Path s)))
       (entry ("file sinks require a path of at most " +:+ itoa maxSinkPathBytes +:+ " bytes"))
   else if bool_decide (ls_Type s ∈ ["splunk"; "elasticsearch"; "elk"; "http"]) then wrap (validateSinkURL (ls_URL s))
   else Some (entry ("unknown type " +:+ go_quote (ls_Type s) +:+ ": choose file, splunk, elasticsearch, or http"))) &>
  require (negb ((String.eqb (ls_Type s) "elasticsearch" || String.eqb (ls_Type s) "elk") && negb (validSinkIndex (ls_Index s))))
    (entry "elasticsearch sinks require a valid index name").
Definition validateSinks (sinks : list LogSinkConfig) : err :=
  require (len sinks <=? maxSinkCount) ("logging sinks may contain at most " +:+ itoa maxSinkCount +:+ " entries") &>
  each check_sink 1 sinks.

(** The listener a run mode selects. *)
Definition run_mode_address (c : Config) : option (string * string) :=
  let mode := rm_RunMode (c_RunMode c) in
  if String.eqb mode "ai" then Some (ai_Host (c_AI c), ai_Port (c_AI c))
  else if String.eqb mode "docker" then Some (docker_Host (c_Docker c), docker_Port (c_Docker c))
  else if String.eqb mode "k8s" then Some (k_Host (c_K8S c), k_Port (c_K8S c))
  else if String.eqb mode "http" then Some (http_Host (c_HTTP c), http_Port (c_HTTP c))
  else if String.eqb mode "tcp" then Some (tcp_Host (c_TCP c), tcp_Port (c_TCP c))
  else if String.eqb mode "udp" then Some (udp_Host (c_UDP c), udp_Port (c_UDP c))
  else if String.eqb mode "kubelet" then Some (kl_Host (c_Kubelet c), kl_Port (c_Kubelet c))
  else None.
Definition Validate (cfg : option Config) : err :=
  match cfg with
  | None => Some "configuration is nil"
  | Some c =>
      let mode := rm_RunMode (c_RunMode c) in
      match run_mode_address c with
      | None => Some ("unknown run mode " +:+ go_quote mode +:+ ": choose k8s, http, tcp, udp, kubelet, docker, or ai")
      | Some (host, port) =>
          require (negb (String.eqb mode "ai") || (slen (ai_Token (c_AI c)) <=? 256)) "AI token exceeds the 256-byte limit" &>
          require (negb (String.eqb mode "kubelet") || validTokenName (kl_NodeName (c_Kubelet c)))
            "invalid kubelet node_name: expected a lowercase DNS subdomain" &>
          (if String.eqb mode "k8s" then
             validateKubernetesProfile (c_K8S c) &> validateTokens (c_K8S c) &>
             validateNamespaces (k_Namespaces (c_K8S c)) &> validateHoneytokens (c_K8S c)
           else None) &>
          validateLogging (c_Logging c) &>
          validateSinks (lg_Sinks (c_Logging c)) &>
          match validateHost host with Some e => Some ("invalid " +:+ mode +:+ " bind host: " +:+ e) | None => None end &>
          match validatePort port with Some e => Some ("invalid " +:+ mode +:+ " bind port: " +:+ e) | None => None end
      end
  end.

(** ** Loading

    What opening and reading the file gives; the text is cut at one byte more
    than the limit, as [io.LimitReader] does. *)
Inductive config_file :=
  | file_missing | file_unreadable (e : string) | file_read_error (e : string) | file_close_error (e : string) | file_text (text : string).
Definition NewConfig (LookupEnv : string -> option string) (toml_Decode : string -> Config -> option Config)
    (open : string -> config_file) (configFile : string) : result Config :=
  let configFile := if String.eqb configFile "" then firstEnv LookupEnv ["HELIX_CONFIG"] else configFile in
  let configFile := if String.eqb configFile "" then "config.toml" else configFile in
  let name := go_quote configFile in
  try! cfg := match open configFile with
    | file_missing => inl Defaults
    | file_unreadable e => inr ("read config file " +:+ name +:+ ": " +:+ e)
    | file_read_error e => inr ("read config file " +:+ name +:+ ": " +:+ e)
    | file_close_error e => inr ("close config file " +:+ name +:+ ": " +:+ e)
    | file_text text =>
        let data := str_take (Z.to_nat (maxConfigBytes + 1)) text in
        if maxConfigBytes <? slen data then inr ("config file " +:+ name +:+ " exceeds the " +:+ itoa maxConfigBytes +:+ "-byte limit")
        else match toml_Decode data Defaults with
             | None => inr ("decode config file " +:+ name +:+ ": invalid TOML configuration")
             | Some cfg => inl cfg
             end
    end in
  try! cfg := applyEnvironment LookupEnv cfg in
  let cfg := normalize cfg in
  match Validate (Some cfg) with Some e => inr e | None => inl cfg end.
End validate.
