(* ===== verification/ConfigEnv.v ===== *)
(** * Values of environment variables

    The comma-separated lists and the honeytoken entries: the parsers of
    config.go against their reference definitions. *)
From S2P Require Import Prelude GoStrings Value Names Netip ConfigModel Config.

#[local] Set Warnings "-clear-no-such-hyp,-notation-for-abbreviation".
#[local] Open Scope string_scope.
#[local] Open Scope list_scope.
#[local] Open Scope Z_scope.

(** ** Splitting at the first separator *)
Lemma index_byte_cons c a s : index_byte c (String a s) = if Ascii.eqb a c then Some O else S <$> index_byte c s.
Proof. unfold index_byte. cbn [index]. rewrite has_prefix_single. by destruct (Ascii.eqb a c). Qed.
Lemma split_index c s : split c s =
  match index_byte c s with
  | None => [s]
  | Some e => str_take e s :: split c (str_drop (S e) s)
  end.
Proof.
  induction s as [|a s IH]; [done|]. rewrite index_byte_cons. cbn [split]. destruct (Ascii.eqb a c); [done|].
  destruct (index_byte c s) as [e|]; cbn [fmap option_fmap option_map]; rewrite IH; done.
Qed.
Lemma index_byte_lt c s e : index_byte c s = Some e -> (e < String.length s)%nat.
Proof.
  revert e. induction s as [|a s IH]; intros e; [done|]. rewrite index_byte_cons. destruct (Ascii.eqb a c); [intros [= <-]; cbn; lia|].
  destruct (index_byte c s) as [e'|]; [|done]. cbn. intros [= <-]. specialize (IH e' eq_refl). lia.
Qed.

(** ** Lists *)
Definition list_parts (value : string) : list string :=
  List.filter (fun p => negb (String.eqb p "")) (map trim_space (split (chr 44) value)).
(** The reference: the parts, checked one after another. *)
Fixpoint take_parts (variable : string) (maxCount maxEntryBytes : Z) (parts values : list string) : result (list string) :=
  match parts with
  | [] => inl values
  | p :: parts =>
      if len values =? maxCount then inr (variable +:+ " may contain at most " +:+ itoa maxCount +:+ " entries")
      else if maxEntryBytes <? slen p then inr (variable +:+ " entries may be at most " +:+ itoa maxEntryBytes +:+ " bytes")
      else take_parts variable maxCount maxEntryBytes parts (values ++ [p])
  end.
Lemma splitList_loop_parts fuel value variable mc me start values :
  (start <= String.length value)%nat -> (String.length value - start < fuel)%nat ->
  splitList_loop fuel value variable mc me start values =
    take_parts variable mc me (list_parts (str_drop start value)) values.
Proof.
  revert start values. induction fuel as [|fuel IH]; intros start values Hs Hf; [lia|]. cbn [splitList_loop].
  rewrite (proj2 (Nat.ltb_ge _ _)) by done. cbv zeta. unfold list_parts. rewrite (split_index (chr 44) (str_drop start value)).
  destruct (index_byte (chr 44) (str_drop start value)) as [e|] eqn:Ei.
  - pose proof (index_byte_lt _ _ _ Ei) as He. rewrite str_drop_length in He. replace (e + start - start)%nat with e by lia.
    rewrite (proj2 (Nat.eqb_neq (e + start) _)) by lia. rewrite str_drop_drop. replace (start + S e)%nat with (e + start + 1)%nat by lia.
    cbn [map List.filter]. set (part := trim_space (str_take e (str_drop start value))).
    destruct (String.eqb part "") eqn:Ep; cbn [negb].
    + rewrite IH by lia. done.
    + cbn [take_parts]. destruct (len values =? mc); [done|]. destruct (me <? slen part); [done|]. rewrite IH by lia. done.
  - rewrite Nat.eqb_refl. rewrite str_take_all by (rewrite str_drop_length; lia). cbn [map List.filter].
    set (part := trim_space (str_drop start value)). destruct (String.eqb part "") eqn:Ep; [done|]. cbn [negb take_parts].
    destruct (len values =? mc); [done|]. by destruct (me <? slen part).
Qed.
Lemma take_parts_ok variable mc me parts values l : len values <= mc ->
  take_parts variable mc me parts values = inl l <->
  l = values ++ parts /\ len l <= mc /\ Forall (fun p => slen p <= me) parts.
Proof.
  revert values. unfold len. induction parts as [|p parts IH]; intros values Hv; cbn [take_parts].
  - rewrite app_nil_r, Forall_nil. split; [by intros [= <-]|by intros (-> & _ & _)].
  - rewrite Forall_cons. unfold len. destruct (_ =? mc) eqn:Ec.
    + split; [done|]. intros (-> & Hl & _). bool_to_prop. rewrite length_app in Hl. cbn in Hl. lia.
    + destruct (me <? slen p) eqn:Ee; [split; [done|]; intros (_ & _ & Hp & _); bool_to_prop; lia|]. bool_to_prop.
      rewrite IH by (rewrite length_app; cbn; lia). rewrite <- app_assoc. cbn [app]. naive_solver.
Qed.

(** [splitList] succeeds exactly when the value is within its size limit
    and has no more than [maxCount] entries, none longer than [maxEntryBytes], and
    then its result is the list of the trimmed parts between the commas that
    are not blank, in order; the cursor reaches the end on every input. *)
Theorem splitList_exact : forall value variable maxCount maxEntryBytes maxInputBytes l, 0 <= maxCount ->
  splitList value variable maxCount maxEntryBytes maxInputBytes = inl l <->
  slen value <= maxInputBytes /\ l = list_parts value /\ len l <= maxCount /\ Forall (fun p => slen p <= maxEntryBytes) l.
Proof.
  intros value variable mc me mi l Hmc. unfold splitList. destruct (mi <? slen value) eqn:E; bool_to_prop.
  { split; [done|]. intros [Hl _]. lia. }
  rewrite splitList_loop_parts by lia. cbn [str_drop]. rewrite take_parts_ok by (unfold len; cbn; lia). cbn [app].
  split; [by intros (-> & Hl & Hf)|by intros (_ & -> & Hl & Hf)].
Qed.
Lemma splitList_exact_witness : splitList " a, b,, c ," "NAMES" 3 2 20 = inl ["a"; "b"; "c"] /\
  splitList "a,b,c,d" "NAMES" 3 2 20 <> inl ["a"; "b"; "c"; "d"].
Proof.
  assert (Hm : 0 <= 3) by lia. split.
  - apply (splitList_exact " a, b,, c ," "NAMES" 3 2 20 ["a"; "b"; "c"] Hm). split; [vm_compute; discriminate|]. split; [vm_compute; reflexivity|].
    split; [vm_compute; discriminate|]. repeat constructor; vm_compute; discriminate.
  - intros E. apply (splitList_exact "a,b,c,d" "NAMES" 3 2 20 ["a"; "b"; "c"; "d"] Hm) in E as (_ & _ & Hl & _). vm_compute in Hl. by apply Hl.
Defined.
