(* ===== verification/ConfigProps.v ===== *)
(** * Configuration: what validation guarantees

    Validation accepts exactly the configurations that meet a declarative
    specification, of which each validator has its own equation. *)
From S2P Require Import Prelude GoStrings GoCodec Value Names Netip NetipProps ConfigModel Config Json Selector Catalog Store StoreFacts StoreProps World Controllers Seed SeedProps.

#[local] Set Warnings "-clear-no-such-hyp,-notation-for-abbreviation".
#[local] Open Scope string_scope.
#[local] Open Scope list_scope.
#[local] Open Scope Z_scope.

(** ** Checks *)
Lemma require_none b m : require b m = None <-> b = true.
Proof. unfold require. by destruct b. Qed.
Lemma andthen_none a b : (a &> b) = None <-> a = None /\ b = None.
Proof. unfold andthen. destruct a; naive_solver. Qed.
Lemma each_none {A} (f : Z -> A -> err) (P : A -> Prop) l i : (forall i a, f i a = None <-> P a) -> each f i l = None <-> Forall P l.
Proof.
  intros Hf. revert i. induction l as [|a l IH]; intros i; cbn [each]; [by rewrite Forall_nil|].
  by rewrite andthen_none, Forall_cons, Hf, IH.
Qed.
Lemma wrap_none (e : err) (f : string -> string) : match e with Some e => Some (f e) | None => None end = None <-> e = None.
Proof. by destruct e. Qed.
Ltac checks := repeat first [rewrite andthen_none | rewrite require_none].

(** ** The specification *)
Definition valid_port (port : string) : Prop := exists n, 1 <= n <= 65535 /\ port = itoa n.
Definition valid_host (host : string) : Prop := is_Some (net_ParseIP host).
Definition rfc1918 (o : list Z) : Prop :=
  exists a b c d, o = [a; b; c; d] /\ (a = 10 \/ a = 172 /\ 16 <= b <= 31 \/ a = 192 /\ b = 168).
Definition valid_base (base : string) : Prop := exists ip o, net_ParseIP base = Some ip /\ To4 ip = Some o /\ rfc1918 o.
Definition valid_version (version : string) : Prop := exists minor, 19 <= minor <= 37 /\ version = "v1." +:+ itoa minor.
Definition valid_data (kv : string * string) : Prop := config_validSecretDataKey kv.1 = true /\ slen kv.2 <= maxHoneytokenValueBytes.
Definition builtin : list string := ["default"; "kube-system"; "kube-public"; "kube-node-lease"].
Record valid_honeytoken (namespaces : list string) (h : K8SHoneytoken) : Prop := {
  vh_name : validTokenName (ht_Name h) = true;
  vh_label : validDNSLabel (effective_namespace h) = true;
  vh_namespace : effective_namespace h ∈ builtin ++ namespaces;
  vh_type : validHoneytokenType (ht_Type h) = true;
  vh_count : 1 <= len (ht_Data h) <= 16;
  vh_data : Forall valid_data (ht_Data h);
}.
Record valid_k8s (k : K8SConfig) : Prop := {
  vk_version : valid_version (k_APIVersion k);
  vk_base : valid_base (k_IPBase k);
  vk_counts : len (k_TokenValues k) <= 64 /\ len (k_TokenNames k) <= 64 /\ len (k_Namespaces k) <= 64 /\ len (k_Honeytokens k) <= 64;
  vk_values : Forall (fun v => trim_space v <> "" /\ slen v <= 256) (k_TokenValues k);
  vk_names : Forall (fun n => validTokenName n = true) (k_TokenNames k);
  vk_bytes : total_bytes (k_TokenValues k) + total_bytes (k_TokenNames k) <= 2 ^ 14;
  vk_namespaces : Forall (fun n => validDNSLabel n = true) (k_Namespaces k) /\ NoDup (k_Namespaces k);
  vk_honeytokens : Forall (valid_honeytoken (k_Namespaces k)) (k_Honeytokens k);
  vk_distinct : NoDup (map (fun h => (effective_namespace h, ht_Name h)) (k_Honeytokens k));
  vk_entries : data_entries (k_Honeytokens k) <= 256;
  vk_secrets : secret_bytes k <= 2 ^ 14;
}.
Definition valid_header (h : string * string) : Prop :=
  validSinkHeaderName h.1 = true /\ slen h.1 <= 128 /\ slen h.2 <= 2048 /\ contains_any h.2 (String (chr 13) (str1 (chr 10))) = false.
Section spec.
Context `{UnicodeTables} `{RangeOrder} `{UrlPackage}.
Definition valid_url (raw : string) : Prop :=
  raw <> "" /\ slen raw <= 2048 /\ exists u, url_Parse raw = Some u /\ url_Host u <> "" /\
  (url_Scheme u = "http" \/ url_Scheme u = "https") /\ url_User u = false /\ url_Fragment u = "".
Definition valid_destination (s : LogSinkConfig) : Prop :=
  ls_Type s = "file" /\ ls_Path s <> "" /\ slen (ls_Path s) <= 1024 /\ has_byte (chr 0) (ls_Path s) = false \/
  ls_Type s ∈ ["splunk"; "http"] /\ valid_url (ls_URL s) \/
  ls_Type s ∈ ["elasticsearch"; "elk"] /\ valid_url (ls_URL s) /\ validSinkIndex (ls_Index s) = true.
Record valid_sink (s : LogSinkConfig) : Prop := {
  vs_credentials : slen (ls_Token s) <= 2048 /\ slen (ls_Password s) <= 2048;
  vs_fields : slen (ls_Username s) <= 256 /\ slen (ls_Source s) <= 256 /\ slen (ls_Sourcetype s) <= 256;
  vs_headers : len (ls_Headers s) <= 16 /\ Forall valid_header (ls_Headers s);
  vs_destination : valid_destination s;
}.
Record valid_logging (l : LoggingConfig) : Prop := {
  vl_format : lg_Format l = "json" \/ lg_Format l = "text";
  vl_cidrs : len (lg_TrustedProxyCIDRs l) <= 16 /\ NoDup (lg_TrustedProxyCIDRs l) /\
    Forall (fun c => slen c <= 64 /\ is_Some (net_ParseCIDR c)) (lg_TrustedProxyCIDRs l);
  vl_sinks : len (lg_Sinks l) <= 8 /\ Forall valid_sink (lg_Sinks l);
}.
Record valid_config (c : Config) : Prop := {
  vc_listener : exists host port, run_mode_address c = Some (host, port) /\ valid_host host /\ valid_port port;
  vc_ai : rm_RunMode (c_RunMode c) = "ai" -> slen (ai_Token (c_AI c)) <= 256;
  vc_kubelet : rm_RunMode (c_RunMode c) = "kubelet" -> validTokenName (kl_NodeName (c_Kubelet c)) = true;
  vc_k8s : rm_RunMode (c_RunMode c) = "k8s" -> valid_k8s (c_K8S c);
  vc_logging : valid_logging (c_Logging c);
}.

(** ** Each validator decides its part *)
Lemma validatePort_spec port : validatePort port = None <-> valid_port port.
Proof.
  unfold validatePort, valid_port. split.
  - destruct (atoi port) as [n|]; [|done]. destruct (_ || _) eqn:E; [done|]. intros _. bool_to_prop. exists n. split; [lia|done].
  - intros (n & Hn & ->). rewrite atoi_itoa by (unfold min_int64, max_int64; lia).
    rewrite (proj2 (Z.ltb_ge n 1)), (proj2 (Z.ltb_ge 65535 n)), String.eqb_refl by lia. done.
Qed.
Lemma validateHost_spec host : validateHost host = None <-> valid_host host.
Proof. unfold validateHost, valid_host. destruct (net_ParseIP host); split; [by eexists|done|done|by intros []]. Qed.
Lemma loop_seen {A} (P : A -> Prop) (f : A -> string) (loop : Z -> list A -> list string -> err)
    (check : Z -> A -> list string -> err) :
  (forall i seen, loop i [] seen = None) ->
  (forall i a l seen, loop i (a :: l) seen = (check i a seen &> loop (i + 1) l (f a :: seen))) ->
  (forall i a seen, check i a seen = None <-> P a /\ f a ∉ seen) ->
  forall l i seen, loop i l seen = None <-> Forall P l /\ NoDup (map f l) /\ (forall a, a ∈ l -> f a ∉ seen).
Proof.
  intros Hnil Hcons Hcheck l. induction l as [|a l IH]; intros i seen.
  - rewrite Hnil. split; [|done]. intros _. split; [constructor|]. split; [constructor|]. intros a Ha. by apply elem_of_nil in Ha.
  - rewrite Hcons, andthen_none, Hcheck, IH, Forall_cons. cbn [map]. rewrite NoDup_cons. split.
    + intros [[Hp Hs] (Hf & Hn & Hall)]. split; [done|]. split.
      * split; [|done]. intros (x & Hx & Hin)%list_elem_of_fmap. apply (Hall x Hin). rewrite <- Hx. apply elem_of_cons. by left.
      * intros x [->|Hx]%elem_of_cons; [done|]. intros Hin. apply (Hall x Hx). apply elem_of_cons. by right.
    + intros ([Hp Hf] & [Hni Hn] & Hall). split; [split; [done|apply Hall, elem_of_cons; by left]|]. split; [done|]. split; [done|].
      intros x Hx [E|Hin]%elem_of_cons; [|by apply (Hall x); [apply elem_of_cons; right|]].
      apply Hni. rewrite <- E. by apply list_elem_of_fmap_2.
Qed.
Lemma validateNamespaces_spec l : validateNamespaces l = None <-> len l <= 64 /\ Forall (fun n => validDNSLabel n = true) l /\ NoDup l.
Proof.
  unfold validateNamespaces. checks. rewrite Z.leb_le.
  rewrite (loop_seen (fun n => validDNSLabel n = true) (fun n => n) namespaces_loop
    (fun i n seen => require (validDNSLabel n) ("invalid Kubernetes namespaces entry " +:+ itoa i +:+ ": expected a lowercase DNS label") &>
      require (negb (bool_decide (n ∈ seen))) ("duplicate Kubernetes namespaces entry " +:+ itoa i))).
  - rewrite map_id. split; [naive_solver|]. intros (Hl & Hf & Hn). repeat split; try done. intros a _ Ha. by apply elem_of_nil in Ha.
  - done.
  - intros i a l0 seen. cbn [namespaces_loop]. unfold andthen. by destruct (require _ _).
  - intros i a seen. checks. by rewrite negb_true_iff, bool_decide_eq_false.
Qed.
Lemma total_bytes_app a b : total_bytes (a ++ b) = total_bytes a + total_bytes b.
Proof. unfold total_bytes. by rewrite map_app, sum_Z_app. Qed.
Lemma not_blank v : negb (String.eqb v "") = true <-> v <> "".
Proof. by rewrite negb_true_iff, String.eqb_neq. Qed.
Lemma validateTokens_spec k : validateTokens k = None <->
  len (k_TokenValues k) <= 64 /\ len (k_TokenNames k) <= 64 /\ Forall (fun v => trim_space v <> "" /\ slen v <= 256) (k_TokenValues k) /\
  Forall (fun n => validTokenName n = true) (k_TokenNames k) /\ total_bytes (k_TokenValues k) + total_bytes (k_TokenNames k) <= 2 ^ 14.
Proof.
  unfold validateTokens. checks. rewrite !Z.leb_le.
  rewrite (each_none _ (fun v => trim_space v <> "" /\ slen v <= 256)), (each_none _ (fun n => validTokenName n = true)); [done|..].
  - intros i a. by rewrite require_none.
  - intros i a. checks. by rewrite not_blank, Z.leb_le.
Qed.

(** The key of the set of secrets tells namespace and name apart: a label holds
    no zero byte. *)
Lemma label_no_zero s : validDNSLabel s = true -> str_in (chr 0) s = false.
Proof.
  rewrite validDNSLabel_eq. unfold validNamespaceName, validObjectName. intros Hv. bool_to_prop.
  destruct (_ || _); [done|]. rewrite contains_dot in *.
  match goal with Hd : str_in dot s = false, Hf : forallb _ _ = true |- _ =>
    rewrite (split_single _ _ Hd) in Hf; cbn [forallb] in Hf; unfold valid_label in Hf end.
  destruct ((slen s =? 0) || _); [done|]. rewrite andb_true_r, label_runes_bytes in *.
  eapply (all_bytes_str_in (fun c => lower_alnum c || (c =? 45))); [reflexivity|]. by eapply label_bytes_chars.
Qed.
Lemma zero_split a b s t : str_in (chr 0) a = false -> str_in (chr 0) b = false ->
  a +:+ str1 (chr 0) +:+ s = b +:+ str1 (chr 0) +:+ t -> a = b /\ s = t.
Proof.
  revert b. induction a as [|c a IH]; intros [|d b]; cbn [String.append str_in]; intros Ha Hb E.
  - split; [done|]. by injection E.
  - injection E as E _. bool_to_prop. subst. done.
  - injection E as E _. bool_to_prop. subst. done.
  - injection E as -> E. bool_to_prop. destruct (IH b) as [-> ->]; try done; by change (chr 0) with "000"%char.
Qed.
Definition secret_name (h : K8SHoneytoken) : string * string := (effective_namespace h, ht_Name h).
Lemma secretID_inj h1 h2 : validDNSLabel (effective_namespace h1) = true -> validDNSLabel (effective_namespace h2) = true ->
  secretID h1 = secretID h2 <-> secret_name h1 = secret_name h2.
Proof.
  intros Hl1%label_no_zero Hl2%label_no_zero. unfold secretID, secret_name. split; [|by intros [= -> ->]].
  intros E. apply zero_split in E as [-> ->]; done.
Qed.
Lemma check_data_spec i kv : check_data i kv = None <-> valid_data kv.
Proof. unfold check_data, valid_data. checks. by rewrite Z.leb_le. Qed.
Lemma range_Forall {A} n (P : A -> Prop) l : Forall P (range_entries n l) <-> Forall P l.
Proof. by rewrite (range_entries_perm n l). Qed.
Lemma check_honeytoken_spec ns i h seen : check_honeytoken (builtin ++ ns) i h seen = None <-> valid_honeytoken ns h /\ secretID h ∉ seen.
Proof.
  unfold check_honeytoken. checks. rewrite !bool_decide_eq_true, !negb_true_iff, bool_decide_eq_false, Z.eqb_neq, Z.leb_le.
  rewrite (each_none _ valid_data), range_Forall by (intros; apply check_data_spec). unfold maxHoneytokenDataEntries, len.
  split; [intros (? & ? & ? & ? & ? & ? & ? & ?); split; [|done]; split; try done; unfold len; lia|].
  intros [[? ? ? ? Hc ?] ?]. unfold len in Hc. repeat (split; [first [done|lia]|]). done.
Qed.
Lemma NoDup_map_inj {A B C} (f : A -> B) (g : A -> C) l :
  (forall x y, x ∈ l -> y ∈ l -> f x = f y <-> g x = g y) -> NoDup (map f l) <-> NoDup (map g l).
Proof.
  induction l as [|a l IH]; intros Hfg; [split; intros _; constructor|]. cbn [map]. rewrite !NoDup_cons.
  rewrite IH by (intros x y Hx Hy; apply Hfg; by apply elem_of_cons; right).
  assert (Hiff : f a ∈ map f l <-> g a ∈ map g l); [|by rewrite Hiff].
  rewrite !list_elem_of_fmap. split; intros (x & Hx & Hin); exists x; (split; [|done]);
    apply (Hfg a x); [apply elem_of_cons; by left|by apply elem_of_cons; right|done|apply elem_of_cons; by left|by apply elem_of_cons; right|done].
Qed.
Lemma validateHoneytokens_spec k : validateHoneytokens k = None <-> len (k_Honeytokens k) <= 64 /\
  Forall (valid_honeytoken (k_Namespaces k)) (k_Honeytokens k) /\ NoDup (map secret_name (k_Honeytokens k)) /\
  data_entries (k_Honeytokens k) <= 256 /\ secret_bytes k <= 2 ^ 14.
Proof.
  unfold validateHoneytokens. checks. rewrite !Z.leb_le. fold builtin.
  rewrite (loop_seen (valid_honeytoken (k_Namespaces k)) secretID (honeytokens_loop (builtin ++ k_Namespaces k))
    (check_honeytoken (builtin ++ k_Namespaces k))); [|done|done|apply check_honeytoken_spec].
  assert (Hd : Forall (valid_honeytoken (k_Namespaces k)) (k_Honeytokens k) ->
    NoDup (map secretID (k_Honeytokens k)) <-> NoDup (map secret_name (k_Honeytokens k))).
  { intros Hf. apply NoDup_map_inj. intros x y Hx Hy. rewrite Forall_forall in Hf. apply secretID_inj; by eapply vh_label, Hf. }
  split.
  - intros (Hl & (Hf & Hn & _) & He & Hb). split; [done|]. split; [done|]. by rewrite <- Hd.
  - intros (Hl & Hf & Hn & He & Hb). split; [done|]. rewrite Hd by done. repeat split; try done. intros a _ Ha. by apply elem_of_nil in Ha.
Qed.

Lemma prefix_split s p : has_prefix s p = true -> s = p +:+ trim_prefix s p.
Proof.
  intros Hp. unfold trim_prefix. rewrite Hp. revert s Hp. induction p as [|b p IH]; intros s Hp; [done|].
  destruct s as [|a s]; [done|]. rewrite has_prefix_cons in Hp. bool_to_prop.
  match goal with He : Ascii.eqb a b = true |- _ => apply Ascii.eqb_eq in He; subst end. cbn. f_equal. by apply IH.
Qed.
Lemma land_240 b : is_byte b -> (Z.land b 240 =? 16) = ((16 <=? b) && (b <=? 31)).
Proof. unfold is_byte. revert b. by_evaluation 256%nat. Qed.
Lemma private4 ip o : wf_addr ip -> To4 ip = Some o -> IsPrivate ip = true <-> rfc1918 o.
Proof.
  intros Hw%Unmap_wf Ho. unfold To4 in Ho. destruct (Unmap ip) as [o'|] eqn:Eu; [|done]. injection Ho as ->. destruct Hw as [Hl Hf].
  unfold IsPrivate, To4. rewrite Eu. destruct o as [|a [|b [|c [|d [|]]]]]; try done.
  apply Forall_inv_tail in Hf. pose proof (Forall_inv Hf) as Hb. rewrite (land_240 b Hb).
  rewrite !orb_true_iff, !andb_true_iff, !Z.eqb_eq, !Z.leb_le. unfold rfc1918. split.
  - intros Hcase. exists a, b, c, d. split; [done|]. lia.
  - intros (a' & b' & c' & d' & [= <- <- <- <-] & Hcase). lia.
Qed.
Lemma validateKubernetesProfile_spec k : validateKubernetesProfile k = None <-> valid_version (k_APIVersion k) /\ valid_base (k_IPBase k).
Proof.
  unfold validateKubernetesProfile. checks.
  assert (Hv : (if negb (has_prefix (k_APIVersion k) "v1.")
      then Some ("invalid Kubernetes profile " +:+ go_quote (k_APIVersion k) +:+ ": supported simulated profiles are v1.19 through v1.37")
      else match atoi (trim_prefix (k_APIVersion k) "v1.") with
           | Some minor => if (minor <? 19) || (37 <? minor) || negb (String.eqb (itoa minor) (trim_prefix (k_APIVersion k) "v1."))
                           then Some ("invalid Kubernetes profile " +:+ go_quote (k_APIVersion k) +:+ ": supported simulated profiles are v1.19 through v1.37")
                           else None
           | None => Some ("invalid Kubernetes profile " +:+ go_quote (k_APIVersion k) +:+ ": supported simulated profiles are v1.19 through v1.37")
           end) = None <-> valid_version (k_APIVersion k)).
  { unfold valid_version. split.
    - destruct (has_prefix (k_APIVersion k) "v1.") eqn:Ep; [|done]. cbn [negb]. destruct (atoi _) as [minor|]; [|done].
      destruct (_ || _) eqn:E; [done|]. intros _. bool_to_prop. exists minor. split; [lia|].
      rewrite (prefix_split _ _ Ep) at 1. by f_equal.
    - intros (minor & Hm & ->). rewrite has_prefix_app, trim_prefix_app, atoi_itoa by (unfold min_int64, max_int64; lia).
      rewrite (proj2 (Z.ltb_ge minor 19)), (proj2 (Z.ltb_ge 37 minor)), String.eqb_refl by lia. done. }
  rewrite Hv. assert (Hb : (match net_ParseIP (k_IPBase k) with Some ip => bool_decide (is_Some (To4 ip)) && IsPrivate ip | None => false end) = true
    <-> valid_base (k_IPBase k)); [|by rewrite Hb].
  unfold valid_base. destruct (net_ParseIP (k_IPBase k)) as [ip|] eqn:Ei; [|split; [done|by intros (? & ? & ? & _)]].
  assert (Hw : wf_addr ip).
  { unfold net_ParseIP in Ei. destruct (ParseAddr _) as [a|] eqn:Ea; [|done]. cbn in Ei. destruct (String.eqb _ _); [|done].
    injection Ei as <-. by eapply ParseAddr_wf. }
  rewrite andb_true_iff, bool_decide_eq_true. split.
  - intros [[o Ho] Hp]. exists ip, o. split; [done|]. split; [done|]. by apply (private4 ip).
  - intros (ip' & o & [= <-] & Ho & Hr). split; [by eexists|]. by apply (private4 ip o).
Qed.
Lemma check_header_spec h : check_header h = None <-> valid_header h.
Proof. unfold check_header, valid_header. checks. rewrite !andb_true_iff, !Z.leb_le, negb_true_iff. unfold maxSinkHeaderNameBytes, maxSinkHeaderValueBytes. tauto. Qed.
Lemma validateSinkHeaders_spec l : validateSinkHeaders l = None <-> len l <= 16 /\ Forall valid_header l.
Proof.
  unfold validateSinkHeaders. checks. rewrite Z.leb_le. rewrite (each_none _ valid_header), range_Forall by (intros; apply check_header_spec). done.
Qed.
Lemma validateSinkURL_spec raw : validateSinkURL raw = None <-> valid_url raw.
Proof.
  unfold validateSinkURL, valid_url, maxSinkURLBytes. destruct (_ || _) eqn:E.
  - split; [done|]. intros (Hn & Hl & _). apply orb_true_iff in E as [E|E]; [by apply String.eqb_eq in E|apply Z.ltb_lt in E; lia].
  - bool_to_prop. destruct (url_Parse raw) as [u|]; [|split; [done|by intros (_ & _ & ? & ? & _)]].
    checks. rewrite orb_true_iff, !negb_true_iff, String.eqb_neq, !String.eqb_eq. split.
    + intros (Hh & Hs & Hu & Hf). split; [done|]. split; [done|]. by exists u.
    + intros (_ & _ & u' & [= <-] & Hrest). done.
Qed.
Lemma type_cases {A : Prop} (t : string) (l : list string) : t ∈ l \/ t ∉ l.
Proof. destruct (decide (t ∈ l)); auto. Qed.
Lemma check_sink_spec i s : check_sink i s = None <-> valid_sink s.
Proof.
  unfold check_sink. checks. rewrite wrap_none, validateSinkHeaders_spec, !andb_true_iff, !Z.leb_le.
  assert (Hd : ((if String.eqb (ls_Type s) "file" then
     require (negb (String.eqb (ls_Path s) "") && (slen (ls_Path s) <=? maxSinkPathBytes) && negb (has_byte (chr 0) (ls_Path s)))
       ("invalid logging sinks entry " +:+ itoa i +:+ ": " +:+ ("file sinks require a path of at most " +:+ itoa maxSinkPathBytes +:+ " bytes"))
   else if bool_decide (ls_Type s ∈ ["splunk"; "elasticsearch"; "elk"; "http"])
   then match validateSinkURL (ls_URL s) with Some e => Some ("invalid logging sinks entry " +:+ itoa i +:+ ": " +:+ e) | None => None end
   else Some ("invalid logging sinks entry " +:+ itoa i +:+ ": " +:+ ("unknown type " +:+ go_quote (ls_Type s) +:+ ": choose file, splunk, elasticsearch, or http"))) = None /\
   negb ((String.eqb (ls_Type s) "elasticsearch" || String.eqb (ls_Type s) "elk") && negb (validSinkIndex (ls_Index s))) = true)
   <-> valid_destination s).
  { unfold valid_destination. destruct (String.eqb_spec (ls_Type s) "file") as [E|E].
    - rewrite require_none, !andb_true_iff, not_blank, Z.leb_le, negb_true_iff, E. cbn [String.eqb].
      rewrite !elem_of_cons, elem_of_nil. unfold maxSinkPathBytes. naive_solver.
    - destruct (bool_decide_reflect (ls_Type s ∈ ["splunk"; "elasticsearch"; "elk"; "http"])) as [Ht|Ht].
      + rewrite (wrap_none (validateSinkURL (ls_URL s)) (fun e => "invalid logging sinks entry " +:+ itoa i +:+ ": " +:+ e)), validateSinkURL_spec.
        rewrite negb_true_iff, andb_false_iff, negb_false_iff, orb_false_iff, !String.eqb_neq.
        rewrite !elem_of_cons, elem_of_nil in *. destruct Ht as [Ht|[Ht|[Ht|[Ht|[]]]]]; rewrite Ht in *; naive_solver.
      + split; [by intros []|]. rewrite !elem_of_cons, elem_of_nil in *. naive_solver. }
  rewrite Hd. unfold maxSinkCredentialBytes, maxSinkFieldBytes. split.
  - intros (? & ? & ? & ?). by split; [|split_and?; tauto| |].
  - intros [? (? & ? & ?) ? ?]. tauto.
Qed.
Lemma validateLogging_spec l : validateLogging l = None /\ validateSinks (lg_Sinks l) = None <-> valid_logging l.
Proof.
  unfold validateLogging, validateSinks. checks. rewrite orb_true_iff, !String.eqb_eq, !Z.leb_le.
  rewrite (each_none _ valid_sink) by apply check_sink_spec.
  rewrite (loop_seen (fun c => slen c <= 64 /\ is_Some (net_ParseCIDR c)) (fun c => c) cidrs_loop (fun i cidr seen =>
      require (slen cidr <=? maxTrustedProxyCIDRBytes) (cidr_entry i +:+ " exceeds the " +:+ itoa maxTrustedProxyCIDRBytes +:+ "-byte limit") &>
      require (bool_decide (is_Some (net_ParseCIDR cidr))) ("invalid " +:+ cidr_entry i +:+ ": expected a CIDR") &>
      require (negb (bool_decide (cidr ∈ seen))) ("duplicate " +:+ cidr_entry i))).
  - rewrite map_id. unfold maxTrustedProxyCIDRs, maxSinkCount. split.
    + intros ((? & ? & ? & ? & _) & ? & ?). by split.
    + intros [? (? & ? & ?) [? ?]]. repeat split; try done. intros a _ Ha. by apply elem_of_nil in Ha.
  - done.
  - intros i a l0 seen. cbn [cidrs_loop]. unfold andthen. by repeat destruct (require _ _).
  - intros i a seen. checks. rewrite Z.leb_le, bool_decide_eq_true, negb_true_iff, bool_decide_eq_false. unfold maxTrustedProxyCIDRBytes. tauto.
Qed.

Lemma Validate_valid c : Validate (Some c) = None <-> valid_config c.
Proof.
  cbn [Validate]. destruct (run_mode_address c) as [[host port]|] eqn:Ea.
  2:{ split; [done|]. intros [(? & ? & Hr & _) _ _ _ _]. congruence. }
  checks. rewrite (wrap_none _ (fun e => "invalid " +:+ rm_RunMode (c_RunMode c) +:+ " bind host: " +:+ e)).
  rewrite (wrap_none _ (fun e => "invalid " +:+ rm_RunMode (c_RunMode c) +:+ " bind port: " +:+ e)).
  rewrite validateHost_spec, validatePort_spec, !orb_true_iff, !negb_true_iff, !String.eqb_neq, Z.leb_le.
  assert (Hk : (if String.eqb (rm_RunMode (c_RunMode c)) "k8s" then
      validateKubernetesProfile (c_K8S c) &> validateTokens (c_K8S c) &> validateNamespaces (k_Namespaces (c_K8S c)) &> validateHoneytokens (c_K8S c)
      else None) = None <-> (rm_RunMode (c_RunMode c) = "k8s" -> valid_k8s (c_K8S c))).
  { destruct (String.eqb_spec (rm_RunMode (c_RunMode c)) "k8s") as [Em|Em]; [|by split].
    checks. rewrite validateKubernetesProfile_spec, validateTokens_spec, validateNamespaces_spec, validateHoneytokens_spec. split.
    - intros ([? ?] & (? & ? & ? & ? & ?) & (? & ? & ?) & ? & ? & ? & ? & ?) _. by split.
    - intros Hv. destruct (Hv Em) as [? ? (? & ? & ? & ?) ? ? ? [? ?] ? ? ? ?]. tauto. }
  rewrite Hk. clear Hk. pose proof (validateLogging_spec (c_Logging c)) as Hl.
  pose proof (String.string_dec (rm_RunMode (c_RunMode c)) "ai") as Da. pose proof (String.string_dec (rm_RunMode (c_RunMode c)) "kubelet") as Dk.
  split.
  - intros (Hai & Hku & Hk8 & Hlo & Hsi & Hho & Hpo). split; [by exists host, port|tauto|tauto|done|tauto].
  - intros [(h & p & Hr & Hho & Hpo) Hai Hku Hk8 Hlo]. rewrite Ea in Hr. injection Hr as <- <-. tauto.
Qed.

(** C14. Validation accepts exactly the configurations of the specification: an
    IP literal and a canonical decimal port for the listener of the run mode,
    and for the Kubernetes profile a version from v1.19 to v1.37, an RFC 1918
    pod network base, bounded and well-formed tokens, namespaces and
    honeytokens, without duplicates, whose namespaces exist, and the logging
    bounds; in whatever order maps are visited. *)
Theorem Validate_accepts_exactly : forall cfg, Validate cfg = None <-> exists c, cfg = Some c /\ valid_config c.
Proof. intros [c|]; [|split; [done|by intros (? & ? & _)]]. rewrite Validate_valid. naive_solver. Qed.
End spec.
