(* ===== verification/ConfigSeed.v ===== *)
(** * From configuration to decoys

    What validation promises to the seeding of the cluster and to the redaction
    of event records, and where the latter falls short. *)
From S2P Require Import Prelude GoStrings GoCodec Value Names Netip NetipProps ConfigModel Config ConfigProps Json Selector Catalog Store StoreFacts StoreProps World Controllers Seed SeedProps.

#[local] Set Warnings "-clear-no-such-hyp,-notation-for-abbreviation".
#[local] Open Scope string_scope.
#[local] Open Scope list_scope.
#[local] Open Scope Z_scope.

(** ** Texts the validators accept *)
Lemma label_chars s : validDNSLabel s = true -> all_bytes (fun c => lower_alnum (code c) || (code c =? 45)) s = true /\ s <> "".
Proof.
  rewrite validDNSLabel_eq. unfold validNamespaceName, validObjectName. intros Hv. bool_to_prop.
  destruct (_ || _) eqn:E; [done|]. bool_to_prop. split; [|done]. rewrite contains_dot in *.
  match goal with Hd : str_in dot s = false, Hf : forallb _ _ = true |- _ =>
    rewrite (split_single _ _ Hd) in Hf; cbn [forallb] in Hf; unfold valid_label in Hf end.
  destruct ((slen s =? 0) || _); [done|]. rewrite andb_true_r, label_runes_bytes in *. by eapply label_bytes_chars.
Qed.
Lemma label_trim s : validDNSLabel s = true -> trim_space s = s.
Proof.
  intros [Hc _]%label_chars. apply trim_space_id. revert Hc. apply all_bytes_weaken. intros c Hc. unfold lower_alnum in Hc.
  apply andb_true_iff. rewrite Z.leb_le, Z.ltb_lt. rewrite !orb_true_iff, !andb_true_iff, !Z.leb_le, Z.eqb_eq in Hc. lia.
Qed.
Definition chunks_size (l : list (Z * string)) : Z := sum_Z (map (fun rb : Z * string => slen rb.2) l).
Lemma chunks_size_concat l : slen (str_concat (map snd l)) = chunks_size l.
Proof. unfold chunks_size. induction l as [|rb l IH]; [done|]. cbn [map str_concat]. rewrite slen_app, IH. done. Qed.
Lemma chunks_size_drop l : chunks_size (drop_spaces l) <= chunks_size l.
Proof.
  unfold chunks_size. induction l as [|[r b] l IH]; [done|]. cbn [drop_spaces]. destruct (is_space r); [|done].
  cbn. pose proof (slen_nonneg b). unfold sum_Z in *. lia.
Qed.
Lemma chunks_size_reverse l : chunks_size (reverse l) = chunks_size l.
Proof. unfold chunks_size. apply sum_Z_perm, Permutation_map, reverse_Permutation. Qed.
Lemma trim_space_shrinks s : slen (trim_space s) <= slen s.
Proof.
  unfold trim_space. rewrite chunks_size_concat, chunks_size_reverse. etransitivity; [apply chunks_size_drop|].
  rewrite chunks_size_reverse. etransitivity; [apply chunks_size_drop|]. by rewrite <- chunks_size_concat, runes_concat.
Qed.
Lemma honeytoken_namespace_effective h : validDNSLabel (effective_namespace h) = true -> honeytoken_namespace h = effective_namespace h.
Proof.
  unfold honeytoken_namespace, effective_namespace. destruct (String.eqb_spec (ht_Namespace h) "") as [->|Hn]; [done|].
  intros Hv. rewrite (label_trim _ Hv). by apply String.eqb_neq in Hn as ->.
Qed.

(** ** Seeding *)
Definition maps_ok (cfg : K8SConfig) : Prop := Forall (fun h => NoDup (ht_Data h).*1) (k_Honeytokens cfg).
Section seeding.
Context `{Env}.
Lemma encoded_len_bound n : 0 <= n <= 4096 -> base64_encoded_len n <= 5464.
Proof. intros Hn. unfold base64_encoded_len. assert ((n + 2) / 3 <= 1366) by (apply Z.div_le_upper_bound; lia). lia. Qed.
Lemma valid_data_accepted data : NoDup data.*1 -> 1 <= len data <= 16 -> Forall valid_data data -> is_Some (encodeSecretData data).
Proof.
  intros Hnd Hl Hf. rewrite encodeSecretData_spec by done. unfold len in Hl.
  rewrite (proj2 (Z.leb_le _ maxSecretDataKeys)) by (unfold maxSecretDataKeys; lia).
  assert (He : Forall (fun kv => entry_ok kv = true /\ entry_size kv <= 5717) data).
  { eapply Forall_impl; [exact Hf|]. intros [k v] [Hk Hv]. cbn [fst snd] in *. unfold maxHoneytokenValueBytes in Hv.
    unfold entry_ok, entry_size. cbn [fst snd]. rewrite <- secret_key_eq, Hk. cbn [andb].
    rewrite (proj2 (Z.leb_le _ _)) by (unfold maxStoredObjectBytes; lia). split; [done|].
    pose proof (encoded_len_bound (slen v)). pose proof (slen_nonneg v).
    unfold config_validSecretDataKey in Hk. destruct (_ || _) eqn:E in Hk; [done|]. bool_to_prop. lia. }
  assert (Hok : forallb entry_ok data = true).
  { apply forallb_forall. intros x Hx. rewrite Forall_forall in He. by apply He, list_elem_of_In. }
  assert (Hs : sum_Z (map entry_size data) <= 5717 * Z.of_nat (length data)).
  { clear -He. induction He as [|kv l [_ Hkv] Hf IH]; [done|]. cbn [map sum_Z foldr length] in *. unfold sum_Z in *. cbn in *. lia. }
  rewrite Hok, (proj2 (Z.leb_le _ maxStoredObjectBytes)) by (unfold maxStoredObjectBytes; lia). by eexists.
Qed.
Lemma valid_accepted cfg h : valid_k8s cfg -> h ∈ k_Honeytokens cfg -> h ∈ accepted_names (k_Honeytokens cfg).
Proof.
  intros [_ _ (_ & _ & _ & Hl) _ _ _ _ Hf _ _ _] Hh. unfold len in Hl. unfold accepted_names. rewrite take_ge by (unfold maxSeedSecrets; lia).
  apply list_elem_of_In, filter_In. split; [by apply list_elem_of_In|]. rewrite Forall_forall in Hf.
  rewrite <- validTokenName_eq. by apply (vh_name _ _ (Hf h Hh)).
Qed.
Lemma accepted_length l : (length (accepted_names l) <= length l)%nat.
Proof.
  unfold accepted_names. transitivity (length (take maxSeedSecrets l)); [|rewrite length_take; lia]. generalize (take maxSeedSecrets l). intros l'.
  induction l' as [|h l' IH]; [done|]. cbn [List.filter]. destruct (validObjectName _); cbn; lia.
Qed.
Lemma valid_honeytoken_namespace cfg h : valid_k8s cfg -> h ∈ k_Honeytokens cfg ->
  honeytoken_namespace h = effective_namespace h /\ effective_namespace h ∈ namespace_order cfg.
Proof.
  intros Hv Hh. pose proof (valid_accepted cfg h Hv Hh) as Ha. pose proof Hv as [_ _ (_ & _ & _ & Hl) _ _ _ _ Hf _ _ _].
  rewrite Forall_forall in Hf. pose proof (vh_label _ _ (Hf h Hh)) as Hlab. pose proof (honeytoken_namespace_effective h Hlab) as En.
  split; [done|]. rewrite <- En. apply seed_namespaces_facts; [done|by rewrite En, <- validDNSLabel_eq|].
  pose proof (accepted_length (k_Honeytokens cfg)). unfold len in Hl. lia.
Qed.
(** Every honeytoken becomes a Secret of its own name in its own namespace. *)
Lemma valid_honeytoken_request cfg h : valid_k8s cfg -> maps_ok cfg -> h ∈ k_Honeytokens cfg ->
  exists secretType data, encodeSecretData (ht_Data h) = Some data /\ honeytoken_request (namespace_order cfg) h =
    [SR (GV "" "v1") "secrets" (effective_namespace h) (ht_Name h) [("type", VStr secretType); ("data", VStrMap data)]].
Proof.
  intros Hv Hm Hh. destruct (valid_honeytoken_namespace cfg h Hv Hh) as [En Hin].
  pose proof (vk_honeytokens _ Hv) as Hf. rewrite Forall_forall in Hf. destruct (Hf h Hh) as [Hn Hlab Hns Ht Hc Hd].
  unfold maps_ok in Hm. rewrite Forall_forall in Hm. destruct (valid_data_accepted (ht_Data h) (Hm h Hh) Hc Hd) as [data Edata].
  assert (Hvn : validNamespaceName (effective_namespace h) = true) by by rewrite <- validDNSLabel_eq.
  unfold honeytoken_request. rewrite En, Hvn, bool_decide_eq_true_2, Edata by done. cbn [negb orb]. cbv zeta.
  set (t := if String.eqb (trim_space (ht_Type h)) "" then _ else _). exists t, data. split; [done|].
  assert (Hlen : slen t <= 256).
  { subst t. destruct (String.eqb _ _); [done|]. pose proof (trim_space_shrinks (ht_Type h)). unfold validHoneytokenType in Ht.
    destruct ((slen (ht_Type h) =? 0) || _) eqn:E in Ht; [done|]. bool_to_prop. lia. }
  by rewrite (proj2 (Z.ltb_ge 256 (slen t))).
Qed.

Lemma addNamespace_from l order x : x ∈ foldl addNamespace order l -> x ∈ order \/ x ∈ l.
Proof.
  revert order. induction l as [|ns l IH]; intros order Hx; cbn [foldl] in Hx; [by left|]. apply IH in Hx as [Hx|Hx].
  - unfold addNamespace in Hx. repeat case_match; set_solver.
  - right. by apply elem_of_cons; right.
Qed.
Lemma order_from cfg x : valid_k8s cfg -> x ∈ namespace_order cfg -> x ∈ builtin ++ k_Namespaces cfg.
Proof.
  intros [_ _ _ _ _ _ [Hns _] Hf _ _ _]. rewrite Forall_forall in Hns. rewrite Forall_forall in Hf. unfold namespace_order.
  assert (E0 : foldl addNamespace [] builtin_namespaces = builtin) by (vm_compute; reflexivity).
  rewrite E0. intros [[Hx|Hx]%addNamespace_from|Hx]%addNamespace_from.
  - apply elem_of_app. by left.
  - apply list_elem_of_fmap in Hx as (h & -> & Hh). unfold accepted_names in Hh. apply list_elem_of_In, filter_In in Hh as [Hh _].
    apply list_elem_of_In, elem_of_take in Hh as (i & Hh & _). apply list_elem_of_lookup_2 in Hh. destruct (Hf h Hh) as [_ Hl Hn _ _ _].
    by rewrite (honeytoken_namespace_effective h Hl).
  - apply list_elem_of_fmap in Hx as (ns & -> & Hin). apply elem_of_take in Hin as (i & Hin & _). apply list_elem_of_lookup_2 in Hin.
    rewrite (label_trim ns) by by apply Hns. apply elem_of_app. by right.
Qed.
Lemma order_length cfg : valid_k8s cfg -> len (namespace_order cfg) <= 68.
Proof.
  intros Hv. destruct (seed_namespaces_ok cfg) as (Hnd & _ & _). pose proof (vk_counts _ Hv) as (_ & _ & Hc & _). unfold len in *.
  assert (Hs : namespace_order cfg ⊆+ builtin ++ k_Namespaces cfg) by (apply NoDup_submseteq; [done|]; intros x Hx; by apply order_from).
  apply submseteq_length in Hs. rewrite length_app in Hs. change (length builtin) with 4%nat in Hs. lia.
Qed.
Lemma flat_map_length_le {A B} (f : A -> list B) n l : (forall a, length (f a) <= n)%nat -> (length (flat_map f l) <= n * length l)%nat.
Proof. intros Hf. induction l as [|a l IH]; [cbn; lia|]. cbn [flat_map]. rewrite length_app. specialize (Hf a). cbn [length]. lia. Qed.
Lemma honeytoken_request_length order h : (length (honeytoken_request order h) <= 1)%nat.
Proof. unfold honeytoken_request. repeat case_match; cbn; lia. Qed.
Lemma token_requests_length names i l : (length (token_requests names i l) <= length l)%nat.
Proof.
  revert i. induction l as [|t l IH]; intros i; cbn [token_requests]; [done|]. rewrite length_app. unfold token_request. specialize (IH (S i)).
  destruct (_ <? _); cbn [length]; lia.
Qed.
Lemma extension_length startedAt : (length (extension_requests startedAt) <= 64)%nat.
Proof.
  unfold extension_requests. rewrite !length_app, !length_map. rewrite (Permutation_length (range_entries_perm 21 (map_to_list apiCatalog))).
  vm_compute. lia.
Qed.
Lemma requests_length version startedAt cfg kube random : valid_k8s cfg -> (length kube <= 4)%nat -> (length random <= 4)%nat ->
  len (seed_requests version startedAt cfg kube random) <= maxSeedObjects.
Proof.
  intros Hv Hk Hr. pose proof (order_length cfg Hv) as Ho. pose proof (vk_counts _ Hv) as (Ht & _ & _ & Hh).
  unfold len, maxSeedObjects, seed_requests in *. cbv zeta. rewrite !length_app, length_map.
  pose proof (accepted_length (k_Honeytokens cfg)).
  pose proof (flat_map_length_le (honeytoken_request (namespace_order cfg)) 1 (accepted_names (k_Honeytokens cfg)) (honeytoken_request_length _)).
  pose proof (token_requests_length (k_TokenNames cfg) 0 (take maxLegacySeedTokens (k_TokenValues cfg))) as Htok. rewrite length_take in Htok.
  assert ((length (default_requests (namespace_order cfg)) <= 2 * length (namespace_order cfg))%nat) by by apply flat_map_length_le.
  pose proof (extension_length startedAt). change (length (cluster_requests version (k_IPBase cfg) startedAt)) with 8%nat. lia.
Qed.
Lemma token_requests_lookup names i l j v : l !! j = Some v -> slen v <= 4096 ->
  exists r, token_request names (i + j) v = [r] /\ r ∈ token_requests names i l.
Proof.
  revert i j. induction l as [|t l IH]; intros i j Hj Hv; [done|]. cbn [token_requests]. destruct j as [|j].
  - injection Hj as ->. rewrite Nat.add_0_r. unfold token_request. rewrite (proj2 (Z.ltb_ge 4096 (slen v))) by done. cbv zeta.
    eexists. split; [done|]. apply elem_of_cons. by left.
  - destruct (IH (S i) j Hj Hv) as (r & Hr & Hin). replace (i + S j)%nat with (S i + j)%nat by lia. exists r. split; [done|].
    apply elem_of_app. by right.
Qed.

End seeding.

(** A configuration with every kind of decoy, and a URL parser for it. *)
Definition test_url : UrlPackage :=
  {| url_Parse := fun s => if has_prefix s "https://" then Some {| url_Scheme := "https"; url_Host := trim_prefix s "https://";
       url_Path := ""; url_Fragment := ""; url_User := false |} else None;
     url_String := fun u => url_Scheme u +:+ "://" +:+ url_Host u |}.
Definition decoy_token : K8SHoneytoken :=
  {| ht_Name := "billing"; ht_Namespace := "payments"; ht_Type := "Opaque"; ht_Data := [("key", "AKIA-0001"); ("note", "")] |}.
Definition decoy_cfg : K8SConfig :=
  {| k_APIVersion := "v1.37"; k_SchemaOffline := true; k_IPBase := "10.42.0.0"; k_GenerateKubeSys := true; k_GenerateRand := true;
     k_Host := "127.0.0.1"; k_Port := "8080"; k_TLSEnabled := false; k_TLSCertFile := ""; k_TLSKeyFile := "";
     k_Namespaces := ["payments"]; k_Honeytokens := [decoy_token]; k_TokenValues := ["ghp-0001"; "ghp-0002"]; k_TokenNames := ["ci"] |}.
(** Names of tokens may repeat: the Secret of the second exists already, and
    is not stored. *)
Example token_names_may_collide : @validateTokens
    {| k_APIVersion := "v1.37"; k_SchemaOffline := true; k_IPBase := "10.42.0.0"; k_GenerateKubeSys := true; k_GenerateRand := true;
       k_Host := "127.0.0.1"; k_Port := "8080"; k_TLSEnabled := false; k_TLSCertFile := ""; k_TLSKeyFile := "";
       k_Namespaces := []; k_Honeytokens := []; k_TokenValues := ["one"; "two"]; k_TokenNames := ["ci"; "ci"] |} = None /\
  map sr_name (token_requests ["ci"; "ci"] 0 ["one"; "two"]) = ["ci"; "ci"].
Proof. split; vm_compute; reflexivity. Qed.

(** ** Redaction *)
Section redaction.
Context `{RangeOrder}.
Definition nonempty (v : string) : bool := negb (String.eqb v "").
Lemma total_bytes_nonneg l : 0 <= total_bytes l.
Proof. unfold total_bytes. apply sum_Z_nonneg, Forall_map, Forall_forall. intros. apply slen_nonneg. Qed.
(** Within the limits every value that is not empty is added. *)
Lemma k8s_add_all_fits l values : len values + len l <= k8s_max -> total_bytes values + total_bytes l <= 2 ^ 14 ->
  k8s_add_all l values = (values ++ List.filter nonempty l, false).
Proof.
  revert values. induction l as [|v l IH]; intros values Hl Hb; cbn [k8s_add_all]; [by rewrite app_nil_r|].
  assert (Ht : total_bytes (v :: l) = slen v + total_bytes l) by done. pose proof (total_bytes_nonneg l). unfold len in *. cbn [length] in Hl.
  unfold add_value at 1. unfold nonempty at 1. cbn [List.filter]. destruct (String.eqb_spec v "") as [->|Hv]; cbn [orb negb].
  - rewrite (proj2 (Z.leb_gt k8s_max _)) by (unfold k8s_max in *; lia). cbn [andb]. apply IH; [lia|]. change (slen "") with 0 in Ht. lia.
  - rewrite (proj2 (Z.leb_gt k8s_max _)), (proj2 (Z.ltb_ge (2 ^ 14) _)) by (unfold k8s_max in *; lia). cbn [orb negb andb].
    rewrite IH; [by rewrite <- app_assoc|rewrite length_app; cbn; lia|rewrite total_bytes_app; unfold total_bytes at 2; cbn; lia].
Qed.
Definition data_values (l : list K8SHoneytoken) : list string := flat_map (fun h => (range_entries 30 (ht_Data h)).*2) l.
Lemma values_perm h : (range_entries 30 (ht_Data h)).*2 ≡ₚ (ht_Data h).*2.
Proof. by rewrite (range_entries_perm 30 (ht_Data h)). Qed.
Lemma data_values_size l : len (data_values l) = data_entries l /\ total_bytes (data_values l) = sum_Z (map (fun h => total_bytes (ht_Data h).*2) l).
Proof.
  unfold len, data_entries, data_values. induction l as [|h l [IH1 IH2]]; [done|]. cbn [flat_map map]. rewrite length_app, total_bytes_app, IH2.
  cbn [sum_Z foldr]. unfold sum_Z in *. rewrite Nat2Z.inj_add, IH1. rewrite (Permutation_length (values_perm h)), length_fmap.
  split; [unfold len; lia|]. f_equal. apply sum_Z_perm, Permutation_map, values_perm.
Qed.
Lemma filter_length_le {A} (p : A -> bool) l : (length (List.filter p l) <= length l)%nat.
Proof. induction l as [|a l IH]; [done|]. cbn [List.filter]. destruct (p a); cbn; lia. Qed.
Lemma filter_bytes_le l : total_bytes (List.filter nonempty l) <= total_bytes l.
Proof.
  unfold total_bytes. induction l as [|v l IH]; [done|]. cbn [List.filter map]. pose proof (slen_nonneg v).
  destruct (nonempty v); cbn [map sum_Z foldr]; unfold sum_Z in *; lia.
Qed.
Lemma k8s_add_tokens_fits l values : len values + len (data_values l) <= k8s_max -> total_bytes values + total_bytes (data_values l) <= 2 ^ 14 ->
  k8s_add_tokens l values = values ++ List.filter nonempty (data_values l).
Proof.
  revert values. induction l as [|h l IH]; intros values Hl Hb; cbn [k8s_add_tokens data_values flat_map]; [by rewrite app_nil_r|].
  unfold data_values in *. cbn [flat_map] in *. set (vs := (range_entries 30 (ht_Data h)).*2) in *.
  rewrite total_bytes_app in Hb. unfold len in *. rewrite length_app in Hl. pose proof (total_bytes_nonneg (flat_map (fun h => (range_entries 30 (ht_Data h)).*2) l)).
  rewrite k8s_add_all_fits by (unfold len in *; lia). pose proof (filter_length_le nonempty vs). pose proof (filter_bytes_le vs).
  rewrite IH, List.filter_app, app_assoc; [done|rewrite length_app; lia|rewrite total_bytes_app; lia].
Qed.
Lemma k8s_values_exact k : len (k_TokenValues k) <= 64 -> data_entries (k_Honeytokens k) <= 256 -> secret_bytes k <= 2 ^ 14 ->
  K8SConfig_SensitiveValues k = List.filter nonempty (k_TokenValues k ++ data_values (k_Honeytokens k)).
Proof.
  intros Ht Hd Hs. destruct (data_values_size (k_Honeytokens k)) as [El Eb]. unfold secret_bytes in Hs. rewrite <- Eb in Hs. rewrite <- El in Hd.
  unfold K8SConfig_SensitiveValues. pose proof (total_bytes_nonneg (data_values (k_Honeytokens k))).
  rewrite (k8s_add_all_fits (k_TokenValues k) []) by (unfold len, k8s_max, total_bytes in *; cbn in *; lia). cbn [app].
  pose proof (filter_length_le nonempty (k_TokenValues k)). pose proof (filter_bytes_le (k_TokenValues k)). unfold len in *.
  rewrite k8s_add_tokens_fits, List.filter_app by (unfold len, k8s_max; lia). done.
Qed.

(** C16. The limits of validation and of the redaction set agree: of a validated
    Kubernetes profile every credential that is not empty, token value or
    honeytoken datum, is among the values to redact, in whatever order the maps
    are visited; the AI token and the sinks do not displace them. *)
Theorem validated_secrets_are_redacted : forall c v,
  validateTokens (c_K8S c) = None -> @validateHoneytokens _ (c_K8S c) = None -> v <> "" ->
  (v ∈ k_TokenValues (c_K8S c) \/ exists h key, h ∈ k_Honeytokens (c_K8S c) /\ (key, v) ∈ ht_Data h) ->
  v ∈ K8SConfig_SensitiveValues (c_K8S c) /\ v ∈ SensitiveValues c.
Proof.
  intros c v Ht Hh Hv Hin. apply validateTokens_spec in Ht as (Ht & _). apply validateHoneytokens_spec in Hh as (_ & _ & _ & Hd & Hs).
  assert (H1 : v ∈ K8SConfig_SensitiveValues (c_K8S c)).
  { rewrite k8s_values_exact by done. apply list_elem_of_In, filter_In. split; [|by apply not_blank]. apply list_elem_of_In, elem_of_app.
    destruct Hin as [Hin|(h & key & Hh & Hkv)]; [by left|right]. unfold data_values. apply list_elem_of_In, in_flat_map. exists h.
    split; [by apply list_elem_of_In|]. apply list_elem_of_In. rewrite values_perm. by apply (list_elem_of_fmap_2 snd _ (key, v)). }
  split; [done|]. unfold SensitiveValues. cbv zeta. set (base := if String.eqb (ai_Token (c_AI c)) "" then _ else _).
  assert (Hb : v ∈ base) by (unfold base; destruct (String.eqb _ _); [done|by apply elem_of_cons; right]).
  unfold mergeSensitive. cbv zeta. repeat case_match; try done; apply elem_of_app; by left.
Qed.

(** The redaction set of the sinks ends at the first credential that is
    empty: when the first sink has no password, as only the Elasticsearch sink
    has one, its headers and every credential of the sinks after it are left out,
    and nothing but its token can be in the set. *)
Theorem sink_credentials_are_lost : forall l s rest, lg_Sinks l = s :: rest -> ls_Password s = "" ->
  LoggingConfig_SensitiveValues l = if String.eqb (ls_Token s) "" || (2 ^ 14 <? slen (ls_Token s)) then [] else [ls_Token s].
Proof.
  intros l s rest Hl Hp. unfold LoggingConfig_SensitiveValues. rewrite Hl. cbn [logging_add_sinks logging_add_all].
  assert (E : add_value logging_max [] (ls_Token s) =
    if String.eqb (ls_Token s) "" || (2 ^ 14 <? slen (ls_Token s)) then ([], false) else ([ls_Token s], true)).
  { unfold add_value, total_bytes. cbn [map sum_Z foldr length app]. rewrite Z.add_0_l. change (logging_max <=? Z.of_nat 0) with false.
    by rewrite orb_false_r. }
  rewrite E. destruct (_ || _); [done|]. rewrite Hp. done.
Qed.
End redaction.
Definition splunk_with_header : LogSinkConfig :=
  {| ls_Type := "splunk"; ls_URL := "https://splunk.example"; ls_Path := ""; ls_Index := ""; ls_Source := ""; ls_Sourcetype := "";
     ls_Token := "hec-token"; ls_Username := ""; ls_Password := ""; ls_Headers := [("X-Api-Key", "s3cr3t-header")] |}.
Definition elastic_with_password : LogSinkConfig :=
  {| ls_Type := "elasticsearch"; ls_URL := "https://elastic.example"; ls_Path := ""; ls_Index := "events"; ls_Source := ""; ls_Sourcetype := "";
     ls_Token := ""; ls_Username := "elastic"; ls_Password := "s3cr3t-password"; ls_Headers := [] |}.
Definition two_sinks : Config :=
  {| c_AI := c_AI Defaults; c_Docker := c_Docker Defaults; c_HTTP := c_HTTP Defaults; c_UDP := c_UDP Defaults; c_TCP := c_TCP Defaults;
     c_Kubelet := c_Kubelet Defaults; c_K8S := decoy_cfg; c_RunMode := c_RunMode Defaults;
     c_Logging := {| lg_Format := "json"; lg_IncludeUserAgent := true; lg_TrustedProxyCIDRs := ["10.0.0.0/8"];
                     lg_Sinks := [splunk_with_header; elastic_with_password] |} |}.
(** The configuration is valid, all the same. *)
Lemma sink_credentials_are_lost_witness : @Validate ascii_tables key_order test_url (Some two_sinks) = None /\
  @LoggingConfig_SensitiveValues key_order (c_Logging two_sinks) = ["hec-token"].
Proof.
  split; [vm_compute; reflexivity|].
  refine (@sink_credentials_are_lost key_order (c_Logging two_sinks) splunk_with_header [elastic_with_password] _ _); reflexivity.
Defined.
Lemma validated_secrets_are_redacted_witness : "AKIA-0001" ∈ @SensitiveValues key_order two_sinks.
Proof.
  assert (Hv : "AKIA-0001" <> "") by done.
  refine (proj2 (@validated_secrets_are_redacted key_order two_sinks "AKIA-0001" _ _ Hv (or_intror (ex_intro _ decoy_token (ex_intro _ "key" _)))));
    [vm_compute; reflexivity|vm_compute; reflexivity|]. split; apply elem_of_cons; left; reflexivity.
Defined.
