(* ===== verification/Redact.v ===== *)
(** * Redaction

    logger.go: the sanitizers of the fields of an event record, the replacer
    built from the configured credentials, and what they use of [net/url] and
    [strings]. *)
From S2P Require Import Prelude GoStrings GoCodec Http Names ConfigModel.

#[local] Set Warnings "-clear-no-such-hyp,-notation-for-abbreviation".
#[local] Open Scope string_scope.
#[local] Open Scope list_scope.
#[local] Open Scope Z_scope.

(** ** Percent-encoding ([net/url]) *)
(** [url.PathUnescape]: an error on a [%] without two hexadecimal digits. *)
Fixpoint PathUnescape (s : string) : option string :=
  match s with
  | "" => Some ""
  | String c s =>
      if Ascii.eqb c (chr 37) then
        match s with
        | String a (String b s) =>
            match unhex a, unhex b with
            | Some x, Some y => String (chr (x * 16 + y)) <$> PathUnescape s
            | _, _ => None
            end
        | _ => None
        end
      else String c <$> PathUnescape s
  end.
Definition upper_hex (d : Z) : ascii := chr (if d <? 10 then 48 + d else 55 + d).
Definition percent_byte (c : ascii) : string := String (chr 37) (String (upper_hex (code c / 16)) (str1 (upper_hex (code c mod 16)))).
Definition unreserved (c : ascii) : bool := is_lower c || is_upper c || is_digit c || any_byte (Ascii.eqb c) "-_.~".
Fixpoint QueryEscape (s : string) : string :=
  match s with
  | "" => ""
  | String c s => (if unreserved c then str1 c else if code c =? 32 then "+" else percent_byte c) +:+ QueryEscape s
  end.
Fixpoint PathEscape (s : string) : string :=
  match s with
  | "" => ""
  | String c s => (if unreserved c || any_byte (Ascii.eqb c) "$&+:=@" then str1 c else percent_byte c) +:+ PathEscape s
  end.

(** ** [strings.Replacer]

    At each position the first old string, in the order given, that matches. *)
Definition Replacer : Type := list (string * string).
Definition first_match (r : Replacer) (s : string) : option (string * string) :=
  head (List.filter (fun on => has_prefix s on.1) r).
Fixpoint replace_go (r : Replacer) (skip : nat) (s : string) : string :=
  match s with
  | "" => ""
  | String c s' =>
      match skip with
      | S k => replace_go r k s'
      | O => match first_match r s with
             | Some (old, new) => new +:+ replace_go r (String.length old - 1) s'
             | None => String c (replace_go r O s')
             end
      end
  end.
Definition Replace (r : Replacer) (s : string) : string := replace_go r O s.

Definition redacted : string := "[redacted]".
Definition replaceSensitive (redactor : option Replacer) (value : string) : string :=
  match redactor with
  | None => value
  | Some r => if String.eqb value "" then value else Replace r value
  end.

(** ** The replacer of the configured credentials *)
Definition variants_of (value : string) : list string :=
  [value; b64_encode false true (bytes_of value); b64_encode false false (bytes_of value); b64_encode true true (bytes_of value);
   b64_encode true false (bytes_of value); QueryEscape value; PathEscape value].
Definition maxVariantBytes : Z := 256 * 2 ^ 10.
Definition maxSourceBytes : Z := 16 * 2 ^ 10.
Definition maxRedactValues : Z := 320.
(** The inner loop: the set of variants and its bytes; it ends at the first
    variant that does not fit. *)
Fixpoint add_variants (l : list string) (variants : list string) (variantBytes : Z) : list string * Z :=
  match l with
  | [] => (variants, variantBytes)
  | variant :: l =>
      if String.eqb variant "" then add_variants l variants variantBytes
      else if bool_decide (variant ∈ variants) then add_variants l variants variantBytes
      else if maxVariantBytes <? variantBytes + slen variant then (variants, variantBytes)
      else add_variants l (variants ++ [variant]) (variantBytes + slen variant)
  end.
Fixpoint collect_variants (index : Z) (values : list string) (sourceBytes : Z) (variants : list string) (variantBytes : Z) : list string :=
  match values with
  | [] => variants
  | value :: values =>
      if (maxRedactValues <=? index) || String.eqb value "" || (maxSourceBytes <? slen value) || (maxSourceBytes <? sourceBytes + slen value)
      then collect_variants (index + 1) values sourceBytes variants variantBytes
      else
        let '(variants, variantBytes) := add_variants (variants_of value) variants variantBytes in
        collect_variants (index + 1) values (sourceBytes + slen value) variants variantBytes
  end.
Definition longer (a b : string) : Prop := slen b <= slen a.
#[export] Instance longer_dec a b : Decision (longer a b).
Proof. unfold longer. apply _. Defined.
(** The map is visited in an unspecified order and the sort is not stable, so
    any order of the variants of one length is possible; a stable sort of an
    unspecified order stands for both. *)
Definition newSensitiveValueReplacer `{RangeOrder} (values : list string) : option Replacer :=
  let variants := collect_variants 0 values 0 [] 0 in
  if (Z.of_nat (length variants) =? 0) then None
  else Some (map (fun variant => (variant, redacted)) (merge_sort longer (range_entries 34 variants))).

(** ** Texts *)

(** [boundedText]: the cut is in bytes; a rune that is not valid, one the cut
    has split among them, is written as U+FFFD. *)
Definition bounded_rune (rb : Z * string) : string :=
  if (32 <=? rb.1) && negb (rb.1 =? 127) then encode_rune rb.1 else " ".
Definition boundedText (value : string) (max : Z) : string :=
  let value := if max <? slen value then str_take (Z.to_nat max) value else value in
  trim_space (str_concat (map bounded_rune (runes value))).

Section sanitize.
Context `{UnicodeTables}.

Definition hasCredentialMarker (value : string) : bool :=
  let lower := to_lower value in
  existsb (contains lower) ["bearer "; "token="; "access_token"; "api_key"; "apikey="; "secret="; "password="].

Definition maxUserAgentInputBytes : Z := 64 * 1024.
Definition maxDepth : nat := 8.
(** The loop of [sanitizeUserAgent] and [sanitizeMethod]: [depth] turns are
    left after this one; [accept] is what an innocent text becomes. *)
Fixpoint scan (redactor : option Replacer) (accept : string) (depth : nat) (candidate : string) : string :=
  if hasCredentialMarker candidate then ""
  else if negb (String.eqb (replaceSensitive redactor candidate) candidate) then redacted
  else match PathUnescape candidate with
       | None => ""
       | Some decoded =>
           if String.eqb decoded candidate then accept
           else match depth with O => "" | S depth => scan redactor accept depth decoded end
       end.
Definition sanitizeMethod (value : string) (redactor : option Replacer) : string :=
  if maxUserAgentInputBytes <? slen value then ""
  else scan redactor (boundedText value 32) maxDepth value.
Definition sanitizeUserAgent (value : string) (redactor : option Replacer) : string :=
  if maxUserAgentInputBytes <? slen value then ""
  else scan redactor (boundedText value 512) maxDepth value.

(** ** Paths *)
Definition label_replacer : Replacer := [("-", ""); ("_", ""); (".", "")].
Definition sensitiveLabel (value : string) : bool :=
  bool_decide (to_lower (Replace label_replacer value) ∈
    ["token"; "tokens"; "accesstoken"; "refreshtoken"; "idtoken"; "secret"; "secrets"; "clientsecret"; "password"; "passwd";
     "authorization"; "auth"; "apikey"; "key"; "credential"; "credentials"; "cookie"; "cookies"; "bearer"]).
(** [strings.FieldsFunc] with an ASCII separator. *)
Fixpoint fields_from (sep : ascii -> bool) (s cur : string) : list string :=
  let flush := if String.eqb cur "" then [] else [cur] in
  match s with
  | "" => flush
  | String c s => if sep c then flush ++ fields_from sep s "" else fields_from sep s (cur +:+ str1 c)
  end.
Definition label_separator (c : ascii) : bool := any_byte (Ascii.eqb c) "-_.:?&=;".
Definition containsSensitiveLabel (value : string) : bool :=
  existsb sensitiveLabel (fields_from label_separator (to_lower value) "").
Definition looksLikeSecret (value : string) : bool :=
  if slen value <? 12 then false
  else
    let rs := map fst (runes value) in
    let has lo hi := existsb (fun r => (lo <=? r) && (r <=? hi)) rs in
    let hasLower := has 97 122 in
    let hasUpper := has 65 90 in
    let hasDigit := has 48 57 in
    let unique := Z.of_nat (length (remove_dups rs)) in
    if hasDigit && (hasLower || hasUpper) && (6 <=? unique) then true
    else (20 <=? slen value) && hasLower && hasUpper && (10 <=? unique).
(** The loop over the segments. *)
Fixpoint redact_parts (redactNext : bool) (parts : list string) : list string :=
  match parts with
  | [] => []
  | part :: parts =>
      if redactNext && negb (String.eqb part "") then redacted :: redact_parts false parts
      else if sensitiveLabel part then part :: redact_parts true parts
      else if containsSensitiveLabel part then redacted :: redact_parts redactNext parts
      else (if looksLikeSecret part then redacted else part) :: redact_parts redactNext parts
  end.
(** The loop that decodes: [None] where the function gives up with the empty
    string; [i] is the turn. *)
Fixpoint decode_path (left_ : nat) (i : Z) (path : string) : option string :=
  match left_ with
  | O => Some path
  | S left_ =>
      match PathUnescape path with
      | None => if i =? 0 then None else Some path
      | Some decoded =>
          if String.eqb decoded path then Some path
          else if 8192 <? slen decoded then None
          else if i =? 7 then
            match PathUnescape decoded with
            | Some more => if negb (String.eqb more decoded) then None else decode_path left_ (i + 1) decoded
            | None => decode_path left_ (i + 1) decoded
            end
          else decode_path left_ (i + 1) decoded
      end
  end.
Definition sanitizePathWithReplacer (path : string) (redactor : option Replacer) : string :=
  if String.eqb path "" then ""
  else if 8192 <? slen path then ""
  else match decode_path 8 0 path with
       | None => ""
       | Some path =>
           let path := replaceSensitive redactor path in
           boundedText (join (redact_parts false (split (chr 47) path)) "/") 2048
       end.
Definition sanitizePath (path : string) : string := sanitizePathWithReplacer path None.
End sanitize.

Example decode_example : PathUnescape "a%2Fb%20+" = Some "a/b +" /\ PathUnescape "100%" = None /\ PathUnescape "%zz" = None.
Proof. repeat split. Qed.
Example escape_example : QueryEscape "a b/c;~" = "a+b%2Fc%3B~" /\ PathEscape "a b/c;~+" = "a%20b%2Fc%3B~+". Proof. repeat split. Qed.
Example path_example : @sanitizePathWithReplacer ascii_tables "/api/v1/namespaces/default/secrets/db%2Dcreds" (Some [("db-creds", redacted)])
  = "/api/v1/namespaces/default/secrets/[redacted]". Proof. reflexivity. Qed.
Example secret_example : @sanitizePath ascii_tables "/x/AKIA1234567890/token//abc" = "/x/[redacted]/token//[redacted]". Proof. reflexivity. Qed.
Example agent_example : let r := @newSensitiveValueReplacer key_order ["hunter2"] in
  @sanitizeUserAgent ascii_tables "curl/8.0" r = "curl/8.0" /\ @sanitizeUserAgent ascii_tables "x aHVudGVyMg== y" r = redacted /\
  @sanitizeUserAgent ascii_tables "x hunter%322" r = redacted /\ @sanitizeUserAgent ascii_tables "Bearer  abc" r = "".
Proof. vm_compute. repeat split. Qed.
