(* ===== verification/RedactProps.v ===== *)
(** * Redaction: what cannot pass

    The replacer does not depend on the order maps are visited in, and a
    configured credential, as it is or in one of the encodings the replacer
    knows, does not reach a sanitized field of an event record. *)
From S2P Require Import Prelude GoStrings GoCodec Names ConfigModel Redact.

#[local] Set Warnings "-clear-no-such-hyp,-notation-for-abbreviation".
#[local] Open Scope string_scope.
#[local] Open Scope list_scope.
#[local] Open Scope Z_scope.

(** ** Occurrences *)
Lemma contains_cons a s v : contains (String a s) v = has_prefix (String a s) v || contains s v.
Proof.
  unfold contains. cbn [index]. destruct (has_prefix (String a s) v); [done|]. cbn [orb]. by destruct (index s v).
Qed.
Lemma contains_nil v : contains "" v = String.eqb v "".
Proof. unfold contains. cbn [index]. by destruct v. Qed.
Lemma has_prefix_contains s v : has_prefix s v = true -> contains s v = true.
Proof. intros Hp. unfold contains. destruct s; cbn [index]; by rewrite Hp. Qed.
Lemma prefix_empty v : has_prefix "" v = String.eqb v "".
Proof. by destruct v. Qed.
(** A prefix of [a ++ t] lies in [a] or goes through it. *)
Lemma prefix_app a t v : has_prefix (a +:+ t) v = true ->
  has_prefix a v = true \/ exists w, v = a +:+ w /\ has_prefix t w = true.
Proof.
  revert v. induction a as [|c a IH]; intros v; cbn [String.append]; [right; by exists v|].
  destruct v as [|d v]; [by left|]. rewrite !has_prefix_cons. intros [He Hp]%andb_true_iff. apply Ascii.eqb_eq in He as ->.
  rewrite Ascii.eqb_refl. destruct (IH v Hp) as [Ha|(w & -> & Hw)]; [by left|right]. by exists w.
Qed.
Lemma prefix_app_l a t v : has_prefix a v = true -> has_prefix (a +:+ t) v = true.
Proof.
  revert v. induction a as [|c a IH]; intros v; [destruct v; [intros _; apply has_prefix_nil|done]|].
  destruct v as [|d v]; [intros _; apply has_prefix_nil|]. cbn [String.append]. rewrite !has_prefix_cons. intros [-> Hp]%andb_true_iff. by apply IH.
Qed.
Lemma prefix_app_r a t w : has_prefix t w = true -> has_prefix (a +:+ t) (a +:+ w) = true.
Proof. intros Hp. induction a as [|c a IH]; [done|]. cbn [String.append]. rewrite has_prefix_cons, Ascii.eqb_refl. exact IH. Qed.
Lemma contains_app_r a t v : contains t v = true -> contains (a +:+ t) v = true.
Proof. intros Hc. induction a as [|c a IH]; [done|]. cbn [String.append]. by rewrite contains_cons, IH, orb_true_r. Qed.
Lemma contains_app_l a t v : contains a v = true -> contains (a +:+ t) v = true.
Proof.
  induction a as [|c a IH]; cbn [String.append].
  - rewrite contains_nil. intros ->%String.eqb_eq. apply has_prefix_contains, has_prefix_nil.
  - rewrite !contains_cons. intros [Hp|Hc]%orb_true_iff; [|by rewrite IH, orb_true_r].
    change (String c (a +:+ t)) with (String c a +:+ t). by rewrite (prefix_app_l _ t _ Hp).
Qed.
(** Texts whose bytes cannot start an occurrence. *)
Definition starts (v : string) (c : ascii) : bool := match v with String d _ => Ascii.eqb c d | "" => true end.
Lemma contains_skip a t v : all_bytes (fun c => negb (starts v c)) a = true -> contains (a +:+ t) v = contains t v.
Proof.
  induction a as [|c a IH]; cbn [all_bytes String.append]; [done|]. intros [Hc Ha]%andb_true_iff. rewrite contains_cons, IH by done.
  destruct v as [|d v]; [done|]. cbn [starts] in Hc. rewrite has_prefix_cons. by destruct (Ascii.eqb c d).
Qed.
(** ** The first match is the longest *)
Definition good_variants (l : list string) : Prop := NoDup l /\ Forall (fun v => v <> "") l.
Lemma add_variants_good l vs n vs' n' : add_variants l vs n = (vs', n') -> good_variants vs -> good_variants vs'.
Proof.
  revert vs n. induction l as [|v l IH]; intros vs n; cbn [add_variants]; [by intros [= <- <-]|].
  destruct (String.eqb_spec v "") as [->|Hv]; [apply IH|]. case_bool_decide as Hin; [apply IH|]. destruct (_ <? _); [by intros [= <- <-]|].
  intros He [Hn Hf]. apply (IH _ _ He). split.
  - apply NoDup_app. split; [done|]. split; [set_solver|apply NoDup_singleton].
  - apply Forall_app. split; [done|]. by constructor.
Qed.
Lemma collect_good i values sb vs vb : good_variants vs -> good_variants (collect_variants i values sb vs vb).
Proof.
  revert i sb vs vb. induction values as [|v values IH]; intros i sb vs vb Hg; cbn [collect_variants]; [done|].
  destruct (_ || _); [by apply IH|]. destruct (add_variants _ vs vb) as [vs' vb'] eqn:E. apply IH. by eapply add_variants_good.
Qed.
#[export] Instance longer_trans : Transitive longer.
Proof. intros a b c. unfold longer. lia. Qed.
#[export] Instance longer_total : Total longer.
Proof. intros a b. unfold longer. lia. Qed.
Definition rules (l : list string) : Replacer := map (fun v => (v, redacted)) l.
Lemma first_match_rules l s : first_match (rules l) s = (fun v => (v, redacted)) <$> head (List.filter (fun v => has_prefix s v) l).
Proof. unfold first_match, rules. induction l as [|v l IH]; [done|]. cbn [map List.filter fst]. destruct (has_prefix s v); [done|exact IH]. Qed.
Lemma longest_match l s v : StronglySorted longer l -> head (List.filter (fun v => has_prefix s v) l) = Some v ->
  v ∈ l /\ has_prefix s v = true /\ forall w, w ∈ l -> has_prefix s w = true -> slen w <= slen v.
Proof.
  induction 1 as [|x l Hs IH Hx]; [done|]. cbn [List.filter]. destruct (has_prefix s x) eqn:E.
  - intros [= <-]. split; [by apply elem_of_cons; left|]. split; [done|]. intros w [->|Hw]%elem_of_cons; [lia|].
    rewrite Forall_forall in Hx. intros _. by apply Hx.
  - intros Hh. destruct (IH Hh) as (Hv & Hp & Hm). split; [by apply elem_of_cons; right|]. split; [done|].
    intros w [->|Hw]%elem_of_cons; [congruence|]. by apply Hm.
Qed.
Lemma prefix_unique s v w : has_prefix s v = true -> has_prefix s w = true -> slen v = slen w -> v = w.
Proof.
  revert v w. induction s as [|c s IH]; intros v w; [rewrite !prefix_empty; by intros ->%String.eqb_eq ->%String.eqb_eq|].
  destruct v as [|a v], w as [|b w]; try done. rewrite !has_prefix_cons, !slen_cons. intros [->%Ascii.eqb_eq Hv]%andb_true_iff [->%Ascii.eqb_eq Hw]%andb_true_iff Hl.
  f_equal. apply IH; [done|done|lia].
Qed.
Lemma head_filter_none {A} (p : A -> bool) l : head (List.filter p l) = None -> forall x, x ∈ l -> p x = false.
Proof.
  induction l as [|a l IH]; [intros _ x Hx; by apply elem_of_nil in Hx|]. cbn [List.filter]. destruct (p a) eqn:E; [done|].
  intros Hh x [->|Hx]%elem_of_cons; [done|]. by apply IH.
Qed.
Lemma first_match_perm l1 l2 s : l1 ≡ₚ l2 -> StronglySorted longer l1 -> StronglySorted longer l2 ->
  first_match (rules l1) s = first_match (rules l2) s.
Proof.
  intros HP Hs1 Hs2. rewrite !first_match_rules. f_equal.
  destruct (head (List.filter _ l1)) as [v|] eqn:E1, (head (List.filter _ l2)) as [w|] eqn:E2; [| | |done].
  - destruct (longest_match _ _ _ Hs1 E1) as (Hv & Hpv & Hmv), (longest_match _ _ _ Hs2 E2) as (Hw & Hpw & Hmw).
    f_equal. apply (prefix_unique s); [done|done|]. assert (slen w <= slen v) by (apply Hmv; [by rewrite HP|done]).
    assert (slen v <= slen w) by (apply Hmw; [by rewrite <- HP|done]). lia.
  - destruct (longest_match _ _ _ Hs1 E1) as (Hv & Hpv & _). rewrite (head_filter_none _ _ E2 v) in Hpv; [done|by rewrite <- HP].
  - destruct (longest_match _ _ _ Hs2 E2) as (Hw & Hpw & _). rewrite (head_filter_none _ _ E1 w) in Hpw; [done|by rewrite HP].
Qed.
Lemma replace_ext r1 r2 k s : (forall s, first_match r1 s = first_match r2 s) -> replace_go r1 k s = replace_go r2 k s.
Proof.
  intros Hr. revert k. induction s as [|c s IH]; intros k; [done|]. cbn [replace_go]. destruct k; [|apply IH]. rewrite Hr.
  destruct (first_match r2 _) as [[old new]|]; by rewrite IH.
Qed.
Lemma sorted_variants {o : RangeOrder} l : StronglySorted longer (merge_sort longer (range_entries 34 l)).
Proof. apply Sorted_StronglySorted; [apply _|]. apply Sorted_merge_sort. apply _. Qed.

(** The replacer of the configured credentials is a function of them: the
    random order in which the map of variants is visited and the unstable sort
    cannot be seen in what it replaces, since the variants of one length are
    distinct and the longest that matches wins. *)
Theorem replacer_is_deterministic : forall (o1 o2 : RangeOrder) values s,
  replaceSensitive (@newSensitiveValueReplacer o1 values) s = replaceSensitive (@newSensitiveValueReplacer o2 values) s.
Proof.
  intros o1 o2 values s. unfold newSensitiveValueReplacer. set (vs := collect_variants 0 values 0 [] 0).
  destruct (Z.of_nat (length vs) =? 0); [done|]. cbn [replaceSensitive]. destruct (String.eqb s ""); [done|]. apply replace_ext.
  intros t. apply first_match_perm; [|apply sorted_variants..].
  by rewrite !merge_sort_Permutation, (@range_entries_perm o1), (@range_entries_perm o2).
Qed.

(** ** Every variant of every value is replaced *)
Definition cost (value : string) : Z := total_bytes (variants_of value).
Lemma total_bytes_cons v l : total_bytes (v :: l) = slen v + total_bytes l.
Proof. done. Qed.
Lemma total_bytes_pos l : 0 <= total_bytes l.
Proof. unfold total_bytes. apply sum_Z_nonneg, Forall_map, Forall_forall. intros. apply slen_nonneg. Qed.
Lemma add_variants_all l vs n : n + total_bytes l <= maxVariantBytes ->
  exists vs' n', add_variants l vs n = (vs', n') /\ n' <= n + total_bytes l /\
    (forall v, v ∈ vs -> v ∈ vs') /\ (forall v, v ∈ l -> v <> "" -> v ∈ vs').
Proof.
  revert vs n. induction l as [|v l IH]; intros vs n Hn; cbn [add_variants].
  - exists vs, n. split; [done|]. split; [cbn; lia|]. split; [done|]. intros v Hv. by apply elem_of_nil in Hv.
  - rewrite total_bytes_cons in *. pose proof (slen_nonneg v). pose proof (total_bytes_pos l).
    assert (Hskip : v = "" \/ v ∈ vs -> exists vs' n', add_variants l vs n = (vs', n') /\ n' <= n + (slen v + total_bytes l) /\
      (forall v, v ∈ vs -> v ∈ vs') /\ (forall w, w ∈ v :: l -> w <> "" -> w ∈ vs')).
    { intros Hv. destruct (IH vs n) as (vs' & n' & He & Hl & Hk & Ha); [lia|]. exists vs', n'. split; [done|]. split; [lia|]. split; [done|].
      intros w [->|Hw]%elem_of_cons Hne; [destruct Hv; [done|by apply Hk]|by apply Ha]. }
    destruct (String.eqb_spec v "") as [->|Hne]; [apply Hskip; by left|]. case_bool_decide as Hin; [apply Hskip; by right|].
    rewrite (proj2 (Z.ltb_ge _ _)) by lia. destruct (IH (vs ++ [v]) (n + slen v)) as (vs' & n' & He & Hl & Hk & Ha); [lia|].
    exists vs', n'. split; [done|]. split; [lia|]. split; [intros w Hw; apply Hk; set_solver|].
    intros w [->|Hw]%elem_of_cons Hn'; [apply Hk; set_solver|by apply Ha].
Qed.
Lemma b64_length url pad l : slen (b64_encode url pad l) * 3 <= 4 * Z.of_nat (length l) + 8.
Proof.
  enough (H : forall n l, (length l <= n)%nat -> slen (b64_encode url pad l) * 3 <= 4 * Z.of_nat (length l) + 8) by by apply (H (length l)).
  clear l. induction n as [|n IH]; intros l Hl; [destruct l; [done|cbn in Hl; lia]|].
  destruct l as [|a [|b [|c l]]]; [done|by destruct pad|by destruct pad|].
  cbn [b64_encode length] in *. rewrite !slen_cons. specialize (IH l ltac:(lia)). lia.
Qed.
Lemma bytes_of_length s : Z.of_nat (length (bytes_of s)) = slen s.
Proof. unfold slen. induction s as [|c s IH]; [done|]. cbn [bytes_of length String.length]. lia. Qed.
Lemma escape_length (f : string -> string) (g : ascii -> string) s : f "" = "" -> (forall c s, f (String c s) = g c +:+ f s) ->
  (forall c, slen (g c) <= 3) -> slen (f s) <= 3 * slen s.
Proof.
  intros H0 Hf Hg. induction s as [|c s IH]; [by rewrite H0|]. rewrite Hf, slen_app, slen_cons. specialize (Hg c). lia.
Qed.
Lemma query_length s : slen (QueryEscape s) <= 3 * slen s.
Proof.
  apply (escape_length QueryEscape (fun c => if unreserved c then str1 c else if code c =? 32 then "+" else percent_byte c)); [done|done|].
  intros c. repeat case_match; done.
Qed.
Lemma path_length s : slen (PathEscape s) <= 3 * slen s.
Proof.
  apply (escape_length PathEscape (fun c => if unreserved c || any_byte (Ascii.eqb c) "$&+:=@" then str1 c else percent_byte c)); [done|done|].
  intros c. by case_match.
Qed.
Lemma cost_bound v : 3 * cost v <= 37 * slen v + 32.
Proof.
  unfold cost, variants_of. rewrite !total_bytes_cons. change (total_bytes []) with 0. pose proof (query_length v). pose proof (path_length v).
  pose proof (b64_length false true (bytes_of v)). pose proof (b64_length false false (bytes_of v)).
  pose proof (b64_length true true (bytes_of v)). pose proof (b64_length true false (bytes_of v)). rewrite bytes_of_length in *. lia.
Qed.
Definition fits (values : list string) : Prop := Z.of_nat (length values) <= 320 /\ total_bytes values <= 2 ^ 14.
Lemma collect_all values i sb vs vb : i + Z.of_nat (length values) <= 320 -> sb + total_bytes values <= 2 ^ 14 -> 0 <= sb ->
  3 * vb + 37 * total_bytes values + 32 * Z.of_nat (length values) <= 3 * maxVariantBytes ->
  forall w, (w ∈ vs \/ exists v, v ∈ values /\ v <> "" /\ w ∈ variants_of v /\ w <> "") -> w ∈ collect_variants i values sb vs vb.
Proof.
  revert i sb vs vb. induction values as [|v values IH]; intros i sb vs vb Hi Hs H0 Hc w Hw; cbn [collect_variants].
  { destruct Hw as [Hw|(v & Hv & _)]; [done|by apply elem_of_nil in Hv]. }
  rewrite total_bytes_cons in *. cbn [length] in *. pose proof (slen_nonneg v). pose proof (total_bytes_pos values).
  rewrite (proj2 (Z.leb_gt maxRedactValues i)), (proj2 (Z.ltb_ge maxSourceBytes (slen v))), (proj2 (Z.ltb_ge maxSourceBytes (sb + slen v)))
    by (unfold maxRedactValues, maxSourceBytes; lia).
  rewrite !orb_false_r. cbn [orb]. destruct (String.eqb_spec v "") as [->|Hne].
  - apply IH; [lia|lia|lia|change (slen "") with 0 in *; lia|]. destruct Hw as [Hw|(v & [->|Hv]%elem_of_cons & Hn & Hw)]; [by left|done|].
    right. by exists v.
  - pose proof (cost_bound v). destruct (add_variants_all (variants_of v) vs vb) as (vs' & n' & E & Hl & Hk & Ha); [unfold cost in *; lia|].
    rewrite E. apply IH; [lia|lia|lia|unfold cost in *; lia|].
    destruct Hw as [Hw|(u & [->|Hu]%elem_of_cons & Hn & Hw & Hwn)]; [left; by apply Hk|left; by apply Ha|right; by exists u].
Qed.
Lemma variants_complete values v w : fits values -> v ∈ values -> v <> "" -> w ∈ variants_of v -> w <> "" ->
  w ∈ collect_variants 0 values 0 [] 0.
Proof.
  intros [Hn Hb] Hv Hne Hw Hwn. apply collect_all; [lia|lia|lia|unfold maxVariantBytes; lia|]. right. by exists v.
Qed.

(** ** A credential does not survive *)
Definition opening : ascii := chr 91.
Definition closing : ascii := chr 93.
Definition visible (c : ascii) : bool := (33 <=? code c) && (code c <? 127).
(** What can be hidden: a text of visible ASCII without brackets that does not
    occur in the mark that replaces it. *)
Definition hideable (v : string) : bool :=
  negb (String.eqb v "") && all_bytes visible v && negb (str_in opening v) && negb (str_in closing v) && negb (contains "redacted" v).
Record hidden (v : string) : Prop := {
  hd_nonempty : v <> ""; hd_visible : all_bytes visible v = true;
  hd_open : str_in opening v = false; hd_close : str_in closing v = false; hd_mark : contains "redacted" v = false;
}.
Lemma hideable_hidden v : hideable v = true -> hidden v.
Proof. unfold hideable. intros Hv. bool_to_prop. by split. Qed.
Lemma prefix_stop u t w : str_in closing w = false -> has_prefix (u +:+ String closing t) w = true -> has_prefix u w = true.
Proof.
  revert w. induction u as [|c u IH]; intros w Hw; cbn [String.append].
  - destruct w as [|d w]; [done|]. rewrite has_prefix_cons. cbn [str_in] in Hw. apply orb_false_iff in Hw as [Hd _].
    destruct (Ascii.eqb_spec closing d) as [<-|]; [|done]. by rewrite Ascii.eqb_refl in Hd.
  - destruct w as [|d w]; [intros _; apply has_prefix_nil|]. cbn [str_in] in Hw. apply orb_false_iff in Hw as [_ Hw].
    rewrite !has_prefix_cons. intros [-> Hp]%andb_true_iff. by apply IH.
Qed.
Lemma contains_stop u t w : str_in closing w = false -> w <> "" -> contains (u +:+ String closing t) w = true ->
  contains u w = true \/ contains t w = true.
Proof.
  intros Hw Hn. induction u as [|c u IH]; cbn [String.append].
  - rewrite contains_cons. intros [Hp|Hc]%orb_true_iff; [|by right]. apply (prefix_stop "") in Hp; [|done]. rewrite prefix_empty in Hp.
    by apply String.eqb_eq in Hp.
  - rewrite contains_cons. intros [Hp|Hc]%orb_true_iff.
    + left. apply has_prefix_contains. by apply (prefix_stop (String c u) t).
    + rewrite contains_cons. destruct (IH Hc) as [E|E]; rewrite E; [left; by rewrite orb_true_r|by right].
Qed.
Lemma contains_open c u w : w <> "" -> str_in c w = false -> contains (String c u) w = contains u w.
Proof.
  intros Hn Hw. rewrite contains_cons. destruct w as [|d w]; [done|]. cbn [str_in] in Hw. apply orb_false_iff in Hw as [Hd _].
  rewrite has_prefix_cons. destruct (Ascii.eqb_spec c d) as [->|]; [by rewrite Ascii.eqb_refl in Hd|done].
Qed.
Lemma contains_redacted t v : hidden v -> contains (redacted +:+ t) v = contains t v.
Proof.
  intros [Hn _ Ho Hc Hm]. apply eq_true_iff_eq. split; [|apply contains_app_r].
  change (redacted +:+ t) with (String opening ("redacted" +:+ String closing t)). rewrite contains_open by done.
  intros [Hr|Ht]%contains_stop; [congruence|done..].
Qed.
Lemma redacted_clean v : hidden v -> contains redacted v = false.
Proof.
  intros Hv. rewrite <- (str_app_nil redacted), contains_redacted, contains_nil by done. apply String.eqb_neq. apply Hv.
Qed.

Section hide.
Context (l : list string).
Notation r := (rules l).
Lemma match_some s w : w ∈ l -> has_prefix s w = true -> is_Some (first_match r s).
Proof.
  intros Hw Hp. rewrite first_match_rules. destruct (head _) as [v|] eqn:E; [by eexists|].
  rewrite (head_filter_none _ _ E w Hw) in Hp. done.
Qed.
Lemma match_redacted s old new : first_match r s = Some (old, new) -> new = redacted /\ has_prefix s old = true /\ old ∈ l.
Proof.
  rewrite first_match_rules. destruct (head _) as [v|] eqn:E; [|done]. intros [= <- <-]. split; [done|].
  assert (Hin : List.In v (List.filter (fun v => has_prefix s v) l)) by (destruct (List.filter _ l); [done|injection E as ->; by left]).
  apply filter_In in Hin as [Hin Hp]. split; [done|]. by apply list_elem_of_In.
Qed.
Lemma replace_prefix s v : str_in opening v = false -> has_prefix (replace_go r 0 s) v = true -> has_prefix s v = true.
Proof.
  revert v. induction s as [|c s IH]; intros v Hv; [done|]. cbn [replace_go]. destruct v as [|d v]; [intros _; apply has_prefix_nil|].
  cbn [str_in] in Hv. apply orb_false_iff in Hv as [Hd Hv].
  destruct (first_match r _) as [[old new]|] eqn:Em.
  - apply match_redacted in Em as (-> & _ & _). change (redacted +:+ ?t) with (String opening ("redacted]" +:+ t)). rewrite has_prefix_cons.
    destruct (Ascii.eqb_spec opening d) as [<-|]; [by rewrite Ascii.eqb_refl in Hd|done].
  - rewrite !has_prefix_cons. intros [-> Hp]%andb_true_iff. by apply IH.
Qed.
Lemma replace_hides w k s : w ∈ l -> hidden w -> contains (replace_go r k s) w = false.
Proof.
  intros Hw Hh. pose proof Hh as [Hn _ Ho _ _]. revert k. induction s as [|c s IH]; intros k.
  { cbn [replace_go]. rewrite contains_nil. by apply String.eqb_neq. }
  cbn [replace_go]. destruct k as [|k]; [|apply IH]. destruct (first_match r (String c s)) as [[old new]|] eqn:Em.
  - apply match_redacted in Em as (-> & _ & _). by rewrite contains_redacted.
  - rewrite contains_cons, IH, orb_false_r. apply not_true_iff_false. intros Hp.
    assert (Hs : has_prefix (String c s) w = true).
    { apply (replace_prefix _ w Ho). cbn [replace_go]. by rewrite Em. }
    destruct (match_some _ _ Hw Hs) as [? E]. congruence.
Qed.
End hide.

(** ** Bounded texts *)
Definition invisible (s : string) : bool := negb (String.eqb s "") && all_bytes (fun c => negb (visible c)) s.
Lemma high_invisible s : s <> "" -> all_bytes (fun c => 128 <=? code c) s = true -> invisible s = true.
Proof.
  intros Hn Hs. unfold invisible. rewrite (proj2 (String.eqb_neq s "")) by done. cbn [negb andb]. revert Hs. clear Hn.
  induction s as [|c s IH]; [done|]. cbn [all_bytes]. intros [Hc Hs]%andb_true_iff. rewrite IH, andb_true_r by done.
  unfold visible. apply Z.leb_le in Hc. by rewrite (proj2 (Z.ltb_ge (code c) 127)), andb_false_r by lia.
Qed.
Lemma encode_high r : scalar r -> 128 <= r -> invisible (encode_rune r) = true.
Proof.
  intros Hs Hr. destruct (chunk_scalar r (encode_rune r) (encode_rune_chunk r Hs)) as (_ & _ & [[? _]|[_ Hb]]); [lia|].
  apply high_invisible; [|done]. unfold encode_rune. by repeat case_match.
Qed.
Definition kept_or_hidden (rb : Z * string) : Prop := bounded_rune rb = rb.2 \/ invisible (bounded_rune rb) = true /\ invisible rb.2 = true.
Lemma bounded_kept s : Forall kept_or_hidden (runes s).
Proof.
  eapply Forall_impl; [apply runes_spec|]. intros [r b]. cbn [fst snd]. unfold kept_or_hidden, bounded_rune. cbn [fst snd]. intros [Hc|[-> (a & -> & Ha)]].
  - destruct (chunk_scalar r b Hc) as (Hs & <- & [[Hr Hb]|[Hr Hb]]).
    + destruct (_ && _) eqn:E; [by left|right]. split; [done|]. rewrite Hb. unfold invisible. cbn [str1 String.eqb negb andb all_bytes].
      unfold scalar in Hs. unfold visible. rewrite code_chr by (unfold is_byte; lia). rewrite andb_true_r.
      apply andb_false_iff in E as [E|E]; bool_to_prop; apply negb_true_iff, andb_false_iff; rewrite Z.leb_gt, Z.ltb_ge; lia.
    + left. by rewrite (proj2 (Z.leb_le 32 r)), (proj2 (Z.eqb_neq r 127)) by lia.
  - right. split; [reflexivity|]. apply high_invisible; [done|]. cbn [str1 all_bytes]. by rewrite (proj2 (Z.leb_le 128 _)).
Qed.
Lemma invisible_prefix x t v : invisible x = true -> all_bytes visible v = true -> has_prefix (x +:+ t) v = true -> v = "".
Proof.
  unfold invisible. destruct x as [|c x]; [done|]. cbn [String.eqb negb andb all_bytes]. intros [Hc _]%andb_true_iff Hv.
  destruct v as [|d v]; [done|]. cbn [String.append]. rewrite has_prefix_cons. cbn [all_bytes] in Hv. apply andb_true_iff in Hv as [Hd _].
  destruct (Ascii.eqb_spec c d) as [->|]; [|done]. by rewrite Hd in Hc.
Qed.
Lemma invisible_skip x t v : invisible x = true -> all_bytes visible v = true -> v <> "" -> contains (x +:+ t) v = contains t v.
Proof.
  unfold invisible. intros [_ Hx]%andb_true_iff Hv Hn. apply contains_skip. revert Hx. destruct v as [|d v]; [done|].
  cbn [all_bytes] in Hv. apply andb_true_iff in Hv as [Hd _]. clear Hn. induction x as [|c x IH]; [done|]. cbn [all_bytes]. change (starts (String d v) c) with (Ascii.eqb c d).
  intros [Hc Hx]%andb_true_iff. rewrite IH, andb_true_r by done. destruct (Ascii.eqb_spec c d) as [->|]; [by rewrite Hd in Hc|done].
Qed.
Lemma visible_suffix x w : all_bytes visible (x +:+ w) = true -> all_bytes visible w = true.
Proof. rewrite all_bytes_app. by intros [_ ?]%andb_true_iff. Qed.
Lemma chunks_prefix l v : Forall kept_or_hidden l -> all_bytes visible v = true ->
  has_prefix (str_concat (map bounded_rune l)) v = true -> has_prefix (str_concat (map snd l)) v = true.
Proof.
  intros Hl. revert v. induction Hl as [|rb l Hrb Hl IH]; intros v Hv; [done|]. cbn [map str_concat]. destruct Hrb as [->|[Hx _]].
  - intros [Hp|(w & -> & Hw)]%prefix_app; [by apply prefix_app_l|]. apply prefix_app_r, IH; [by eapply visible_suffix|done].
  - intros ->%(invisible_prefix _ _ _ Hx Hv). apply has_prefix_nil.
Qed.
(** An occurrence in a concatenation starts in its first part or lies in the second. *)
Lemma contains_mono x t t' v : (forall w, (exists u, v = u +:+ w) -> has_prefix t' w = true -> has_prefix t w = true) ->
  (contains t' v = true -> contains t v = true) -> contains (x +:+ t') v = true -> contains (x +:+ t) v = true.
Proof.
  intros Hp Hc. induction x as [|c x IH]; [done|]. cbn [String.append]. rewrite !contains_cons. intros [Hx|Hx]%orb_true_iff; [|by rewrite IH, orb_true_r].
  change (String c (x +:+ t')) with (String c x +:+ t') in Hx. change (String c (x +:+ t)) with (String c x +:+ t).
  apply prefix_app in Hx as [Hx|(w & -> & Hw)]; [by rewrite (prefix_app_l _ t _ Hx)|].
  assert (Hpw : has_prefix (String c x +:+ t) (String c x +:+ w) = true); [|by rewrite Hpw]. apply prefix_app_r, Hp; [|done]. by exists (String c x).
Qed.
Lemma chunks_contain l v : Forall kept_or_hidden l -> all_bytes visible v = true -> v <> "" ->
  contains (str_concat (map bounded_rune l)) v = true -> contains (str_concat (map snd l)) v = true.
Proof.
  intros Hl Hv Hn. induction Hl as [|rb l Hrb Hl IH]; [done|]. cbn [map str_concat]. destruct Hrb as [->|[Hx Hb]].
  - apply contains_mono; [|exact IH]. intros w [u ->] Hw. apply chunks_prefix; [done|by eapply visible_suffix|done].
  - by rewrite !invisible_skip.
Qed.
Lemma drop_spaces_suffix l : exists p, l = p ++ drop_spaces l.
Proof.
  induction l as [|[r b] l [p IH]]; [by exists []|]. cbn [drop_spaces]. destruct (is_space r); [|by exists []].
  exists ((r, b) :: p). cbn [app]. by rewrite <- IH.
Qed.
Lemma trim_space_inside s : exists a b, s = a +:+ trim_space s +:+ b.
Proof.
  unfold trim_space. destruct (drop_spaces_suffix (runes s)) as [p Hp]. set (d := drop_spaces (runes s)) in *.
  destruct (drop_spaces_suffix (reverse d)) as [q Hq]. set (m := drop_spaces (reverse d)) in *.
  assert (Hd : d = reverse m ++ reverse q) by (rewrite <- reverse_app, <- Hq; by rewrite reverse_involutive).
  exists (str_concat (map snd p)), (str_concat (map snd (reverse q))). rewrite <- (runes_concat s) at 1. rewrite Hp, Hd.
  by rewrite !map_app, !str_concat_app.
Qed.
(** A visible text in the result of [boundedText] was in its argument. *)
Lemma bounded_contains value n v : all_bytes visible v = true -> v <> "" -> contains (boundedText value n) v = true -> contains value v = true.
Proof.
  intros Hv Hn. unfold boundedText. cbv zeta. set (w := if n <? slen value then _ else _). intros Hc.
  assert (Hw : contains w v = true -> contains value v = true).
  { unfold w. destruct (n <? slen value); [|done]. intros Ht. rewrite (str_take_drop (Z.to_nat n) value). by apply contains_app_l. }
  apply Hw. rewrite <- (runes_concat w). apply chunks_contain; [apply bounded_kept|done|done|].
  destruct (trim_space_inside (str_concat (map bounded_rune (runes w)))) as (a & b & E). rewrite E. by apply contains_app_r, contains_app_l.
Qed.

(** ** Segments of a path *)
Definition maybe_redacted (part part' : string) : Prop := part' = part \/ part' = redacted.
Lemma redact_parts_maybe `{UnicodeTables} b parts : Forall2 maybe_redacted parts (redact_parts b parts).
Proof.
  revert b. induction parts as [|part parts IH]; intros b; cbn [redact_parts]; [constructor|]. unfold maybe_redacted in *.
  repeat case_match; constructor; try apply IH; auto.
Qed.
Section covers.
Context (v : string) (Hv : hidden v).
(** Text [t'] shows no more of [v] than [t]. *)
Definition covers (t' t : string) : Prop :=
  (forall w, str_in opening w = false -> has_prefix t' w = true -> has_prefix t w = true) /\ (contains t' v = true -> contains t v = true).
Lemma covers_app x t' t : covers t' t -> covers (x +:+ t') (x +:+ t).
Proof using Hv.
  intros [Hp Hc]. split.
  - intros w Hw [Hx|(u & -> & Hu)]%prefix_app; [by apply prefix_app_l|]. apply prefix_app_r, Hp; [|done].
    rewrite str_in_app in Hw. by apply orb_false_iff in Hw as [_ Hw].
  - apply contains_mono; [|done]. intros w [u E] Hw. apply Hp; [|done]. pose proof (hd_open _ Hv) as Ho. rewrite E, str_in_app in Ho.
    by apply orb_false_iff in Ho as [_ Ho].
Qed.
Lemma covers_redacted x t' t : covers t' t -> covers (redacted +:+ t') (x +:+ t).
Proof using Hv.
  intros [Hp Hc]. split.
  - intros w Hw. destruct w as [|d w]; [intros _; apply has_prefix_nil|]. cbn [str_in] in Hw. apply orb_false_iff in Hw as [Hd _].
    change (redacted +:+ t') with (String opening ("redacted]" +:+ t')). rewrite has_prefix_cons.
    destruct (Ascii.eqb_spec opening d) as [<-|]; [by rewrite Ascii.eqb_refl in Hd|done].
  - rewrite contains_redacted by done. intros Ht. by apply contains_app_r, Hc.
Qed.
Lemma covers_refl t : covers t t.
Proof. by split. Qed.
Lemma covers_join parts parts' sep : Forall2 maybe_redacted parts parts' -> covers (join parts' sep) (join parts sep).
Proof using Hv.
  induction 1 as [|x y parts parts' Hxy HF IH]; [apply covers_refl|].
  assert (Hone : forall t' t, covers t' t -> covers (y +:+ t') (x +:+ t)).
  { intros t' t Ht. destruct Hxy as [->| ->]; [by apply covers_app|by apply covers_redacted]. }
  destruct HF as [|x2 y2 parts parts' Hxy2 HF].
  - cbn [join]. rewrite <- (str_app_nil x), <- (str_app_nil y). apply Hone, covers_refl.
  - change (join (y :: y2 :: parts') sep) with (y +:+ sep +:+ join (y2 :: parts') sep).
    change (join (x :: x2 :: parts) sep) with (x +:+ sep +:+ join (x2 :: parts) sep). by apply Hone, covers_app.
Qed.
End covers.

(** ** The sanitizers *)
Section sanitizers.
Context `{UnicodeTables} `{RangeOrder} (values : list string) (v w : string).
Context (Hfit : fits values) (Hin : v ∈ values) (Hvar : w ∈ variants_of v) (Hide : hideable w = true).
Lemma credential_replaced : exists l, newSensitiveValueReplacer values = Some (rules l) /\ w ∈ l.
Proof using Hfit Hin Hvar Hide.
  pose proof (hideable_hidden w Hide) as [Hn _ _ _ _]. assert (Hv : v <> "").
  { intros ->. apply Hn. unfold variants_of in Hvar. cbn in Hvar. rewrite !elem_of_cons, elem_of_nil in Hvar. naive_solver. }
  pose proof (variants_complete values v w Hfit Hin Hv Hvar Hn) as Hw. unfold newSensitiveValueReplacer. cbv zeta.
  set (vs := collect_variants 0 values 0 [] 0) in *. destruct (Z.of_nat (length vs) =? 0) eqn:E.
  - destruct vs; [by apply elem_of_nil in Hw|]. bool_to_prop. cbn in E. lia.
  - eexists. split; [reflexivity|]. by rewrite merge_sort_Permutation, range_entries_perm.
Qed.
Lemma sensitive_replaced s : contains (replaceSensitive (newSensitiveValueReplacer values) s) w = false.
Proof using Hfit Hin Hvar Hide.
  destruct credential_replaced as (l & -> & Hl). pose proof (hideable_hidden w Hide) as Hh. cbn [replaceSensitive].
  destruct (String.eqb_spec s "") as [->|]; [rewrite contains_nil; apply String.eqb_neq, Hh|]. by apply replace_hides.
Qed.
Lemma scan_result r accept depth c : scan r accept depth c = "" \/ scan r accept depth c = redacted \/
  scan r accept depth c = accept /\ replaceSensitive r c = c.
Proof.
  destruct depth; cbn [scan]; (destruct (hasCredentialMarker c); [by left|]);
    destruct (String.eqb_spec (replaceSensitive r c) c) as [Hr|]; cbn [negb]; try (right; by left);
    (destruct (PathUnescape c) as [d|]; [|by left]); destruct (String.eqb d c); try (right; by right); [by left|].
  clear -Hr. assert (G : forall n e, scan r accept n e = "" \/ scan r accept n e = redacted \/ scan r accept n e = accept).
  { induction n as [|n IH]; intros e; cbn [scan]; repeat case_match; auto. }
  destruct (G depth d) as [->|[->| ->]]; auto.
Qed.
Lemma scan_hides n value depth : contains (scan (newSensitiveValueReplacer values) (boundedText value n) depth value) w = false.
Proof using Hfit Hin Hvar Hide.
  pose proof (hideable_hidden w Hide) as Hh.
  destruct (scan_result (newSensitiveValueReplacer values) (boundedText value n) depth value) as [->|[->|[-> Hr]]].
  - rewrite contains_nil. apply String.eqb_neq, Hh.
  - by apply redacted_clean.
  - apply not_true_iff_false. intros Hc. apply bounded_contains in Hc; [|apply Hh..].
    pose proof (sensitive_replaced value) as Hs. rewrite Hr in Hs. congruence.
Qed.
Lemma path_hides path : contains (sanitizePathWithReplacer path (newSensitiveValueReplacer values)) w = false.
Proof using Hfit Hin Hvar Hide.
  pose proof (hideable_hidden w Hide) as Hh. assert (Hnil : contains "" w = false) by (rewrite contains_nil; apply String.eqb_neq, Hh).
  unfold sanitizePathWithReplacer. repeat (case_match; [exact Hnil|]). destruct (decode_path 8 0 path) as [p|]; [|exact Hnil]. cbv zeta.
  apply not_true_iff_false. intros Hc. apply bounded_contains in Hc; [|apply Hh..].
  apply (covers_join w Hh _ _ "/" (redact_parts_maybe false _)) in Hc. change "/" with (str1 (chr 47)) in Hc. rewrite join_split in Hc.
  by rewrite sensitive_replaced in Hc.
Qed.
Lemma user_agent_hides text : contains (sanitizeUserAgent text (newSensitiveValueReplacer values)) w = false.
Proof using Hfit Hin Hvar Hide.
  unfold sanitizeUserAgent. destruct (_ <? _); [rewrite contains_nil; apply String.eqb_neq, (hideable_hidden w Hide)|apply scan_hides].
Qed.
Lemma method_hides text : contains (sanitizeMethod text (newSensitiveValueReplacer values)) w = false.
Proof using Hfit Hin Hvar Hide.
  unfold sanitizeMethod. destruct (_ <? _); [rewrite contains_nil; apply String.eqb_neq, (hideable_hidden w Hide)|apply scan_hides].
Qed.
End sanitizers.

(** A configured credential, as it is, in Base64, query- or path-escaped, never
    reaches a sanitized field of an event record, whatever the field is given:
    the credentials are those within the limits that validation keeps; the text
    is visible ASCII without brackets and does not occur in the word that
    replaces it. *)
Theorem credentials_never_pass : forall (u : UnicodeTables) (o : RangeOrder) values v w text,
  fits values -> v ∈ values -> w ∈ variants_of v -> hideable w = true ->
  let redactor := newSensitiveValueReplacer values in
  contains (sanitizeUserAgent text redactor) w = false /\ contains (sanitizeMethod text redactor) w = false /\
  contains (sanitizePathWithReplacer text redactor) w = false.
Proof.
  intros u o values v w text Hfit Hin Hvar Hide. cbv zeta.
  split; [by eapply user_agent_hides|]. split; [by eapply method_hides|by eapply path_hides].
Qed.
Lemma credentials_never_pass_witness :
  @sanitizeUserAgent ascii_tables "curl hunter%2532" (@newSensitiveValueReplacer key_order ["hunter2"]) = redacted /\
  contains (@sanitizeUserAgent ascii_tables "curl hunter%2532" (@newSensitiveValueReplacer key_order ["hunter2"])) "aHVudGVyMg==" = false.
Proof.
  split; [vm_compute; reflexivity|].
  refine (proj1 (credentials_never_pass ascii_tables key_order ["hunter2"] "hunter2" "aHVudGVyMg==" "curl hunter%2532" _ _ _ _)).
  - split; vm_compute; discriminate.
  - apply elem_of_cons. left. reflexivity.
  - apply elem_of_cons. right. apply elem_of_cons. left. reflexivity.
  - vm_compute. reflexivity.
Defined.
(** The text has to be visible: the blank that replaces a control character can
    complete a credential that holds one. *)
Example blanks_can_form_a_credential :
  @sanitizeUserAgent ascii_tables (String.append "open" (String (chr 1) "sesame")) (@newSensitiveValueReplacer key_order ["open sesame"]) = "open sesame".
Proof. vm_compute. reflexivity. Qed.

(** ** What an accepted text looks like at every depth of decoding *)
Fixpoint decodings (k : nat) (s : string) : option string :=
  match k with O => Some s | S k => d ← PathUnescape s; decodings k d end.
Section accepted.
Context `{UnicodeTables} `{RangeOrder} (values : list string).
Let redactor := newSensitiveValueReplacer values.
Definition innocent (d : string) : Prop := hasCredentialMarker d = false /\
  forall v w, fits values -> v ∈ values -> w ∈ variants_of v -> hideable w = true -> contains d w = false.
Lemma scan_accepted accept depth c : scan redactor accept depth c <> "" -> scan redactor accept depth c <> redacted ->
  scan redactor accept depth c = accept /\ forall k, exists d, decodings k c = Some d /\ innocent d.
Proof.
  assert (Hstep : forall c, hasCredentialMarker c = false -> replaceSensitive redactor c = c -> innocent c).
  { intros e He Hr. split; [done|]. intros v w Hf Hin Hvar Hide. pose proof (sensitive_replaced values v w Hf Hin Hvar Hide e) as Hs.
    fold redactor in Hs. by rewrite Hr in Hs. }
  revert c. induction depth as [|depth IH]; intros c; cbn [scan]; (destruct (hasCredentialMarker c) eqn:Em; [done|]);
    destruct (String.eqb_spec (replaceSensitive redactor c) c) as [Hr|]; cbn [negb]; try done;
    (destruct (PathUnescape c) as [d|] eqn:Ed; [|done]); destruct (String.eqb_spec d c) as [->|Hne]; try done.
  1, 2: intros _ _; split; [done|]; induction k as [|k IHk]; [exists c; by split; [|apply Hstep]|]; cbn [decodings]; by rewrite Ed.
  intros H1 H2. destruct (IH d H1 H2) as [Ha Hk]. split; [done|]. intros [|k]; [exists c; by split; [|apply Hstep]|].
  cbn [decodings]. rewrite Ed. apply Hk.
Qed.
End accepted.


(** ** Segments after a label *)
Section segments.
Context `{UnicodeTables}.
Definition harmless (p : string) : Prop := sensitiveLabel p = false /\ containsSensitiveLabel p = false /\ looksLikeSecret p = false.
Lemma empty_harmless : sensitiveLabel "" = false /\ containsSensitiveLabel "" = false /\ looksLikeSecret "" = false.
Proof. done. Qed.
Lemma redact_parts_cases b parts i p : redact_parts b parts !! i = Some p ->
  p = redacted \/ sensitiveLabel p = true /\ drop (S i) (redact_parts b parts) = redact_parts true (drop (S i) parts) \/ harmless p.
Proof.
  revert b i. induction parts as [|part parts IH]; intros b i; [done|]. cbn [redact_parts]. destruct i as [|i].
  - repeat case_match; intros [= <-]; try (by left); try (right; left; by split); right; right; by repeat split.
  - repeat case_match; cbn; apply IH.
Qed.
Lemma redact_next parts j q : redact_parts true parts !! j = Some q -> q <> "" ->
  (forall k x, (k < j)%nat -> redact_parts true parts !! k = Some x -> x = "") -> q = redacted.
Proof.
  revert j. induction parts as [|part parts IH]; intros j; [done|]. cbn [redact_parts]. destruct (String.eqb_spec part "") as [->|Hne].
  - destruct empty_harmless as (-> & -> & ->). destruct j as [|j]; [by intros [= <-]|]. cbn. intros Hq Hn Hb. apply (IH j Hq Hn).
    intros k x Hk Hx. apply (Hb (S k) x); [lia|done].
  - cbn [negb andb]. destruct j as [|j]; [by intros [= <-]|]. intros _ _ Hb. by specialize (Hb O redacted ltac:(lia) eq_refl).
Qed.
End segments.

