(* ===== verification/Logger.v ===== *)
(** * The event logger

    logger.go: the client address behind trusted proxies, the sanitized event,
    its two line formats and [EventLogger] with the sinks it fans out to. *)
From S2P Require Import Prelude GoStrings GoCodec ConfigModel Value Json Names GoTime Netip Redact.

#[local] Set Warnings "-clear-no-such-hyp,-notation-for-abbreviation".
#[local] Open Scope string_scope.
#[local] Open Scope list_scope.
#[local] Open Scope Z_scope.

(** ** Trusted proxies *)
Definition trusted_prefix (value : string) : option Prefix :=
  p ← ParsePrefix (trim_space value);
  if negb (String.eqb (Zone (px_addr p)) "") then None
  else if Is4In6 (px_addr p) then
    if px_bits p <? 96 then None
    else Some (Masked {| px_addr := Unmap (px_addr p); px_bits := px_bits p - 96 |})
  else Some (Masked p).
Definition parseTrustedProxyCIDRs (values : list string) : list Prefix := omap trusted_prefix values.
Definition isTrustedProxy (addr : Addr) (trusted : list Prefix) : bool := existsb (fun prefix => Contains prefix addr) trusted.
Definition parseRemoteIP (remoteAddr : string) : option Addr :=
  let host := match SplitHostPort remoteAddr with Some (host, _) => host | None => remoteAddr end in
  addr ← ParseAddr host; if String.eqb (Zone addr) "" then Some (Unmap addr) else None.

Definition maxForwardedBytes : Z := 4096.
Definition maxForwardedHops : Z := 32.
(** The fields of one header value, then the values; [None] where the function
    gives up. *)
Fixpoint parse_fields (fields : list string) (hops : list Addr) : option (list Addr) :=
  match fields with
  | [] => Some hops
  | field :: fields =>
      let field := trim_space field in
      if String.eqb field "" || (maxForwardedHops <=? Z.of_nat (length hops)) then None
      else match ParseAddr field with
           | Some addr => if String.eqb (Zone addr) "" then parse_fields fields (hops ++ [Unmap addr]) else None
           | None => None
           end
  end.
Fixpoint parse_hops (values : list string) (totalBytes : Z) (hops : list Addr) : option (list Addr) :=
  match values with
  | [] => Some hops
  | value :: values =>
      if maxForwardedBytes <? totalBytes + slen value then None
      else hops ← parse_fields (split (chr 44) value) hops; parse_hops values (totalBytes + slen value) hops
  end.
(** The loop from the right: the hop nearest to us that is not trusted. *)
Definition last_untrusted (hops : list Addr) (trusted : list Prefix) : option Addr :=
  head (List.filter (fun hop => negb (isTrustedProxy hop trusted)) (reverse hops)).
Definition clientAddrFromXFF (remoteAddr : string) (forwardedValues : list string) (trusted : list Prefix) : string :=
  match trusted, forwardedValues with
  | [], _ | _, [] => ""
  | _, _ =>
      match parseRemoteIP remoteAddr with
      | None => ""
      | Some peer =>
          if negb (isTrustedProxy peer trusted) then ""
          else match parse_hops forwardedValues 0 [] with
               | None => ""
               | Some hops => match last_untrusted hops trusted with Some hop => Addr_String hop | None => "" end
               end
      end
  end.
Definition normalizeIPString (value : string) : string :=
  if String.eqb value "" then ""
  else match ParseAddr value with
       | Some addr => if String.eqb (Zone addr) "" then Addr_String (Unmap addr) else ""
       | None => ""
       end.

(** ** The two formats of a line *)
Section logger.
Context `{UnicodeTables}.

Definition appendTextKey (line key : string) : string := (if String.eqb line "" then "" else line +:+ " ") +:+ key +:+ "=".
Definition appendTextString (line key value : string) (optional : bool) : string :=
  if optional && String.eqb value "" then line else appendTextKey line key +:+ go_quote value.
Definition appendTextInt (line key : string) (value : Z) (optional : bool) : string :=
  if optional && (value =? 0) then line else appendTextKey line key +:+ itoa value.
Definition marshalText (e : Event) : string :=
  let line := appendTextString "" "timestamp" (ev_Timestamp e) false in
  let line := appendTextString line "event_id" (ev_EventID e) false in
  let line := appendTextString line "sensor" (ev_Sensor e) false in
  let line := appendTextString line "session_id" (ev_SessionID e) true in
  let line := appendTextString line "action" (ev_Action e) true in
  let line := appendTextString line "outcome" (ev_Outcome e) true in
  let line := appendTextString line "profile" (ev_Profile e) true in
  let line := appendTextString line "target" (ev_Target e) true in
  let line := appendTextString line "remote_addr" (ev_RemoteAddr e) false in
  let line := appendTextString line "client_addr" (ev_ClientAddr e) true in
  let line := appendTextString line "method" (ev_Method e) true in
  let line := appendTextString line "path" (ev_Path e) true in
  let line := appendTextInt line "status_code" (ev_StatusCode e) true in
  let line := appendTextInt line "bytes_received" (ev_BytesReceived e) true in
  let line := appendTextInt line "bytes_sent" (ev_BytesSent e) true in
  let line := appendTextString line "user_agent" (ev_UserAgent e) true in
  appendTextString line "detail" (ev_Detail e) true.

(** [json.Marshal] of the struct: the members in order, those tagged
    [omitempty] left out when empty. *)
Definition json_text (key value : string) (optional : bool) : list string :=
  if optional && String.eqb value "" then [] else [json_string key +:+ ":" +:+ json_string value].
Definition json_int (key : string) (value : Z) : list string :=
  if value =? 0 then [] else [json_string key +:+ ":" +:+ itoa value].
Definition event_members (e : Event) : list string :=
  json_text "timestamp" (ev_Timestamp e) false ++ json_text "event_id" (ev_EventID e) false ++ json_text "sensor" (ev_Sensor e) false
  ++ json_text "session_id" (ev_SessionID e) true ++ json_text "action" (ev_Action e) true ++ json_text "outcome" (ev_Outcome e) true
  ++ json_text "profile" (ev_Profile e) true ++ json_text "target" (ev_Target e) true
  ++ json_text "remote_addr" (ev_RemoteAddr e) false ++ json_text "client_addr" (ev_ClientAddr e) true
  ++ json_text "method" (ev_Method e) true ++ json_text "path" (ev_Path e) true
  ++ json_int "status_code" (ev_StatusCode e) ++ json_int "bytes_received" (ev_BytesReceived e) ++ json_int "bytes_sent" (ev_BytesSent e)
  ++ json_text "user_agent" (ev_UserAgent e) true ++ json_text "detail" (ev_Detail e) true.
Definition event_json (e : Event) : string := "{" +:+ join (event_members e) "," +:+ "}".

(** ** The logger

    A sink is known by a number; [el_hasOut] is false for a nil writer. *)
Record EventLogger := {
  el_hasOut : bool; el_format : string; el_includeUserAgent : bool; el_trustedProxyCIDRs : list Prefix;
  el_sensitiveValues : option Replacer; el_sinks : list nat;
}.
Definition validSensor (sensor : string) : bool :=
  bool_decide (sensor ∈ ["http"; "tcp"; "udp"; "kubernetes"; "kubelet"; "docker"; "ai"]).

Section construct.
Context `{RangeOrder}.
Definition NewEventLoggerWithConfig (config : LoggingConfig) (sensitiveValues : list string) : EventLogger :=
  {| el_hasOut := true; el_format := if String.eqb (to_lower (trim_space (lg_Format config))) "text" then "text" else "json";
     el_includeUserAgent := lg_IncludeUserAgent config; el_trustedProxyCIDRs := parseTrustedProxyCIDRs (lg_TrustedProxyCIDRs config);
     el_sensitiveValues := newSensitiveValueReplacer sensitiveValues; el_sinks := [] |}.
Definition empty_logging : LoggingConfig := {| lg_Format := ""; lg_IncludeUserAgent := false; lg_TrustedProxyCIDRs := []; lg_Sinks := [] |}.
Definition NewEventLogger : EventLogger := NewEventLoggerWithConfig empty_logging [].
Definition set_sinks (l : EventLogger) (sinks : list nat) : EventLogger :=
  {| el_hasOut := el_hasOut l; el_format := el_format l; el_includeUserAgent := el_includeUserAgent l;
     el_trustedProxyCIDRs := el_trustedProxyCIDRs l; el_sensitiveValues := el_sensitiveValues l; el_sinks := sinks |}.
Definition AttachSinks (l : EventLogger) (sinks : list nat) : EventLogger :=
  match sinks with [] => l | _ => set_sinks l (el_sinks l ++ sinks) end.
(** [Close]: the sinks to close, in order; the first error is returned. *)
Definition first_error (close : nat -> option string) (sinks : list nat) : option string := head (omap close sinks).
Definition EventLogger_Close (close : nat -> option string) (l : EventLogger) : EventLogger * list nat * option string :=
  (set_sinks l [], el_sinks l, first_error close (el_sinks l)).
(** [NewEventLoggerFromConfig], after [NewSinks]. *)
Definition NewEventLoggerFromConfig (newSinks : list LogSinkConfig -> list nat + string) (cfg : option Config) : EventLogger + string :=
  match cfg with
  | None => inr "event logger requires configuration"
  | Some cfg =>
      match newSinks (lg_Sinks (c_Logging cfg)) with
      | inr e => inr e
      | inl sinks => inl (AttachSinks (NewEventLoggerWithConfig (c_Logging cfg) (SensitiveValues cfg)) sinks)
      end
  end.
End construct.

(** The current time, seconds and nanoseconds, and a fresh identifier. *)
Class LogEnv := { le_now : Z * Z; le_uuid : string }.
Context `{LogEnv}.

Definition redactSensitive (l : option EventLogger) (value : string) : string :=
  match l with None => value | Some l => replaceSensitive (el_sensitiveValues l) value end.
(** The event as [write] emits it. *)
Definition sanitized (l : EventLogger) (e : Event) (trustedClientAddr : string) : Event :=
  let r := el_sensitiveValues l in
  let free value := sanitizeUserAgent value r in
  {| ev_Timestamp := let '(sec, nsec) := default le_now (time_Parse (ev_Timestamp e)) in rfc3339_nano sec nsec;
     ev_EventID := if String.eqb (ev_EventID e) "" then le_uuid else ev_EventID e;
     ev_Sensor := ev_Sensor e;
     ev_SessionID := free (ev_SessionID e); ev_Action := free (ev_Action e); ev_Outcome := free (ev_Outcome e);
     ev_Profile := free (ev_Profile e); ev_Target := free (ev_Target e);
     ev_RemoteAddr := boundedText (ev_RemoteAddr e) 256; ev_ClientAddr := normalizeIPString trustedClientAddr;
     ev_Method := sanitizeMethod (ev_Method e) r; ev_Path := sanitizePathWithReplacer (ev_Path e) r;
     ev_StatusCode := Z.max 0 (ev_StatusCode e); ev_BytesReceived := Z.max 0 (ev_BytesReceived e); ev_BytesSent := Z.max 0 (ev_BytesSent e);
     ev_UserAgent := if el_includeUserAgent l then free (ev_UserAgent e) else "";
     ev_Detail := free (ev_Detail e) |}.

(** The writer answers each call with a count and whether it failed; a count
    beyond the line breaks the contract of [io.Writer] and the slice panics,
    [None]. The loop gives what was written and whether it all was. *)
Definition writer : Type := nat -> string -> Z * bool.
Fixpoint write_line (fuel : nat) (w : writer) (call : nat) (line written : string) : option (string * bool) :=
  match fuel with
  | O => Some (written, String.eqb line "")
  | S fuel =>
      if String.eqb line "" then Some (written, true)
      else
        let '(n, failed) := w call line in
        if slen line <? n then None
        else
          let written := written +:+ str_take (Z.to_nat n) line in
          if failed || (n <=? 0) then Some (written, false)
          else write_line fuel w (S call) (str_drop (Z.to_nat n) line) written
  end.
(** The lines and emissions of one call of [write]: what is written, and what
    each sink is given, in order. *)
Definition write (l : option EventLogger) (w : writer) (e : Event) (trustedClientAddr : string)
    : option (string * list (nat * Event * string)) :=
  match l with
  | None => Some ("", [])
  | Some l =>
      if negb (el_hasOut l) || negb (validSensor (ev_Sensor e)) then Some ("", [])
      else
        let e := sanitized l e trustedClientAddr in
        let jsonLine := event_json e in
        let line := (if String.eqb (el_format l) "text" then marshalText e else jsonLine) +:+ newline in
        '(written, all) ← write_line (S (String.length line)) w 0 line "";
        Some (written, if all : bool then map (fun sink => (sink, e, jsonLine)) (el_sinks l) else [])
  end.
Definition Write (l : option EventLogger) (w : writer) (e : Event) : option (string * list (nat * Event * string)) := write l w e "".

(** The counter around a request body. *)
Definition countingReadCloser_Read (count n : Z) : Z := if 0 <? n then i64 (count + n) else count.
(** The event [HTTPMiddleware] records of a finished request. *)
Record finished := {
  fin_remoteAddr : string; fin_method : string; fin_path : string; fin_status : option Z; fin_size : Z; fin_received : Z;
  fin_userAgent : string; fin_forwarded : list string;
}.
Definition HTTPMiddleware_event (l : EventLogger) (sensor : string) (r : finished) : Event * string :=
  let status := match fin_status r with Some s => s | None => 0 end in
  ({| ev_Timestamp := ""; ev_EventID := ""; ev_Sensor := if validSensor sensor then sensor else "http"; ev_SessionID := ""; ev_Action := "";
      ev_Outcome := ""; ev_Profile := ""; ev_Target := ""; ev_RemoteAddr := fin_remoteAddr r; ev_ClientAddr := ""; ev_Method := fin_method r;
      ev_Path := fin_path r; ev_StatusCode := if status =? 0 then 200 else status; ev_BytesReceived := fin_received r;
      ev_BytesSent := match fin_status r with Some _ => fin_size r | None => 0 end;
      ev_UserAgent := if el_includeUserAgent l then fin_userAgent r else ""; ev_Detail := "" |},
   clientAddrFromXFF (fin_remoteAddr r) (fin_forwarded r) (el_trustedProxyCIDRs l)).
End logger.
