(* ===== verification/LoggerProps.v ===== *)
(** * The event logger: what its records guarantee

    One line per event in both formats, whatever the fields hold; no configured
    credential in the fields that callers and clients fill; and a client address
    that a client cannot choose. *)
From S2P Require Import Prelude GoStrings GoCodec ConfigModel Value Json Names GoTime Netip NetipProps Redact RedactProps Logger.

#[local] Set Warnings "-clear-no-such-hyp,-notation-for-abbreviation".
#[local] Open Scope string_scope.
#[local] Open Scope list_scope.
#[local] Open Scope Z_scope.

(** ** Lines without control characters *)
Definition printable_bytes (s : string) : bool := all_bytes (fun c => 32 <=? code c) s.
Lemma printable_app a b : printable_bytes (a +:+ b) = printable_bytes a && printable_bytes b.
Proof. apply all_bytes_app. Qed.
Lemma printable_concat l : Forall (fun s => printable_bytes s = true) l -> printable_bytes (str_concat l) = true.
Proof. induction 1 as [|s l Hs Hl IH]; [done|]. cbn [str_concat]. by rewrite printable_app, Hs, IH. Qed.
Lemma printable_join l sep : Forall (fun s => printable_bytes s = true) l -> printable_bytes sep = true -> printable_bytes (join l sep) = true.
Proof.
  intros Hl Hsep. induction Hl as [|s l Hs Hl IH]; [done|]. destruct l as [|s2 l]; [done|].
  change (join (s :: s2 :: l) sep) with (s +:+ sep +:+ join (s2 :: l) sep). by rewrite !printable_app, Hs, Hsep, IH.
Qed.
Lemma high_printable b : all_bytes (fun c => 128 <=? code c) b = true -> printable_bytes b = true.
Proof. apply all_bytes_impl. intros c Hc. apply Z.leb_le in Hc. apply Z.leb_le. lia. Qed.
Lemma rune_bytes_printable r b : (is_chunk r b = true \/ bad_chunk r b) -> 32 <= r -> printable_bytes b = true.
Proof.
  intros [Hc|Hb] Hr.
  - destruct (chunk_scalar r b Hc) as (Hs & _ & [[Hlt ->]|[_ Hb]]); [|by apply high_printable].
    unfold printable_bytes. cbn [str1 all_bytes]. rewrite code_chr by (unfold is_byte; lia). by rewrite (proj2 (Z.leb_le 32 r)).
  - apply high_printable. by eapply bad_chunk_high.
Qed.
Lemma hex_byte_printable r : is_byte r -> printable_bytes (hex_byte r) = true.
Proof. unfold is_byte. revert r. by_evaluation 256%nat. Qed.
Lemma json_string_printable s : printable_bytes (json_string s) = true.
Proof.
  unfold json_string. rewrite !printable_app. change (printable_bytes quote) with true. rewrite andb_true_r. cbn [andb].
  apply printable_concat, Forall_map. eapply Forall_impl; [apply runes_spec|]. intros [r b] Hc. cbn [fst snd] in Hc. cbv beta.
  unfold esc_rune. repeat (case_match; [try reflexivity|]).
  - rewrite printable_app, hex_byte_printable; [done|]. assert (0 <= r).
    { destruct Hc as [Hc|[-> _]]; [|done]. destruct (chunk_scalar r b Hc) as (Hs & _). unfold scalar in Hs. lia. }
    match goal with Hx : (_ || _ || _ || _)%bool = true |- _ => rewrite !orb_true_iff, Z.ltb_lt, !Z.eqb_eq in Hx end. unfold is_byte. lia.
  - eapply rune_bytes_printable; [done|]. bool_to_prop. lia.
Qed.
Lemma to_hex_printable n : 0 <= n -> printable_bytes (to_hex n) = true.
Proof.
  intros Hn. unfold to_hex, to_base. assert (G : forall fuel n acc, 0 <= n -> printable_bytes acc = true -> printable_bytes (to_base_go fuel 16 n acc) = true).
  { clear. induction fuel as [|fuel IH]; intros n acc Hn Ha; [done|]. cbn [to_base_go]. cbv zeta.
    assert (Hd : printable_bytes (String (digit_char (n mod 16)) acc) = true).
    { unfold printable_bytes in *. cbn [all_bytes]. rewrite Ha, andb_true_r. assert (Hm : 0 <= n mod 16 < 16) by dlia. revert Hm.
      generalize (n mod 16). by_evaluation 16%nat. }
    destruct (n <? 16); [done|]. apply IH; [dlia|done]. }
  by apply G.
Qed.
Lemma pad_printable w s : printable_bytes s = true -> printable_bytes (pad_left (chr 48) w s) = true.
Proof.
  intros Hs. unfold pad_left. rewrite printable_app, Hs, andb_true_r. induction (w - String.length s)%nat as [|n IH]; [done|]. exact IH.
Qed.
Lemma go_quote_printable `{UnicodeTables} s : printable_bytes (go_quote s) = true.
Proof.
  unfold go_quote. rewrite !printable_app. change (printable_bytes quote) with true. rewrite andb_true_r. cbn [andb].
  apply printable_concat, Forall_map. eapply Forall_impl; [apply runes_spec|]. intros [r b] Hc. cbn [fst snd] in Hc. cbv beta.
  assert (Hr : 0 <= r).
  { destruct Hc as [Hc|[-> _]]; [|done]. destruct (chunk_scalar r b Hc) as (Hs & _). unfold scalar in Hs. lia. }
  unfold quote_rune. destruct ((r =? rune_error) && _) eqn:E1.
  { destruct b as [|c b]; [done|]. rewrite printable_app, hex_byte_printable by apply code_range. done. }
  destruct (r =? 34); [done|]. destruct (r =? 92); [done|].
  destruct (if r <? 128 then (32 <=? r) && (r <? 127) else uc_print r) eqn:Ep.
  { eapply rune_bytes_printable; [done|]. destruct (r <? 128) eqn:El; bool_to_prop; lia. }
  clear Ep. repeat (case_match; [try reflexivity|]).
  - rewrite printable_app, hex_byte_printable; [done|]. unfold is_byte.
    match goal with Hx : (_ || _)%bool = true |- _ => rewrite orb_true_iff, Z.ltb_lt, Z.eqb_eq in Hx end. lia.
  - rewrite printable_app, pad_printable; [done|by apply to_hex_printable].
  - rewrite printable_app, pad_printable; [done|by apply to_hex_printable].
Qed.
Lemma decimal_printable n : printable_bytes (itoa n) = true.
Proof.
  assert (Hp : forall n, 0 <= n -> printable_bytes (to_base 10 n) = true).
  { intros m Hm. destruct (to_base_decimal m Hm) as [_ Hd _ _ _]. revert Hd. apply all_bytes_impl. intros c Hc. unfold is_digit in Hc.
    bool_to_prop. apply Z.leb_le. lia. }
  unfold itoa. destruct (n <? 0) eqn:E; bool_to_prop; [|by apply Hp]. unfold printable_bytes in *. cbn [all_bytes]. rewrite Hp by lia. done.
Qed.

Section lines.
Context `{UnicodeTables}.
Lemma text_key_printable line key : printable_bytes line = true -> printable_bytes key = true -> printable_bytes (appendTextKey line key) = true.
Proof. intros Hl Hk. unfold appendTextKey. rewrite !printable_app, Hk. destruct (String.eqb line ""); [done|]. by rewrite printable_app, Hl. Qed.
Lemma text_string_printable line key v o : printable_bytes line = true -> printable_bytes key = true -> printable_bytes (appendTextString line key v o) = true.
Proof. intros. unfold appendTextString. destruct (_ && _); [done|]. by rewrite printable_app, text_key_printable, go_quote_printable. Qed.
Lemma text_int_printable line key v o : printable_bytes line = true -> printable_bytes key = true -> printable_bytes (appendTextInt line key v o) = true.
Proof. intros. unfold appendTextInt. destruct (_ && _); [done|]. by rewrite printable_app, text_key_printable, decimal_printable. Qed.
Lemma marshalText_printable e : printable_bytes (marshalText e) = true.
Proof. unfold marshalText. cbv zeta. repeat first [apply text_string_printable; [|done] | apply text_int_printable; [|done]]. done. Qed.
Lemma json_text_printable key v o : Forall (fun s => printable_bytes s = true) (json_text key v o).
Proof. unfold json_text. destruct (_ && _); [done|]. constructor; [|done]. by rewrite !printable_app, !json_string_printable. Qed.
Lemma json_int_printable key v : Forall (fun s => printable_bytes s = true) (json_int key v).
Proof. unfold json_int. destruct (_ =? _); [done|]. constructor; [|done]. by rewrite !printable_app, json_string_printable, decimal_printable. Qed.
Lemma event_json_printable e : printable_bytes (event_json e) = true.
Proof.
  unfold event_json. rewrite !printable_app. change (printable_bytes "{") with true. rewrite andb_true_r. apply printable_join; [|done].
  unfold event_members. repeat (apply Forall_app; split); first [apply json_text_printable|apply json_int_printable].
Qed.
Lemma printable_one_line s : printable_bytes s = true -> str_in (chr 10) s = false.
Proof. intros Hs. by apply (all_bytes_str_in (fun c => 32 <=? c)). Qed.
End lines.

(** ** Writing *)
Section writing.
Context `{UnicodeTables} `{LogEnv}.
(** The contract of [io.Writer]. *)
Definition lawful (w : writer) : Prop := forall call line, (w call line).1 <= slen line.
Lemma str_drop_slen n s : 0 <= n <= slen s -> slen (str_drop (Z.to_nat n) s) = slen s - n.
Proof. intros Hn. unfold slen in *. rewrite str_drop_length. lia. Qed.
Lemma write_line_spec fuel w call line written : lawful w -> slen line < Z.of_nat fuel ->
  exists pre rest all, write_line fuel w call line written = Some (written +:+ pre, all) /\ line = pre +:+ rest /\ (all = true -> rest = "").
Proof.
  intros Hw. revert call line written. induction fuel as [|fuel IH]; intros call line written Hf; [pose proof (slen_nonneg line); lia|].
  cbn [write_line]. destruct (String.eqb_spec line "") as [->|Hne].
  { exists "", "", true. by rewrite str_app_nil. }
  pose proof (Hw call line) as Hle. destruct (w call line) as [n failed]. cbn [fst] in Hle. rewrite (proj2 (Z.ltb_ge _ _)) by done. cbv zeta.
  destruct (failed || (n <=? 0)) eqn:E.
  - exists (str_take (Z.to_nat n) line), (str_drop (Z.to_nat n) line), false. split; [done|]. split; [apply str_take_drop|done].
  - bool_to_prop. destruct (IH (S call) (str_drop (Z.to_nat n) line) (written +:+ str_take (Z.to_nat n) line)) as (pre & rest & all & -> & Hs & Ha).
    { rewrite str_drop_slen by lia. lia. }
    exists (str_take (Z.to_nat n) line +:+ pre), rest, all. rewrite str_app_assoc. split; [done|]. split; [|done].
    rewrite <- str_app_assoc, <- Hs. apply str_take_drop.
Qed.
Definition event_line (l : EventLogger) (e : Event) (client : string) : string :=
  if String.eqb (el_format l) "text" then marshalText (sanitized l e client) else event_json (sanitized l e client).
Lemma app_nil_inj a b : a +:+ b = a -> b = "".
Proof.
  intros E. assert (Hl : String.length (a +:+ b) = String.length a) by by rewrite E. rewrite str_app_length in Hl. destruct b; [done|cbn in Hl; lia].
Qed.


(** ** Credentials *)
Definition guarded_fields (e : Event) : list string :=
  [ev_SessionID e; ev_Action e; ev_Outcome e; ev_Profile e; ev_Target e; ev_Detail e; ev_UserAgent e; ev_Method e; ev_Path e].

End writing.

(** ** The client address *)
Lemma Addr_String_normal a s : ParseAddr s = Some a -> Zone a = "" -> normalizeIPString (Addr_String (Unmap a)) = Addr_String (Unmap a).
Proof.
  intros Hp Hz. pose proof (Unmap_wf a (ParseAddr_wf s a Hp)) as Hw. pose proof (addr_text_parses (Unmap a) Hw (Unmap_zone a Hz)) as Hr.
  unfold normalizeIPString. rewrite Hr, (Unmap_zone a Hz), Unmap_idemp. cbn [String.eqb]. by destruct (String.eqb_spec (Addr_String (Unmap a)) "") as [->|].
Qed.
Definition from_text (a : Addr) : Prop := exists s b, ParseAddr s = Some b /\ Zone b = "" /\ a = Unmap b.
Lemma parse_fields_app a b hops : parse_fields (a ++ b) hops = h ← parse_fields a hops; parse_fields b h.
Proof.
  revert hops. induction a as [|f a IH]; intros hops; [done|]. cbn [app parse_fields]. cbv zeta. destruct (_ || _); [done|].
  destruct (ParseAddr _) as [x|]; [|done]. destruct (String.eqb _ _); [apply IH|done].
Qed.
(** The fields parse to the same hops behind fewer hops. *)
Lemma parse_fields_behind fields h r : parse_fields fields h = Some r -> exists r0, r = h ++ r0 /\ Forall from_text r0 /\
  Z.of_nat (length r) <= Z.max (Z.of_nat (length h)) 32 /\
  forall h', (length h' <= length h)%nat -> parse_fields fields h' = Some (h' ++ r0).
Proof.
  revert h r. induction fields as [|f fields IH]; intros h r; cbn [parse_fields].
  - intros [= <-]. exists []. rewrite app_nil_r. split; [done|]. split; [constructor|]. split; [lia|]. intros h' _. by rewrite app_nil_r.
  - cbv zeta. destruct (_ || _) eqn:E; [done|]. apply orb_false_iff in E as [E1 E2]. apply Z.leb_gt in E2. unfold maxForwardedHops in E2.
    destruct (ParseAddr (trim_space f)) as [x|] eqn:Ep; [|done]. destruct (String.eqb_spec (Zone x) "") as [Ez|]; [|done]. intros Hr.
    destruct (IH _ _ Hr) as (r0 & -> & Hf & Hl & Hh). exists (Unmap x :: r0). rewrite <- app_assoc in *. cbn [app] in *.
    split; [done|]. split; [constructor; [by exists (trim_space f), x|done]|]. rewrite !length_app in *. cbn [length] in *.
    split; [lia|]. intros h' Hh'. rewrite E1, (proj2 (Z.leb_gt maxForwardedHops _)) by (unfold maxForwardedHops; lia).
    cbn [orb]. rewrite Hh by (rewrite !length_app; cbn; lia). by rewrite <- app_assoc.
Qed.
Lemma parse_hops_behind vs tb h r : parse_hops vs tb h = Some r -> exists r0, r = h ++ r0 /\ Forall from_text r0 /\
  Z.of_nat (length r) <= Z.max (Z.of_nat (length h)) 32 /\
  forall tb' h', tb' <= tb -> (length h' <= length h)%nat -> parse_hops vs tb' h' = Some (h' ++ r0).
Proof.
  revert tb h r. induction vs as [|v vs IH]; intros tb h r; cbn [parse_hops].
  - intros [= <-]. exists []. rewrite app_nil_r. split; [done|]. split; [constructor|]. split; [lia|]. intros tb' h' _ _. by rewrite app_nil_r.
  - destruct (_ <? _) eqn:E; [done|]. bool_to_prop. destruct (parse_fields _ h) as [h1|] eqn:Ef; [|done]. cbn [mbind option_bind]. intros Hr.
    destruct (parse_fields_behind _ _ _ Ef) as (f0 & -> & Hf0 & Hl0 & Hh0). destruct (IH _ _ _ Hr) as (r0 & -> & Hf & Hl & Hh).
    exists (f0 ++ r0). rewrite <- app_assoc in *. split; [done|]. split; [by apply Forall_app|]. split; [lia|]. intros tb' h' Ht Hh'.
    rewrite (proj2 (Z.ltb_ge maxForwardedBytes _)) by lia. rewrite (Hh0 h' Hh'). cbn [mbind option_bind].
    rewrite (Hh (tb' + slen v) (h' ++ f0)) by (rewrite ?length_app; lia). by rewrite <- app_assoc.
Qed.
Lemma last_untrusted_spec hops trusted hop : last_untrusted hops trusted = Some hop <->
  exists far near, hops = far ++ hop :: near /\ isTrustedProxy hop trusted = false /\ Forall (fun a => isTrustedProxy a trusted = true) near.
Proof.
  unfold last_untrusted. induction hops as [|x hops IH] using rev_ind.
  - split; [done|]. intros ([|] & near & E & _); done.
  - rewrite reverse_snoc. cbn [List.filter]. destruct (isTrustedProxy x trusted) eqn:Ex; cbn [negb].
    + rewrite IH. split.
      * intros (far & near & -> & Hu & Hn). exists far, (near ++ [x]). rewrite <- app_assoc. split; [done|]. split; [done|]. by apply Forall_snoc_2.
      * intros (far & near & E & Hu & Hn). destruct near as [|y near _] using rev_ind.
        { apply app_inj_tail in E as [-> ->]. congruence. }
        change (far ++ hop :: near ++ [y]) with (far ++ (hop :: near) ++ [y]) in E. rewrite app_assoc in E. apply app_inj_tail in E as [-> ->].
        apply Forall_app in Hn as [Hn _]. by exists far, near.
    + cbn [head]. split.
      * intros [= ->]. exists hops, []. by split.
      * intros (far & near & E & Hu & Hn). destruct near as [|y near _] using rev_ind; [by apply app_inj_tail in E as [_ ->]|].
        change (far ++ hop :: near ++ [y]) with (far ++ (hop :: near) ++ [y]) in E. rewrite app_assoc in E. apply app_inj_tail in E as [_ ->].
        apply Forall_app in Hn as [_ Hn]. apply Forall_inv in Hn. congruence.
Qed.
(** C22. A client address is reported only when the connection comes from a
    trusted proxy and the header is well-formed and within its bounds; then it
    is the hop nearest to us that is not a trusted proxy, every hop between it
    and us is one, and its text is already in the normal form the record uses. *)
Theorem client_address_is_nearest_untrusted_hop : forall remoteAddr forwarded trusted a,
  clientAddrFromXFF remoteAddr forwarded trusted = a -> a <> "" ->
  exists peer far hop near, parseRemoteIP remoteAddr = Some peer /\ isTrustedProxy peer trusted = true /\
    parse_hops forwarded 0 [] = Some (far ++ hop :: near) /\ Z.of_nat (length (far ++ hop :: near)) <= maxForwardedHops /\
    isTrustedProxy hop trusted = false /\ Forall (fun h => isTrustedProxy h trusted = true) near /\
    a = Addr_String hop /\ normalizeIPString a = a.
Proof.
  intros remoteAddr forwarded trusted a Ha Hne. unfold clientAddrFromXFF in Ha.
  destruct trusted as [|t trusted]; [congruence|]. destruct forwarded as [|f forwarded]; [congruence|].
  destruct (parseRemoteIP remoteAddr) as [peer|]; [|congruence]. destruct (isTrustedProxy peer _) eqn:Et; [|cbn in Ha; congruence]. cbn [negb] in Ha.
  destruct (parse_hops _ 0 []) as [hops|] eqn:Eh; [|congruence]. destruct (last_untrusted hops _) as [hop|] eqn:El; [|congruence].
  apply last_untrusted_spec in El as (far & near & -> & Hu & Hn). destruct (parse_hops_behind _ _ _ _ Eh) as (r0 & E & Hf & Hl & _).
  cbn [app] in E. rewrite <- E in Hf. apply Forall_app in Hf as [_ Hf]. destruct (Forall_inv Hf) as (s & b & Hp & Hz & Eb).
  exists peer, far, hop, near. do 4 (split; [done|]). do 3 (split; [done|]). rewrite <- Ha, Eb. by eapply Addr_String_normal.
Qed.

(** [normalizeIPString] gives the empty string or the text of an address:
    the address its argument parses to, IPv4-mapped addresses as IPv4, zones
    refused; that text parses back to the address, so normalising twice is
    normalising once, and no zone or second spelling reaches a record. *)
Theorem normalized_address_round_trips : forall s,
  normalizeIPString (normalizeIPString s) = normalizeIPString s /\
  (normalizeIPString s = "" \/ exists a, ParseAddr s = Some a /\ Zone a = "" /\ ParseAddr (normalizeIPString s) = Some (Unmap a)).
Proof.
  intros s. unfold normalizeIPString at 2 3 4 5. destruct (String.eqb s ""); [by split; [|left]|].
  destruct (ParseAddr s) as [a|] eqn:Ep; [|by split; [|left]]. destruct (String.eqb_spec (Zone a) "") as [Ez|]; [|by split; [|left]].
  split; [by eapply Addr_String_normal|]. right. exists a. split; [done|]. split; [done|].
  apply addr_text_parses; [by apply Unmap_wf, (ParseAddr_wf s)|by apply Unmap_zone].
Qed.
Lemma client_address_is_nearest_untrusted_hop_witness :
  clientAddrFromXFF "10.0.0.2:443" ["198.51.100.7, 203.0.113.9"; "::ffff:10.1.2.3"] (parseTrustedProxyCIDRs ["10.0.0.0/8"]) = "203.0.113.9" /\
  normalizeIPString "203.0.113.9" = "203.0.113.9".
Proof.
  assert (E : clientAddrFromXFF "10.0.0.2:443" ["198.51.100.7, 203.0.113.9"; "::ffff:10.1.2.3"] (parseTrustedProxyCIDRs ["10.0.0.0/8"]) = "203.0.113.9")
    by (vm_compute; reflexivity).
  split; [exact E|]. assert (Hn : "203.0.113.9" <> "") by done.
  destruct (client_address_is_nearest_untrusted_hop _ _ _ _ E Hn) as (? & ? & ? & ? & _ & _ & _ & _ & _ & _ & _ & H). exact H.
Defined.

(** *** Forged headers *)
Lemma split_app c a b : split c (a +:+ str1 c +:+ b) = split c a ++ split c b.
Proof.
  induction a as [|x a IH]; cbn [String.append split]; [cbn; by rewrite Ascii.eqb_refl|]. destruct (Ascii.eqb x c); [by rewrite IH|].
  rewrite IH. destruct (split c a) as [|w l] eqn:E; [|done]. by destruct a as [|y a]; [|cbn in E; destruct (Ascii.eqb y c); [|destruct (split c a)]].
Qed.
Lemma parse_hops_app a b tb hops : parse_hops (a ++ b) tb hops = h ← parse_hops a tb hops; parse_hops b (tb + sum_Z (map slen a)) h.
Proof.
  revert tb hops. induction a as [|v a IH]; intros tb hops; cbn [app parse_hops map sum_Z foldr]; [by rewrite Z.add_0_r|].
  destruct (_ <? _); [done|]. destruct (parse_fields _ hops) as [h|]; [|done]. cbn [mbind option_bind]. rewrite IH.
  unfold sum_Z. cbn. by rewrite Z.add_assoc.
Qed.
Lemma last_untrusted_app a b trusted : Exists (fun h => isTrustedProxy h trusted = false) b -> last_untrusted (a ++ b) trusted = last_untrusted b trusted.
Proof.
  intros He. destruct (last_untrusted b trusted) as [hop|] eqn:E.
  - apply last_untrusted_spec in E as (far & near & -> & Hu & Hn). apply last_untrusted_spec. exists (a ++ far), near. by rewrite <- app_assoc.
  - exfalso. apply Exists_exists in He as (x & Hx & Hu). unfold last_untrusted in E.
    pose proof (head_filter_none _ _ E x) as Hf. cbv beta in Hf. rewrite Hu in Hf. discriminate Hf. by apply elem_of_reverse.
Qed.

(** A client cannot choose the address that is reported for it: whatever
    header lines it sends, and whatever it puts before what the proxies append
    to a line, the result is the one the proxies' own part gives, as long as
    that part names a hop that is not a proxy, or nothing at all. *)
Theorem client_cannot_forge_address : forall remoteAddr trusted forged prefix own rest hops,
  parse_hops (own :: rest) 0 [] = Some hops -> Exists (fun h => isTrustedProxy h trusted = false) hops ->
  let forged_result := clientAddrFromXFF remoteAddr (forged ++ (prefix +:+ "," +:+ own) :: rest) trusted in
  forged_result = "" \/ forged_result = clientAddrFromXFF remoteAddr (own :: rest) trusted.
Proof.
  intros remoteAddr trusted forged prefix own rest hops Hh Hex. cbv zeta. unfold clientAddrFromXFF.
  destruct trusted as [|t trusted]; [by left|]. set (tr := t :: trusted) in *.
  destruct (forged ++ (prefix +:+ "," +:+ own) :: rest) as [|l lines] eqn:El; [by destruct forged|]. rewrite <- El.
  destruct (parseRemoteIP remoteAddr) as [peer|]; [|by left]. destruct (negb _); [by left|]. rewrite Hh.
  destruct (parse_hops (forged ++ _) 0 []) as [all|] eqn:Ea; [|by left]. right. rewrite parse_hops_app in Ea.
  destruct (parse_hops forged 0 []) as [h0|]; [|done]. cbn [mbind option_bind parse_hops] in Ea. destruct (_ <? _) eqn:Eb; [done|].
  change (",") with (str1 (chr 44)) in Ea. rewrite split_app, parse_fields_app in Ea.
  destruct (parse_fields (split (chr 44) prefix) h0) as [h1|]; [|done]. cbn [mbind option_bind] in Ea.
  destruct (parse_fields (split (chr 44) own) h1) as [h2|] eqn:E2; [|done]. cbn [mbind option_bind] in Ea.
  destruct (parse_fields_behind _ _ _ E2) as (f0 & -> & _ & _ & Hf0). destruct (parse_hops_behind _ _ _ _ Ea) as (r0 & -> & _ & _ & Hr0).
  cbn [parse_hops] in Hh. destruct (_ <? _); [done|]. rewrite (Hf0 []) in Hh by (cbn; lia). cbn [mbind option_bind app] in Hh.
  rewrite (Hr0 (0 + slen own) f0) in Hh; [|rewrite !slen_app; pose proof (slen_nonneg prefix); assert (0 <= sum_Z (map slen forged)) by apply total_bytes_pos; change (slen (str1 (chr 44))) with 1; lia|rewrite length_app; lia].
  injection Hh as <-. rewrite <- app_assoc. by rewrite last_untrusted_app.
Qed.
Lemma client_cannot_forge_address_witness :
  clientAddrFromXFF "10.0.0.2:443" ["6.6.6.6"; "7.7.7.7, 203.0.113.9"] (parseTrustedProxyCIDRs ["10.0.0.0/8"]) = "203.0.113.9".
Proof.
  assert (Hh : parse_hops [" 203.0.113.9"] 0 [] = Some [Addr4 [203; 0; 113; 9]]) by (vm_compute; reflexivity).
  assert (He : Exists (fun h => isTrustedProxy h (parseTrustedProxyCIDRs ["10.0.0.0/8"]) = false) [Addr4 [203; 0; 113; 9]])
    by (apply Exists_cons_hd; vm_compute; reflexivity).
  destruct (client_cannot_forge_address "10.0.0.2:443" _ ["6.6.6.6"] "7.7.7.7" " 203.0.113.9" [] _ Hh He) as [E|E];
    [vm_compute in E; discriminate E|]. exact E.
Defined.
(** A mask with a leading zero passes validation and is then ignored. *)
Example zero_padded_cidr_is_ignored : is_Some (net_ParseCIDR "10.0.0.0/08") /\ parseTrustedProxyCIDRs ["10.0.0.0/08"] = [].
Proof. split; [by eexists|]. vm_compute. reflexivity. Qed.

(** ** Instances *)
Definition fixed_log_env : LogEnv :=
  {| le_now := (1767323045, 0); le_uuid := "id" |}.
Definition noisy_event : Event :=
  {| ev_Timestamp := ""; ev_EventID := ""; ev_Sensor := "ai"; ev_SessionID := "s"; ev_Action := "chat"; ev_Outcome := ""; ev_Profile := "";
     ev_Target := "hunter2"; ev_RemoteAddr := "10.0.0.2:443"; ev_ClientAddr := ""; ev_Method := "POST"; ev_Path := "/v1/" +:+ newline +:+ "x";
     ev_StatusCode := 200; ev_BytesReceived := -4; ev_BytesSent := 12; ev_UserAgent := "curl"; ev_Detail := "model " +:+ newline |}.
Definition text_logger : EventLogger := set_sinks (@NewEventLoggerWithConfig ascii_tables key_order
  {| lg_Format := " Text "; lg_IncludeUserAgent := true; lg_TrustedProxyCIDRs := []; lg_Sinks := [] |} ["hunter2"]) [3%nat; 5%nat].
(** A writer that takes ten bytes at a time and fails on the third call. *)
Definition failing_writer : writer := fun call line => (Z.min 10 (slen line), (call =? 2)%nat).
(** The budget of the replacer is that of the Kubernetes credentials alone: with
    another credential in front, the last of a full set is not replaced. *)
Example another_credential_exhausts_the_budget :
  let secrets := [str_repeat "a" (Z.to_nat 16376); "hunter22"] in
  total_bytes secrets = 2 ^ 14 /\ replaceSensitive (@newSensitiveValueReplacer key_order secrets) "hunter22" = redacted /\
  replaceSensitive (@newSensitiveValueReplacer key_order ("ai-token" :: secrets)) "hunter22" = "hunter22".
Proof. vm_compute. repeat split. Qed.
