(* ===== verification/Shipping.v ===== *)
(** * Shipping records

    The destinations of event records: the registry and the file sink of
    sink.go, and the remote sinks of sink_http.go with the requests they post.
    How batches come about is in [Sink]. *)
From S2P Require Import Prelude GoStrings GoCodec ConfigModel Value Json Names GoTime Netip Config Sink.

#[local] Set Warnings "-clear-no-such-hyp,-notation-for-abbreviation".
#[local] Open Scope string_scope.
#[local] Open Scope list_scope.
#[local] Open Scope Z_scope.

Definition splunkHECEndpoint : string := "/services/collector/event".
Definition defaultSourcetype : string := "_json".
Definition eventSourceName : string := "helix-honeypot".

(** [strings.TrimRight] with one byte to cut. *)
Fixpoint trim_right (c : ascii) (s : string) : string :=
  match s with
  | "" => ""
  | String a s => let t := trim_right c s in if String.eqb t "" && Ascii.eqb a c then "" else String a t
  end.

(** ** Requests

    [http.Header.Set]: the canonical name, and the value in place of what there
    was. *)
Definition ascii_upper (n : Z) : Z := if (97 <=? n) && (n <=? 122) then n - 32 else n.
Fixpoint canonical_chars (upper : bool) (s : string) : string :=
  match s with
  | "" => ""
  | String c s => String (chr (if upper then ascii_upper (code c) else ascii_lower (code c))) (canonical_chars (code c =? 45) s)
  end.
Definition CanonicalHeaderKey (s : string) : string := if all_bytes header_char s then canonical_chars true s else s.
Definition header_set (h : gmap string string) (nv : string * string) : gmap string string := <[CanonicalHeaderKey nv.1 := nv.2]> h.

Record post := { po_url : string; po_headers : gmap string string; po_body : string }.

Section shipping.
Context `{UnicodeTables} `{RangeOrder} `{UrlPackage}.

(** The request of [postBatch]; the headers are visited in map order. *)
Definition build_post (endpoint : string) (headers : gmap string string) (contentType body : string) : post :=
  {| po_url := endpoint; po_headers := header_set (foldl header_set ∅ (range_entries 40 (map_to_list headers))) ("Content-Type", contentType); po_body := body |}.
(** [postBatch]: [do] is the delivery, a status or an error. *)
Definition postBatch (do_ : post -> Z + string) (endpoint : string) (headers : gmap string string) (contentType body : string) : option string :=
  match url_Parse endpoint with
  | None => Some "build log sink request"
  | Some _ =>
      match do_ (build_post endpoint headers contentType body) with
      | inr e => Some ("deliver log sink batch: " +:+ e)
      | inl status => if (status <? 200) || (299 <? status) then Some ("log sink endpoint returned status " +:+ itoa status) else None
      end
  end.
Definition mergeSinkHeaders (custom headers : strmap) : gmap string string :=
  foldl (fun merged kv => <[kv.1 := kv.2]> merged) (foldl (fun merged kv => <[kv.1 := kv.2]> merged) ∅ custom) headers.
Definition hasHeader (headers : gmap string string) (name : string) : bool := existsb (fun kv => equal_fold kv.1 name) (map_to_list headers).

(** ** Bodies *)

(** The current time, in seconds. *)
Class HecClock := { hec_now : Z }.
Context `{HecClock}.
Definition hecTime (timestamp : string) : spec_float :=
  match time_Parse timestamp with
  | Some (sec, nsec) => SFadd 53 1024 (float_of_int sec) (SFdiv 53 1024 (float_of_int nsec) (float_of_int (10 ^ 9)))
  | None => float_of_int hec_now
  end.
(** [strconv.FormatFloat(f, 'f', -1, 64)] *)
Definition format_f (f : spec_float) : string :=
  match f with
  | S754_zero s => print_lit {| ln_neg := s; ln_int := "0"; ln_frac := ""; ln_exp := None |}
  | S754_finite s m e => let '(d, x) := shortest m e in print_lit (fixed_lit s d x)
  | S754_infinity s => if s then "-Inf" else "+Inf"
  | S754_nan => "NaN"
  end.
Definition splunk_record (index source sourcetype : string) (p : sinkPayload) : string :=
  "{" +:+ quote +:+ "time" +:+ quote +:+ ":" +:+ format_f (hecTime (sp_timestamp p))
  +:+ "," +:+ quote +:+ "host" +:+ quote +:+ ":" +:+ go_quote eventSourceName
  +:+ "," +:+ quote +:+ "sourcetype" +:+ quote +:+ ":" +:+ go_quote sourcetype
  +:+ (if String.eqb index "" then "" else "," +:+ quote +:+ "index" +:+ quote +:+ ":" +:+ go_quote index)
  +:+ (if String.eqb source "" then "" else "," +:+ quote +:+ "source" +:+ quote +:+ ":" +:+ go_quote source)
  +:+ "," +:+ quote +:+ "event" +:+ quote +:+ ":" +:+ sp_json p +:+ "}".
Definition buildSplunkBody (batch : list sinkPayload) (index source sourcetype : string) : string :=
  str_concat (map (splunk_record index source sourcetype) batch).
Definition bulk_action (index : string) : string :=
  "{" +:+ quote +:+ "index" +:+ quote +:+ ":{" +:+ quote +:+ "_index" +:+ quote +:+ ":" +:+ go_quote index +:+ "}}" +:+ newline.
Definition bulk_body (index : string) (batch : list sinkPayload) : string :=
  str_concat (map (fun p => bulk_action index +:+ sp_json p +:+ newline) batch).
Definition ndjson_body (batch : list sinkPayload) : string := str_concat (map (fun p => sp_json p +:+ newline) batch).

(** ** Sinks

    A remote sink is what its [send] posts; a file sink is its path, opened. *)
Record remote := { rs_name : string; rs_endpoint : string; rs_headers : gmap string string; rs_contentType : string; rs_body : list sinkPayload -> string }.
Inductive Sink := FileSink (path : string) | RemoteSink (r : remote).
Definition send (do_ : post -> Z + string) (r : remote) (batch : list sinkPayload) : option string :=
  postBatch do_ (rs_endpoint r) (rs_headers r) (rs_contentType r) (rs_body r batch).

(** [open] is the outcome of opening a file for appending: an error's text. *)
Variable open : string -> option string.
Definition newFileSink (cfg : LogSinkConfig) : Sink + string :=
  match open (ls_Path cfg) with Some e => inr ("open log sink file: " +:+ e) | None => inl (FileSink (ls_Path cfg)) end.
Definition set_path (u : URL) (path : string) : URL :=
  {| url_Scheme := url_Scheme u; url_Host := url_Host u; url_Path := path; url_Fragment := url_Fragment u; url_User := url_User u |}.
Definition newSplunkSink (cfg : LogSinkConfig) : Sink + string :=
  match url_Parse (ls_URL cfg) with
  | None => inr "invalid splunk url"
  | Some parsed =>
      if String.eqb (url_Host parsed) "" then inr "invalid splunk url"
      else
        let parsed := if String.eqb (url_Path parsed) "" || String.eqb (url_Path parsed) "/" then set_path parsed splunkHECEndpoint else parsed in
        let sourcetype := if String.eqb (ls_Sourcetype cfg) "" then defaultSourcetype else ls_Sourcetype cfg in
        let headers := mergeSinkHeaders (ls_Headers cfg) [] in
        let headers := if String.eqb (ls_Token cfg) "" then headers else <["Authorization" := "Splunk " +:+ ls_Token cfg]> headers in
        inl (RemoteSink {| rs_name := "splunk"; rs_endpoint := url_String parsed; rs_headers := headers; rs_contentType := "application/json";
                           rs_body := fun batch => buildSplunkBody batch (ls_Index cfg) (ls_Source cfg) sourcetype |})
  end.
Definition newElasticsearchSink (cfg : LogSinkConfig) : Sink + string :=
  let endpoint := trim_right (chr 47) (ls_URL cfg) +:+ "/_bulk" in
  let headers :=
    if negb (String.eqb (ls_Token cfg) "") then [("Authorization", "ApiKey " +:+ ls_Token cfg)]
    else if negb (String.eqb (ls_Username cfg) "")
    then [("Authorization", "Basic " +:+ base64_std (ls_Username cfg +:+ ":" +:+ ls_Password cfg))] else [] in
  inl (RemoteSink {| rs_name := "elasticsearch"; rs_endpoint := endpoint; rs_headers := mergeSinkHeaders (ls_Headers cfg) headers;
                     rs_contentType := "application/x-ndjson"; rs_body := bulk_body (ls_Index cfg) |}).
Definition newHTTPSink (cfg : LogSinkConfig) : Sink + string :=
  let headers := mergeSinkHeaders (ls_Headers cfg) [] in
  let headers := if negb (String.eqb (ls_Token cfg) "") && negb (hasHeader headers "Authorization")
                 then <["Authorization" := "Bearer " +:+ ls_Token cfg]> headers else headers in
  inl (RemoteSink {| rs_name := "http"; rs_endpoint := ls_URL cfg; rs_headers := headers; rs_contentType := "application/x-ndjson";
                     rs_body := ndjson_body |}).

(** ** The registry *)
Definition sinkFactories : list (string * (LogSinkConfig -> Sink + string)) :=
  [("file", newFileSink); ("splunk", newSplunkSink); ("elasticsearch", newElasticsearchSink); ("elk", newElasticsearchSink); ("http", newHTTPSink)].
Fixpoint factory_of (l : list (string * (LogSinkConfig -> Sink + string))) (type : string) : option (LogSinkConfig -> Sink + string) :=
  match l with [] => None | (name, f) :: l => if String.eqb name type then Some f else factory_of l type end.
Definition NewSink (cfg : LogSinkConfig) : Sink + string :=
  match factory_of sinkFactories (ls_Type cfg) with
  | None => inr ("unknown log sink type " +:+ go_quote (ls_Type cfg))
  | Some factory => factory cfg
  end.
(** [NewSinks]: the sinks or the error, and the sinks that were closed again. *)
Fixpoint new_sinks_loop (i : Z) (cfgs : list LogSinkConfig) (sinks : list Sink) : (list Sink + string) * list Sink :=
  match cfgs with
  | [] => (inl sinks, [])
  | cfg :: cfgs =>
      match NewSink cfg with
      | inr e => (inr ("log sink " +:+ itoa (i + 1) +:+ " (" +:+ ls_Type cfg +:+ "): " +:+ e), sinks)
      | inl sink => new_sinks_loop (i + 1) cfgs (sinks ++ [sink])
      end
  end.
Definition NewSinks (cfgs : list LogSinkConfig) : (list Sink + string) * list Sink := new_sinks_loop 0 cfgs [].
End shipping.

(** ** The file sink

    [Emit] and [Close] hold the lock, so each is one step; [written] is the
    number of bytes the file takes of a write, all of them unless it fails. *)
Record fileSink := { fs_file : string; fs_closed : bool }.
Definition fileSink_Emit (written : nat) (json : string) (s : fileSink) : fileSink :=
  if fs_closed s then s else {| fs_file := fs_file s +:+ str_take written (json +:+ newline); fs_closed := false |}.
(** The flag tells that the file is closed by this call. *)
Definition fileSink_Close (s : fileSink) : fileSink * bool :=
  if fs_closed s then (s, false) else ({| fs_file := fs_file s; fs_closed := true |}, true).
