(* ===== verification/ShippingProps.v ===== *)
(** * Shipping records: what arrives

    A collector that reads the body of a batch gets every event of the batch,
    field by field; starting the sinks is all or nothing, and a validated
    configuration starts; the file sink writes one line per event. *)
From S2P Require Import Prelude GoStrings GoCodec ConfigModel Value Json Names GoTime Netip Config ConfigProps Redact RedactProps Logger LoggerProps Sink Shipping.

#[local] Set Warnings "-clear-no-such-hyp,-notation-for-abbreviation".
#[local] Open Scope string_scope.
#[local] Open Scope list_scope.
#[local] Open Scope Z_scope.

(** ** Reading

    The reader keeps the members of an object in order and a number as its
    text, as [json.Decoder] does with [UseNumber]. *)
Definition keep_number (l : num_lit) : option val := Some (VStr (print_lit l)).
Definition keep_member (m : object) (k : string) (v : val) : object := m ++ [(k, v)].
Definition read_value := parse_val keep_number keep_member.
(** The text [t] reads as [v], wherever it stands before a text in [P]. *)
Definition reads (P : string -> Prop) (t : string) (v : val) (depth : Z) : Prop :=
  t <> "" /\ forall n d rest, (2 * String.length t <= n)%nat -> d + depth <= max_json_depth -> P rest -> read_value n d (t +:+ rest) = Some (v, rest).
Definition anything (rest : string) : Prop := True.

Lemma reads_weaken (P Q : string -> Prop) t v h : (forall rest, Q rest -> P rest) -> reads P t v h -> reads Q t v h.
Proof. intros HQ [Hne Hr]. split; [done|]. intros n d rest Hn Hd Hrest. apply Hr; [done|done|by apply HQ]. Qed.
Lemma reads_string s : reads anything (json_string s) (VStr (to_valid s)) 0.
Proof.
  split; [done|]. intros n d rest Hn _ _. destruct n as [|n]; [unfold json_string in Hn; cbn in Hn; lia|]. apply parse_val_string.
Qed.
Lemma reads_number l : wf_lit l -> reads stops (print_lit l) (VStr (print_lit l)) 0.
Proof.
  intros Hl. destruct (number_head l Hl) as (c & t & E & _). split; [by rewrite E|]. intros n d rest Hn _ Hr.
  destruct n as [|n]; [rewrite E in Hn; cbn in Hn; lia|]. unfold read_value. by rewrite parse_val_number.
Qed.

(** A member: its key, its text and what that reads as. *)
Definition member : Type := string * (string * val).
Definition member_text (m : member) : string := json_string m.1 +:+ ":" +:+ m.2.1.
Definition object_text (ms : list member) : string := "{" +:+ join (map member_text ms) "," +:+ "}".
Definition object_value (ms : list member) : val := VMap (map (fun m => (to_valid m.1, m.2.2)) ms).
Lemma json_string_length s : (2 <= String.length (json_string s))%nat.
Proof. unfold json_string. rewrite !str_app_length. change (String.length quote) with 1%nat. lia. Qed.
Lemma reads_members h (ms : list member) n d acc rest :
  ms <> [] -> Forall (fun m => reads stops m.2.1 m.2.2 h) ms -> d + h <= max_json_depth ->
  (2 * String.length (join (map member_text ms) ",") <= n)%nat ->
  parse_members keep_number keep_member n d acc (join (map member_text ms) "," +:+ String (chr 125) rest) =
    Some (acc ++ map (fun m => (to_valid m.1, m.2.2)) ms, rest).
Proof.
  intros Hne HF Hd. revert n acc Hne. induction HF as [|[k [t v]] ms [Hnt Hr] HF IH]; [done|]. cbn [fst snd] in *. intros n acc _ Hn.
  pose proof (json_string_length k) as Hk. destruct ms as [|m2 ms].
  - cbn [map join] in *. unfold member_text in *. cbn [fst snd] in *. rewrite !str_app_length in Hn.
    destruct n as [|n]; [lia|]. rewrite <- !str_app_assoc, parse_member_step. unfold read_value in Hr. rewrite Hr; [|lia|done|by right; right].
    cbn [mbind option_bind]. rewrite next_byte_char by done. cbn [mbind option_bind]. done.
  - change (join (map member_text ((k, (t, v)) :: m2 :: ms)) ",") with (member_text (k, (t, v)) +:+ "," +:+ join (map member_text (m2 :: ms)) ",") in *.
    unfold member_text at 1 in Hn. unfold member_text at 1. cbn [fst snd] in *. rewrite !str_app_length in Hn.
    destruct n as [|n]; [lia|]. rewrite <- !str_app_assoc, parse_member_step. unfold read_value in Hr.
    rewrite Hr; [|lia|done|by left]. cbn [mbind option_bind]. change ("," +:+ ?s) with (String (chr 44) s). rewrite next_byte_char by done. cbn [mbind option_bind].
    replace (code (chr 44) =? 44) with true by done. rewrite IH; [|done|lia]. unfold keep_member. by rewrite <- app_assoc.
Qed.
Lemma reads_object h (ms : list member) : ms <> [] -> Forall (fun m => reads stops m.2.1 m.2.2 h) ms -> 0 <= h ->
  reads anything (object_text ms) (object_value ms) (h + 1).
Proof.
  intros Hne HF Hh. split; [done|]. intros n d rest Hn Hd _. unfold object_text in *. rewrite !str_app_length in Hn. cbn [String.length] in Hn.
  destruct n as [|n]; [lia|]. rewrite <- !str_app_assoc. change ("{" +:+ ?s) with (String (chr 123) s). change ("}" +:+ rest) with (String (chr 125) rest).
  unfold read_value. cbn [parse_val]. change (skip_ws (String (chr 123) ?s)) with (String (chr 123) s). rewrite next_byte_char by done.
  cbn [mbind option_bind]. replace (code (chr 123) =? 123) with true by done. rewrite (proj2 (Z.ltb_lt _ _)) by lia.
  assert (exists t, join (map member_text ms) "," +:+ String (chr 125) rest = String (chr 34) t) as [t E].
  { destruct ms as [|[k i] [|m2 ms]]; [done| |]; cbn; eauto. }
  rewrite E, next_byte_char by done. cbn [mbind option_bind]. replace (code (chr 34) =? 125) with false by done. rewrite <- E.
  rewrite (reads_members h); [done|done|done|lia|lia].
Qed.

(** *** Quoted text

    [strconv.Quote] is not JSON: it writes [\a], [\v], [\x] and [\U] escapes.
    It agrees with JSON on printable characters and the common escapes. *)
Section quoted.
Context `{UnicodeTables}.
Definition json_safe_rune (rb : Z * string) : bool :=
  negb ((rb.1 =? rune_error) && (slen rb.2 =? 1)) &&
  ((if rb.1 <? 128 then (32 <=? rb.1) && (rb.1 <? 127) else uc_print rb.1) || bool_decide (rb.1 ∈ [8; 9; 10; 12; 13])).
Definition json_safe (s : string) : bool := forallb json_safe_rune (runes s).
Lemma quote_rune_sound r b t : is_chunk r b = true \/ bad_chunk r b -> json_safe_rune (r, b) = true ->
  str_body (quote_rune (r, b) +:+ t) = ('(b', x) ← str_body t; Some (quote_rune (r, b) +:+ b', x)) /\
  unq (runes (quote_rune (r, b) +:+ t)) = String.append b <$> unq (runes t).
Proof.
  unfold json_safe_rune. cbn [fst snd]. intros Hc [Hg Hs]%andb_true_iff. apply negb_true_iff in Hg.
  destruct Hc as [Hc|[-> (a & -> & _)]]; [|done].
  destruct (chunk_scalar _ _ Hc) as (Hsc & Henc & Hlow).
  assert (Hesc : forall u, esc_ok u r = true -> str_body (u +:+ t) = ('(b', x) ← str_body t; Some (u +:+ b', x)) /\
      unq (runes (u +:+ t)) = String.append b <$> unq (runes t)).
  { intros u Hu. rewrite <- Henc. by apply esc_ok_sound. }
  unfold quote_rune. rewrite Hg. destruct (Z.eqb_spec r 34) as [->|H34]; [by apply Hesc|]. destruct (Z.eqb_spec r 92) as [->|H92]; [by apply Hesc|].
  destruct (if r <? 128 then (32 <=? r) && (r <? 127) else uc_print r) eqn:Ep.
  - split.
    + apply str_body_plain. destruct Hlow as [[Hr ->]|[Hr Hb]].
      * rewrite (proj2 (Z.ltb_lt r 128)) in Ep by done. bool_to_prop. unfold plain. cbn [str1 all_bytes].
        rewrite code_chr by (unfold is_byte; lia). rewrite !(proj2 (Z.eqb_neq r _)) by done. by rewrite (proj2 (Z.leb_le _ _)).
      * eapply all_bytes_impl; [|done]. intros c Hcc. cbv beta in Hcc. unfold plain. bool_to_prop.
        rewrite !(proj2 (Z.eqb_neq (code c) _)) by lia. by rewrite (proj2 (Z.leb_le _ _)) by lia.
    + rewrite (runes_chunk r) by done. rewrite unq_raw by done. destruct (Z.eqb_spec r rune_error) as [->|]; [by rewrite Henc|done].
  - apply bool_decide_eq_true in Hs. rewrite !elem_of_cons, elem_of_nil in Hs.
    destruct Hs as [->|[->|[->|[->|[->|[]]]]]]; by apply Hesc.
Qed.
Lemma quote_body_sound s t : json_safe s = true ->
  str_body (str_concat (map quote_rune (runes s)) +:+ quote +:+ t) = Some (str_concat (map quote_rune (runes s)), t) /\
  unq (runes (str_concat (map quote_rune (runes s)))) = Some s.
Proof.
  unfold json_safe. intros Hs. replace (Some s) with (Some (str_concat (map snd (runes s)))) by (by rewrite runes_concat).
  destruct (runes_spec s) as [HF _]. revert HF Hs. generalize (runes s) as l.
  induction 1 as [|[r b] l Hc HF IH]; [done|]. cbn [forallb]. intros [Hr Hl]%andb_true_iff. destruct (IH Hl) as [IH1 IH2].
  cbn [map str_concat snd] in *. rewrite <- str_app_assoc.
  destruct (quote_rune_sound r b (str_concat (map quote_rune l) +:+ quote +:+ t) Hc Hr) as [-> _].
  destruct (quote_rune_sound r b (str_concat (map quote_rune l)) Hc Hr) as [_ ->]. by rewrite IH1, IH2.
Qed.
Lemma reads_quote s : json_safe s = true -> reads anything (go_quote s) (VStr s) 0.
Proof.
  intros Hs. split; [done|]. intros n d rest Hn _ _. unfold go_quote in *. destruct n as [|n]; [cbn in Hn; lia|].
  destruct (quote_body_sound s rest Hs) as [Hb Hu]. rewrite <- !str_app_assoc. change (quote +:+ ?s) with (String (chr 34) s).
  unfold read_value. cbn [parse_val]. change (skip_ws (String (chr 34) ?s)) with (String (chr 34) s). rewrite next_byte_char by done.
  cbn [mbind option_bind]. replace (code (chr 34) =? 123) with false by done. replace (code (chr 34) =? 91) with false by done.
  replace (code (chr 34) =? 34) with true by done. change (String (chr 34) rest) with (quote +:+ rest).
  unfold parse_string. rewrite Hb. cbn [mbind option_bind]. unfold unquote. unfold unq in Hu. by rewrite Hu.
Qed.
End quoted.

(** *** Event records *)
Definition text_field (key value : string) (optional : bool) : list (string * string) :=
  if optional && String.eqb value "" then [] else [(key, to_valid value)].
Definition int_field (key : string) (value : Z) : list (string * string) := if value =? 0 then [] else [(key, itoa value)].
(** What a reader sees of an event: its fields, those that are empty left out,
    with invalid UTF-8 replaced. *)
Definition event_fields (e : Event) : list (string * string) :=
  text_field "timestamp" (ev_Timestamp e) false ++ text_field "event_id" (ev_EventID e) false ++ text_field "sensor" (ev_Sensor e) false
  ++ text_field "session_id" (ev_SessionID e) true ++ text_field "action" (ev_Action e) true ++ text_field "outcome" (ev_Outcome e) true
  ++ text_field "profile" (ev_Profile e) true ++ text_field "target" (ev_Target e) true
  ++ text_field "remote_addr" (ev_RemoteAddr e) false ++ text_field "client_addr" (ev_ClientAddr e) true
  ++ text_field "method" (ev_Method e) true ++ text_field "path" (ev_Path e) true
  ++ int_field "status_code" (ev_StatusCode e) ++ int_field "bytes_received" (ev_BytesReceived e) ++ int_field "bytes_sent" (ev_BytesSent e)
  ++ text_field "user_agent" (ev_UserAgent e) true ++ text_field "detail" (ev_Detail e) true.
Definition slit_fields (l : list (string * string)) : object := map (fun kv => (kv.1, VStr kv.2)) l.
Definition event_value (e : Event) : val := VMap (slit_fields (event_fields e)).

(** A list of members that reads as the fields, whose keys are ASCII. *)
Definition shows (texts : list string) (fields : list (string * string)) : Prop :=
  exists ms : list member, map member_text ms = texts /\ map (fun m => (to_valid m.1, m.2.2)) ms = slit_fields fields /\
    Forall (fun m => reads stops m.2.1 m.2.2 0) ms.
Lemma shows_app t1 f1 t2 f2 : shows t1 f1 -> shows t2 f2 -> shows (t1 ++ t2) (f1 ++ f2).
Proof.
  intros (m1 & <- & E1 & H1) (m2 & <- & E2 & H2). exists (m1 ++ m2). split; [by rewrite map_app|]. unfold slit_fields in *. rewrite !map_app.
  split; [by f_equal|]. by apply Forall_app.
Qed.
Lemma shows_text key v o : to_valid key = key -> shows (json_text key v o) (text_field key v o).
Proof.
  intros Hk. unfold json_text, text_field. destruct (_ && _); [by exists []|]. exists [(key, (json_string v, VStr (to_valid v)))].
  split; [done|]. cbn [map fst snd slit_fields]. rewrite Hk. split; [done|]. constructor; [|done]. eapply reads_weaken; [|apply reads_string]. done.
Qed.
Lemma itoa_lit z : itoa z = print_lit (int_lit z).
Proof.
  unfold itoa, print_lit, int_lit. cbn [ln_neg ln_int ln_frac ln_exp frac_text exp_text]. destruct (z <? 0) eqn:E; bool_to_prop.
  - rewrite Z.abs_neq by lia. cbn. by rewrite str_app_nil.
  - rewrite Z.abs_eq by lia. cbn. by rewrite str_app_nil.
Qed.
Lemma shows_int key v : to_valid key = key -> shows (json_int key v) (int_field key v).
Proof.
  intros Hk. unfold json_int, int_field. destruct (v =? 0); [by exists []|]. exists [(key, (itoa v, VStr (itoa v)))].
  split; [done|]. cbn [map fst snd slit_fields]. rewrite Hk. split; [done|]. constructor; [|done]. rewrite itoa_lit. apply reads_number, int_lit_wf.
Qed.
Lemma event_reads e : reads anything (event_json e) (event_value e) 1.
Proof.
  assert (Hs : shows (event_members e) (event_fields e)).
  { unfold event_members, event_fields. repeat apply shows_app; first [apply shows_text|apply shows_int]; vm_compute; reflexivity. }
  destruct Hs as (ms & E1 & E2 & HF). unfold event_json. rewrite <- E1. unfold event_value. rewrite <- E2.
  apply (reads_object 0 ms); [|done|done]. intros ->. revert E1. unfold event_members. unfold json_text at 1. cbn [andb app map]. discriminate.
Qed.

(** ** Bodies *)
Definition read_text (s : string) : option val :=
  '(v, r) ← read_value (2 * String.length s) 0 s; if String.eqb (skip_ws r) "" then Some v else None.
(** A stream of values, one after the other. *)
Fixpoint read_stream (fuel : nat) (s : string) : option (list val) :=
  match fuel with
  | O => None
  | S fuel => if String.eqb (skip_ws s) "" then Some [] else '(v, r) ← read_value (2 * String.length s) 0 s; cons v <$> read_stream fuel r
  end.
Lemma reads_whole t v h : reads anything t v h -> h <= max_json_depth -> read_text t = Some v.
Proof.
  intros [_ Hr] Hh. unfold read_text. specialize (Hr (2 * String.length t)%nat 0 "" ltac:(lia) ltac:(lia) I). rewrite str_app_nil in Hr. by rewrite Hr.
Qed.
Lemma reads_stream {A} (text : A -> string) (value : A -> val) h (l : list A) fuel : h <= max_json_depth ->
  Forall (fun a => reads anything (text a) (value a) h /\ exists t, text a = String (chr 123) t) l -> (length l < fuel)%nat ->
  read_stream fuel (str_concat (map text l)) = Some (map value l).
Proof.
  intros Hh HF. revert fuel. induction HF as [|a l [[_ Hr] [t Et]] HF IH]; intros [|fuel] Hf; [cbn in Hf; lia|done|cbn in Hf; lia|].
  cbn [map str_concat read_stream]. rewrite Et at 1. cbn [String.append]. change (skip_ws (String (chr 123) ?s)) with (String (chr 123) s). cbn [String.eqb].
  rewrite Hr; [|rewrite str_app_length; lia|lia|done]. cbn [mbind option_bind]. rewrite IH by (cbn in Hf; lia). done.
Qed.

Section bodies.
Context `{UnicodeTables} `{HecClock}.
Definition is_finite (f : spec_float) : bool := match f with S754_zero _ | S754_finite _ _ _ => true | _ => false end.
Lemma reads_float f : is_finite f = true -> reads stops (format_f f) (VStr (format_f f)) 0.
Proof.
  destruct f as [s| | |s m e]; try done; intros _; cbn [format_f]; [by apply reads_number|].
  pose proof (shortest_pos m e) as Hp. destruct (shortest m e) as [d x]. apply reads_number, fixed_lit_wf, Hp.
Qed.
Definition payload_of (e : Event) : sinkPayload := {| sp_timestamp := ev_Timestamp e; sp_json := event_json e |}.
Definition splunk_value (index source sourcetype : string) (e : Event) : val :=
  VMap (slit_fields ([("time", format_f (hecTime (ev_Timestamp e))); ("host", eventSourceName); ("sourcetype", sourcetype)]
    ++ (if String.eqb index "" then [] else [("index", index)]) ++ (if String.eqb source "" then [] else [("source", source)]))
    ++ [("event", event_value e)]).
Definition splunk_members (index source sourcetype : string) (e : Event) : list member :=
  let text k v := (k, (go_quote v, VStr v)) : member in
  [("time", (format_f (hecTime (ev_Timestamp e)), VStr (format_f (hecTime (ev_Timestamp e))))); text "host" eventSourceName; text "sourcetype" sourcetype]
  ++ (if String.eqb index "" then [] else [text "index" index]) ++ (if String.eqb source "" then [] else [text "source" source])
  ++ [("event", (event_json e, event_value e))].
Lemma splunk_record_text index source sourcetype e :
  splunk_record index source sourcetype (payload_of e) = object_text (splunk_members index source sourcetype e).
Proof.
  unfold splunk_record, object_text, splunk_members, member_text. cbn [payload_of sp_json sp_timestamp].
  destruct (String.eqb index ""), (String.eqb source ""); cbn [app map join fst snd];
    rewrite <- ?str_app_assoc; reflexivity.
Qed.
Lemma splunk_record_reads index source sourcetype e :
  json_safe index = true -> json_safe source = true -> json_safe sourcetype = true -> is_finite (hecTime (ev_Timestamp e)) = true ->
  reads anything (splunk_record index source sourcetype (payload_of e)) (splunk_value index source sourcetype e) 2 /\
  exists t, splunk_record index source sourcetype (payload_of e) = String (chr 123) t.
Proof.
  intros Hi Hs Ht Hf. split; [|by eexists]. rewrite splunk_record_text.
  replace (splunk_value index source sourcetype e) with (object_value (splunk_members index source sourcetype e)).
  2: { unfold object_value, splunk_members, splunk_value, slit_fields. destruct (String.eqb index ""), (String.eqb source ""); reflexivity. }
  assert (Hq : forall v, json_safe v = true -> reads stops (go_quote v) (VStr v) 1).
  { intros v Hv. destruct (reads_quote v Hv) as [Hne Hr]. split; [done|]. intros n d rest Hn Hd _. apply Hr; [done|lia|done]. }
  apply (reads_object 1); [done| |done]. unfold splunk_members. repeat apply Forall_cons_2; cbn [fst snd]; [|by apply Hq|by apply Hq|].
  - destruct (reads_float _ Hf) as [Hne Hr]. split; [done|]. intros n d rest Hn Hd Hrest. apply Hr; [done|lia|done].
  - apply Forall_app. split; [destruct (String.eqb index ""); [constructor|]; apply Forall_cons_2; [by apply Hq|constructor]|].
    apply Forall_app. split; [destruct (String.eqb source ""); [constructor|]; apply Forall_cons_2; [by apply Hq|constructor]|].
    apply Forall_cons_2; [|constructor]. eapply reads_weaken; [|apply event_reads]. done.
Qed.
Lemma split_lines lines : Forall (fun t => str_in (chr 10) t = false) lines ->
  split (chr 10) (str_concat (map (fun t => t +:+ newline) lines)) = lines ++ [""].
Proof.
  induction 1 as [|t lines Ht HF IH]; [done|]. cbn [map str_concat]. rewrite <- str_app_assoc. unfold newline at 1. rewrite split_app, IH.
  by rewrite split_single.
Qed.
Definition bulk_line (index : string) : string :=
  object_text [("index", (object_text [("_index", (go_quote index, VStr index))], VMap [("_index", VStr index)]))].
Lemma bulk_action_line index : bulk_action index = bulk_line index +:+ newline.
Proof.
  unfold bulk_action, bulk_line, object_text, member_text. cbn [map join fst snd]. rewrite <- !str_app_assoc. generalize (go_quote index). reflexivity.
Qed.
Lemma bulk_lines index events : bulk_body index (map payload_of events) =
  str_concat (map (fun t => t +:+ newline) (flat_map (fun e => [bulk_line index; event_json e]) events)).
Proof.
  unfold bulk_body. induction events as [|e events IH]; [done|]. cbn [map flat_map app str_concat]. rewrite IH. cbn [payload_of sp_json].
  by rewrite bulk_action_line, <- !str_app_assoc.
Qed.
Lemma bulk_line_single index : str_in (chr 10) (bulk_line index) = false.
Proof.
  apply printable_one_line. unfold bulk_line, object_text, member_text. cbn [map join fst snd]. by rewrite !printable_app, !json_string_printable, go_quote_printable.
Qed.

(** C25. Who reads the body of a batch the way its receiver does gets the events
    of the batch back, each once and in order, field by field: the lines of the
    webhook's body; the lines of the bulk request, an action for the configured
    index before each event; the sequence of objects sent to Splunk, each with
    the event in it. The texts of the configuration have to be ones that
    [strconv.Quote] writes as JSON. *)
Theorem collectors_read_every_event : forall events index source sourcetype,
  json_safe index = true -> json_safe source = true -> json_safe sourcetype = true ->
  Forall (fun e => is_finite (hecTime (ev_Timestamp e)) = true) events ->
  let batch := map payload_of events in
  split (chr 10) (ndjson_body batch) = map event_json events ++ [""] /\
  split (chr 10) (bulk_body index batch) = flat_map (fun e => [bulk_line index; event_json e]) events ++ [""] /\
  read_text (bulk_line index) = Some (VMap [("index", VMap [("_index", VStr index)])]) /\
  Forall (fun e => read_text (event_json e) = Some (event_value e)) events /\
  read_stream (S (length events)) (buildSplunkBody batch index source sourcetype) = Some (map (splunk_value index source sourcetype) events).
Proof.
  intros events index source sourcetype Hi Hs Ht Hf. cbv zeta. split; [|split; [|split; [|split]]].
  - unfold ndjson_body. rewrite map_map. rewrite <- (map_map event_json (fun t => t +:+ newline)). apply split_lines, Forall_map, Forall_forall. intros e _.
    apply printable_one_line, event_json_printable.
  - rewrite bulk_lines. apply split_lines, Forall_forall. intros t Hin. apply list_elem_of_In, in_flat_map in Hin as (e & _ & Hin).
    destruct Hin as [<-|[<-|[]]]; [apply bulk_line_single|apply printable_one_line, event_json_printable].
  - apply (reads_whole _ _ 2); [|done]. unfold bulk_line. apply (reads_object 1 [("index", (_, _))]); [done| |done]. apply Forall_cons_2; [|constructor]. cbn [fst snd].
    eapply reads_weaken; [|apply (reads_object 0 [("_index", (_, _))])]; [done|done| |done]. apply Forall_cons_2; [|constructor].
    eapply reads_weaken; [|by apply reads_quote]. done.
  - apply Forall_forall. intros e _. apply (reads_whole _ _ 1); [apply event_reads|done].
  - unfold buildSplunkBody. rewrite map_map. apply (reads_stream _ _ 2); [done| |lia]. apply (Forall_impl _ _ _ Hf). intros e He.
    by apply splunk_record_reads.
Qed.
End bodies.

(** A control character in the name of an index makes the body unreadable,
    though validation accepts it. *)
Example control_character_breaks_the_bulk_request :
  @validSinkIndex ascii_tables (String (chr 1) "x") = true /\ read_text (@bulk_line ascii_tables (String (chr 1) "x")) = None.
Proof. split; vm_compute; reflexivity. Qed.

(** ** Headers *)
Lemma header_fold l (m : gmap string string) n v : NoDup (map CanonicalHeaderKey l.*1) ->
  foldl header_set m l !! n = Some v <->
  (exists name, (name, v) ∈ l /\ CanonicalHeaderKey name = n) \/ m !! n = Some v /\ n ∉ map CanonicalHeaderKey l.*1.
Proof.
  revert m. induction l as [|[name w] l IH]; intros m.
  - cbn. intros _. split; [intros Hm; right; split; [done|apply not_elem_of_nil]|]. intros [(? & Hin & _)|[? _]]; [by apply elem_of_nil in Hin|done].
  - cbn [map fmap list_fmap fst foldl]. intros [Hn Hd]%NoDup_cons. rewrite IH by done. unfold header_set at 1. cbn [fst snd]. rewrite not_elem_of_cons.
    setoid_rewrite elem_of_cons. destruct (decide (n = CanonicalHeaderKey name)) as [->|Hne].
    + rewrite lookup_insert_eq. split.
      * intros [(n' & Hin & En)|[[= ->] _]]; [left; exists n'; split; [by right|done]|left; exists name; split; [by left|done]].
      * intros [(n' & [[= -> ->]|Hin] & En)|[_ [? _]]]; [right; by split|left; by exists n'|done].
    + rewrite lookup_insert_ne by done. split.
      * intros [(n' & Hin & En)|[Hm Hl]]; [left; exists n'; split; [by right|done]|right; done].
      * intros [(n' & [[= -> ->]|Hin] & En)|[Hm [_ Hl]]]; [done|left; by exists n'|right; by split].
Qed.
Section headers.
Context `{UnicodeTables} `{UrlPackage}.

(** When no two configured names are spellings of one header, a request
    carries exactly the configured headers and the content type of its body,
    whatever order the map of headers is visited in; a configured content type
    gives way. *)
Theorem requests_carry_their_headers : forall (o : RangeOrder) endpoint headers contentType body n v,
  NoDup (map CanonicalHeaderKey (map_to_list headers).*1) ->
  po_headers (@build_post o endpoint headers contentType body) !! n = Some v <->
  (n = "Content-Type" /\ v = contentType \/ n <> "Content-Type" /\ exists name, headers !! name = Some v /\ CanonicalHeaderKey name = n).
Proof.
  intros o endpoint headers contentType body n v Hd. unfold build_post. cbn [po_headers]. unfold header_set at 1. cbn [fst snd].
  replace (CanonicalHeaderKey "Content-Type") with "Content-Type" by (vm_compute; reflexivity).
  destruct (decide (n = "Content-Type")) as [->|Hne]; [rewrite lookup_insert_eq; naive_solver|]. rewrite lookup_insert_ne by done.
  rewrite header_fold; [|by rewrite (range_entries_perm 40)]. rewrite lookup_empty. split.
  - intros [(name & Hin & En)|[? _]]; [|done]. right. split; [done|]. exists name. rewrite (range_entries_perm 40) in Hin. by apply elem_of_map_to_list in Hin.
  - intros [[? _]|[_ (name & Hin & En)]]; [done|]. left. exists name. by rewrite (range_entries_perm 40), elem_of_map_to_list.
Qed.
End headers.
Definition reverse_order : RangeOrder.
Proof. refine {| range_entries := fun A _ l => reverse l |}. intros A _ l. apply reverse_Permutation. Defined.
Definition lower_case_header : LogSinkConfig :=
  {| ls_Type := "splunk"; ls_Path := ""; ls_URL := "https://siem"; ls_Token := "hec"; ls_Username := ""; ls_Password := "";
     ls_Index := ""; ls_Source := ""; ls_Sourcetype := ""; ls_Headers := [("authorization", "Basic eA==")] |}.
Definition fixed_clock : HecClock := {| hec_now := 1767323045 |}.
Definition plain_urls : UrlPackage :=
  {| url_Parse := fun s =>
       if has_prefix s "https://" then
         let rest := trim_prefix s "https://" in
         let '(host, path) := match cut rest "/" with Some (host, path) => (host, "/" +:+ path) | None => (rest, "") end in
         Some {| url_Scheme := "https"; url_Host := host; url_Path := path; url_Fragment := ""; url_User := false |}
       else None;
     url_String := fun u => url_Scheme u +:+ "://" +:+ url_Host u +:+ url_Path u |}.
Definition posted (o : RangeOrder) (cfg : LogSinkConfig) (batch : list sinkPayload) : option post :=
  match @NewSink ascii_tables plain_urls fixed_clock (fun _ => None) cfg with
  | inl (RemoteSink r) => Some (@build_post o (rs_endpoint r) (rs_headers r) (rs_contentType r) (rs_body r batch))
  | _ => None
  end.
(** A configured [authorization] header and a token are two keys of the map and
    one header of the request: which of them is sent depends on the order the
    map is visited in. The configuration is valid. *)
Example token_and_header_race :
  @check_sink ascii_tables key_order plain_urls 1 lower_case_header = None /\
  (p ← posted key_order lower_case_header []; po_headers p !! "Authorization") <> (p ← posted reverse_order lower_case_header []; po_headers p !! "Authorization").
Proof. split; [vm_compute; reflexivity|]. vm_compute. discriminate. Qed.
Lemma requests_carry_their_headers_witness :
  po_headers (@build_post reverse_order "https://siem" {["x-token" := "t"; "content-type" := "text/plain"]} "application/json" "") !! "X-Token" = Some "t".
Proof.
  refine (proj2 (requests_carry_their_headers reverse_order "https://siem" {["x-token" := "t"; "content-type" := "text/plain"]} "application/json" "" "X-Token" "t" _) _).
  - vm_compute. apply NoDup_cons. split; [|apply NoDup_singleton]. intros [E|E]%elem_of_cons; [discriminate E|by apply elem_of_nil in E].
  - right. split; [discriminate|]. exists "x-token". split; vm_compute; reflexivity.
Defined.

(** ** Starting the sinks *)
Section start.
Context `{UnicodeTables} `{RangeOrder} `{UrlPackage} `{HecClock} (open : string -> option string).
Lemma new_sinks_spec i cfgs opened :
  match new_sinks_loop open i cfgs opened with
  | (inl sinks, closed) => closed = [] /\ exists more, sinks = opened ++ more /\ Forall2 (fun cfg s => NewSink open cfg = inl s) cfgs more
  | (inr e, closed) => exists before cfg after why more, cfgs = before ++ cfg :: after /\ NewSink open cfg = inr why /\
      closed = opened ++ more /\ Forall2 (fun cfg s => NewSink open cfg = inl s) before more /\
      e = "log sink " +:+ itoa (i + Z.of_nat (length before) + 1) +:+ " (" +:+ ls_Type cfg +:+ "): " +:+ why
  end.
Proof.
  revert i opened. induction cfgs as [|cfg cfgs IH]; intros i opened; cbn [new_sinks_loop].
  { split; [done|]. exists []. split; [by rewrite app_nil_r|constructor]. }
  destruct (NewSink open cfg) as [s|why] eqn:Es.
  - specialize (IH (i + 1) (opened ++ [s])). destruct (new_sinks_loop _ _ _ _) as [[sinks|e] closed].
    + destruct IH as (-> & more & -> & HF). split; [done|]. exists (s :: more). rewrite <- app_assoc. split; [done|by constructor].
    + destruct IH as (before & c & after & why & more & -> & Hc & -> & HF & ->). exists (cfg :: before), c, after, why, (s :: more).
      rewrite <- app_assoc. split; [done|]. split; [done|]. split; [done|]. split; [by constructor|]. cbn [length]. do 2 f_equal. f_equal. lia.
  - exists [], cfg, cfgs, why, []. rewrite app_nil_r. split; [done|]. split; [done|]. split; [done|]. split; [constructor|]. cbn [length]. do 2 f_equal. f_equal. lia.
Qed.

(** The sinks start together or not at all: either there is one sink per
    entry, in order, each what its factory gives, and none is closed; or the
    first entry whose factory fails is named in the error, and exactly the
    sinks opened before it are closed again. *)
Theorem sinks_start_together : forall cfgs,
  match NewSinks open cfgs with
  | (inl sinks, closed) => closed = [] /\ Forall2 (fun cfg s => NewSink open cfg = inl s) cfgs sinks
  | (inr e, closed) => exists before cfg after why, cfgs = before ++ cfg :: after /\ NewSink open cfg = inr why /\
      Forall2 (fun cfg s => NewSink open cfg = inl s) before closed /\
      e = "log sink " +:+ itoa (Z.of_nat (length before) + 1) +:+ " (" +:+ ls_Type cfg +:+ "): " +:+ why
  end.
Proof.
  intros cfgs. pose proof (new_sinks_spec 0 cfgs []) as Hs. unfold NewSinks. destruct (new_sinks_loop open 0 cfgs []) as [[sinks|e] closed].
  - destruct Hs as (-> & more & -> & HF). done.
  - destruct Hs as (before & c & after & why & more & -> & Hc & -> & HF & ->). by exists before, c, after, why.
Qed.
Lemma valid_sink_starts s : valid_sink s -> (ls_Type s = "file" -> open (ls_Path s) = None) -> exists sink, NewSink open s = inl sink.
Proof.
  intros [_ _ _ Hd] Hf. unfold NewSink. destruct Hd as [(Ht & _)|[[Ht Hu]|[Ht _]]].
  - rewrite Ht. cbn. unfold newFileSink. rewrite (Hf Ht). by eexists.
  - destruct Hu as (_ & _ & u & Hp & Hh & _). rewrite !elem_of_cons, elem_of_nil in Ht. destruct Ht as [Ht|[Ht|[]]]; rewrite Ht; cbn.
    + unfold newSplunkSink. rewrite Hp. destruct (String.eqb_spec (url_Host u) ""); [done|]. by eexists.
    + by eexists.
  - rewrite !elem_of_cons, elem_of_nil in Ht. destruct Ht as [Ht|[Ht|[]]]; rewrite Ht; cbn; by eexists.
Qed.
(** C26. What validation accepts starts: every sink of a valid configuration is
    built, unless the file of a file sink cannot be opened. *)
Theorem validated_sinks_start : forall cfg, Validate (Some cfg) = None ->
  (forall s, s ∈ lg_Sinks (c_Logging cfg) -> ls_Type s = "file" -> open (ls_Path s) = None) ->
  exists sinks, NewSinks open (lg_Sinks (c_Logging cfg)) = (inl sinks, []) /\ length sinks = length (lg_Sinks (c_Logging cfg)).
Proof.
  intros cfg Hv Hf. assert (HS : validateSinks (lg_Sinks (c_Logging cfg)) = None).
  { revert Hv. cbn [Validate]. destruct (run_mode_address cfg) as [[host port]|]; [|done]. rewrite !andthen_none. tauto. }
  unfold validateSinks in HS. apply andthen_none in HS as [_ HS]. rewrite (each_none _ valid_sink) in HS by apply check_sink_spec.
  pose proof (new_sinks_spec 0 (lg_Sinks (c_Logging cfg)) []) as Hs. unfold NewSinks. destruct (new_sinks_loop open 0 _ []) as [[sinks|e] closed].
  - destruct Hs as (-> & more & -> & HF). exists more. split; [done|]. symmetry. by eapply Forall2_length.
  - exfalso. destruct Hs as (before & c & after & why & more & E & Hc & _). rewrite E in HS, Hf.
    destruct (valid_sink_starts c) as [sink Hi]; [|apply Hf; set_solver|congruence]. rewrite Forall_forall in HS. apply HS. set_solver.
Qed.
End start.

(** ** The file *)
Inductive file_action := File_emit (written : nat) (json : string) | File_close.
(** The file after the actions, and how often it was closed. *)
Fixpoint file_run (l : list file_action) (s : fileSink) (closes : nat) : fileSink * nat :=
  match l with
  | [] => (s, closes)
  | File_emit n json :: l => file_run l (fileSink_Emit n json s) closes
  | File_close :: l => let '(s, c) := fileSink_Close s in file_run l s (if c : bool then S closes else closes)
  end.
Fixpoint before_close (l : list file_action) : list (nat * string) :=
  match l with [] | File_close :: _ => [] | File_emit n json :: l => (n, json) :: before_close l end.
Definition file_closes (l : list file_action) : bool := existsb (fun a => match a with File_close => true | _ => false end) l.
Lemma closed_run l f n : file_run l {| fs_file := f; fs_closed := true |} n = ({| fs_file := f; fs_closed := true |}, n).
Proof. induction l as [|[w json|] l IH]; [done|exact IH|exact IH]. Qed.
Lemma open_run l f n : file_run l {| fs_file := f; fs_closed := false |} n =
  ({| fs_file := f +:+ str_concat (map (fun wj => str_take wj.1 (wj.2 +:+ newline)) (before_close l)); fs_closed := file_closes l |}, if file_closes l then S n else n).
Proof.
  revert f. induction l as [|[w json|] l IH]; intros f; cbn [file_run before_close map str_concat].
  - by rewrite str_app_nil.
  - unfold fileSink_Emit. cbn [fs_closed fs_file]. rewrite IH. by rewrite str_app_assoc.
  - unfold fileSink_Close. cbn [fs_closed fs_file]. by rewrite closed_run, str_app_nil.
Qed.
(** The file sink: the file holds what was written of the lines emitted
    before the first close, in order, nothing after; it is closed once, at the
    first close. When the writes are whole, its lines are the events. *)
Theorem file_sink_appends_lines : forall l, let '(s, closes) := file_run l {| fs_file := ""; fs_closed := false |} 0 in
  fs_file s = str_concat (map (fun wj => str_take wj.1 (wj.2 +:+ newline)) (before_close l)) /\
  fs_closed s = file_closes l /\ closes = (if file_closes l then 1 else 0)%nat /\
  (Forall (fun wj => (String.length wj.2 < wj.1)%nat /\ str_in (chr 10) wj.2 = false) (before_close l) ->
   split (chr 10) (fs_file s) = (before_close l).*2 ++ [""]).
Proof.
  intros l. rewrite open_run. cbn [fs_file fs_closed String.append]. split; [done|]. split; [done|]. split; [done|]. intros HF.
  rewrite <- split_lines.
  - f_equal. f_equal. rewrite map_map. apply map_ext_in. intros [w json] Hin%list_elem_of_In. rewrite Forall_forall in HF. destruct (HF _ Hin) as [Hw _]. cbn [fst snd] in *.
    apply str_take_all. rewrite str_app_length. cbn. lia.
  - apply Forall_fmap. apply (Forall_impl _ _ _ HF). by intros [w json] [_ Hn].
Qed.
(** A failed write leaves half a line, and the next event continues it. *)
Example torn_line : split (chr 10) (fs_file (file_run [File_emit 3 "{'a':1}"; File_emit 99 "{'b':2}"] {| fs_file := ""; fs_closed := false |} 0).1) = ["{'a{'b':2}"; ""].
Proof. reflexivity. Qed.
(** A query in the URL of an Elasticsearch sink swallows the path of the API. *)
Definition elk_with_query : LogSinkConfig :=
  {| ls_Type := "elk"; ls_URL := "https://es:9200/?pretty=1"; ls_Path := ""; ls_Index := "helix"; ls_Source := ""; ls_Sourcetype := "";
     ls_Token := ""; ls_Username := ""; ls_Password := ""; ls_Headers := [] |}.
Example query_hides_the_bulk_path : po_url <$> posted key_order elk_with_query [] = Some "https://es:9200/?pretty=1/_bulk".
Proof. vm_compute. reflexivity. Qed.

(** ** Instances *)
Lemma collectors_read_every_event_witness :
  @read_stream 2 (@buildSplunkBody ascii_tables fixed_clock [payload_of noisy_event] "helix" "" "_json")
    = Some [@splunk_value fixed_clock "helix" "" "_json" noisy_event].
Proof.
  assert (H1 : @json_safe ascii_tables "helix" = true) by (vm_compute; reflexivity).
  assert (H2 : @json_safe ascii_tables "" = true) by (vm_compute; reflexivity).
  assert (H3 : @json_safe ascii_tables "_json" = true) by (vm_compute; reflexivity).
  assert (H4 : Forall (fun e => is_finite (@hecTime fixed_clock (ev_Timestamp e)) = true) [noisy_event]) by (apply Forall_singleton; vm_compute; reflexivity).
  exact (proj2 (proj2 (proj2 (proj2 (@collectors_read_every_event ascii_tables fixed_clock [noisy_event] "helix" "" "_json" H1 H2 H3 H4))))).
Defined.
Definition shipping_config : Config :=
  let d := Defaults in
  {| c_HTTP := c_HTTP d; c_UDP := c_UDP d; c_TCP := c_TCP d; c_Docker := c_Docker d; c_AI := c_AI d; c_Kubelet := c_Kubelet d; c_RunMode := c_RunMode d; c_K8S := c_K8S d;
     c_Logging := {| lg_Format := "json"; lg_IncludeUserAgent := false; lg_TrustedProxyCIDRs := []; lg_Sinks := [lower_case_header; elk_with_query] |} |}.
Lemma validated_sinks_start_witness : exists sinks,
  @NewSinks ascii_tables plain_urls fixed_clock (fun _ => None) [lower_case_header; elk_with_query] = (inl sinks, []) /\ length sinks = 2%nat.
Proof.
  assert (Hv : @Validate ascii_tables key_order plain_urls (Some shipping_config) = None) by (vm_compute; reflexivity).
  exact (@validated_sinks_start ascii_tables key_order plain_urls fixed_clock (fun _ => None) shipping_config Hv (fun _ _ _ => eq_refl)).
Defined.
