(* ===== verification/Ai.v ===== *)
(** * The AI endpoint sensor

    ai.go and replies.go: the bounded façades of Ollama, OpenAI and Anthropic.
    Nothing of a request reaches a model; the replies are synthetic.  One call
    of [ServeHTTP] is a function of the sensor, the session of its connection
    and the request; a failed type assertion is a panic, [None]. *)
From S2P Require Import Prelude GoStrings GoCodec ConfigModel Value Json GoTime Http.

#[local] Set Warnings "-clear-no-such-hyp,-notation-for-abbreviation".
#[local] Open Scope string_scope.
#[local] Open Scope list_scope.
#[local] Open Scope Z_scope.

Definition maxBody : Z := 64 * 2 ^ 10.
Definition maxOutput : Z := 32 * 2 ^ 10.
Definition maxItems : Z := 128.
Definition maxDepth : Z := 32.
Definition maxRequests : Z := 128.
Definition sessionLifetime : Z := 120 * 10 ^ 9.
Definition workSlots : Z := 32.
Definition ollamaModel : string := "llama3.2:latest".
Definition openaiModel : string := "gpt-4o-mini".
Definition anthropicModel : string := "claude-3-5-sonnet-latest".

(** [modelPattern]: a letter or digit, then at most 127 of these or [._:/-]. *)
Definition model_head (c : ascii) : bool := is_digit c || is_lower c || is_upper c.
Definition model_char (c : ascii) : bool := model_head c || any_byte (Ascii.eqb c) "._:/-".
Definition modelPattern (s : string) : bool :=
  match s with String c s => model_head c && all_bytes model_char s && (slen s <=? 127) | "" => false end.

(** ** Results *)
Record result := { rs_code : Z; rs_frames : list string; rs_contentType : string; rs_outcome : string; rs_detail : string }.
Definition plain_result (code : Z) (contentType : string) (frames : list string) : result :=
  {| rs_code := code; rs_frames := frames; rs_contentType := contentType; rs_outcome := ""; rs_detail := "" |}.
Definition jsonResult (code : Z) (value : val) : result :=
  match json_marshal value with
  | None => plain_result 500 "application/json" ["{" +:+ quote +:+ "error" +:+ quote +:+ ":" +:+ quote +:+ "response unavailable" +:+ quote +:+ "}"]
  | Some data => plain_result code "application/json" [data]
  end.
Definition jobj (l : list (string * val)) : object := of_pairs l.
Definition jlit (l : list (string * val)) : val := VMap (jobj l).
Definition failure (profile : string) (code : Z) (message : string) : result :=
  let kind := if (code =? 429) || (code =? 503) then "rate_limit_error" else if code =? 404 then "not_found_error"
              else if code =? 401 then "authentication_error" else "invalid_request_error" in
  if String.eqb profile "ollama" then jsonResult code (jlit [("error", VStr message)])
  else if String.eqb profile "anthropic"
  then jsonResult code (jlit [("type", VStr "error"); ("error", jlit [("type", VStr kind); ("message", VStr message)])])
  else jsonResult code (jlit [("error", jlit [("type", VStr kind); ("message", VStr message); ("param", VNil); ("code", VNil)])]).
Definition profileFor (path : string) : string :=
  if String.eqb path "/v1/messages" || String.eqb path "/v1/messages/count_tokens" then "anthropic"
  else if has_prefix path "/v1/" then "openai" else "ollama".
(** The method a path expects, empty for an unknown path, and the action. *)
Definition routes : list (string * (string * string)) :=
  [("/", ("GET", "health")); ("/api/version", ("GET", "version"));
   ("/api/tags", ("GET", "models.list")); ("/api/ps", ("GET", "models.list")); ("/v1/models", ("GET", "models.list"));
   ("/api/show", ("POST", "models.inspect"));
   ("/api/chat", ("POST", "inference.chat")); ("/v1/chat/completions", ("POST", "inference.chat")); ("/v1/messages", ("POST", "inference.chat"));
   ("/api/generate", ("POST", "inference.generate")); ("/v1/responses", ("POST", "inference.responses"));
   ("/v1/messages/count_tokens", ("POST", "tokens.count"));
   ("/api/pull", ("POST", "models.modify")); ("/api/push", ("POST", "models.modify")); ("/api/create", ("POST", "models.modify"));
   ("/api/copy", ("POST", "models.modify")); ("/api/delete", ("DELETE", "models.modify"))].
Definition route (path : string) : string * string := default ("", "unknown") (oget routes path).

(** ** Decoding

    The scan of the brackets outside strings, before the decoder. *)
Record scan_state := { sc_depth : Z; sc_quoted : bool; sc_escaped : bool }.
Definition scan_byte (st : scan_state) (c : ascii) : option scan_state :=
  if sc_quoted st then
    Some (if sc_escaped st then {| sc_depth := sc_depth st; sc_quoted := true; sc_escaped := false |}
          else if code c =? 92 then {| sc_depth := sc_depth st; sc_quoted := true; sc_escaped := true |}
          else if code c =? 34 then {| sc_depth := sc_depth st; sc_quoted := false; sc_escaped := false |}
          else st)
  else if code c =? 34 then Some {| sc_depth := sc_depth st; sc_quoted := true; sc_escaped := sc_escaped st |}
  else if (code c =? 123) || (code c =? 91) then
    if maxDepth <? sc_depth st + 1 then None
    else Some {| sc_depth := sc_depth st + 1; sc_quoted := false; sc_escaped := sc_escaped st |}
  else if (code c =? 125) || (code c =? 93) then Some {| sc_depth := sc_depth st - 1; sc_quoted := false; sc_escaped := sc_escaped st |}
  else Some st.
Fixpoint scan_bytes (st : scan_state) (s : string) : option scan_state :=
  match s with "" => Some st | String c s => st ← scan_byte st c; scan_bytes st s end.
Definition decode (body : string) : option object :=
  match scan_bytes {| sc_depth := 0; sc_quoted := false; sc_escaped := false |} body with
  | None => None
  | Some _ => match json_parse body with Some (VMap req) => Some req | _ => None end
  end.

Definition selectedModel (req : object) : option string :=
  match idx req "model" with
  | VStr name => if modelPattern name then Some (if String.eqb name "llama3.2" then ollamaModel else name) else None
  | _ => None
  end.
Definition streamFlag (req : object) (defaultValue : bool) : option bool :=
  match oget req "stream" with None => Some defaultValue | Some (VBool b) => Some b | Some _ => None end.
Definition is_object (v : val) : bool := match v with VMap _ => true | _ => false end.
Definition itemCount (req : object) (key : string) (required : bool) : option Z :=
  match oget req key with
  | None => if required then None else Some 0
  | Some (VList items) =>
      let n := Z.of_nat (length items) in
      if (maxItems <? n) || (required && (n =? 0)) || negb (forallb is_object items) then None else Some n
  | Some _ => None
  end.
Definition valid_content (role : string) (content : val) : bool :=
  match content with
  | VStr _ => true
  | VList content => (Z.of_nat (length content) <=? maxItems) && forallb is_object content
  | VNil => String.eqb role "assistant"
  | _ => false
  end.
(** The assertion of [validMessages] that a message is an object panics where
    it fails. *)
Fixpoint messages_loop (messages : list val) : option bool :=
  match messages with
  | [] => Some true
  | VMap msg :: messages =>
      let role := stringField msg "role" in
      if negb (bool_decide (role ∈ ["user"; "assistant"; "system"; "developer"; "tool"])) then Some false
      else if negb (valid_content role (idx msg "content")) then Some false
      else messages_loop messages
  | _ :: _ => None
  end.
Definition validMessages (req : object) : option bool := messages_loop (objectList (idx req "messages")).

(** ** Synthetic text *)
Definition chunks : list string := ["Hello"; "!"; " How"; " can"; " I"; " help"; " you"; " today"; "?"].
(** A JSON number that is a whole number from 1 to 32768. *)
Definition whole (f : spec_float) : bool := SFeqb f (float_of_int (trunc_float f)).
Definition valid_limit (f : spec_float) : bool :=
  negb (SFltb f (float_of_int 1)) && negb (SFltb (float_of_int 32768) f) && whole f.
Fixpoint limit_budget (req : object) (keys : list string) (budget : Z) : option Z :=
  match keys with
  | [] => Some budget
  | key :: keys =>
      match oget req key with
      | None => limit_budget req keys budget
      | Some (VFloat n) => if valid_limit n then limit_budget req keys (if trunc_float n <? budget then trunc_float n else budget) else None
      | Some _ => None
      end
  end.
Definition predict_budget (req : object) (budget : Z) : option Z :=
  match idx req "options" with
  | VMap opts =>
      match oget opts "num_predict" with
      | None => Some budget
      | Some (VFloat n) =>
          if SFltb (float_of_int 32768) n || negb (whole n) || SFeqb n (float_of_int 0) || SFltb n (float_of_int (-2)) then None
          else Some (if SFltb (float_of_int 0) n && (trunc_float n <? budget) then trunc_float n else budget)
      | Some _ => None
      end
  | _ => Some budget
  end.
Definition generatedText (req : object) : option (string * Z) :=
  budget ← limit_budget req ["max_tokens"; "max_completion_tokens"; "max_output_tokens"] (Z.of_nat (length chunks));
  budget ← predict_budget req budget;
  Some (str_concat (take (Z.to_nat budget) chunks), budget).

(** ** Replies *)
Definition marshal_frame (v : val) : string := default "" (json_marshal v).
Definition ndjson (values : list val) : result := plain_result 200 "application/x-ndjson" (map (fun v => marshal_frame v +:+ newline) values).
Definition sse_frame (event : object) : string :=
  (match idx event "type" with VStr kind => "event: " +:+ kind +:+ newline | _ => "" end)
  +:+ "data: " +:+ marshal_frame (VMap event) +:+ newline +:+ newline.
Definition sse (events : list object) : result := plain_result 200 "text/event-stream" (map sse_frame events).
Definition add_frames (r : result) (frames : list string) : result :=
  {| rs_code := rs_code r; rs_frames := rs_frames r ++ frames; rs_contentType := rs_contentType r; rs_outcome := rs_outcome r; rs_detail := rs_detail r |}.

(** [clock n] is the [n]th reading of the clock while a request is handled, in
    nanoseconds. *)
Definition unix (ns : Z) : val := VInt (ns / 10 ^ 9).
Definition ollama_part (path name now text : string) (done_ : bool) (tokens : Z) : val :=
  jlit ([("model", VStr name); ("created_at", VStr now); ("done", VBool done_)]
    ++ (if String.eqb path "/api/chat" then [("message", jlit [("role", VStr "assistant"); ("content", VStr text)])] else [("response", VStr text)])
    ++ (if done_ then [("done_reason", VStr "stop"); ("total_duration", VInt 1000000); ("load_duration", VInt 0); ("prompt_eval_count", VInt 1);
                       ("eval_count", VInt tokens); ("eval_duration", VInt 1000000)] else [])).
Definition ollamaReply (clock : nat -> Z) (path name : string) (stream : bool) (textValue : string) (tokens : Z) : result :=
  let now := rfc3339_nano (clock 2%nat / 10 ^ 9) (clock 2%nat mod 10 ^ 9) in
  if stream then ndjson [ollama_part path name now textValue false tokens; ollama_part path name now "" true tokens]
  else jsonResult 200 (ollama_part path name now textValue true tokens).
Definition chat_usage (tokens : Z) : val :=
  jlit [("prompt_tokens", VInt 1); ("completion_tokens", VInt tokens); ("total_tokens", VInt (tokens + 1))].
Definition chat_chunk (id name : string) (now : val) (delta : object) (finish : val) : object :=
  jobj [("id", VStr id); ("object", VStr "chat.completion.chunk"); ("created", now); ("model", VStr name);
       ("choices", VMapList [jobj [("index", VInt 0); ("delta", VMap delta); ("finish_reason", finish); ("logprobs", VNil)]])].
Definition include_usage (req : object) : bool :=
  match idx req "stream_options" with VMap opts => match idx opts "include_usage" with VBool b => b | _ => false end | _ => false end.
Definition chatReply (clock : nat -> Z) (name id : string) (stream : bool) (req : object) (textValue : string) (tokens : Z) : result :=
  let now := unix (clock 2%nat) in
  if negb stream then
    jsonResult 200 (jlit [("id", VStr id); ("object", VStr "chat.completion"); ("created", now); ("model", VStr name);
      ("choices", VMapList [jobj [("index", VInt 0); ("message", jlit [("role", VStr "assistant"); ("content", VStr textValue)]);
                                 ("finish_reason", VStr "stop"); ("logprobs", VNil)]]); ("usage", chat_usage tokens)])
  else
    let out := sse [chat_chunk id name now (jobj [("role", VStr "assistant"); ("content", VStr "")]) VNil;
                    chat_chunk id name now (jobj [("content", VStr textValue)]) VNil; chat_chunk id name now [] (VStr "stop")] in
    let out := if include_usage req
               then add_frames out (rs_frames (sse [jobj [("id", VStr id); ("object", VStr "chat.completion.chunk"); ("created", now);
                                                         ("model", VStr name); ("choices", VMapList []); ("usage", chat_usage tokens)]]))
               else out in
    add_frames out ["data: [DONE]" +:+ newline +:+ newline].
Definition anthropic_message (id name : string) (content : list object) (reason : val) (output : Z) : val :=
  jlit [("id", VStr id); ("type", VStr "message"); ("role", VStr "assistant"); ("model", VStr name); ("content", VMapList content);
       ("stop_reason", reason); ("stop_sequence", VNil); ("usage", jlit [("input_tokens", VInt 1); ("output_tokens", VInt output)])].
Definition anthropicReply (name id : string) (stream : bool) (textValue : string) (tokens : Z) : result :=
  if negb stream then jsonResult 200 (anthropic_message id name [jobj [("type", VStr "text"); ("text", VStr textValue)]] (VStr "end_turn") tokens)
  else sse
    [jobj [("type", VStr "message_start"); ("message", anthropic_message id name [] VNil 0)];
     jobj [("type", VStr "content_block_start"); ("index", VInt 0); ("content_block", jlit [("type", VStr "text"); ("text", VStr "")])];
     jobj [("type", VStr "content_block_delta"); ("index", VInt 0); ("delta", jlit [("type", VStr "text_delta"); ("text", VStr textValue)])];
     jobj [("type", VStr "content_block_stop"); ("index", VInt 0)];
     jobj [("type", VStr "message_delta"); ("delta", jlit [("stop_reason", VStr "end_turn"); ("stop_sequence", VNil)]);
          ("usage", jlit [("output_tokens", VInt tokens)])];
     jobj [("type", VStr "message_stop")]].
Definition output_text (text : string) : object :=
  jobj [("type", VStr "output_text"); ("text", VStr text); ("annotations", VList []); ("logprobs", VList [])].
Definition response_body (id name status : string) (now : val) (output : list object) (tokens : Z) : val :=
  jlit [("id", VStr id); ("object", VStr "response"); ("created_at", now); ("status", VStr status); ("model", VStr name);
       ("output", VMapList output); ("error", VNil); ("incomplete_details", VNil); ("parallel_tool_calls", VBool false); ("tools", VList []);
       ("tool_choice", VStr "none"); ("store", VBool false);
       ("usage", jlit [("input_tokens", VInt 1); ("output_tokens", VInt tokens); ("total_tokens", VInt (tokens + 1));
                      ("input_tokens_details", jlit [("cached_tokens", VInt 0)]); ("output_tokens_details", jlit [("reasoning_tokens", VInt 0)])])].
Definition responsesReply (clock : nat -> Z) (name id : string) (stream : bool) (textValue : string) (tokens : Z) : result :=
  let itemID := "msg_" +:+ id in
  let text := output_text textValue in
  let item := jobj [("id", VStr itemID); ("type", VStr "message"); ("status", VStr "completed"); ("role", VStr "assistant"); ("content", VMapList [text])] in
  let completed := response_body id name "completed" (unix (clock 2%nat)) [item] tokens in
  if negb stream then jsonResult 200 completed
  else
    let events :=
      [jobj [("type", VStr "response.created"); ("response", response_body id name "in_progress" (unix (clock 3%nat)) [] tokens)];
       jobj [("type", VStr "response.in_progress"); ("response", response_body id name "in_progress" (unix (clock 4%nat)) [] tokens)];
       jobj [("type", VStr "response.output_item.added"); ("output_index", VInt 0);
            ("item", jlit [("id", VStr itemID); ("type", VStr "message"); ("status", VStr "in_progress"); ("role", VStr "assistant"); ("content", VMapList [])])];
       jobj [("type", VStr "response.content_part.added"); ("item_id", VStr itemID); ("output_index", VInt 0); ("content_index", VInt 0); ("part", VMap (output_text ""))];
       jobj [("type", VStr "response.output_text.delta"); ("item_id", VStr itemID); ("output_index", VInt 0); ("content_index", VInt 0); ("delta", VStr textValue); ("logprobs", VList [])];
       jobj [("type", VStr "response.output_text.done"); ("item_id", VStr itemID); ("output_index", VInt 0); ("content_index", VInt 0); ("text", VStr textValue); ("logprobs", VList [])];
       jobj [("type", VStr "response.content_part.done"); ("item_id", VStr itemID); ("output_index", VInt 0); ("content_index", VInt 0); ("part", VMap text)];
       jobj [("type", VStr "response.output_item.done"); ("output_index", VInt 0); ("item", VMap item)];
       jobj [("type", VStr "response.completed"); ("response", completed)]] in
    sse (imap (fun i event => oset event "sequence_number" (VInt (Z.of_nat i))) events).

(** ** Answers *)
Definition modelDetails : val :=
  jlit [("parent_model", VStr ""); ("format", VStr "gguf"); ("family", VStr "llama"); ("families", VStrList ["llama"]);
       ("parameter_size", VStr "3.2B"); ("quantization_level", VStr "Q4_K_M")].
Definition discovery (path : string) : result :=
  if String.eqb path "/" then plain_result 200 "text/plain" ["Ollama is running"]
  else if String.eqb path "/api/version" then jsonResult 200 (jlit [("version", VStr "0.5.7")])
  else if String.eqb path "/api/tags" || String.eqb path "/api/ps"
  then jsonResult 200 (jlit [("models", VMapList [jobj [("name", VStr ollamaModel); ("model", VStr ollamaModel); ("modified_at", VStr "2025-01-01T00:00:00Z");
         ("size", VInt 2019393189); ("digest", VStr (str_repeat "a" 64)); ("details", modelDetails)]])])
  else if String.eqb path "/v1/models"
  then jsonResult 200 (jlit [("object", VStr "list");
         ("data", VMapList (map (fun name => jobj [("id", VStr name); ("object", VStr "model"); ("created", VInt 1735689600); ("owned_by", VStr "local")])
                              [ollamaModel; openaiModel; anthropicModel]))])
  else failure "openai" 404 "endpoint unavailable".
Definition valid_input (input : val) : string :=
  match input with
  | VStr _ => ""
  | VList input => if (Z.of_nat (length input) =? 0) || (maxItems <? Z.of_nat (length input)) || negb (forallb is_object input) then "invalid input" else ""
  | _ => "input is required"
  end.
Definition is_nil (v : val) : bool := match v with VNil => true | _ => false end.
(** What the checks of a path come to, in their order: the message of the first
    that fails. [None] is a panic. *)
Definition responses_error (req : object) : string :=
  if negb (String.eqb (valid_input (idx req "input")) "") then valid_input (idx req "input")
  else if negb (is_nil (idx req "previous_response_id")) || negb (is_nil (idx req "conversation")) then "stored conversations unavailable"
  else match idx req "background" with VBool true => "background responses unavailable" | _ => "" end.
Definition max_tokens_error (req : object) : string :=
  match idx req "max_tokens" with VFloat n => if valid_limit n then "" else "invalid max_tokens" | _ => "invalid max_tokens" end.
Definition choices_error (req : object) : string :=
  match oget req "n" with
  | None => ""
  | Some (VFloat n) => if SFeqb n (float_of_int 1) then "" else "only one choice supported"
  | Some _ => "only one choice supported"
  end.
Definition prompt_error (req : object) : string :=
  match oget req "prompt" with None | Some (VStr _) => "" | Some _ => "invalid prompt" end.
Definition path_error (path : string) (req : object) : string :=
  if String.eqb path "/api/generate" then prompt_error req
  else if String.eqb path "/v1/responses" then responses_error req
  else if String.eqb path "/v1/messages" then max_tokens_error req
  else if String.eqb path "/v1/chat/completions" then choices_error req
  else "".
Definition wants_messages (path : string) : bool :=
  String.eqb path "/api/chat" || String.eqb path "/v1/chat/completions" || has_prefix path "/v1/messages".
(** The messages of a request: their number, or none where they are invalid. *)
Definition messages_of (path : string) (req : object) : option (option Z) :=
  if wants_messages path then
    match itemCount req "messages" true with
    | None => Some None
    | Some n => valid ← validMessages req; Some (if valid : bool then Some n else None)
    end
  else Some (Some 0).
Definition reply (clock : nat -> Z) (path name id : string) (stream : bool) (req : object) (text : string) (tokens : Z) (profile : string) : result :=
  if String.eqb path "/api/chat" || String.eqb path "/api/generate" then ollamaReply clock path name stream text tokens
  else if String.eqb path "/v1/chat/completions" then chatReply clock name ("chatcmpl-" +:+ id) stream req text tokens
  else if String.eqb path "/v1/responses" then responsesReply clock name ("resp_" +:+ id) stream text tokens
  else if String.eqb path "/v1/messages" then anthropicReply name ("msg_" +:+ id) stream text tokens
  else if String.eqb path "/v1/messages/count_tokens" then jsonResult 200 (jlit [("input_tokens", VInt 1)])
  else failure profile 404 "endpoint unavailable".
Definition with_detail (r : result) (detail : string) : result :=
  {| rs_code := rs_code r; rs_frames := rs_frames r; rs_contentType := rs_contentType r; rs_outcome := rs_outcome r; rs_detail := detail |}.
(** [respond], from the counter of identifiers to the counter afterwards. *)
Definition respond (clock : nat -> Z) (ids : Z) (path profile : string) (req : object) : option (result * Z) :=
  let refuse code message := Some (failure profile code message, ids) in
  match selectedModel req with
  | None => refuse 400 "model is required"
  | Some name =>
      if negb (String.eqb name ollamaModel) && negb (String.eqb name openaiModel) && negb (String.eqb name anthropicModel)
      then refuse 404 "model unavailable"
      else if String.eqb path "/api/show"
      then Some (jsonResult 200 (jlit [("details", modelDetails); ("model_info", jlit [("general.architecture", VStr "llama"); ("llama.context_length", VInt 8192)]);
                                      ("capabilities", VStrList ["completion"]); ("parameters", VStr "temperature 0.7")]), ids)
      else match streamFlag req (has_prefix path "/api/") with
      | None => refuse 400 "stream must be boolean"
      | Some stream =>
          match itemCount req "tools" false with
          | None => refuse 400 "invalid tools"
          | Some tools =>
              messages ← messages_of path req;
              match messages with
              | None => refuse 400 "invalid messages"
              | Some messages =>
                  if negb (String.eqb (path_error path req) "") then refuse 400 (path_error path req)
                  else match generatedText req with
                  | None => refuse 400 "invalid output limit"
                  | Some (text, tokens) =>
                      let ids := u64 (ids + 1) in
                      let id := itoa (i64 (clock 1%nat)) +:+ "-" +:+ itoa ids in
                      Some (with_detail (reply clock path name id stream req text tokens profile)
                              ("messages:" +:+ itoa messages +:+ " tools:" +:+ itoa tools +:+ " streaming:" +:+ format_bool stream), ids)
                  end
              end
          end
      end
  end.

(** ** Serving a request *)
Record session := { se_id : string; se_opened : Z; se_requests : Z }.
Record sensor := { sn_token : string; sn_work : Z; sn_ids : Z }.
Definition NewHandler (token : string) : sensor := {| sn_token := token; sn_work := 0; sn_ids := 0 |}.
(** [ConnContext]: the session of a new connection takes the next identifier. *)
Definition ConnContext (s : sensor) (now : Z) : sensor * session :=
  let ids := u64 (sn_ids s + 1) in
  ({| sn_token := sn_token s; sn_work := sn_work s; sn_ids := ids |}, {| se_id := "ai-" +:+ itoa ids; se_opened := now; se_requests := 0 |}).
Record request := {
  rq_method : string; rq_path : string; rq_query : string; rq_remoteAddr : string;
  rq_authorization : string; rq_apiKey : string; rq_encoding : string; rq_body : body;
  rq_cancelled : bool;
}.
(** [io.ReadAll] under [http.MaxBytesReader]: the bytes, or how many were
    received and the code of the refusal. *)
Definition read_body (b : body) : string + Z * Z :=
  let before := match b with body_all s | body_error s => s end in
  if maxBody <? slen before then inr (maxBody, 413)
  else match b with body_all s => inl s | body_error s => inr (slen s, 400) end.
Definition i32 (z : Z) : Z := (z + 2 ^ 31) mod 2 ^ 32 - 2 ^ 31.

Record answer := { an_result : result; an_received : Z; an_headers : list (string * string); an_ids : Z }.
Definition refusal (profile : string) (code : Z) (message : string) (received ids : Z) : answer :=
  {| an_result := failure profile code message; an_received := received; an_headers := []; an_ids := ids |}.
(** What follows once a slot of work is held. *)
Definition authenticate (token profile : string) (r : request) : bool :=
  let provided := if has_prefix (rq_authorization r) "Bearer " then trim_prefix (rq_authorization r) "Bearer " else "" in
  let provided := if String.eqb profile "anthropic" then rq_apiKey r else provided in
  String.eqb token "" || String.eqb provided token.
Definition serve_body (clock : nat -> Z) (s : sensor) (profile expected action : string) (r : request) : option answer :=
  let ids := sn_ids s in
  if negb (authenticate (sn_token s) profile r) then Some (refusal profile 401 "invalid authentication" 0 ids)
  else if negb (String.eqb (rq_encoding r) "") && negb (String.eqb (rq_encoding r) "identity")
  then Some (refusal profile 415 "compressed requests are unsupported" 0 ids)
  else match read_body (rq_body r) with
  | inr (received, code) => Some (refusal profile code "invalid or oversized body" received ids)
  | inl body =>
      let received := slen body in
      if String.eqb expected "" then Some (refusal profile 404 "endpoint unavailable" received ids)
      else if negb (String.eqb (rq_method r) expected) && negb (String.eqb expected "GET" && String.eqb (rq_method r) "HEAD")
      then Some {| an_result := failure profile 405 "method not allowed"; an_received := received; an_headers := [("Allow", expected)]; an_ids := ids |}
      else if String.eqb expected "GET"
      then Some {| an_result := discovery (rq_path r); an_received := received; an_headers := []; an_ids := ids |}
      else match decode body with
      | None => Some (refusal profile 400 "invalid request object" received ids)
      | Some req =>
          if String.eqb action "models.modify" then
            let f := failure profile 501 "model management unavailable" in
            Some {| an_result := {| rs_code := rs_code f; rs_frames := rs_frames f; rs_contentType := rs_contentType f; rs_outcome := "refused"; rs_detail := rs_detail f |};
                    an_received := received; an_headers := []; an_ids := ids |}
          else
            '(result, ids) ← respond clock ids (rq_path r) profile req;
            Some {| an_result := result; an_received := received; an_headers := []; an_ids := ids |}
      end
  end.
(** The part of [ServeHTTP] that decides the result. *)
Definition decide_answer (clock : nat -> Z) (s : sensor) (conn : option session) (r : request) : option session * option answer :=
  let profile := profileFor (rq_path r) in
  let '(expected, action) := route (rq_path r) in
  let conn' := match conn with
               | Some c => Some {| se_id := se_id c; se_opened := se_opened c; se_requests := i32 (se_requests c + 1) |}
               | None => None
               end in
  let over := match conn' with
              | Some c => (maxRequests <? se_requests c) || (sessionLifetime <? clock 0%nat - se_opened c)
              | None => false
              end in
  (conn',
   if over then Some {| an_result := failure profile 429 "session limit exceeded"; an_received := 0; an_headers := [("Connection", "close")]; an_ids := sn_ids s |}
   else if (4096 <? slen (rq_path r)) || (8192 <? slen (rq_query r)) then Some (refusal profile 414 "request target too long" 0 (sn_ids s))
   else if rq_cancelled r then Some (refusal profile 408 "request cancelled" 0 (sn_ids s))
   else if workSlots <=? sn_work s then Some (refusal profile 503 "sensor capacity exceeded" 0 (sn_ids s))
   else serve_body clock s profile expected action r).

(** The deferred part: the limit on the output, the writes and the record.  The
    connection decides before each frame whether the request was cancelled, how
    much of the frame is written, whether that failed and whether flushing
    fails. *)
Record wire := { wi_cancelled : nat -> bool; wi_write : nat -> string -> Z * bool; wi_flush_fails : nat -> bool }.
Definition frame_bytes (frames : list string) : Z := sum_Z (map slen frames).
Definition is_stream (contentType : string) : bool := contains contentType "stream" || String.eqb contentType "application/x-ndjson".
Fixpoint write_frames (w : wire) (streaming : bool) (i : nat) (frames : list string) (written : list string) (sent : Z) : list string * Z * bool :=
  match frames with
  | [] => (written, sent, false)
  | frame :: frames =>
      if wi_cancelled w i then (written, sent, true)
      else
        let '(n, failed) := wi_write w i frame in
        let written := written ++ [str_take (Z.to_nat n) frame] in
        if failed then (written, sent + n, true)
        else if streaming && wi_flush_fails w i then (written, sent + n, true)
        else write_frames w streaming (S i) frames written (sent + n)
  end.
Definition logMethod (method : string) : string :=
  if bool_decide (method ∈ ["GET"; "HEAD"; "POST"; "DELETE"; "PUT"; "PATCH"; "OPTIONS"]) then method else "OTHER".
Record response := { rp_code : Z; rp_headers : list (string * string); rp_written : list string; rp_event : Event }.
Definition finish (w : wire) (conn : option session) (r : request) (a : answer) : response :=
  let profile := profileFor (rq_path r) in
  let '(expected, action) := route (rq_path r) in
  let result := an_result a in
  let outcome := if negb (String.eqb (rs_outcome result) "") then rs_outcome result else if 400 <=? rs_code result then "rejected" else "simulated" in
  let over := maxOutput <? frame_bytes (rs_frames result) in
  let outcome := if over then "rejected" else outcome in
  let result := if over then failure profile 500 "response unavailable" else result in
  let '(written, sent, interrupted) :=
    if String.eqb (rq_method r) "HEAD" then ([], 0, false)
    else write_frames w (is_stream (rs_contentType result)) 0 (rs_frames result) [] 0 in
  {| rp_code := rs_code result;
     rp_headers := an_headers a ++ [("Content-Type", rs_contentType result); ("Cache-Control", "no-store"); ("X-Content-Type-Options", "nosniff")];
     rp_written := written;
     rp_event := {| ev_Timestamp := ""; ev_EventID := ""; ev_Sensor := "ai"; ev_SessionID := match conn with Some c => se_id c | None => "" end;
       ev_Action := action; ev_Outcome := if interrupted : bool then "interrupted" else outcome; ev_Profile := profile; ev_Target := "";
       ev_RemoteAddr := rq_remoteAddr r; ev_ClientAddr := ""; ev_Method := logMethod (rq_method r);
       ev_Path := if String.eqb expected "" then "/unknown" else rq_path r;
       ev_StatusCode := rs_code result; ev_BytesReceived := an_received a; ev_BytesSent := sent; ev_UserAgent := ""; ev_Detail := rs_detail result |} |}.
(** [ServeHTTP]: the sensor, the session and the response afterwards. *)
Definition ServeHTTP (clock : nat -> Z) (w : wire) (s : sensor) (conn : option session) (r : request)
    : sensor * option session * option response :=
  let '(conn', a) := decide_answer clock s conn r in
  match a with
  | None => (s, conn', None)
  | Some a => ({| sn_token := sn_token s; sn_work := sn_work s; sn_ids := an_ids a |}, conn', Some (finish w conn' r a))
  end.
