(* ===== verification/AiProps.v ===== *)
(** * The AI endpoint sensor: properties

    Every request is answered within the output limit; telemetry is made of
    constants and counts; replies are canned texts; a body that nests too deep
    does not reach the decoder. *)
From S2P Require Import Prelude GoStrings GoCodec ConfigModel Value Json GoTime Http Ai.

#[local] Set Warnings "-clear-no-such-hyp,-notation-for-abbreviation".
#[local] Open Scope string_scope.
#[local] Open Scope list_scope.
#[local] Open Scope Z_scope.

(** ** The bracket scan against the decoder *)
Definition opened (k : Z) : scan_state := {| sc_depth := k; sc_quoted := false; sc_escaped := false |}.
Definition inside (k : Z) : scan_state := {| sc_depth := k; sc_quoted := true; sc_escaped := false |}.
(** Bytes the scan passes over outside strings. *)
Definition dull (c : ascii) : bool :=
  negb ((code c =? 34) || ((code c =? 123) || (code c =? 91)) || ((code c =? 125) || (code c =? 93))).
Lemma scan_dull c s k : dull c = true -> scan_bytes (opened k) (String c s) = scan_bytes (opened k) s.
Proof.
  unfold dull. rewrite negb_true_iff, !orb_false_iff. intros [[H1 [H2 H3]] [H4 H5]]. cbn [scan_bytes]. unfold scan_byte. cbn [opened sc_quoted].
  by rewrite H1, H2, H3, H4, H5.
Qed.
Lemma scan_skip_ws s k : scan_bytes (opened k) s = scan_bytes (opened k) (skip_ws s).
Proof.
  induction s as [|c s IH]; [done|]. cbn [skip_ws]. destruct (is_ws c) eqn:E; [|done]. rewrite scan_dull; [exact IH|].
  unfold is_ws in E. unfold dull. rewrite !orb_true_iff, !Z.eqb_eq in E. destruct E as [[[->| ->]| ->]| ->]; reflexivity.
Qed.
Lemma scan_next s c r k : next_byte s = Some (c, r) -> scan_bytes (opened k) s = scan_bytes (opened k) (String c r).
Proof. unfold next_byte. rewrite (scan_skip_ws s). destruct (skip_ws s); [done|]. by intros [= -> ->]. Qed.
Lemma scan_str_body s b r k : str_body s = Some (b, r) -> scan_bytes (inside k) s = scan_bytes (opened k) r.
Proof.
  revert b. induction s as [s IH] using (induction_ltof1 _ String.length). intros b. destruct s as [|c s]; [done|]. cbn [str_body].
  destruct (Z.eqb_spec (code c) 34) as [E34|E34].
  { intros [= _ ->]. cbn [scan_bytes]. unfold scan_byte. cbn [inside sc_quoted sc_escaped]. rewrite E34. reflexivity. }
  destruct (Z.eqb_spec (code c) 92) as [E92|E92].
  - destruct s as [|d s]; [done|]. destruct (str_body s) as [[b' r']|] eqn:Es; [|done]. intros [= _ ->].
    rewrite <- (IH s ltac:(unfold ltof; cbn; lia) _ Es). cbn [scan_bytes]. unfold scan_byte. cbn [inside sc_quoted sc_escaped]. rewrite E92. reflexivity.
  - destruct (code c <? 32); [done|]. destruct (str_body s) as [[b' r']|] eqn:Es; [|done]. intros [= _ ->].
    rewrite <- (IH s ltac:(unfold ltof; cbn; lia) _ Es). cbn [scan_bytes]. unfold scan_byte. cbn [inside sc_quoted sc_escaped].
    by rewrite !(proj2 (Z.eqb_neq (code c) _)).
Qed.
Lemma scan_string s x r k : parse_string s = Some (x, r) -> scan_bytes (inside k) s = scan_bytes (opened k) r.
Proof.
  unfold parse_string. destruct (str_body s) as [[b r']|] eqn:E; [|done]. cbn [mbind option_bind]. destruct (unquote b); [|done].
  intros [= _ ->]. by eapply scan_str_body.
Qed.
Lemma scan_quote s k : scan_bytes (opened k) (String (chr 34) s) = scan_bytes (inside k) s.
Proof. reflexivity. Qed.
Lemma quote_char c : code c = 34 -> c = chr 34.
Proof. intros E. by apply code_inj. Qed.

(** Literals and numbers hold no brackets or quotes. *)
Lemma scan_app_dull p s k : all_bytes dull p = true -> scan_bytes (opened k) (p +:+ s) = scan_bytes (opened k) s.
Proof.
  induction p as [|c p IH]; [done|]. cbn [all_bytes]. intros [Hc Hp]%andb_true_iff. cbn [String.append]. rewrite scan_dull by done. by apply IH.
Qed.
Lemma span_split p s : s = (span p s).1 +:+ (span p s).2 /\ all_bytes p (span p s).1 = true.
Proof.
  induction s as [|c s [IH1 IH2]]; [done|]. cbn [span]. destruct (p c) eqn:E; [|done]. destruct (span p s) as [a b]. cbn in *. rewrite E, IH2. by rewrite IH1 at 1.
Qed.
Lemma digit_dull c : is_digit c = true -> dull c = true.
Proof.
  unfold is_digit, dull. intros H. bool_to_prop. rewrite negb_true_iff, !orb_false_iff, !Z.eqb_neq. lia.
Qed.
Lemma span_digits s a r : span is_digit s = (a, r) -> exists p, s = p +:+ r /\ all_bytes dull p = true.
Proof.
  intros E. destruct (span_split is_digit s) as [H1 H2]. rewrite E in H1, H2. exists a. split; [done|]. eapply all_bytes_impl; [|exact H2]. apply digit_dull.
Qed.
(** [r] is what is left of [s] after bytes the scan passes over. *)
Definition after_dull (s r : string) : Prop := exists p, s = p +:+ r /\ all_bytes dull p = true.
Lemma after_refl s : after_dull s s.
Proof. by exists "". Qed.
Lemma after_cons c s r : dull c = true -> after_dull s r -> after_dull (String c s) r.
Proof. intros Hc (p & -> & Hp). exists (String c p). split; [done|]. cbn. by rewrite Hc. Qed.
Lemma after_trans a b c : after_dull a b -> after_dull b c -> after_dull a c.
Proof. intros (p & -> & Hp) (q & -> & Hq). exists (p +:+ q). rewrite str_app_assoc, all_bytes_app, Hp. done. Qed.
Lemma after_span s a r : span is_digit s = (a, r) -> after_dull s r.
Proof. apply span_digits. Qed.
Lemma code_dull c z : code c = z -> negb ((z =? 34) || ((z =? 123) || (z =? 91)) || ((z =? 125) || (z =? 93))) = true -> dull c = true.
Proof. intros E H. unfold dull. by rewrite E. Qed.
Lemma lex_number_dull s l r : lex_number s = Some (l, r) -> after_dull s r.
Proof.
  unfold lex_number. intros H.
  assert (exists neg s1, (match s with String c s' => if code c =? 45 then (true, s') else (false, s) | "" => (false, "") end) = (neg, s1) /\ after_dull s s1) as (neg & s1 & E1 & A1).
  { destruct s as [|c s]; [by exists false, ""; split; [|apply after_refl]|]. destruct (Z.eqb_spec (code c) 45) as [E|].
    - exists true, s. split; [done|]. apply after_cons; [by apply (code_dull c 45)|apply after_refl].
    - exists false, (String c s). split; [done|apply after_refl]. }
  rewrite E1 in H. destruct (span is_digit s1) as [ip s2] eqn:E2. apply after_span in E2. destruct (_ || _); [done|].
  destruct (lex_frac s2) as [[fp s3]|] eqn:E3; [|done]. cbn [mbind option_bind] in H. destruct (lex_exp s3) as [[ex s4]|] eqn:E4; [|done]. injection H as _ <-.
  eapply after_trans; [exact A1|]. eapply after_trans; [exact E2|]. eapply (after_trans _ s3).
  - unfold lex_frac in E3. destruct s2 as [|c s2]; [injection E3 as _ <-; apply after_refl|]. destruct (Z.eqb_spec (code c) 46) as [E|]; [|injection E3 as _ <-; apply after_refl].
    destruct (span is_digit s2) as [f r'] eqn:Ef. destruct (String.eqb f ""); [done|]. injection E3 as _ <-. apply after_cons; [by apply (code_dull c 46)|by eapply after_span].
  - unfold lex_exp in E4. destruct s3 as [|c s3]; [injection E4 as _ <-; apply after_refl|]. destruct (_ || _) eqn:E; [|injection E4 as _ <-; apply after_refl].
    destruct (lex_sign s3) as [ng s5] eqn:Es. destruct (span is_digit s5) as [ds r'] eqn:Ef. destruct (parse_digits ds); [|done]. injection E4 as _ <-.
    apply after_cons.
    + apply orb_true_iff in E as [E|E]; apply Z.eqb_eq in E; by eapply code_dull.
    + eapply (after_trans _ s5); [|by eapply after_span]. unfold lex_sign in Es. destruct s3 as [|x s3]; [injection Es as _ <-; apply after_refl|].
      destruct (Z.eqb_spec (code x) 45) as [Ex|]; [injection Es as _ <-; apply after_cons; [by eapply code_dull|apply after_refl]|].
      destruct (Z.eqb_spec (code x) 43) as [Ex|]; injection Es as _ <-; [apply after_cons; [by eapply code_dull|apply after_refl]|apply after_refl].
Qed.
Lemma scan_after s r k : after_dull s r -> scan_bytes (opened k) s = scan_bytes (opened k) r.
Proof. intros (p & -> & Hp). by apply scan_app_dull. Qed.
Lemma scan_prefix_split p s : has_prefix s p = true -> s = p +:+ str_drop (String.length p) s.
Proof.
  revert s. induction p as [|c p IH]; intros s Hp; [by destruct s|]. destruct s as [|a s]; [done|].
  rewrite has_prefix_cons in Hp. apply andb_true_iff in Hp as [Hc Hp]. apply Ascii.eqb_eq in Hc as ->. cbn. by rewrite <- IH.
Qed.
Lemma scan_open c s k st : (code c =? 123) || (code c =? 91) = true -> scan_bytes (opened k) (String c s) = Some st ->
  k + 1 <= maxDepth /\ scan_bytes (opened (k + 1)) s = Some st.
Proof.
  intros Hc. cbn [scan_bytes]. unfold scan_byte. cbn [opened sc_quoted sc_depth sc_escaped]. assert (E34 : (code c =? 34) = false).
  { apply orb_true_iff in Hc. rewrite !Z.eqb_eq in Hc. apply Z.eqb_neq. lia. }
  rewrite E34, Hc. destruct (Z.ltb_spec maxDepth (k + 1)); [done|]. cbn [mbind option_bind]. intros Hs. split; [lia|exact Hs].
Qed.
Lemma scan_close c s k st : (code c =? 125) || (code c =? 93) = true -> scan_bytes (opened k) (String c s) = Some st -> scan_bytes (opened (k - 1)) s = Some st.
Proof.
  intros Hc. cbn [scan_bytes]. unfold scan_byte. cbn [opened sc_quoted sc_depth sc_escaped].
  assert (E : (code c =? 34) = false /\ ((code c =? 123) || (code c =? 91)) = false).
  { apply orb_true_iff in Hc. rewrite !Z.eqb_eq in Hc. rewrite orb_false_iff, !Z.eqb_neq. lia. }
  destruct E as [-> ->]. rewrite Hc. done.
Qed.
Lemma max_depth_le {A} (f : A -> Z) l b : 0 <= b -> Forall (fun a => f a <= b) l -> max_Z (map f l) <= b.
Proof. intros Hb. induction 1 as [|a l Ha HF IH]; [done|]. unfold max_Z in *. cbn [map foldr]. lia. Qed.
Definition below (k : Z) (v : val) : Prop := k + vdepth v <= maxDepth.
Lemma oset_below k m key v : Forall (fun kv : string * val => below k kv.2) m -> below k v -> Forall (fun kv => below k kv.2) (oset m key v).
Proof.
  intros Hm Hv. rewrite Forall_forall in Hm. apply Forall_forall. intros kv Hkv. destruct (oset_lookup_elem _ _ _ _ Hkv) as [->|Hin]; [done|by apply Hm].
Qed.
Lemma literal_scan s p k : has_prefix s p = true -> all_bytes dull p = true -> scan_bytes (opened k) s = scan_bytes (opened k) (str_drop (String.length p) s).
Proof. intros Hp Hd. rewrite (scan_prefix_split p s Hp) at 1. by apply scan_app_dull. Qed.

(** The equations of the parser. *)
Lemma parse_val_S num ins n d s : parse_val num ins (S n) d s =
  (let s := skip_ws s in
   '(c, s') ← next_byte s;
   if code c =? 123 then
     if d <? max_json_depth then
       '(c', s'') ← next_byte s';
       if code c' =? 125 then Some (VMap [], s'') else '(m, r) ← parse_members num ins n (d + 1) [] s'; Some (VMap m, r)
     else None
   else if code c =? 91 then
     if d <? max_json_depth then
       '(c', s'') ← next_byte s';
       if code c' =? 93 then Some (VList [], s'') else '(l, r) ← parse_elems num ins n (d + 1) [] s'; Some (VList l, r)
     else None
   else if code c =? 34 then '(x, r) ← parse_string s'; Some (VStr x, r)
   else if has_prefix s "true" then Some (VBool true, str_drop 4 s)
   else if has_prefix s "false" then Some (VBool false, str_drop 5 s)
   else if has_prefix s "null" then Some (VNil, str_drop 4 s)
   else '(l, r) ← lex_number s; v ← num l; Some (v, r)).
Proof. reflexivity. Qed.
Lemma parse_members_S num ins n d acc s : parse_members num ins (S n) d acc s =
  ('(c, s) ← next_byte s;
   if code c =? 34 then
     '(k, s) ← parse_string s;
     '(c, s) ← next_byte s;
     if code c =? 58 then
       '(v, s) ← parse_val num ins n d s;
       '(c, s) ← next_byte s;
       if code c =? 44 then parse_members num ins n d (ins acc k v) s
       else if code c =? 125 then Some (ins acc k v, s) else None
     else None
   else None).
Proof. reflexivity. Qed.
Lemma parse_elems_S num ins n d acc s : parse_elems num ins (S n) d acc s =
  ('(v, s) ← parse_val num ins n d s;
   '(c, s) ← next_byte s;
   if code c =? 44 then parse_elems num ins n d (v :: acc) s
   else if code c =? 93 then Some (reverse (v :: acc), s) else None).
Proof. reflexivity. Qed.

Definition val_scan (n : nat) : Prop := forall d s v r k st, parse_val json_num oset n d s = Some (v, r) -> k <= maxDepth ->
  scan_bytes (opened k) s = Some st -> scan_bytes (opened k) r = Some st /\ below k v.
Definition members_scan (n : nat) : Prop := forall d acc s m r k st, parse_members json_num oset n d acc s = Some (m, r) -> k <= maxDepth ->
  Forall (fun kv => below k kv.2) acc -> scan_bytes (opened k) s = Some st -> scan_bytes (opened (k - 1)) r = Some st /\ Forall (fun kv => below k kv.2) m.
Definition elems_scan (n : nat) : Prop := forall d acc s l r k st, parse_elems json_num oset n d acc s = Some (l, r) -> k <= maxDepth ->
  Forall (below k) acc -> scan_bytes (opened k) s = Some st -> scan_bytes (opened (k - 1)) r = Some st /\ Forall (below k) l.
Lemma val_scan_step n : members_scan n -> elems_scan n -> val_scan (S n).
Proof.
  intros Hmem Hel d s v r k st Hp Hk Hs. rewrite parse_val_S in Hp. cbv zeta in Hp. rewrite scan_skip_ws in Hs. set (s1 := skip_ws s) in *. clearbody s1. clear s.
  destruct (next_byte s1) as [[c s2]|] eqn:Ec; [|done]. cbn [mbind option_bind] in Hp. pose proof Hs as Hs0. rewrite (scan_next _ _ _ _ Ec) in Hs.
  destruct (Z.eqb_spec (code c) 123) as [E|E123].
  { destruct (d <? max_json_depth); [|done]. apply scan_open in Hs as [Hk1 Hs]; [|by rewrite E].
    destruct (next_byte s2) as [[c2 s3]|] eqn:Ec2; [|done]. cbn [mbind option_bind] in Hp. destruct (Z.eqb_spec (code c2) 125) as [E2|E2].
    - injection Hp as <- <-. rewrite (scan_next _ _ _ _ Ec2) in Hs. apply scan_close in Hs; [|by rewrite E2]. split; [by replace k with (k + 1 - 1) by lia|].
      unfold below. cbn. lia.
    - destruct (parse_members _ _ n _ _ _) as [[m r']|] eqn:Em; [|done]. injection Hp as <- <-.
      destruct (Hmem _ _ _ _ _ _ _ Em Hk1 (Forall_nil_2 _) Hs) as [Hr HF]. split; [by replace k with (k + 1 - 1) by lia|].
      unfold below in *. cbn [vdepth]. pose proof (max_depth_le (fun kv : string * val => vdepth kv.2) m (maxDepth - (k + 1)) ltac:(lia)) as Hm.
      enough (max_Z (map (fun kv : string * val => vdepth kv.2) m) <= maxDepth - (k + 1)) by lia. apply Hm. apply (Forall_impl _ _ _ HF). intros; lia. }
  destruct (Z.eqb_spec (code c) 91) as [E|E91].
  { destruct (d <? max_json_depth); [|done]. apply scan_open in Hs as [Hk1 Hs]; [|by rewrite E].
    destruct (next_byte s2) as [[c2 s3]|] eqn:Ec2; [|done]. cbn [mbind option_bind] in Hp. destruct (Z.eqb_spec (code c2) 93) as [E2|E2].
    - injection Hp as <- <-. rewrite (scan_next _ _ _ _ Ec2) in Hs. apply scan_close in Hs; [|by rewrite E2]. split; [by replace k with (k + 1 - 1) by lia|].
      unfold below. cbn. lia.
    - destruct (parse_elems _ _ n _ _ _) as [[l r']|] eqn:Em; [|done]. injection Hp as <- <-.
      destruct (Hel _ _ _ _ _ _ _ Em Hk1 (Forall_nil_2 _) Hs) as [Hr HF]. split; [by replace k with (k + 1 - 1) by lia|].
      unfold below in *. cbn [vdepth]. enough (max_Z (map vdepth l) <= maxDepth - (k + 1)) by lia. apply max_depth_le; [lia|]. apply (Forall_impl _ _ _ HF). intros; lia. }
  assert (Hleaf : forall v, vdepth v = 0 -> below k v) by (intros w Hw; unfold below; lia).
  destruct (Z.eqb_spec (code c) 34) as [E|E34].
  { destruct (parse_string s2) as [[x r']|] eqn:Es; [|done]. injection Hp as <- <-. rewrite (quote_char c E), scan_quote, (scan_string _ _ _ _ Es) in Hs.
    split; [done|by apply Hleaf]. }
  clear Hs. rename Hs0 into Hs.
  destruct (has_prefix s1 "true") eqn:Et; [injection Hp as <- <-; rewrite (literal_scan s1 "true" k Et) in Hs by done; split; [done|by apply Hleaf]|].
  destruct (has_prefix s1 "false") eqn:Ef; [injection Hp as <- <-; rewrite (literal_scan s1 "false" k Ef) in Hs by done; split; [done|by apply Hleaf]|].
  destruct (has_prefix s1 "null") eqn:En; [injection Hp as <- <-; rewrite (literal_scan s1 "null" k En) in Hs by done; split; [done|by apply Hleaf]|].
  destruct (lex_number s1) as [[l r']|] eqn:El; [|done]. cbn [mbind option_bind] in Hp. unfold json_num in Hp. destruct (lit_float l) as [f|]; [|done].
  injection Hp as <- <-. rewrite (scan_after _ _ _ (lex_number_dull _ _ _ El)) in Hs. split; [done|by apply Hleaf].
Qed.
Lemma scan_comma c s k : code c = 44 -> scan_bytes (opened k) (String c s) = scan_bytes (opened k) s.
Proof. intros E. apply scan_dull. by apply (code_dull c 44). Qed.
Lemma parse_scan n : val_scan n /\ members_scan n /\ elems_scan n.
Proof.
  induction n as [|n (IHv & IHm & IHe)]; [by repeat split|]. split; [by apply val_scan_step|]. split.
  - intros d acc s m r k st Hp Hk Hacc Hs. rewrite parse_members_S in Hp. destruct (next_byte s) as [[c s1]|] eqn:Ec; [|done]. cbn [mbind option_bind] in Hp.
    rewrite (scan_next _ _ _ _ Ec) in Hs. destruct (Z.eqb_spec (code c) 34) as [E|]; [|done]. rewrite (quote_char c E), scan_quote in Hs.
    destruct (parse_string s1) as [[key s2]|] eqn:Ek; [|done]. cbn [mbind option_bind] in Hp. rewrite (scan_string _ _ _ _ Ek) in Hs.
    destruct (next_byte s2) as [[c2 s3]|] eqn:Ec2; [|done]. cbn [mbind option_bind] in Hp. rewrite (scan_next _ _ _ _ Ec2) in Hs.
    destruct (Z.eqb_spec (code c2) 58) as [E2|]; [|done]. rewrite scan_dull in Hs by by apply (code_dull c2 58).
    destruct (parse_val _ _ n d s3) as [[v s4]|] eqn:Ev; [|done]. cbn [mbind option_bind] in Hp. destruct (IHv _ _ _ _ _ _ Ev Hk Hs) as [Hs4 Hv].
    destruct (next_byte s4) as [[c3 s5]|] eqn:Ec3; [|done]. cbn [mbind option_bind] in Hp. rewrite (scan_next _ _ _ _ Ec3) in Hs4.
    destruct (Z.eqb_spec (code c3) 44) as [E3|]; [rewrite scan_comma in Hs4 by done; by apply (IHm _ _ _ _ _ _ _ Hp Hk (oset_below k acc key v Hacc Hv))|].
    destruct (Z.eqb_spec (code c3) 125) as [E4|]; [|done]. injection Hp as <- <-. apply scan_close in Hs4; [|by rewrite E4]. split; [done|by apply oset_below].
  - intros d acc s l r k st Hp Hk Hacc Hs. rewrite parse_elems_S in Hp. destruct (parse_val _ _ n d s) as [[v s4]|] eqn:Ev; [|done]. cbn [mbind option_bind] in Hp.
    destruct (IHv _ _ _ _ _ _ Ev Hk Hs) as [Hs4 Hv]. destruct (next_byte s4) as [[c3 s5]|] eqn:Ec3; [|done]. cbn [mbind option_bind] in Hp.
    rewrite (scan_next _ _ _ _ Ec3) in Hs4.
    destruct (Z.eqb_spec (code c3) 44) as [E3|]; [rewrite scan_comma in Hs4 by done; by apply (IHe _ _ _ _ _ _ _ Hp Hk (Forall_cons_2 _ _ _ Hv Hacc))|].
    destruct (Z.eqb_spec (code c3) 93) as [E4|]; [|done]. injection Hp as <- <-. apply scan_close in Hs4; [|by rewrite E4]. split; [done|].
    apply Forall_reverse. by constructor.
Qed.
(** What [decode] accepts nests at most 32 deep, brackets in strings not
    counted: the scan of the bytes bounds the depth of the value. *)
Theorem decoded_bodies_are_shallow : forall body req, decode body = Some req -> vdepth (VMap req) <= maxDepth.
Proof.
  intros body req. unfold decode. destruct (scan_bytes _ body) as [st|] eqn:Es; [|done]. unfold json_parse.
  destruct (parse_val json_num oset _ 0 body) as [[v r]|] eqn:Ep; [|done]. cbn [mbind option_bind]. destruct (String.eqb (skip_ws r) ""); [|done].
  destruct v; try done. intros [= ->]. assert (H0 : 0 <= maxDepth) by (unfold maxDepth; lia).
  destruct (proj1 (parse_scan _) _ _ _ _ 0 st Ep H0 Es) as [_ Hb]. unfold below in Hb. lia.
Qed.
Lemma decoded_bodies_are_shallow_witness :
  exists req, decode (str_concat ["{"; quote; "a"; quote; ":[[1]]}"]) = Some req /\ vdepth (VMap req) <= maxDepth.
Proof. eexists. split; [vm_compute; reflexivity|]. apply (decoded_bodies_are_shallow (str_concat ["{"; quote; "a"; quote; ":[[1]]}"])). vm_compute. reflexivity. Defined.

(** ** The output limit of a reply *)
(** A positive number that equals its whole part has a positive whole part. *)
Lemma whole_positive f : whole f = true -> SFltb (float_of_int 0) f = true -> 1 <= trunc_float f.
Proof.
  unfold whole. change (float_of_int 0) with (S754_zero false). intros Hw Hf. destruct f as [z|z| |z m e]; try discriminate Hf.
  { destruct z; [discriminate Hf|]. exfalso. revert Hw. vm_compute. discriminate. }
  destruct z; [discriminate Hf|]. revert Hw. cbn [trunc_float]. set (a := if 0 <=? e then _ else _).
  assert (Ha : 0 <= a).
  { unfold a. destruct (Z.leb_spec 0 e); [apply Z.mul_nonneg_nonneg; [lia|apply Z.pow_nonneg; lia]|].
    apply Z.div_pos; [lia|]. apply Z.pow_pos_nonneg; lia. }
  destruct (_ && _); [|intros Hw; exfalso; revert Hw; vm_compute; discriminate].
  intros Hw. destruct (Z.eq_dec a 0) as [E|]; [|lia]. rewrite E in Hw. discriminate Hw.
Qed.
Lemma valid_limit_positive f : valid_limit f = true -> 1 <= trunc_float f.
Proof.
  unfold valid_limit. rewrite !andb_true_iff, !negb_true_iff. intros [[H1 _] Hw]. apply whole_positive; [done|].
  destruct f as [z|z| |z m e]; [destruct z; discriminate H1|by destruct z; [discriminate H1|]|discriminate Hw|].
  destruct z; [discriminate H1|reflexivity].
Qed.
Lemma limit_budget_range req keys b n : 1 <= b <= 9 -> limit_budget req keys b = Some n -> 1 <= n <= 9.
Proof.
  revert b. induction keys as [|key keys IH]; intros b Hb; [by intros [= <-]|]. cbn [limit_budget]. destruct (oget req key) as [[]|]; try done; [|by apply IH].
  destruct (valid_limit f) eqn:Ev; [|done]. apply valid_limit_positive in Ev. apply IH. case_match; bool_to_prop; lia.
Qed.
Lemma predict_budget_range req b n : 1 <= b <= 9 -> predict_budget req b = Some n -> 1 <= n <= 9.
Proof.
  intros Hb. unfold predict_budget. destruct (idx req "options"); try (intros [= <-]; done).
  destruct (oget m "num_predict") as [[]|]; try done; [|intros [= <-]; done].
  destruct (_ || _) eqn:E; [done|]. apply orb_false_iff in E as [[[_ Hw]%orb_false_iff _]%orb_false_iff _]. apply negb_false_iff in Hw.
  intros [= <-]. destruct (_ && _) eqn:E; [|done]. apply andb_true_iff in E as [E1 E2]. apply (whole_positive f Hw) in E1. bool_to_prop. lia.
Qed.
(** The text is a prefix of the canned one: from one to nine pieces. *)
Definition canned (tokens : Z) : string := str_concat (take (Z.to_nat tokens) chunks).
Lemma generatedText_range req text tokens : generatedText req = Some (text, tokens) -> 1 <= tokens <= 9 /\ text = canned tokens.
Proof.
  unfold generatedText. destruct (limit_budget _ _ _) as [b|] eqn:E1; [|done]. cbn [mbind option_bind].
  destruct (predict_budget _ b) as [b'|] eqn:E2; [|done]. cbn [mbind option_bind]. intros [= <- <-]. split; [|done].
  eapply predict_budget_range; [|exact E2]. eapply limit_budget_range; [|exact E1]. unfold chunks. cbn. lia.
Qed.

(** ** What a request can change of a reply

    Two requests that name the same model, ask the same of streaming and of
    usage and get the same budget are answered alike. *)
Definition canonical (usage : bool) : object := jobj [("stream_options", jlit [("include_usage", VBool usage)])].
Lemma include_usage_canonical b : include_usage (canonical b) = b.
Proof. by destruct b. Qed.
Lemma reply_canonical clock path name id stream req text tokens profile :
  reply clock path name id stream req text tokens profile = reply clock path name id stream (canonical (include_usage req)) text tokens profile.
Proof. unfold reply, chatReply. by rewrite include_usage_canonical. Qed.
Definition models : list string := [ollamaModel; openaiModel; anthropicModel].
Definition refusals : list (Z * string) :=
  [(400, "model is required"); (404, "model unavailable"); (400, "stream must be boolean"); (400, "invalid tools"); (400, "invalid messages");
   (400, "invalid prompt"); (400, "invalid input"); (400, "input is required"); (400, "stored conversations unavailable");
   (400, "background responses unavailable"); (400, "invalid max_tokens"); (400, "only one choice supported"); (400, "invalid output limit");
   (429, "session limit exceeded"); (414, "request target too long"); (408, "request cancelled"); (503, "sensor capacity exceeded");
   (401, "invalid authentication"); (415, "compressed requests are unsupported"); (413, "invalid or oversized body");
   (400, "invalid or oversized body"); (404, "endpoint unavailable"); (405, "method not allowed"); (400, "invalid request object");
   (501, "model management unavailable")].
Definition show_result : result :=
  jsonResult 200 (jlit [("details", modelDetails); ("model_info", jlit [("general.architecture", VStr "llama"); ("llama.context_length", VInt 8192)]);
                        ("capabilities", VStrList ["completion"]); ("parameters", VStr "temperature 0.7")]).
Definition counts_detail (messages tools : Z) (stream : bool) : string :=
  "messages:" +:+ itoa messages +:+ " tools:" +:+ itoa tools +:+ " streaming:" +:+ format_bool stream.
(** The results a path has for a sensor at a time: refusals in fixed words,
    constant documents, and replies that depend on three bits and a count. *)
Inductive canned_result (clock : nat -> Z) (ids : Z) (path : string) : result -> Prop :=
| canned_refusal code message outcome : (code, message) ∈ refusals -> outcome ∈ [""; "refused"] ->
    canned_result clock ids path
      {| rs_code := code; rs_frames := rs_frames (failure (profileFor path) code message); rs_contentType := "application/json";
         rs_outcome := outcome; rs_detail := "" |}
| canned_discovery : canned_result clock ids path (discovery path)
| canned_show : canned_result clock ids path show_result
| canned_reply name stream usage tokens messages tools :
    name ∈ models -> 1 <= tokens <= 9 -> 0 <= messages <= maxItems -> 0 <= tools <= maxItems ->
    canned_result clock ids path
      (with_detail (reply clock path name (itoa (i64 (clock 1%nat)) +:+ "-" +:+ itoa (u64 (ids + 1))) stream (canonical usage) (canned tokens) tokens (profileFor path))
                   (counts_detail messages tools stream)).

Ltac known := apply (bool_decide_unpack _); vm_compute; exact I.

Lemma jsonResult_shape code v : rs_code (jsonResult code v) = code \/ rs_code (jsonResult code v) = 500.
Proof. unfold jsonResult. destruct (json_marshal v); [by left|by right]. Qed.
Lemma jsonResult_record code v data : json_marshal v = Some data ->
  jsonResult code v = plain_result code "application/json" [data].
Proof. intros E. unfold jsonResult. by rewrite E. Qed.
(** The words of a refusal are plain text, which encodes. *)
Lemma failure_record profile code message : (code, message) ∈ refusals ->
  failure profile code message =
  {| rs_code := code; rs_frames := rs_frames (failure profile code message); rs_contentType := "application/json"; rs_outcome := ""; rs_detail := "" |}.
Proof.
  intros Hin. enough (exists data, failure profile code message = plain_result code "application/json" [data]) as [data ->] by done.
  unfold failure. revert Hin. unfold refusals.
  destruct (String.eqb profile "ollama"); [|destruct (String.eqb profile "anthropic")]; rewrite !elem_of_cons, elem_of_nil; intros Hin;
    repeat (destruct Hin as [Hin|Hin]; [injection Hin as -> ->; eexists; apply jsonResult_record; vm_compute; reflexivity|]); done.
Qed.
Lemma failure_canned clock ids path code message : (code, message) ∈ refusals -> canned_result clock ids path (failure (profileFor path) code message).
Proof. intros Hin. rewrite (failure_record _ _ _ Hin). by apply (canned_refusal _ _ _ code message ""); [|left]. Qed.
Lemma itemCount_range req key required n : itemCount req key required = Some n ->
  0 <= n <= maxItems /\ (oget req key = None \/ exists l, oget req key = Some (VList l) /\ forallb is_object l = true).
Proof.
  unfold itemCount. destruct (oget req key) as [[]|]; try done.
  - destruct (_ || _) eqn:E; [done|]. intros [= <-]. apply orb_false_iff in E as [[E1 _]%orb_false_iff E2]. apply negb_false_iff in E2. apply Z.ltb_ge in E1.
    split; [lia|right; by eexists].
  - destruct required; [done|]. intros [= <-]. unfold maxItems. split; [lia|by left].
Qed.
(** The assertion in [validMessages] holds where [itemCount] accepted. *)
Lemma messages_loop_total l : forallb is_object l = true -> is_Some (messages_loop l).
Proof.
  induction l as [|v l IH]; [by eexists|]. cbn [forallb]. intros [Hv Hl]%andb_true_iff. destruct v; try done. cbn [messages_loop].
  destruct (negb (bool_decide _)); [by eexists|]. destruct (negb (valid_content _ _)); [by eexists|by apply IH].
Qed.
Lemma messages_of_total path req : exists m, messages_of path req = Some m /\ (m = None \/ exists n, m = Some n /\ 0 <= n <= maxItems).
Proof.
  unfold messages_of. destruct (wants_messages path); [|exists (Some 0); split; [done|right; exists 0; unfold maxItems; split; [done|lia]]].
  destruct (itemCount req "messages" true) as [n|] eqn:E; [|by exists None; split; [|left]].
  apply itemCount_range in E as [Hn Ho]. assert (is_Some (validMessages req)) as [b ->].
  { unfold validMessages, idx. destruct Ho as [->|(l & -> & Hl)]; [by eexists|by apply messages_loop_total]. }
  cbn. destruct b; eexists; split; try done; [right; by exists n|by left].
Qed.
Lemma path_error_known path req : path_error path req <> "" -> (400, path_error path req) ∈ refusals.
Proof.
  unfold path_error, prompt_error, responses_error, valid_input, max_tokens_error, choices_error.
  repeat case_match; intros Hne; try congruence; known.
Qed.
(** [respond] always has a result. *)
Lemma respond_canned clock ids path req : exists out ids', respond clock ids path (profileFor path) req = Some (out, ids') /\ canned_result clock ids path out.
Proof.
  assert (Href : forall code message, (code, message) ∈ refusals -> exists out ids', Some (failure (profileFor path) code message, ids) = Some (out, ids') /\ canned_result clock ids path out).
  { intros code message Hin. eexists _, _. split; [done|]. by apply failure_canned. }
  unfold respond. destruct (selectedModel req) as [name|]; [|apply Href; known].
  destruct (negb _ && _ && _) eqn:Em; [apply Href; known|].
  assert (Hname : name ∈ models).
  { apply andb_false_iff in Em as [[Em|Em]%andb_false_iff|Em]; apply negb_false_iff, String.eqb_eq in Em as ->; unfold models; set_solver. }
  destruct (String.eqb path "/api/show"); [eexists _, _; split; [done|]; apply canned_show|].
  destruct (streamFlag req _) as [stream|]; [|apply Href; known].
  destruct (itemCount req "tools" false) as [tools|] eqn:Et; [|apply Href; known]. apply itemCount_range in Et as [Ht _].
  destruct (messages_of_total path req) as (m & -> & Hm). cbn [mbind option_bind].
  destruct Hm as [->|(n & -> & Hn)]; [apply Href; known|].
  destruct (negb (String.eqb (path_error path req) "")) eqn:Ep.
  { apply negb_true_iff, String.eqb_neq in Ep. apply Href. by apply path_error_known. }
  destruct (generatedText req) as [[text tokens]|] eqn:Eg; [|apply Href; known].
  apply generatedText_range in Eg as [Htok ->]. eexists _, _. split; [done|]. rewrite reply_canonical.
  by apply (canned_reply clock ids path name stream (include_usage req) tokens n tools).
Qed.
Lemma serve_body_canned clock s r : exists a, serve_body clock s (profileFor (rq_path r)) (route (rq_path r)).1 (route (rq_path r)).2 r = Some a /\
  canned_result clock (sn_ids s) (rq_path r) (an_result a).
Proof.
  destruct (route (rq_path r)) as [expected action]. cbn [fst snd]. unfold serve_body.
  assert (Href : forall code message received, (code, message) ∈ refusals -> exists a, Some (refusal (profileFor (rq_path r)) code message received (sn_ids s)) = Some a /\
    canned_result clock (sn_ids s) (rq_path r) (an_result a)).
  { intros code message received Hin. eexists. split; [done|]. by apply failure_canned. }
  destruct (negb (authenticate _ _ _)); [apply Href; known|].
  destruct (negb _ && _); [apply Href; known|].
  unfold read_body. destruct (maxBody <? _); [apply Href; known|].
  destruct (rq_body r) as [body|before]; [|apply Href; known].
  destruct (String.eqb expected ""); [apply Href; known|].
  destruct (negb _ && negb _); [eexists; split; [done|]; apply failure_canned; known|].
  destruct (String.eqb expected "GET"); [eexists; split; [done|]; apply canned_discovery|].
  destruct (decode body) as [req|]; [|apply Href; known].
  destruct (String.eqb action "models.modify").
  - eexists. split; [done|]. cbn [an_result]. rewrite (failure_record (profileFor (rq_path r)) 501 "model management unavailable") by known.
    apply (canned_refusal _ _ _ 501 "model management unavailable" "refused"); [known|right; by left].
  - destruct (respond_canned clock (sn_ids s) (rq_path r) req) as (out & ids' & -> & Hc). eexists. by split.
Qed.
Lemma decide_answer_canned clock s conn r : exists conn' a, decide_answer clock s conn r = (conn', Some a) /\ canned_result clock (sn_ids s) (rq_path r) (an_result a).
Proof.
  unfold decide_answer. destruct (serve_body_canned clock s r) as (a & E & Ha). destruct (route (rq_path r)) as [expected action]. cbn [fst snd] in E.
  cbv zeta. match goal with |- context [if ?b then Some _ else if _ then Some _ else if rq_cancelled r then _ else _] => destruct b end;
    [eexists _, _; split; [done|]; apply failure_canned; known|].
  destruct ((4096 <? _) || _); [eexists _, _; split; [done|]; apply failure_canned; known|].
  destruct (rq_cancelled r); [eexists _, _; split; [done|]; apply failure_canned; known|].
  destruct (workSlots <=? _); [eexists _, _; split; [done|]; apply failure_canned; known|]. rewrite E. by eexists _, _.
Qed.

(** ** Served responses *)
Lemma frame_bytes_app a b : frame_bytes (a ++ b) = frame_bytes a + frame_bytes b.
Proof. unfold frame_bytes, sum_Z. induction a as [|x a IH]; cbn; [done|]. cbn in IH. lia. Qed.
Lemma slen_take n s : slen (str_take n s) <= slen s.
Proof. revert n. induction s as [|c s IH]; intros [|n]; cbn; unfold slen in *; cbn in *; try lia. specialize (IH n). lia. Qed.
Lemma write_frames_bytes w streaming i frames written sent wr n stopped : write_frames w streaming i frames written sent = (wr, n, stopped) ->
  frame_bytes wr <= frame_bytes written + frame_bytes frames.
Proof.
  assert (Hpos : forall l, 0 <= frame_bytes l).
  { unfold frame_bytes, sum_Z. induction l as [|x l IH]; cbn; [done|]. unfold slen in *. lia. }
  revert i written sent. induction frames as [|f frames IH]; intros i written sent; cbn [write_frames]; [intros [= <- _ _]; unfold frame_bytes; cbn; lia|].
  assert (Hc : frame_bytes (f :: frames) = slen f + frame_bytes frames) by done. rewrite Hc. pose proof (Hpos frames). pose proof (slen_take 0 f) as H0.
  destruct (wi_cancelled w i); [intros [= <- _ _]; unfold slen in *; lia|]. destruct (wi_write w i f) as [k failed].
  pose proof (slen_take (Z.to_nat k) f) as Hk. assert (Hs : frame_bytes (written ++ [str_take (Z.to_nat k) f]) <= frame_bytes written + slen f).
  { rewrite frame_bytes_app. unfold frame_bytes at 2. cbn. lia. }
  destruct failed; [intros [= <- _ _]; lia|]. destruct (_ && _); [intros [= <- _ _]; lia|]. intros Hw. apply IH in Hw. lia.
Qed.
(** The count of sent bytes is that of the written ones, where a write reports
    what it wrote. *)
Definition lawful (w : wire) : Prop := forall i f, 0 <= (wi_write w i f).1 <= slen f.
Lemma slen_take_exact n s : 0 <= n <= slen s -> slen (str_take (Z.to_nat n) s) = n.
Proof.
  revert n. induction s as [|c s IH]; intros n Hn; [unfold slen in *; destruct (Z.to_nat n); cbn in *; lia|].
  destruct (Z.to_nat n) as [|k] eqn:Ek; [unfold slen in *; cbn in *; lia|]. cbn [str_take]. unfold slen in *. cbn [String.length] in *.
  specialize (IH (n - 1) ltac:(lia)). replace (Z.to_nat (n - 1)) with k in IH by lia. lia.
Qed.
Lemma write_frames_sent w streaming i frames written sent wr n stopped : lawful w -> sent = frame_bytes written ->
  write_frames w streaming i frames written sent = (wr, n, stopped) -> n = frame_bytes wr.
Proof.
  intros Hw. revert i written sent. induction frames as [|f frames IH]; intros i written sent Hs; cbn [write_frames]; [intros [= <- <- _]; done|].
  destruct (wi_cancelled w i); [intros [= <- <- _]; done|]. pose proof (Hw i f) as Hl. destruct (wi_write w i f) as [k failed]. cbn [fst] in Hl.
  assert (Ha : sent + k = frame_bytes (written ++ [str_take (Z.to_nat k) f])).
  { rewrite frame_bytes_app, Hs. unfold frame_bytes at 3. cbn. rewrite slen_take_exact by done. lia. }
  destruct failed; [intros [= <- <- _]; done|]. destruct (_ && _); [intros [= <- <- _]; done|]. by apply IH.
Qed.
Definition plain (r : result) : Prop := rs_outcome r = "" /\ rs_detail r = "" /\ rs_code r ∈ [200; 404; 500].
Lemma jsonResult_plain code v : code ∈ [200; 404; 500] -> plain (jsonResult code v).
Proof. unfold jsonResult, plain. destruct (json_marshal v); cbn; [done|]. intros _. repeat split. known. Qed.
Lemma failure_plain profile code message : code ∈ [200; 404; 500] -> plain (failure profile code message).
Proof. intros. unfold failure. repeat case_match; by apply jsonResult_plain. Qed.
Lemma reply_plain clock path name id stream req text tokens profile : plain (reply clock path name id stream req text tokens profile).
Proof.
  assert (Hs : forall l, plain (sse l)) by (intros; repeat split; known). assert (Hn : forall l, plain (ndjson l)) by (intros; repeat split; known).
  assert (Ha : forall r l, plain r -> plain (add_frames r l)) by (intros r l (H1 & H2 & H3); by repeat split).
  assert (Hj : forall v, plain (jsonResult 200 v)) by (intros; apply jsonResult_plain; known).
  unfold reply, ollamaReply, chatReply, responsesReply, anthropicReply. cbv zeta. repeat case_match; auto. apply failure_plain. known.
Qed.
Lemma discovery_plain path : plain (discovery path).
Proof. unfold discovery. repeat case_match; first [apply jsonResult_plain; known|apply failure_plain; known|repeat split; known]. Qed.

Definition codes : list Z := [200; 400; 401; 404; 405; 408; 413; 414; 415; 429; 500; 501; 503].
Definition lawful_detail (d : string) : Prop :=
  d = "" \/ exists messages tools stream, 0 <= messages <= maxItems /\ 0 <= tools <= maxItems /\ d = counts_detail messages tools stream.
Lemma canned_facts clock ids path out : canned_result clock ids path out ->
  rs_code out ∈ codes /\ rs_outcome out ∈ [""; "refused"] /\ lawful_detail (rs_detail out).
Proof.
  assert (Hp : forall r, plain r -> rs_code r ∈ codes).
  { intros r (_ & _ & Hc). revert Hc. unfold codes. set_solver. }
  intros [code message outcome Hin Ho| | |name stream usage tokens messages tools _ _ Hm Ht].
  - cbn. split; [|split; [done|by left]]. assert (Hall : Forall (fun cm => cm.1 ∈ codes) refusals) by (apply (bool_decide_unpack _); vm_compute; exact I).
    rewrite Forall_forall in Hall. exact (Hall _ Hin).
  - pose proof (discovery_plain path) as Hd. split; [by apply Hp|]. destruct Hd as (-> & -> & _). split; [left|by left].
  - pose proof (jsonResult_plain 200 (jlit [("details", modelDetails); ("model_info", jlit [("general.architecture", VStr "llama"); ("llama.context_length", VInt 8192)]);
                        ("capabilities", VStrList ["completion"]); ("parameters", VStr "temperature 0.7")]) ltac:(known)) as Hd.
    split; [by apply Hp|]. destruct Hd as (E1 & E2 & _). unfold show_result. rewrite E1, E2. split; [left|by left].
  - pose proof (reply_plain clock path name (itoa (i64 (clock 1%nat)) +:+ "-" +:+ itoa (u64 (ids + 1))) stream (canonical usage) (canned tokens) tokens (profileFor path)) as Hd.
    cbn [with_detail rs_code rs_outcome rs_detail]. split; [by apply Hp|]. destruct Hd as (-> & _ & _). split; [left|right]. by exists messages, tools, stream.
Qed.
Lemma unavailable_fits profile : frame_bytes (rs_frames (failure profile 500 "response unavailable")) <= maxOutput.
Proof. unfold failure. destruct (String.eqb profile "ollama"); [|destruct (String.eqb profile "anthropic")]; apply Z.leb_le; vm_compute; reflexivity. Qed.
(** The result a response is made of: the answer's, or the refusal of one that
    is too long. *)
Definition sent_result (profile : string) (a : answer) : result :=
  if maxOutput <? frame_bytes (rs_frames (an_result a)) then failure profile 500 "response unavailable" else an_result a.
Lemma sent_result_fits profile a : frame_bytes (rs_frames (sent_result profile a)) <= maxOutput.
Proof. unfold sent_result. destruct (Z.ltb_spec maxOutput (frame_bytes (rs_frames (an_result a)))); [apply unavailable_fits|lia]. Qed.
Lemma finish_written w conn r a :
  frame_bytes (rp_written (finish w conn r a)) <= maxOutput /\
  (lawful w -> ev_BytesSent (rp_event (finish w conn r a)) = frame_bytes (rp_written (finish w conn r a))).
Proof.
  unfold finish. destruct (route (rq_path r)) as [expected action]. cbv zeta. fold (sent_result (profileFor (rq_path r)) a).
  destruct (String.eqb (rq_method r) "HEAD"); [cbn; unfold maxOutput, frame_bytes; cbn; split; [lia|done]|].
  destruct (write_frames _ _ _ _ _ _) as [[written n] stopped] eqn:E. cbn [rp_written rp_event ev_BytesSent]. split.
  - apply write_frames_bytes in E. pose proof (sent_result_fits (profileFor (rq_path r)) a). unfold frame_bytes at 2 in E. cbn in E. lia.
  - intros Hw. by apply (write_frames_sent _ _ _ _ _ _ _ _ _ Hw eq_refl E).
Qed.

(** C28. Every request is answered: nothing panics, the status is one of
    thirteen, at most 32 KiB are written, and the event counts the bytes that
    were. *)
Theorem every_request_is_answered : forall clock w s conn r, exists s' conn' rsp,
  ServeHTTP clock w s conn r = (s', conn', Some rsp) /\ rp_code rsp ∈ codes /\ ev_StatusCode (rp_event rsp) = rp_code rsp /\
  frame_bytes (rp_written rsp) <= maxOutput /\
  (lawful w -> ev_BytesSent (rp_event rsp) = frame_bytes (rp_written rsp)).
Proof.
  intros clock w s conn r. unfold ServeHTTP. destruct (decide_answer_canned clock s conn r) as (conn' & a & -> & Ha).
  eexists _, _, _. split; [done|]. destruct (finish_written w conn' r a) as [H1 H2]. split; [|split; [|by split]].
  - unfold finish. destruct (route (rq_path r)) as [expected action]. cbv zeta. destruct (if String.eqb (rq_method r) "HEAD" then _ else _) as [[? ?] ?]. cbn [rp_code].
    destruct (maxOutput <? _); [|by apply (canned_facts _ _ _ _ Ha)]. pose proof (failure_plain (profileFor (rq_path r)) 500 "response unavailable" ltac:(known)) as (_ & _ & Hc).
    revert Hc. unfold codes. set_solver.
  - unfold finish. destruct (route (rq_path r)) as [expected action]. cbv zeta. by destruct (if String.eqb (rq_method r) "HEAD" then _ else _) as [[? ?] ?].
Qed.
Lemma every_request_is_answered_witness :
  let w := {| wi_cancelled := fun _ => false; wi_write := fun _ f => (slen f, false); wi_flush_fails := fun _ => false |} in
  let s := {| sn_token := ""; sn_work := 0; sn_ids := 7 |} in
  let r := {| rq_method := "GET"; rq_path := "/"; rq_query := ""; rq_remoteAddr := "192.0.2.1:5000"; rq_authorization := ""; rq_apiKey := "";
              rq_encoding := ""; rq_body := body_all ""; rq_cancelled := false |} in
  lawful w /\ exists s' conn' rsp, ServeHTTP (fun _ => 0) w s None r = (s', conn', Some rsp) /\ ev_BytesSent (rp_event rsp) = frame_bytes (rp_written rsp).
Proof.
  intros w s r. assert (Hw : lawful w) by (intros i f; cbn; unfold slen; lia). split; [exact Hw|].
  destruct (every_request_is_answered (fun _ => 0) w s None r) as (s' & conn' & rsp & E & _ & _ & _ & Hn). exists s', conn', rsp. split; [exact E|exact (Hn Hw)].
Defined.

Definition actions : list string :=
  ["health"; "version"; "models.list"; "models.inspect"; "inference.chat"; "inference.generate"; "inference.responses"; "tokens.count"; "models.modify"; "unknown"].
Definition methods : list string := ["GET"; "HEAD"; "POST"; "DELETE"; "PUT"; "PATCH"; "OPTIONS"; "OTHER"].
Lemma route_known path : (route path).2 ∈ actions /\ ((route path).1 = "" \/ path ∈ map fst routes).
Proof.
  unfold route. destruct (oget routes path) as [v|] eqn:E; [|split; [known|by left]]. apply oget_elem in E. cbn [default]. split.
  - assert (Hall : Forall (fun r : string * (string * string) => r.2.2 ∈ actions) routes) by known. rewrite Forall_forall in Hall. exact (Hall _ E).
  - right. apply list_elem_of_fmap. by exists (path, v).
Qed.
Lemma logMethod_known m : logMethod m ∈ methods.
Proof. unfold logMethod. destruct (bool_decide _) eqn:E; [apply bool_decide_eq_true in E; revert E; unfold methods; set_solver|known]. Qed.

(** C29. Telemetry holds nothing a client chose: but for the remote address and
    the session's name, each text of an event is one of a fixed list, and its
    detail is two counts of at most 128 and a flag. *)
Theorem telemetry_is_public : forall clock w s conn r s' conn' rsp, ServeHTTP clock w s conn r = (s', conn', Some rsp) ->
  let e := rp_event rsp in
  ev_Sensor e = "ai" /\ ev_RemoteAddr e = rq_remoteAddr r /\ ev_SessionID e = from_option se_id "" conn /\
  ev_Action e ∈ actions /\ ev_Outcome e ∈ ["simulated"; "rejected"; "refused"; "interrupted"] /\ ev_Profile e ∈ ["ollama"; "openai"; "anthropic"] /\
  ev_Method e ∈ methods /\ ev_Path e ∈ "/unknown" :: map fst routes /\ lawful_detail (ev_Detail e) /\
  ev_Target e = "" /\ ev_ClientAddr e = "" /\ ev_UserAgent e = "" /\ ev_EventID e = "" /\ ev_Timestamp e = "".
Proof.
  intros clock w s conn r s' conn' rsp. unfold ServeHTTP. destruct (decide_answer_canned clock s conn r) as (conn1 & a & E & Ha). rewrite E. intros [= _ _ <-].
  assert (Hconn : from_option se_id "" conn1 = from_option se_id "" conn).
  { revert E. unfold decide_answer. destruct (route (rq_path r)). destruct conn; intros [= <- _]; done. }
  apply canned_facts in Ha as (_ & Ho & Hd). pose proof (route_known (rq_path r)) as [Hact Hpath]. pose proof (logMethod_known (rq_method r)) as Hm.
  unfold finish. destruct (route (rq_path r)) as [expected action]. cbv zeta. cbn [fst snd] in *.
  destruct (if String.eqb (rq_method r) "HEAD" then _ else _) as [[written n] stopped].
  cbn [rp_event ev_Sensor ev_RemoteAddr ev_SessionID ev_Action ev_Outcome ev_Profile ev_Method ev_Path ev_Detail ev_Target ev_ClientAddr ev_UserAgent ev_EventID ev_Timestamp].
  split; [done|]. split; [done|]. split; [rewrite <- Hconn; by destruct conn1|]. split; [done|]. split.
  { destruct stopped; [known|]. destruct (maxOutput <? _); [known|]. destruct (negb _) eqn:En; [|destruct (400 <=? _); known].
    apply elem_of_cons in Ho as [Ho|Ho]; [by rewrite Ho in En|]. apply list_elem_of_singleton in Ho as ->. known. }
  split; [unfold profileFor; destruct (_ || _); [known|destruct (has_prefix _ _); known]|]. split; [done|]. split.
  { destruct (String.eqb_spec expected ""); [left|]. destruct Hpath as [|Hpath]; [done|by right]. }
  split; [|done]. destruct (maxOutput <? _); [|done]. left. by destruct (failure_plain (profileFor (rq_path r)) 500 "response unavailable" ltac:(known)) as (_ & -> & _).
Qed.
Lemma telemetry_is_public_witness :
  let w := {| wi_cancelled := fun _ => false; wi_write := fun _ f => (slen f, false); wi_flush_fails := fun _ => false |} in
  let s := {| sn_token := "secret"; sn_work := 0; sn_ids := 7 |} in
  let r := {| rq_method := "BREW"; rq_path := "/etc/passwd"; rq_query := "key=stolen"; rq_remoteAddr := "192.0.2.1:5000"; rq_authorization := "Bearer guess"; rq_apiKey := "";
              rq_encoding := ""; rq_body := body_all "prompt"; rq_cancelled := false |} in
  exists rsp, (ServeHTTP (fun _ => 0) w s None r).2 = Some rsp /\ ev_Method (rp_event rsp) ∈ methods /\ ev_Path (rp_event rsp) ∈ "/unknown" :: map fst routes.
Proof.
  intros w s r. destruct (ServeHTTP (fun _ => 0) w s None r) as [[s' conn'] [rsp|]] eqn:E; [|exfalso; vm_compute in E; discriminate].
  exists rsp. pose proof (telemetry_is_public (fun _ => 0) w s None r s' conn' rsp E) as (_ & _ & _ & _ & _ & _ & Hm & Hp & _). split; [reflexivity|]. split; [exact Hm|exact Hp].
Defined.

(** C30. Replies are canned: whatever a request holds, its result is a refusal
    in fixed words, a constant document, or the reply that the path, the clock,
    the counter, the model's name (one of three), two flags and a count from
    one to nine determine. *)
Theorem replies_are_canned : forall clock s conn r, exists conn' a,
  decide_answer clock s conn r = (conn', Some a) /\ canned_result clock (sn_ids s) (rq_path r) (an_result a).
Proof. exact decide_answer_canned. Qed.

(** ** Sessions *)
Definition visit := ((nat -> Z) * sensor * request)%type.
(** The codes of the results of the requests of a connection, one after another. *)
Fixpoint serve_session (conn : option session) (l : list visit) : list Z :=
  match l with
  | [] => []
  | (clock, s, r) :: l =>
      let '(conn', a) := decide_answer clock s conn r in
      match a with Some a => rs_code (an_result a) | None => 0 end :: serve_session conn' l
  end.
Lemma over_session clock s c r : maxRequests <= se_requests c < 2 ^ 31 - 1 -> 
  (decide_answer clock s (Some c) r).1 = Some {| se_id := se_id c; se_opened := se_opened c; se_requests := se_requests c + 1 |} /\
  from_option (fun a => rs_code (an_result a)) 0 (decide_answer clock s (Some c) r).2 = 429.
Proof.
  intros Hc. unfold decide_answer. destruct (route (rq_path r)). cbv zeta. unfold maxRequests in Hc.
  assert (Hi : i32 (se_requests c + 1) = se_requests c + 1) by (unfold i32; rewrite Z.mod_small; lia). rewrite Hi. cbn [fst snd]. split; [done|].
  cbn [se_requests]. unfold maxRequests. rewrite (proj2 (Z.ltb_lt 128 _)) by lia. cbn [orb from_option an_result]. rewrite failure_record by known. done.
Qed.
Lemma within_session clock s c r : 0 <= se_requests c < maxRequests ->
  (decide_answer clock s (Some c) r).1 = Some {| se_id := se_id c; se_opened := se_opened c; se_requests := se_requests c + 1 |}.
Proof.
  intros Hc. unfold decide_answer, maxRequests in *. destruct (route (rq_path r)). cbn [fst]. do 2 f_equal. unfold i32. rewrite Z.mod_small; lia.
Qed.
Definition served (l : list Z) : list Z := List.filter (fun z => negb (z =? 429)) l.
(** A connection is served at most 128 requests: every later one is refused
    with status 429, up to the 2^31st, where the counter wraps. *)
Theorem sessions_are_limited : forall l id opened, Z.of_nat (length l) < 2 ^ 31 ->
  Z.of_nat (length (served (serve_session (Some {| se_id := id; se_opened := opened; se_requests := 0 |}) l))) <= maxRequests.
Proof.
  intros l id opened Hl.
  enough (Hgen : forall l n, 0 <= n -> n + Z.of_nat (length l) < 2 ^ 31 ->
    Z.of_nat (length (served (serve_session (Some {| se_id := id; se_opened := opened; se_requests := n |}) l))) <= Z.max 0 (maxRequests - n)).
  { specialize (Hgen l 0 ltac:(lia) ltac:(lia)). unfold maxRequests in *. lia. }
  clear l Hl. induction l as [|[[clock s] r] l IH]; intros n Hn Hl; [cbn; lia|]. cbn [serve_session]. cbn [length] in Hl.
  specialize (IH (n + 1) ltac:(lia) ltac:(lia)). destruct (Z.lt_ge_cases n maxRequests) as [Hlt|Hge].
  - pose proof (within_session clock s {| se_id := id; se_opened := opened; se_requests := n |} r ltac:(done)) as Hd.
    destruct (decide_answer _ _ _ _) as [conn' a]. cbn [fst se_id se_opened se_requests] in Hd. rewrite Hd. unfold served in *. cbn [List.filter]. destruct (negb _); cbn [length]; lia.
  - pose proof (over_session clock s {| se_id := id; se_opened := opened; se_requests := n |} r ltac:(cbn [se_requests]; lia)) as [Hd Hc].
    destruct (decide_answer _ _ _ _) as [conn' [a|]]; cbn [fst snd from_option se_id se_opened se_requests] in Hd, Hc; [|done]. rewrite Hd, Hc. unfold served in *. cbn [List.filter].
    change (negb (429 =? 429)) with false. cbn iota. lia.
Qed.
Lemma sessions_are_limited_witness :
  let r := {| rq_method := "GET"; rq_path := "/"; rq_query := ""; rq_remoteAddr := ""; rq_authorization := ""; rq_apiKey := ""; rq_encoding := ""; rq_body := body_all ""; rq_cancelled := false |} in
  let l := repeat (((fun _ => 0) : nat -> Z), {| sn_token := ""; sn_work := 0; sn_ids := 0 |}, r) 130 in
  Z.of_nat (length l) < 2 ^ 31 /\ Z.of_nat (length (served (serve_session (Some {| se_id := "ai-1"; se_opened := 0; se_requests := 0 |}) l))) <= 128.
Proof. intros r l. split; [reflexivity|]. exact (sessions_are_limited l "ai-1" 0 eq_refl). Defined.
