(* ===== verification/Docker.v ===== *)
(** * The Docker Engine sensor

    docker.go: a simulated daemon.  Its state is a table of containers and a
    table of exec instances under one mutex; a request is a function of the
    state.  The body of a create request is decoded into a struct, with the
    rules [encoding/json] has for names, repeated members and [null]. *)
From S2P Require Import Prelude GoStrings GoCodec ConfigModel Value Json GoTime Http JsonStruct.

#[local] Set Warnings "-clear-no-such-hyp,-notation-for-abbreviation".
#[local] Open Scope string_scope.
#[local] Open Scope list_scope.
#[local] Open Scope Z_scope.

Definition engineVersion : string := "26.1.4".
Definition apiVersion : string := "1.45".
Definition maxBody : Z := 64 * 2 ^ 10.
Definition maxContainers : Z := 128.
Definition maxStoreBytes : Z := 8 * 2 ^ 20.
Definition maxExecs : Z := 128.

(** [namePattern]: a letter or digit, then at most 63 of these or [_.-]. *)
Definition name_head (c : ascii) : bool := is_digit c || is_lower c || is_upper c.
Definition name_char (c : ascii) : bool := name_head c || any_byte (Ascii.eqb c) "_.-".
Definition namePattern (s : string) : bool :=
  match s with String c s => name_head c && all_bytes name_char s && (slen s <=? 63) | "" => false end.

(** ** The configuration of a container *)

(** A slice of strings: nil, or its elements and what is left in its array
    beyond them, which a later value of a repeated member may uncover. *)
Record slice := { sl_items : list string; sl_spare : list string }.
Record hostConfig := { hc_Privileged : bool; hc_Binds : option slice; hc_NetworkMode : string }.
Record containerConfig := {
  cc_Image : string; cc_Cmd : option slice; cc_Env : option slice; cc_Labels : option (list (string * string)); cc_HostConfig : hostConfig;
}.
Definition zero_host : hostConfig := {| hc_Privileged := false; hc_Binds := None; hc_NetworkMode := "" |}.
Definition zero_config : containerConfig :=
  {| cc_Image := ""; cc_Cmd := None; cc_Env := None; cc_Labels := None; cc_HostConfig := zero_host |}.

(** [null] empties a slice or a map. *)
Fixpoint decode_items (array : list string) (l : list val) : option slice :=
  match l with
  | [] => Some {| sl_items := []; sl_spare := array |}
  | v :: l =>
      s ← decode_string (default "" (head array)) v;
      rest ← decode_items (tail array) l;
      Some {| sl_items := s :: sl_items rest; sl_spare := sl_spare rest |}
  end.
Definition slice_array (old : option slice) : list string :=
  match old with Some s => sl_items s ++ sl_spare s | None => [] end.
Definition decode_slice (old : option slice) (v : val) : option (option slice) :=
  match v with
  | VNil => Some None
  | VList [] => Some (Some {| sl_items := []; sl_spare := [] |})
  | VList l => Some <$> decode_items (slice_array old) l
  | _ => None
  end.
Fixpoint decode_labels (m : list (string * string)) (l : object) : option (list (string * string)) :=
  match l with
  | [] => Some m
  | (k, v) :: l => s ← decode_string "" v; decode_labels (oset m k s) l
  end.
Definition decode_map (old : option (list (string * string))) (v : val) : option (option (list (string * string))) :=
  match v with
  | VNil => Some None
  | VMap l => Some <$> decode_labels (default [] old) l
  | _ => None
  end.
Definition decode_host_member (h : hostConfig) (kv : string * val) : option hostConfig :=
  if same_name kv.1 "Privileged" then
    b ← decode_bool (hc_Privileged h) kv.2; Some {| hc_Privileged := b; hc_Binds := hc_Binds h; hc_NetworkMode := hc_NetworkMode h |}
  else if same_name kv.1 "Binds" then
    l ← decode_slice (hc_Binds h) kv.2; Some {| hc_Privileged := hc_Privileged h; hc_Binds := l; hc_NetworkMode := hc_NetworkMode h |}
  else if same_name kv.1 "NetworkMode" then
    s ← decode_string (hc_NetworkMode h) kv.2; Some {| hc_Privileged := hc_Privileged h; hc_Binds := hc_Binds h; hc_NetworkMode := s |}
  else Some h.
Definition decode_member (c : containerConfig) (kv : string * val) : option containerConfig :=
  if same_name kv.1 "Image" then
    s ← decode_string (cc_Image c) kv.2;
    Some {| cc_Image := s; cc_Cmd := cc_Cmd c; cc_Env := cc_Env c; cc_Labels := cc_Labels c; cc_HostConfig := cc_HostConfig c |}
  else if same_name kv.1 "Cmd" then
    l ← decode_slice (cc_Cmd c) kv.2;
    Some {| cc_Image := cc_Image c; cc_Cmd := l; cc_Env := cc_Env c; cc_Labels := cc_Labels c; cc_HostConfig := cc_HostConfig c |}
  else if same_name kv.1 "Env" then
    l ← decode_slice (cc_Env c) kv.2;
    Some {| cc_Image := cc_Image c; cc_Cmd := cc_Cmd c; cc_Env := l; cc_Labels := cc_Labels c; cc_HostConfig := cc_HostConfig c |}
  else if same_name kv.1 "Labels" then
    m ← decode_map (cc_Labels c) kv.2;
    Some {| cc_Image := cc_Image c; cc_Cmd := cc_Cmd c; cc_Env := cc_Env c; cc_Labels := m; cc_HostConfig := cc_HostConfig c |}
  else if same_name kv.1 "HostConfig" then
    h ← decode_struct decode_host_member (cc_HostConfig c) kv.2;
    Some {| cc_Image := cc_Image c; cc_Cmd := cc_Cmd c; cc_Env := cc_Env c; cc_Labels := cc_Labels c; cc_HostConfig := h |}
  else Some c.
(** [json.Unmarshal] into a [containerConfig]. *)
Definition decode_config (data : string) : option containerConfig :=
  v ← json_raw data; decode_struct decode_member zero_config v.

Definition slice_items (s : option slice) : list string := from_option sl_items [] s.
Definition slice_text (s : option slice) : option string := json_marshal (from_option (fun s => VStrList (sl_items s)) VNil s).
Definition host_text (h : hostConfig) : option string :=
  json_object [("Privileged", json_marshal (VBool (hc_Privileged h))); ("Binds", slice_text (hc_Binds h)); ("NetworkMode", json_marshal (VStr (hc_NetworkMode h)))].
Definition labels_value (l : option (list (string * string))) : val := from_option VStrMap VNil l.
Definition config_text (c : containerConfig) : option string :=
  json_object [("Image", json_marshal (VStr (cc_Image c))); ("Cmd", slice_text (cc_Cmd c)); ("Env", slice_text (cc_Env c));
               ("Labels", json_marshal (labels_value (cc_Labels c))); ("HostConfig", host_text (cc_HostConfig c))].

Example decode_examples :
  decode_config (q "{'image':'a','HOSTCONFIG':{'Privileged':true,'binds':['/:/h']},'cmd':['x','y'],'Cmd':['z'],'CMD':[null,null],'n':1e999}")
  = Some {| cc_Image := "a"; cc_Cmd := Some {| sl_items := ["z"; "y"]; sl_spare := [] |}; cc_Env := None; cc_Labels := None;
            cc_HostConfig := {| hc_Privileged := true; hc_Binds := Some {| sl_items := ["/:/h"]; sl_spare := [] |}; hc_NetworkMode := "" |} |} /\
  decode_config (q "{'Image':1}") = None /\ decode_config "null" = Some zero_config /\ decode_config "[]" = None /\
  (config_text <$> decode_config (q "{'Labels':{'b':'1','a':null}}")) =
    Some (Some (q "{'Image':'','Cmd':null,'Env':null,'Labels':{'a':'','b':'1'},'HostConfig':{'Privileged':false,'Binds':null,'NetworkMode':''}}")).
Proof. vm_compute. repeat split. Qed.

(** ** State *)
Record container := { ct_ID : string; ct_Name : string; ct_State : string; ct_Created : Z; ct_Config : containerConfig; ct_Size : Z }.
Record sensor := { sn_containers : gmap string container; sn_execs : gmap string string; sn_bytes : Z }.
Definition alpine : containerConfig :=
  {| cc_Image := "alpine:3.20"; cc_Cmd := Some {| sl_items := ["sleep"; "3600"]; sl_spare := [] |}; cc_Env := None; cc_Labels := None; cc_HostConfig := zero_host |}.
Definition web_id : string := str_repeat "a" 64.
(** [NewHandler] at a time, in seconds. *)
Definition NewHandler (now : Z) : sensor :=
  {| sn_containers := {[ web_id := {| ct_ID := web_id; ct_Name := "web"; ct_State := "running"; ct_Created := now - 3600; ct_Config := alpine; ct_Size := 0 |} ]};
     sn_execs := ∅; sn_bytes := 0 |}.

(** ** Replies *)
Record reply := { re_code : Z; re_data : string; re_action : string; re_outcome : string; re_target : string; re_detail : string }.
Definition zero_reply : reply := {| re_code := 0; re_data := ""; re_action := ""; re_outcome := ""; re_target := ""; re_detail := "" |}.
Definition code_reply (code : Z) (data : string) : reply :=
  {| re_code := code; re_data := data; re_action := ""; re_outcome := ""; re_target := ""; re_detail := "" |}.
Definition text_reply (code : Z) (text : option string) : reply :=
  match text with
  | None => code_reply 500 ("{" +:+ quote +:+ "message" +:+ quote +:+ ":" +:+ quote +:+ "response unavailable" +:+ quote +:+ "}")
  | Some data => code_reply code data
  end.
Definition jsonReply (code : Z) (value : val) : reply := text_reply code (json_marshal value).
Definition errorReply (code : Z) (message : string) : reply := jsonReply code (VStrMap [("message", message)]).
Definition jobj (l : list (string * val)) : val := VMap (of_pairs l).
Definition jstrs (l : list (string * string)) : val := VStrMap (of_pairs l).
Definition with_action (r : reply) (action : string) : reply :=
  {| re_code := re_code r; re_data := re_data r; re_action := action; re_outcome := re_outcome r; re_target := re_target r; re_detail := re_detail r |}.
Definition with_target (r : reply) (target : string) : reply :=
  {| re_code := re_code r; re_data := re_data r; re_action := re_action r; re_outcome := re_outcome r; re_target := target; re_detail := re_detail r |}.

(** ** Requests

    [rq_query] is the raw query; [rq_random] is what reading 32 random bytes
    gives and [rq_now] the clock, in nanoseconds: a request uses each at most
    once. *)
Record request := { rq_method : string; rq_path : string; rq_query : string; rq_remoteAddr : string; rq_body : body; rq_random : option (list Z); rq_now : Z }.
Definition is_method (r : request) (m : string) : bool := String.eqb (rq_method r) m.
Definition truthy (s : string) : bool := String.eqb s "1" || String.eqb s "true".
Definition query (r : request) (name : string) : string := query_get (rq_query r) name.
Definition randomID (r : request) : option string := hex_bytes <$> rq_random r.
Definition seconds (r : request) : Z := rq_now r / 10 ^ 9.

(** The path without the version of the client, or none where it is not
    supported. *)
Definition strip_version (path : string) : option string :=
  match split (chr 47) (trim_prefix path "/") with
  | first :: rest =>
      if has_prefix first "v1." then
        match atoi (trim_prefix first "v1.") with
        | Some minor =>
            if (minor <? 24) || (45 <? minor) || negb (String.eqb first ("v1." +:+ itoa minor)) then None
            else Some ("/" +:+ join rest "/")
        | None => None
        end
      else Some path
  | [] => Some path
  end.
Definition wants_body (r : request) (path : string) : bool :=
  is_method r "POST" && (String.eqb path "/containers/create" || has_suffix path "/exec").
(** The body under [http.MaxBytesReader]. *)
Definition read_body (b : body) : option string :=
  match b with body_all s => if maxBody <? slen s then None else Some s | body_error _ => None end.

Section docker.
Context `{RangeOrder}.

Definition running (c : container) : bool := String.eqb (ct_State c) "running".
Definition is_match (name : string) (kv : string * container) : bool :=
  String.eqb (ct_Name kv.2) name || ((12 <=? slen name) && has_prefix kv.1 name).
(** [find]: the loop ends at a second match. *)
Fixpoint find_loop (name : string) (l : list (string * container)) (found : option container) : option container :=
  match l with
  | [] => found
  | kv :: l => if is_match name kv then match found with Some _ => None | None => find_loop name l (Some kv.2) end else find_loop name l found
  end.
Definition find (s : sensor) (name : string) : option container :=
  match sn_containers s !! name with
  | Some c => Some c
  | None => find_loop name (range_entries 60 (map_to_list (sn_containers s))) None
  end.

(** *** Documents *)
Definition image_id : string := "sha256:" +:+ str_repeat "c" 64.
Definition version_doc : val :=
  jobj [("Version", VStr engineVersion); ("ApiVersion", VStr apiVersion); ("MinAPIVersion", VStr "1.24"); ("GitCommit", VStr "de5c9cf"); ("GoVersion", VStr "go1.21.9");
        ("Os", VStr "linux"); ("Arch", VStr "amd64"); ("KernelVersion", VStr "6.8.0"); ("BuildTime", VStr "2024-06-05T11:29:20Z");
        ("Components", VList [jobj [("Name", VStr "Engine"); ("Version", VStr engineVersion);
            ("Details", jstrs [("ApiVersion", apiVersion); ("MinAPIVersion", "1.24"); ("Os", "linux"); ("Arch", "amd64")])]])].
Definition count_running (s : sensor) : Z :=
  foldl (fun n kv => if running kv.2 then n + 1 else n) 0 (range_entries 61 (map_to_list (sn_containers s))).
Definition info_doc (s : sensor) (r : request) : val :=
  let total := Z.of_nat (size (sn_containers s)) in
  jobj [("ID", VStr (str_repeat "b" 64)); ("Name", VStr "worker-01"); ("ServerVersion", VStr engineVersion); ("Containers", VInt total);
        ("ContainersRunning", VInt (count_running s)); ("ContainersStopped", VInt (total - count_running s)); ("ContainersPaused", VInt 0); ("Images", VInt 1);
        ("Driver", VStr "overlay2"); ("DriverStatus", VList []);
        ("Plugins", jobj [("Volume", VStrList ["local"]); ("Network", VStrList ["bridge"; "host"; "null"]); ("Log", VStrList ["json-file"])]);
        ("NCPU", VInt 4); ("MemTotal", VInt (8 * 2 ^ 30)); ("DockerRootDir", VStr "/var/lib/docker"); ("OSType", VStr "linux"); ("Architecture", VStr "x86_64");
        ("OperatingSystem", VStr "Ubuntu 22.04.4 LTS"); ("KernelVersion", VStr "6.8.0"); ("LoggingDriver", VStr "json-file"); ("CgroupDriver", VStr "systemd");
        ("CgroupVersion", VStr "2"); ("DefaultRuntime", VStr "runc"); ("Runtimes", jobj [("runc", jstrs [("path", "runc")])]);
        ("Swarm", jstrs [("LocalNodeState", "inactive")]); ("SecurityOptions", VStrList ["name=seccomp,profile=builtin"]);
        ("SystemTime", VStr (rfc3339_nano (seconds r) (rq_now r mod 10 ^ 9))); ("Warnings", VStrList [])].
Definition list_entry (c : container) : val :=
  jobj [("Id", VStr (ct_ID c)); ("Names", VStrList ["/" +:+ ct_Name c]); ("Image", VStr (cc_Image (ct_Config c))); ("ImageID", VStr image_id);
        ("Command", VStr (join (slice_items (cc_Cmd (ct_Config c))) " ")); ("Created", VInt (ct_Created c)); ("State", VStr (ct_State c)); ("Status", VStr (ct_State c));
        ("Ports", VList []); ("Labels", labels_value (cc_Labels (ct_Config c))); ("Mounts", VList []); ("NetworkSettings", jobj [("Networks", jobj [])])].
Definition listed (r : request) (c : container) : bool := running c || truthy (query r "all").
Definition list_doc (s : sensor) (r : request) : val :=
  VList (map list_entry (List.filter (listed r) (map snd (range_entries 62 (map_to_list (sn_containers s)))))).
Definition images_doc : val :=
  VList [jobj [("Id", VStr image_id); ("RepoTags", VStrList ["alpine:3.20"]); ("RepoDigests", VStrList []); ("Created", VInt 1717586960); ("Size", VInt 7800000);
               ("SharedSize", VInt (-1)); ("Containers", VInt (-1)); ("Labels", jstrs [])]].
Definition image_doc : val :=
  jobj [("Id", VStr image_id); ("RepoTags", VStrList ["alpine:3.20"]); ("Architecture", VStr "amd64"); ("Os", VStr "linux"); ("Size", VInt 7800000);
        ("Config", jobj [("Cmd", VStrList ["/bin/sh"])]); ("RootFS", jobj [("Type", VStr "layers"); ("Layers", VStrList [])])].
Definition inspect_text (c : container) : option string :=
  json_object (of_pairs
    [("Id", json_marshal (VStr (ct_ID c))); ("Name", json_marshal (VStr ("/" +:+ ct_Name c)));
     ("Created", json_marshal (VStr (rfc3339_nano (ct_Created c) 0)));
     ("State", json_marshal (jobj [("Status", VStr (ct_State c)); ("Running", VBool (running c)); ("Paused", VBool false); ("Restarting", VBool false);
                                  ("Dead", VBool false); ("ExitCode", VInt 0); ("Pid", VInt 0)]));
     ("Config", config_text (ct_Config c)); ("HostConfig", host_text (cc_HostConfig (ct_Config c)));
     ("NetworkSettings", json_marshal (jobj [("Ports", jobj []); ("Networks", jobj [])])); ("Mounts", json_marshal (VList []))]).

(** *** Operations, on the state *)
Definition set_containers (s : sensor) (m : gmap string container) : sensor := {| sn_containers := m; sn_execs := sn_execs s; sn_bytes := sn_bytes s |}.
Definition set_state (c : container) (state : string) : container :=
  {| ct_ID := ct_ID c; ct_Name := ct_Name c; ct_State := state; ct_Created := ct_Created c; ct_Config := ct_Config c; ct_Size := ct_Size c |}.
Definition requested (c : containerConfig) : string :=
  "privileged:" +:+ format_bool (hc_Privileged (cc_HostConfig c))
  +:+ " host_mount_requested:" +:+ format_bool (0 <? Z.of_nat (length (slice_items (hc_Binds (cc_HostConfig c)))))
  +:+ " host_network_requested:" +:+ format_bool (String.eqb (hc_NetworkMode (cc_HostConfig c)) "host").
Definition name_taken (s : sensor) (name : string) : bool :=
  existsb (fun kv => String.eqb (ct_Name kv.2) name) (range_entries 63 (map_to_list (sn_containers s))).
Definition create_container (s : sensor) (r : request) (config : containerConfig) (size : Z) : sensor * reply :=
  if String.eqb (cc_Image config) "" || (256 <? slen (cc_Image config)) then (s, errorReply 400 "image is required and must be bounded")
  else if (maxContainers <=? Z.of_nat (base.size (sn_containers s))) || (maxStoreBytes <? sn_bytes s + size)
  then (s, errorReply 503 "simulated container capacity reached")
  else match randomID r with
  | None => (s, errorReply 500 "identifier unavailable")
  | Some id =>
      let name := query r "name" in
      let name := if String.eqb name "" then "container-" +:+ str_take 12 id else name in
      if negb (namePattern name) then (s, errorReply 400 "invalid container name")
      else if name_taken s name then (s, errorReply 409 "container name already in use")
      else
        let c := {| ct_ID := id; ct_Name := name; ct_State := "created"; ct_Created := seconds r; ct_Config := config; ct_Size := size |} in
        let created := jsonReply 201 (jobj [("Id", VStr id); ("Warnings", VStrList [])]) in
        ({| sn_containers := <[id := c]> (sn_containers s); sn_execs := sn_execs s; sn_bytes := sn_bytes s + size |},
         {| re_code := re_code created; re_data := re_data created; re_action := "container.create"; re_outcome := ""; re_target := id; re_detail := requested config |})
  end.
Definition drop_execs (s : sensor) (id : string) : gmap string string :=
  foldl (fun m kv => if String.eqb kv.2 id then delete kv.1 m else m) (sn_execs s) (range_entries 64 (map_to_list (sn_execs s))).
Definition delete_container (s : sensor) (r : request) (c : container) : sensor * reply :=
  if running c && negb (truthy (query r "force")) then (s, errorReply 409 "container is running")
  else ({| sn_containers := delete (ct_ID c) (sn_containers s); sn_execs := drop_execs s (ct_ID c); sn_bytes := sn_bytes s - ct_Size c |},
        with_target (with_action (code_reply 204 "") "container.delete") (ct_ID c)).
(** The container is shared with the table, so its state changes there. *)
Definition change_state (s : sensor) (c : container) (verb : string) : sensor * reply :=
  let state := if String.eqb verb "stop" || String.eqb verb "kill" then "exited" else "running" in
  let code := if String.eqb (ct_State c) state && negb (String.eqb verb "restart") then 304 else 204 in
  (set_containers s (<[ct_ID c := set_state c state]> (sn_containers s)), with_target (with_action (code_reply code "") ("container." +:+ verb)) (ct_ID c)).
Definition create_exec (s : sensor) (r : request) (c : container) : sensor * reply :=
  if negb (running c) then (s, errorReply 409 "container is not running")
  else if maxExecs <=? Z.of_nat (size (sn_execs s)) then (s, errorReply 503 "simulated exec capacity reached")
  else match randomID r with
  | None => (s, errorReply 500 "identifier unavailable")
  | Some id =>
      ({| sn_containers := sn_containers s; sn_execs := <[id := ct_ID c]> (sn_execs s); sn_bytes := sn_bytes s |},
       with_target (with_action (jsonReply 201 (VStrMap [("Id", id)])) "exec.create") (ct_ID c))
  end.
Definition lifecycle_verb (verb : string) : bool :=
  String.eqb verb "start" || String.eqb verb "stop" || String.eqb verb "restart" || String.eqb verb "kill".
Definition unavailable (s : sensor) : sensor * reply := (s, errorReply 404 "endpoint unavailable").
Definition container_request (s : sensor) (r : request) (path : string) : sensor * reply :=
  let parts := split (chr 47) (trim_prefix path "/containers/") in
  match find s (default "" (head parts)) with
  | None => (s, errorReply 404 "no such container")
  | Some c =>
      match parts with
      | [_] => if is_method r "DELETE" then delete_container s r c else unavailable s
      | [_; verb] =>
          if String.eqb verb "json" && is_method r "GET"
          then (s, with_target (with_action (text_reply 200 (inspect_text c)) "container.inspect") (ct_ID c))
          else if lifecycle_verb verb && is_method r "POST" then change_state s c verb
          else if String.eqb verb "exec" && is_method r "POST" then create_exec s r c
          else unavailable s
      | _ => unavailable s
      end
  end.
Definition refuse_exec (r : reply) : reply :=
  {| re_code := re_code r; re_data := re_data r; re_action := "exec.start"; re_outcome := "refused"; re_target := re_target r; re_detail := re_detail r |}.
Definition exec_request (s : sensor) (r : request) (path : string) : sensor * reply :=
  match split (chr 47) (trim_prefix path "/exec/") with
  | [id; verb] =>
      match sn_execs s !! id with
      | None => (s, errorReply 404 "no such exec instance")
      | Some owner =>
          if String.eqb verb "start" && is_method r "POST"
          then (s, with_target (refuse_exec (errorReply 501 "streaming execution is unavailable")) owner)
          else if String.eqb verb "json" && is_method r "GET"
          then (s, with_target (with_action (jsonReply 200 (jobj [("ID", VStr id); ("ContainerID", VStr owner); ("Running", VBool false); ("ExitCode", VInt 126); ("Pid", VInt 0)]))
                                            "exec.inspect") owner)
          else unavailable s
      end
  | _ => unavailable s
  end.
(** What follows under the mutex. *)
Definition dispatch (s : sensor) (r : request) (path : string) (config : containerConfig) (size : Z) : sensor * reply :=
  let get := is_method r "GET" in
  let answer action doc := (s, with_action (jsonReply 200 doc) action) in
  if String.eqb path "/_ping" && (get || is_method r "HEAD") then (s, with_action (code_reply 200 "OK") "ping")
  else if String.eqb path "/version" && get then answer "version" version_doc
  else if String.eqb path "/info" && get then answer "info" (info_doc s r)
  else if String.eqb path "/containers/json" && get then answer "container.list" (list_doc s r)
  else if String.eqb path "/images/json" && get then answer "image.list" images_doc
  else if has_prefix path "/images/" && has_suffix path "/json" && get then answer "image.inspect" image_doc
  else if String.eqb path "/networks" && get then answer "network.list" (VList [])
  else if String.eqb path "/volumes" && get then answer "volume.list" (jobj [("Volumes", VList []); ("Warnings", VStrList [])])
  else if String.eqb path "/containers/create" && is_method r "POST" then create_container s r config size
  else if has_prefix path "/containers/" then container_request s r path
  else if has_prefix path "/exec/" then exec_request s r path
  else unavailable s.
Definition handle (s : sensor) (r : request) : sensor * reply :=
  if (4096 <? slen (rq_path r)) || (8192 <? slen (rq_query r)) then (s, errorReply 414 "request target too long")
  else match strip_version (rq_path r) with
  | None => (s, errorReply 400 "unsupported client API version")
  | Some path =>
      if wants_body r path then
        match read_body (rq_body r) with
        | None => (s, errorReply 413 "request body too large")
        | Some data =>
            match decode_config data with
            | None => (s, errorReply 400 "invalid JSON object")
            | Some config => dispatch s r path config (slen data)
            end
        end
      else dispatch s r path zero_config 0
  end.

(** [ServeHTTP]: [wrote] is how much of the data a write takes. *)
Record response := { rp_code : Z; rp_headers : list (string * string); rp_data : string; rp_event : Event }.
Definition ServeHTTP (wrote : string -> Z) (s : sensor) (r : request) : sensor * response :=
  let '(s, result) := handle s r in
  let silent := is_method r "HEAD" || (re_code result =? 204) in
  (s, {| rp_code := re_code result;
         rp_headers := [("API-Version", apiVersion); ("Docker-Experimental", "false"); ("OSType", "linux"); ("Server", "Docker/" +:+ engineVersion +:+ " (linux)");
                        ("Content-Type", if String.eqb (re_action result) "ping" then "text/plain; charset=utf-8" else "application/json")];
         rp_data := if silent then "" else re_data result;
         rp_event := {| ev_Timestamp := ""; ev_EventID := ""; ev_Sensor := "docker"; ev_SessionID := ""; ev_Action := re_action result;
           ev_Outcome := if negb (String.eqb (re_outcome result) "") then re_outcome result else if 400 <=? re_code result then "rejected" else "simulated";
           ev_Profile := "docker/" +:+ engineVersion; ev_Target := re_target result; ev_RemoteAddr := rq_remoteAddr r; ev_ClientAddr := "";
           ev_Method := rq_method r; ev_Path := rq_path r; ev_StatusCode := re_code result; ev_BytesReceived := 0;
           ev_BytesSent := if silent then 0 else wrote (re_data result); ev_UserAgent := ""; ev_Detail := re_detail result |} |}).
End docker.
