(* ===== verification/DockerProps.v ===== *)
(** * The Docker Engine sensor: properties

    The tables stay within their bounds and agree with each other whatever is
    asked; every change is that of one container, and the record of the request
    names it; looking a container up does not depend on map order. *)
From S2P Require Import Prelude GoStrings GoCodec ConfigModel Value Json GoTime Http JsonStruct Selector Docker.

#[local] Set Warnings "-clear-no-such-hyp,-notation-for-abbreviation".
#[local] Open Scope string_scope.
#[local] Open Scope list_scope.
#[local] Open Scope Z_scope.

(** ** Looking up *)
Lemma find_loop_filter name l found : find_loop name l found =
  match found, List.filter (is_match name) l with
  | None, [] => None | None, [kv] => Some kv.2 | Some c, [] => Some c | _, _ => None
  end.
Proof.
  revert found. induction l as [|kv l IH]; intros found; cbn [find_loop List.filter]; [by destruct found|].
  destruct (is_match name kv); [destruct found; [done|]|by rewrite IH]. rewrite IH. by destruct (List.filter _ l) as [|? [|]].
Qed.
Lemma filter_Permutation {A} (f : A -> bool) l l' : l ≡ₚ l' -> List.filter f l ≡ₚ List.filter f l'.
Proof.
  induction 1 as [|x l l' _ IH|x y l|l l' l'' _ IH1 _ IH2]; cbn; [done| | |by etrans].
  - destruct (f x); [by constructor|done].
  - destruct (f x), (f y); try done. by constructor.
Qed.
Lemma filter_elem {A} (f : A -> bool) l x : x ∈ List.filter f l <-> x ∈ l /\ f x = true.
Proof. rewrite !list_elem_of_In. apply filter_In. Qed.
Lemma filter_NoDup {A} (f : A -> bool) l : NoDup l -> NoDup (List.filter f l).
Proof. induction 1 as [|x l Hx Hn IH]; cbn; [constructor|]. destruct (f x); [constructor; [rewrite filter_elem; tauto|done]|done]. Qed.

Section docker.
Context `{RangeOrder}.

Definition matches (s : sensor) (name id : string) (c : container) : Prop := sn_containers s !! id = Some c /\ is_match name (id, c) = true.
(** A lookup does not depend on the order of the map: it gives the
    container of that id, or else the only one whose name it is or whose id it
    begins, with at least twelve characters. *)
Theorem find_is_unambiguous : forall s name c, find s name = Some c <->
  sn_containers s !! name = Some c \/
  sn_containers s !! name = None /\ exists id, matches s name id c /\ forall id' c', matches s name id' c' -> id' = id.
Proof.
  intros s name c. unfold find. destruct (sn_containers s !! name) as [d|] eqn:Ed; [naive_solver|].
  rewrite find_loop_filter. set (l := map_to_list (sn_containers s)). pose proof (filter_Permutation (is_match name) _ _ (range_entries_perm 60 l)) as HP.
  assert (Hl : forall id d, (id, d) ∈ List.filter (is_match name) (range_entries 60 l) <-> matches s name id d).
  { intros id d. rewrite HP, filter_elem. unfold l. by rewrite elem_of_map_to_list. }
  assert (Hn : NoDup (List.filter (is_match name) (range_entries 60 l)).*1).
  { rewrite HP. assert (Hd : NoDup l.*1) by apply NoDup_fst_map_to_list. revert Hd. generalize l. clear. induction l as [|kv l IH]; cbn; [done|].
    intros [Hx Hd]%NoDup_cons. destruct (is_match name kv); [|by apply IH]. cbn. constructor; [|by apply IH]. intros (y & E & Hy)%list_elem_of_fmap.
    apply filter_elem in Hy as [Hy _]. apply Hx. rewrite E. by apply list_elem_of_fmap_2. }
  destruct (List.filter _ _) as [|[id d] [|[id' d'] rest]] eqn:El.
  - split; [done|]. intros [|[_ (id & Hm & _)]]; [done|]. apply Hl in Hm. by apply not_elem_of_nil in Hm.
  - split.
    + intros [= ->]. right. split; [done|]. exists id. split; [apply Hl; by left|]. intros id' c' Hm. apply Hl, list_elem_of_singleton in Hm. by injection Hm.
    + intros [|[_ (id' & Hm & _)]]; [done|]. apply Hl, list_elem_of_singleton in Hm. injection Hm as _ ->. done.
  - split; [done|]. intros [|[_ (id0 & _ & Hu)]]; [done|]. cbn in Hn. apply NoDup_cons in Hn as [Hn _]. exfalso. apply Hn.
    rewrite (Hu id d), <- (Hu id' d'); [by left|apply Hl; right; by left|apply Hl; by left].
Qed.
Lemma find_elem s name c : find s name = Some c -> exists id, sn_containers s !! id = Some c.
Proof. intros [Hc|[_ (id & [Hc _] & _)]]%find_is_unambiguous; eauto. Qed.

(** ** What a request does *)
Lemma json_string_map l : is_Some (json_marshal (VStrMap l)).
Proof.
  cbn [json_marshal]. unfold json_object. apply fmap_is_Some. induction l as [|kv l [ts IH]]; cbn [map all_some]; [by eexists|].
  unfold json_member at 1. cbn [fst snd fmap option_fmap option_map]. rewrite IH. by eexists.
Qed.
Lemma error_code code message : re_code (errorReply code message) = code.
Proof. unfold errorReply, jsonReply. by destruct (json_string_map [("message", message)]) as [t ->]. Qed.
Lemma created_text id : is_Some (json_marshal (jobj [("Id", VStr id); ("Warnings", VStrList [])])).
Proof. by eexists. Qed.

Definition created (r : request) (id name : string) (config : containerConfig) (n : Z) : container :=
  {| ct_ID := id; ct_Name := name; ct_State := "created"; ct_Created := seconds r; ct_Config := config; ct_Size := n |}.
(** The effects of a request on the state, each with its status, its action and
    its target. *)
Inductive effect (s : sensor) (r : request) : sensor -> Z -> string -> string -> Prop :=
| no_effect code action target : code = 200 \/ 400 <= code -> action ∉ ["container.create"; "container.delete"; "exec.create"] -> effect s r s code action target
| container_created id name config n :
    hex_bytes <$> rq_random r = Some id -> namePattern name = true ->
    (forall i c, sn_containers s !! i = Some c -> ct_Name c <> name) ->
    Z.of_nat (size (sn_containers s)) < maxContainers -> 0 <= n -> sn_bytes s + n <= maxStoreBytes ->
    effect s r {| sn_containers := <[id := created r id name config n]> (sn_containers s); sn_execs := sn_execs s; sn_bytes := sn_bytes s + n |} 201 "container.create" id
| container_deleted i c : sn_containers s !! i = Some c ->
    effect s r {| sn_containers := delete (ct_ID c) (sn_containers s); sn_execs := drop_execs s (ct_ID c); sn_bytes := sn_bytes s - ct_Size c |} 204 "container.delete" (ct_ID c)
| state_changed i c verb code : sn_containers s !! i = Some c -> verb ∈ ["start"; "stop"; "restart"; "kill"] -> code = 204 \/ code = 304 ->
    effect s r (set_containers s (<[ct_ID c := set_state c (if String.eqb verb "stop" || String.eqb verb "kill" then "exited" else "running")]> (sn_containers s)))
      code ("container." +:+ verb) (ct_ID c)
| exec_created id i c : hex_bytes <$> rq_random r = Some id -> sn_containers s !! i = Some c -> ct_State c = "running" ->
    Z.of_nat (size (sn_execs s)) < maxExecs ->
    effect s r {| sn_containers := sn_containers s; sn_execs := <[id := ct_ID c]> (sn_execs s); sn_bytes := sn_bytes s |} 201 "exec.create" (ct_ID c).
Definition effect_of (s : sensor) (r : request) (p : sensor * reply) : Prop := effect s r p.1 (re_code p.2) (re_action p.2) (re_target p.2).

Lemma jsonReply_code code v : re_code (jsonReply code v) = code \/ re_code (jsonReply code v) = 500.
Proof. unfold jsonReply, text_reply. destruct (json_marshal v); cbn; auto. Qed.
Lemma reply_actions code v : re_action (jsonReply code v) = "".
Proof. unfold jsonReply, text_reply. by destruct (json_marshal v). Qed.
Lemma error_effect s r code message : 400 <= code -> effect_of s r (s, errorReply code message).
Proof. intros. unfold effect_of. cbn [fst snd]. unfold errorReply. rewrite reply_actions. fold (errorReply code message). rewrite error_code. apply no_effect; [lia|set_solver]. Qed.
Lemma answer_effect s r action doc target : action ∉ ["container.create"; "container.delete"; "exec.create"] ->
  effect_of s r (s, with_target (with_action (jsonReply 200 doc) action) target).
Proof. intros. unfold effect_of. cbn. apply no_effect; [|done]. destruct (jsonReply_code 200 doc) as [->| ->]; lia. Qed.
Lemma name_taken_spec s name : name_taken s name = false -> forall i c, sn_containers s !! i = Some c -> ct_Name c <> name.
Proof.
  unfold name_taken. intros Hf i c Hc <-. apply not_true_iff_false in Hf. apply Hf. apply existsb_exists. exists (i, c). split; [|by apply String.eqb_refl].
  apply list_elem_of_In. rewrite range_entries_perm. by apply elem_of_map_to_list.
Qed.
Lemma create_effect s r config n : 0 <= n -> effect_of s r (create_container s r config n).
Proof.
  intros Hn. unfold create_container. destruct (_ || _); [apply error_effect; lia|]. destruct (_ || _) eqn:E; [apply error_effect; lia|].
  apply orb_false_iff in E as [E1 E2]. apply Z.leb_gt in E1. apply Z.ltb_ge in E2. unfold randomID. destruct (hex_bytes <$> rq_random r) as [id|] eqn:Er; [|apply error_effect; lia].
  cbv zeta. set (name := if String.eqb (query r "name") "" then _ else _). clearbody name.
  destruct (namePattern name) eqn:En; [|apply error_effect; lia]. cbn [negb]. destruct (name_taken s name) eqn:Et; [apply error_effect; lia|].
  unfold effect_of, jsonReply. destruct (created_text id) as [t ->]. cbn. apply container_created; try done. by apply name_taken_spec.
Qed.
Lemma delete_effect s r c i : sn_containers s !! i = Some c -> effect_of s r (delete_container s r c).
Proof. intros Hc. unfold delete_container. destruct (_ && _); [apply error_effect; lia|]. by apply (container_deleted s r i). Qed.
Lemma change_effect s r c i verb : sn_containers s !! i = Some c -> lifecycle_verb verb = true -> effect_of s r (change_state s c verb).
Proof.
  intros Hc Hv. assert (Hin : verb ∈ ["start"; "stop"; "restart"; "kill"]).
  { unfold lifecycle_verb in Hv. rewrite !orb_true_iff, !String.eqb_eq in Hv. set_solver. }
  unfold change_state, effect_of. cbn. eapply state_changed; [done|done|]. destruct (_ && _); auto.
Qed.
Lemma exec_effect s r c i : sn_containers s !! i = Some c -> effect_of s r (create_exec s r c).
Proof.
  intros Hc. unfold create_exec. destruct (running c) eqn:Er; [|apply error_effect; lia]. cbn [negb]. apply String.eqb_eq in Er.
  destruct (_ <=? _) eqn:E; [apply error_effect; lia|]. apply Z.leb_gt in E. unfold randomID. destruct (hex_bytes <$> rq_random r) as [id|] eqn:Ei; [|apply error_effect; lia].
  unfold effect_of, jsonReply. destruct (json_string_map [("Id", id)]) as [t ->]. cbn. by eapply exec_created.
Qed.
Lemma container_effect s r path : effect_of s r (container_request s r path).
Proof.
  unfold container_request, unavailable. cbv zeta. set (parts := split (chr 47) _). clearbody parts.
  destruct (find s (default "" (head parts))) as [c|] eqn:Ef; [|apply error_effect; lia]. destruct (find_elem _ _ _ Ef) as [i Hc].
  destruct parts as [|a [|verb [|]]]; try (apply error_effect; lia).
  - destruct (is_method r "DELETE"); [by eapply delete_effect|apply error_effect; lia].
  - destruct (String.eqb verb "json" && is_method r "GET").
    { unfold effect_of, text_reply. destruct (inspect_text c); cbn; apply no_effect; try lia; set_solver. }
    destruct (lifecycle_verb verb && is_method r "POST") eqn:Ev; [apply andb_true_iff in Ev as [Ev _]; by eapply change_effect|].
    destruct (String.eqb verb "exec" && is_method r "POST"); [by eapply exec_effect|apply error_effect; lia].
Qed.
Lemma exec_request_effect s r path : effect_of s r (exec_request s r path).
Proof.
  unfold exec_request, unavailable. destruct (split _ _) as [|id [|verb [|]]]; try (apply error_effect; lia).
  destruct (sn_execs s !! id) as [owner|]; [|apply error_effect; lia]. destruct (_ && _).
  - unfold effect_of. cbn [fst snd with_target refuse_exec re_code re_action re_target]. rewrite error_code. apply no_effect; [lia|set_solver].
  - destruct (_ && _); [apply answer_effect; set_solver|apply error_effect; lia].
Qed.
Lemma dispatch_effect s r path config n : 0 <= n -> effect_of s r (dispatch s r path config n).
Proof.
  intros Hn. unfold dispatch, unavailable. cbv zeta.
  repeat match goal with
  | |- effect_of _ _ (if _ then (s, with_action (jsonReply 200 _) _) else _) => case_test; [apply (answer_effect s r _ _ (re_target (jsonReply 200 _))); set_solver|]
  | |- effect_of _ _ (if _ then _ else _) => case_test
  end; [|by apply create_effect|apply container_effect|apply exec_request_effect|apply error_effect; lia].
  unfold effect_of. cbn. apply no_effect; [lia|set_solver].
Qed.
Lemma handle_effect s r : effect_of s r (handle s r).
Proof.
  unfold handle. case_test; [apply error_effect; lia|]. destruct (strip_version _) as [path|]; [|apply error_effect; lia].
  destruct (wants_body r path); [|by apply dispatch_effect]. destruct (read_body _) as [data|]; [|apply error_effect; lia].
  destruct (decode_config data) as [config|]; [|apply error_effect; lia]. apply dispatch_effect, slen_nonneg.
Qed.

(** ** The tables *)
Record docker_inv (s : sensor) : Prop := {
  di_keys : forall i c, sn_containers s !! i = Some c -> ct_ID c = i;
  di_names : forall i j c d, sn_containers s !! i = Some c -> sn_containers s !! j = Some d -> ct_Name c = ct_Name d -> i = j;
  di_states : forall i c, sn_containers s !! i = Some c -> ct_State c ∈ ["created"; "running"; "exited"] /\ namePattern (ct_Name c) = true /\ 0 <= ct_Size c;
  di_owners : forall e i, sn_execs s !! e = Some i -> is_Some (sn_containers s !! i);
  di_bytes : sn_bytes s = map_sum ct_Size (sn_containers s);
  di_counts : Z.of_nat (size (sn_containers s)) <= maxContainers /\ Z.of_nat (size (sn_execs s)) <= maxExecs /\ sn_bytes s <= maxStoreBytes;
}.
(** A request in which a random identifier is not that of a container. *)
Definition fresh (s : sensor) (r : request) : Prop := forall l, rq_random r = Some l -> sn_containers s !! hex_bytes l = None.
Inductive docker_step : sensor -> sensor -> Prop :=
| docker_request wrote s r : fresh s r -> docker_step s (ServeHTTP wrote s r).1.
Definition docker_reachable (now : Z) (s : sensor) : Prop := rtc docker_step (NewHandler now) s.

Lemma docker_inv_new now : docker_inv (NewHandler now).
Proof.
  split; cbn [NewHandler sn_containers sn_execs sn_bytes].
  - by intros i c [<- <-]%lookup_singleton_Some.
  - by intros i j c d [<- <-]%lookup_singleton_Some [<- <-]%lookup_singleton_Some.
  - intros i c [<- <-]%lookup_singleton_Some. cbn. split; [set_solver|]. split; [reflexivity|lia].
  - intros e i He. by rewrite lookup_empty in He.
  - reflexivity.
  - rewrite map_size_singleton, map_size_empty. unfold maxContainers, maxExecs, maxStoreBytes. lia.
Qed.
Lemma drop_execs_lookup s id e i : drop_execs s id !! e = Some i <-> sn_execs s !! e = Some i /\ i <> id.
Proof.
  unfold drop_execs. set (l := range_entries 64 (map_to_list (sn_execs s))).
  assert (Hl : forall e i, (e, i) ∈ l <-> sn_execs s !! e = Some i) by (intros e' i'; unfold l; rewrite range_entries_perm; apply elem_of_map_to_list).
  assert (Hgen : forall l (m : gmap string string), foldl (fun (m : gmap string string) (kv : string * string) => if String.eqb kv.2 id then delete kv.1 m else m) m l !! e = Some i <->
    (m !! e = Some i /\ forall i', (e, i') ∈ l -> i' <> id)).
  { clear. induction l as [|[e' i'] l IH]; intros m; cbn [foldl fst snd]; [set_solver|]. rewrite IH. destruct (String.eqb_spec i' id) as [->|Hne].
    - rewrite lookup_delete_Some. split; [intros [[Hne Hm] Hr]; split; [done|]; intros i' [[= -> _]|Hin]%elem_of_cons; [done|by apply Hr]|].
      intros [Hm Hr]. split; [split; [intros ->; apply (Hr id); [by left|done]|done]|intros i' Hin; apply Hr; by right].
    - split; [intros [Hm Hr]; split; [done|]; intros i'' [[= -> ->]|Hin]%elem_of_cons; [done|by apply Hr]|intros [Hm Hr]; split; [done|intros i'' Hin; apply Hr; by right]]. }
  rewrite Hgen. split; [intros [Hm Hr]; split; [done|]; apply Hr, Hl; done|intros [Hm Hne]; split; [done|]]. intros i' Hi. apply Hl in Hi. congruence.
Qed.
Lemma drop_execs_size s id : (size (drop_execs s id) <= size (sn_execs s))%nat.
Proof. apply map_subseteq_size. apply map_subseteq_spec. intros e i [Hm _]%drop_execs_lookup. done. Qed.
Lemma size_insert_le {A} (m : gmap string A) k a : (size (<[k:=a]> m) <= S (size m))%nat.
Proof. rewrite map_size_insert. destruct (m !! k); cbn; lia. Qed.
Lemma size_overwrite {A} (m : gmap string A) k a b : m !! k = Some b -> size (<[k:=a]> m) = size m.
Proof. intros Hk. rewrite map_size_insert, Hk. done. Qed.

Lemma create_inv s r id name config n : docker_inv s -> sn_containers s !! id = None -> namePattern name = true ->
  (forall i c, sn_containers s !! i = Some c -> ct_Name c <> name) -> Z.of_nat (size (sn_containers s)) < maxContainers -> 0 <= n -> sn_bytes s + n <= maxStoreBytes ->
  docker_inv {| sn_containers := <[id := created r id name config n]> (sn_containers s); sn_execs := sn_execs s; sn_bytes := sn_bytes s + n |}.
Proof.
  intros [Hk Hn Hs Ho Hb (Hc1 & Hc2 & Hc3)] Hid Hp Hname Hc Hn0 Hn1. split; cbn [sn_containers sn_execs sn_bytes].
  - intros i c [[<- <-]|[_ Hi]]%lookup_insert_Some; [done|by apply Hk].
  - intros i j c d [[<- <-]|[Hi Hci]]%lookup_insert_Some [[<- <-]|[Hj Hdj]]%lookup_insert_Some; cbn; [done|intros E; by destruct (Hname _ _ Hdj)|intros E; by destruct (Hname _ _ Hci)|by apply Hn].
  - intros i c [[<- <-]|[_ Hi]]%lookup_insert_Some; [cbn; split; [set_solver|done]|by eapply Hs].
  - intros e i He. rewrite lookup_insert_is_Some'. right. by eapply Ho.
  - rewrite map_sum_insert by done. cbn. lia.
  - pose proof (size_insert_le (sn_containers s) id (created r id name config n)). lia.
Qed.
Lemma delete_container_inv s i c : docker_inv s -> sn_containers s !! i = Some c ->
  docker_inv {| sn_containers := delete (ct_ID c) (sn_containers s); sn_execs := drop_execs s (ct_ID c); sn_bytes := sn_bytes s - ct_Size c |}.
Proof.
  intros [Hk Hn Hs Ho Hb (Hc1 & Hc2 & Hc3)] Hc. rewrite (Hk _ _ Hc). split; cbn [sn_containers sn_execs sn_bytes].
  - intros j d [_ Hd]%lookup_delete_Some. by apply Hk.
  - intros j k d e [_ Hd]%lookup_delete_Some [_ He]%lookup_delete_Some. by apply Hn.
  - intros j d [_ Hd]%lookup_delete_Some. by eapply Hs.
  - intros e j [He Hne]%drop_execs_lookup. destruct (Ho _ _ He) as [d Hd]. exists d. by rewrite lookup_delete_ne.
  - rewrite Hb, (map_sum_delete ct_Size _ _ _ Hc). lia.
  - pose proof (drop_execs_size s i). destruct (Hs _ _ Hc) as (_ & _ & Hsz). rewrite map_size_delete_Some by (by eexists). lia.
Qed.
Lemma state_inv s i c state : docker_inv s -> sn_containers s !! i = Some c -> state ∈ ["created"; "running"; "exited"] ->
  docker_inv (set_containers s (<[ct_ID c := set_state c state]> (sn_containers s))).
Proof.
  intros [Hk Hn Hs Ho Hb (Hc1 & Hc2 & Hc3)] Hc Hst. rewrite (Hk _ _ Hc). split; cbn [set_containers sn_containers sn_execs sn_bytes].
  - intros j d [[<- <-]|[_ Hd]]%lookup_insert_Some; [by apply (Hk _ c)|by apply Hk].
  - intros j k d e [[<- <-]|[Hj Hd]]%lookup_insert_Some [[<- <-]|[Hk' He]]%lookup_insert_Some; cbn; intros E; first [done|by eapply Hn].
  - intros j d [[<- <-]|[_ Hd]]%lookup_insert_Some; [split; [done|exact (proj2 (Hs _ _ Hc))]|by eapply Hs].
  - intros e j He. rewrite lookup_insert_is_Some'. right. by eapply Ho.
  - rewrite (map_sum_overwrite ct_Size _ _ c) by done. cbn. lia.
  - by rewrite (size_overwrite _ _ _ c).
Qed.
Lemma exec_inv s id i c : docker_inv s -> sn_containers s !! i = Some c -> Z.of_nat (size (sn_execs s)) < maxExecs ->
  docker_inv {| sn_containers := sn_containers s; sn_execs := <[id := ct_ID c]> (sn_execs s); sn_bytes := sn_bytes s |}.
Proof.
  intros [Hk Hn Hs Ho Hb (Hc1 & Hc2 & Hc3)] Hc He. rewrite (Hk _ _ Hc). split; cbn [sn_containers sn_execs sn_bytes]; try done.
  - intros e j [[<- <-]|[_ Hj]]%lookup_insert_Some; [by eexists|by eapply Ho].
  - pose proof (size_insert_le (sn_execs s) id i). lia.
Qed.
Lemma handle_inv s r : docker_inv s -> fresh s r -> docker_inv (handle s r).1.
Proof.
  intros Hi Hf. pose proof (handle_effect s r) as He. unfold effect_of in He. destruct He as [| ? ? ? ? Hr| | |]; [done|apply create_inv; try done|by eapply delete_container_inv| |by eapply exec_inv].
  - destruct (rq_random r) as [l|] eqn:E; [|done]. injection Hr as <-. by apply Hf.
  - eapply state_inv; [done|done|]. destruct (_ || _); set_solver.
Qed.
Lemma serve_state wrote s r : (ServeHTTP wrote s r).1 = (handle s r).1.
Proof. unfold ServeHTTP. by destruct (handle s r). Qed.
Lemma reachable_docker_inv now s : docker_reachable now s -> docker_inv s.
Proof.
  unfold docker_reachable. intros Hr. pose proof (docker_inv_new now) as Hi. revert Hi. induction Hr as [s|s s' s'' [wrote s0 r Hf] _ IH]; [done|].
  intros Hi. apply IH. rewrite serve_state. by apply handle_inv.
Qed.

(** C35. Whatever is asked of it, the simulated daemon keeps its tables: at most
    128 containers and 128 exec instances, each container under its own
    identifier and under a valid name no other has, each instance of a
    container that exists, and a byte count that is the sum of the bodies kept,
    at most 8 MiB. *)
Theorem docker_tables_agree : forall now s, docker_reachable now s ->
  Z.of_nat (size (sn_containers s)) <= 128 /\ Z.of_nat (size (sn_execs s)) <= 128 /\
  sn_bytes s = map_sum ct_Size (sn_containers s) /\ 0 <= sn_bytes s <= maxStoreBytes /\
  (forall i c, sn_containers s !! i = Some c -> ct_ID c = i /\ namePattern (ct_Name c) = true /\ ct_State c ∈ ["created"; "running"; "exited"]) /\
  (forall i j c d, sn_containers s !! i = Some c -> sn_containers s !! j = Some d -> ct_Name c = ct_Name d -> i = j) /\
  (forall e i, sn_execs s !! e = Some i -> is_Some (sn_containers s !! i)).
Proof.
  intros now s [Hk Hn Hs Ho Hb (Hc1 & Hc2 & Hc3)]%reachable_docker_inv. split_and?; try done.
  - rewrite Hb. assert (Hpos : forall m : gmap string container, (forall i c, m !! i = Some c -> 0 <= ct_Size c) -> 0 <= map_sum ct_Size m).
    { induction m as [|i c m Hi IH] using map_ind; intros Hm; [done|]. rewrite map_sum_insert by done. pose proof (Hm i c (lookup_insert_eq _ _ _)).
      enough (0 <= map_sum ct_Size m) by lia. apply IH. intros j d Hj. apply (Hm j). rewrite lookup_insert_ne; [done|congruence]. }
    apply Hpos. intros i c Hc. by eapply Hs.
  - intros i c Hc. destruct (Hs _ _ Hc) as (H1 & H2 & _). split; [by apply Hk|done].
Qed.

(** ** One request *)
Definition after_verb (verb : string) : string := if String.eqb verb "stop" || String.eqb verb "kill" then "exited" else "running".
Lemma serve_event wrote s r : let p := handle s r in let rsp := (ServeHTTP wrote s r).2 in
  rp_code rsp = re_code p.2 /\ ev_Action (rp_event rsp) = re_action p.2 /\ ev_Target (rp_event rsp) = re_target p.2 /\ ev_StatusCode (rp_event rsp) = re_code p.2.
Proof. unfold ServeHTTP. by destruct (handle s r). Qed.
Lemma lookup_changed {A} (m : gmap string A) k v i : <[k:=v]> m !! i <> m !! i -> i = k /\ <[k:=v]> m !! i = Some v.
Proof. destruct (decide (i = k)) as [->|Hne]; [by rewrite lookup_insert_eq|by rewrite lookup_insert_ne]. Qed.

(** ** A created container is there *)
Definition no_slash (s : string) : bool := all_bytes (fun x => negb (Ascii.eqb x (chr 47))) s.
Lemma hex_byte_no_slash z : is_byte z -> no_slash (hex_byte z) = true.
Proof.
  unfold is_byte. enough (G : forall z, 0 <= z < Z.of_nat 256 -> no_slash (hex_byte z) = true) by (intros Hz; apply G; lia).
  by_evaluation 256%nat.
Qed.
Lemma hex_no_slash l : Forall is_byte l -> no_slash (hex_bytes l) = true.
Proof.
  unfold hex_bytes. induction 1 as [|z l Hz _ IH]; [done|]. cbn [map str_concat]. unfold no_slash. rewrite all_bytes_app.
  apply andb_true_iff. split; [by apply hex_byte_no_slash|exact IH].
Qed.
Definition inspect_path (id : string) : string := "/containers/" +:+ id +:+ "/json".
Lemma inspect_parts id : no_slash id = true -> split (chr 47) (trim_prefix (inspect_path id) "/") = ["containers"; id; "json"].
Proof. intros Hid. change (trim_prefix (inspect_path id) "/") with (join ["containers"; id; "json"] (str1 (chr 47))). apply split_join; [done|]. repeat constructor. done. Qed.
Lemma inspect_rest id : no_slash id = true -> split (chr 47) (trim_prefix (inspect_path id) "/containers/") = [id; "json"].
Proof.
  intros Hid. replace (trim_prefix (inspect_path id) "/containers/") with (join [id; "json"] (str1 (chr 47))); [apply split_join; [done|by repeat constructor]|].
  unfold inspect_path. by rewrite trim_prefix_app.
Qed.
Lemma inspect_answer s r id c : no_slash id = true -> sn_containers s !! id = Some c -> is_method r "GET" = true -> rq_path r = inspect_path id ->
  slen (rq_path r) <= 4096 -> slen (rq_query r) <= 8192 ->
  handle s r = (s, with_target (with_action (text_reply 200 (inspect_text c)) "container.inspect") (ct_ID c)).
Proof.
  intros Hid Hc Hm Hp Hl Hq. unfold handle. rewrite (proj2 (Z.ltb_ge _ _) Hl), (proj2 (Z.ltb_ge _ _) Hq). cbn [orb]. rewrite Hp.
  unfold strip_version. rewrite inspect_parts by done. change (has_prefix "containers" "v1.") with false. cbn iota.
  assert (Hpost : is_method r "POST" = false) by (unfold is_method in *; apply String.eqb_eq in Hm; by rewrite Hm).
  unfold wants_body. rewrite Hpost. cbn [andb]. unfold dispatch. cbv zeta. rewrite Hm, Hpost.
  assert (Hne : forall p, split (chr 47) (trim_prefix p "/") <> ["containers"; id; "json"] -> String.eqb (inspect_path id) p = false).
  { intros p Hs. apply String.eqb_neq. intros <-. by rewrite inspect_parts in Hs. }
  rewrite !Hne by (vm_compute; discriminate). cbn [andb]. change (has_prefix (inspect_path id) "/images/") with false.
  assert (Hpre : has_prefix (inspect_path id) "/containers/" = true) by apply has_prefix_app. rewrite Hpre. cbn [andb]. cbv iota. unfold container_request. rewrite inspect_rest by done. cbv zeta.
  change (default "" (head [id; "json"])) with id.
  assert (Hf : find s id = Some c) by (apply find_is_unambiguous; by left). rewrite Hf. cbn iota.
  change (String.eqb "json" "json") with true. by rewrite Hm.
Qed.
End docker.

(** ** An example *)
Definition docker_request_of (method path query data : string) (random : list Z) : request :=
  {| rq_method := method; rq_path := path; rq_query := query; rq_remoteAddr := "192.0.2.7:40000"; rq_body := body_all data; rq_random := Some random; rq_now := 1790254262000000000 |}.
Definition create_request : request :=
  docker_request_of "POST" "/v1.45/containers/create" "name=miner" (q "{'Image':'xmrig','HostConfig':{'Privileged':true,'Binds':['/:/host']}}") (repeat 171 32).
Lemma create_request_fresh now : fresh (NewHandler now) create_request.
Proof. intros l [= <-]. reflexivity. Qed.
Lemma docker_tables_agree_witness : exists s, @docker_reachable key_order 1790254000 s /\ Z.of_nat (size (sn_containers s)) = 2 /\ 
  Z.of_nat (size (sn_containers s)) <= 128.
Proof.
  set (s := (@ServeHTTP key_order (fun d => slen d) (NewHandler 1790254000) create_request).1). exists s.
  assert (Hr : @docker_reachable key_order 1790254000 s) by (apply rtc_once, docker_request, create_request_fresh).
  split; [exact Hr|]. split; [vm_compute; reflexivity|]. exact (proj1 (@docker_tables_agree key_order 1790254000 s Hr)).
Defined.
(** A container whose name is the beginning of another's identifier hides it
    from a lookup by that beginning. *)
Example name_hides_identifier :
  let s := (@ServeHTTP key_order (fun d => slen d) (NewHandler 0) (docker_request_of "POST" "/containers/create" "name=aaaaaaaaaaaa" (q "{'Image':'x'}") (repeat 1 32))).1 in
  @find key_order (NewHandler 0) "aaaaaaaaaaaa" <> None /\ @find key_order s "aaaaaaaaaaaa" = None.
Proof. vm_compute. split; [discriminate|reflexivity]. Qed.
