(* ===== verification/Kubelet.v ===== *)
(** * The kubelet sensor

    kubelet.go: the read-only surface of a node.  Its documents are functions
    of the configuration and the time it started; requests to stream are
    refused.  The router is Echo's. *)
From S2P Require Import Prelude GoStrings GoCodec ConfigModel Value Json Echo.

#[local] Set Warnings "-clear-no-such-hyp,-notation-for-abbreviation".
#[local] Open Scope string_scope.
#[local] Open Scope list_scope.
#[local] Open Scope Z_scope.

(** [startedAt] in seconds. *)
Record nodeView := { nv_cfg : Config; nv_startedAt : Z }.
Definition jobj (l : list (string * val)) : object := of_pairs l.
Definition jlit (l : list (string * val)) : val := VMap (jobj l).
Definition started (n : nodeView) : string := rfc3339 (nv_startedAt n).
Definition nodeName (n : nodeView) : string := kl_NodeName (c_Kubelet (nv_cfg n)).

(** ** The workload *)
Definition uidFor (seed : string) : string :=
  let hexed := hex_bytes (take 16 (sha256 seed)) in
  let part a b := str_take (b - a) (str_drop a hexed) in
  part 0%nat 8%nat +:+ "-" +:+ part 8%nat 12%nat +:+ "-" +:+ part 12%nat 16%nat +:+ "-" +:+ part 16%nat 20%nat +:+ "-" +:+ part 20%nat 32%nat.
Definition podIP (n : nodeView) (offset : Z) : string :=
  let base := trim_space (k_IPBase (c_K8S (nv_cfg n))) in
  let base := if String.eqb base "" then "10.42.0.0" else base in
  match split (chr 46) base with
  | [a; b; _; _] => a +:+ "." +:+ b +:+ ".2." +:+ itoa offset
  | _ => "10.42.0.9"
  end.
Definition pod (n : nodeView) (name namespace image node : string) (ipOffset : Z) : object :=
  let ip := podIP n ipOffset in
  jobj [("kind", VStr "Pod"); ("apiVersion", VStr "v1");
        ("metadata", jlit [("name", VStr name); ("namespace", VStr namespace); ("uid", VStr (uidFor ("kubelet/" +:+ namespace +:+ "/" +:+ name)));
                           ("creationTimestamp", VStr (started n))]);
        ("spec", jlit [("nodeName", VStr node); ("containers", VList [jlit [("name", VStr name); ("image", VStr image)]])]);
        ("status", jlit [("phase", VStr "Running"); ("podIP", VStr ip); ("podIPs", VList [jlit [("ip", VStr ip)]]); ("hostIP", VStr (podIP n 10));
                         ("containerStatuses", VList [jlit [("name", VStr name); ("ready", VBool true);
                            ("state", jlit [("running", jlit [("startedAt", VStr (started n))])])]])])].
(** Name, namespace, image and the last octet of the address. *)
Definition workload : list (string * string * string * Z) :=
  [("kube-proxy-2k9jv", "kube-system", "registry.k8s.io/kube-proxy:v1.37.0", 30);
   ("metrics-server-7db5f8d5b9-5c2tx", "kube-system", "registry.k8s.io/metrics-server/metrics-server:v0.9.0", 31);
   ("web-7f5cb9d59c-hk6qn", "default", "nginx:1.30.5", 40);
   ("redis-0", "default", "redis:7.4", 41)].
Definition nodePods (n : nodeView) : list object :=
  map (fun '(name, namespace, image, offset) => pod n name namespace image (nodeName n) offset) workload.
Definition metadata (p : object) : object := objectMap (idx p "metadata").
Definition is_str (v : val) (s : string) : bool := match v with VStr t => String.eqb t s | _ => false end.
Definition podExists (n : nodeView) (namespace name : string) : bool :=
  existsb (fun p => is_str (idx (metadata p) "namespace") namespace && is_str (idx (metadata p) "name") name) (nodePods n).

(** ** The endpoints *)
(** The verb [%.2f]: hundredths, the nearest and to even of two. *)
Definition hundredths (f : spec_float) : Z :=
  match f with
  | S754_finite s m e =>
      let num := Z.pos m * 100 in
      let a := if 0 <=? e then num * 2 ^ e
               else let d := 2 ^ (- e) in let k := num / d in let r := 2 * (num mod d) in
                    if (d <? r) || ((r =? d) && Z.odd k) then k + 1 else k in
      if s then - a else a
  | _ => 0
  end.
Definition format_2f (f : spec_float) : string :=
  let h := hundredths f in
  (if h <? 0 then "-" else "") +:+ to_base 10 (Z.abs h / 100) +:+ "." +:+ zero_pad 2 (Z.abs h mod 100).
Definition cpu_seconds (i : Z) : spec_float := SFadd 53 1024 (float_of_int (40 + i * 17)) (float_of_decimal false 37 (-2)).

Section kubelet.
Context `{UnicodeTables} `{EchoRouter}.

Definition healthz (verbose : string) : web_reply :=
  if negb (String.eqb verbose "") then web_String 200 (join ["[+]ping ok"; "[+]log ok"; "[+]syncloop ok"; "healthz check passed"; ""] newline)
  else web_String 200 "ok".
Definition pods (n : nodeView) : web_reply :=
  web_JSON 200 (jlit [("kind", VStr "PodList"); ("apiVersion", VStr "v1"); ("metadata", jlit []); ("items", VMapList (nodePods n))]).
Definition metrics (n : nodeView) : web_reply :=
  let count := itoa (Z.of_nat (length (nodePods n))) in
  web_String 200 (join
    ["# HELP kubelet_running_pods Number of pods currently running"; "# TYPE kubelet_running_pods gauge"; "kubelet_running_pods " +:+ count;
     "# HELP kubelet_running_containers Number of containers currently running"; "# TYPE kubelet_running_containers gauge"; "kubelet_running_containers " +:+ count;
     "# HELP kubelet_node_name The node's name"; "# TYPE kubelet_node_name gauge"; "kubelet_node_name{node_name=" +:+ go_quote (nodeName n) +:+ "} 1"; ""] newline).
Definition quoted (v : val) : string := match v with VStr s => go_quote s | _ => "%!q(<nil>)" end.
Definition cadvisor_line (i : nat) (p : object) : string :=
  "container_cpu_usage_seconds_total{namespace=" +:+ quoted (idx (metadata p) "namespace") +:+ ",pod=" +:+ quoted (idx (metadata p) "name")
  +:+ ",container=" +:+ go_quote "main" +:+ "} " +:+ format_2f (cpu_seconds (Z.of_nat i)) +:+ newline.
Definition cadvisorMetrics (n : nodeView) : web_reply :=
  web_String 200 ("# HELP container_cpu_usage_seconds_total Cumulative cpu time consumed" +:+ newline
    +:+ "# TYPE container_cpu_usage_seconds_total counter" +:+ newline +:+ str_concat (imap cadvisor_line (nodePods n))).
Definition node_stats (n : nodeView) : val :=
  jlit [("nodeName", VStr (nodeName n)); ("systemContainers", VList []); ("startTime", VStr (started n));
        ("cpu", jlit [("usageNanoCores", VInt 184000000); ("usageCoreNanoSeconds", VInt 12840000000000)]);
        ("memory", jlit [("workingSetBytes", VInt 1834000000); ("availableBytes", VInt 14400000000)]);
        ("fs", jlit [("capacityBytes", VInt 250000000000); ("usedBytes", VInt 38400000000); ("availableBytes", VInt 211600000000)]);
        ("runtime", jlit [("imageFs", jlit [("capacityBytes", VInt 250000000000); ("usedBytes", VInt 12300000000)])])].
Definition pod_stats (n : nodeView) (i : nat) (p : object) : val :=
  let m := metadata p in
  jlit [("podRef", jlit [("name", idx m "name"); ("namespace", idx m "namespace"); ("uid", idx m "uid")]); ("startTime", VStr (started n));
        ("cpu", jlit [("usageNanoCores", VInt (12000000 + Z.of_nat i * 3700000))]); ("memory", jlit [("workingSetBytes", VInt (84000000 + Z.of_nat i * 19000000))])].
Definition stats_doc (n : nodeView) : val := jlit [("node", node_stats n); ("pods", VList (imap (pod_stats n) (nodePods n)))].
Definition statsSummary (n : nodeView) : web_reply := web_JSON 200 (stats_doc n).
Definition configz : web_reply :=
  web_JSON 200 (jlit [("kubeletconfig", jlit
    [("kind", VStr "KubeletConfiguration"); ("apiVersion", VStr "kubelet.config.k8s.io/v1beta1"); ("address", VStr "0.0.0.0"); ("port", VInt 10250);
     ("readOnlyPort", VInt 0); ("authentication", jlit [("anonymous", jlit [("enabled", VBool true)]); ("webhook", jlit [("enabled", VBool false)])]);
     ("authorization", jlit [("mode", VStr "AlwaysAllow")]); ("clusterDomain", VStr "cluster.local"); ("clusterDNS", VStrList ["10.43.0.10"]);
     ("cgroupDriver", VStr "systemd"); ("containerRuntimeEndpoint", VStr "unix:///run/containerd/containerd.sock")])]).
Definition logIndex : web_reply :=
  web_HTML 200 (join ["<html>"; "<head><title>/var/log/</title></head>"; "<body>"; "<h1>/var/log/</h1><pre>"] newline
    +:+ str_concat (map (fun entry => "<a href=" +:+ go_quote entry +:+ ">" +:+ entry +:+ "</a>" +:+ newline)
                        ["containers/"; "pods/"; "kubelet.log"; "syslog"; "auth.log"; "kern.log"])
    +:+ join ["</pre>"; "</body>"; "</html>"; ""] newline).
Definition log_lines (n : nodeView) : string :=
  join [started n +:+ " I0923 12:04:01.033102       1 main.go:42] service started"; started n +:+ " I0923 12:04:01.211588       1 server.go:119] listening on :8080";
        started n +:+ " I0923 12:04:11.904211       1 server.go:201] handled request status=200"; ""] newline.
Definition containerLogs (n : nodeView) (param : string) : web_reply :=
  match split (chr 47) (trim_prefix param "/") with
  | [namespace; pod; _] =>
      if negb (podExists n namespace pod)
      then web_String 404 ("pod " +:+ go_quote pod +:+ " does not exist in namespace " +:+ go_quote namespace +:+ newline)
      else web_String 200 (log_lines n)
  | _ => web_NoContent 404
  end.
Definition streamingRefused : web_reply := web_String 400 (join ["Bad Request"; ""; "unable to upgrade streaming request"; ""] newline).

(** ** The router *)
Inductive endpoint := to_healthz | to_pods | to_metrics | to_cadvisor | to_stats | to_configz | to_logs | to_containerLogs | to_streaming | to_nothing.
Definition newRouter : list (route * endpoint) :=
  map (fun '(p, h) => ((Some "GET", p), h))
    [("/healthz", to_healthz); ("/pods", to_pods); ("/runningpods", to_pods); ("/metrics", to_metrics); ("/metrics/cadvisor", to_cadvisor);
     ("/stats/summary", to_stats); ("/configz", to_configz); ("/logs/", to_logs); ("/containerLogs/*", to_containerLogs)]
  ++ map (fun p => ((None, p), to_streaming)) ["/exec/*"; "/attach/*"; "/portforward/*"; "/run/*"; "/cri/*"]
  ++ [((None, "/*"), to_nothing)].
Definition run_endpoint (n : nodeView) (verbose param : string) (e : endpoint) : web_reply :=
  match e with
  | to_healthz => healthz verbose
  | to_pods => pods n
  | to_metrics => metrics n
  | to_cadvisor => cadvisorMetrics n
  | to_stats => statsSummary n
  | to_configz => configz
  | to_logs => logIndex
  | to_containerLogs => containerLogs n param
  | to_streaming => streamingRefused
  | to_nothing => web_NoContent 404
  end.
(** A request: its method, its path and the [verbose] parameter of its query.
    Where no route is found the error handler answers 404. *)
Definition serve (n : nodeView) (method path verbose : string) : web_reply :=
  match echo_find (map fst newRouter) method path with
  | Some (i, param) => from_option (run_endpoint n verbose param) (web_NoContent 404) (snd <$> newRouter !! i)
  | None => web_NoContent (default 404 (error_status false 404))
  end.
End kubelet.
