(* ===== verification/KubeletProps.v ===== *)
(** * The kubelet sensor: properties

    Streaming is refused whatever the router picks, logs exist exactly for the
    pods of the node, and the node's workload is the one the API server is
    seeded with, though not at the same addresses. *)
From S2P Require Import Prelude GoStrings GoCodec ConfigModel Value Json Selector Catalog Store World Controllers Seed Config Echo Kubelet.

#[local] Set Warnings "-clear-no-such-hyp,-notation-for-abbreviation".
#[local] Open Scope string_scope.
#[local] Open Scope list_scope.
#[local] Open Scope Z_scope.

Definition streaming_prefixes : list string := ["/exec/"; "/attach/"; "/portforward/"; "/run/"; "/cri/"].

Section kubelet.
Context `{UnicodeTables} `{EchoRouter}.

Lemma wild_match p method rest : is_wild (p +:+ "*") = true -> literal (p +:+ "*") = p -> route_match (None, p +:+ "*") method (p +:+ rest) = Some rest.
Proof. intros Hw Hl. unfold route_match. cbn [fst snd from_option]. rewrite Hw, Hl, has_prefix_app. by rewrite trim_prefix_app. Qed.
Lemma streaming_route p method rest : p ∈ streaming_prefixes -> exists j, (fst <$> newRouter) !! j = Some (None, p +:+ "*") /\ newRouter !! j = Some ((None, p +:+ "*"), to_streaming) /\
  route_match (None, p +:+ "*") method (p +:+ rest) = Some rest /\ 5 <= slen (literal (p +:+ "*")).
Proof.
  intros Hp. assert (Hj : exists j, newRouter !! j = Some ((None, p +:+ "*"), to_streaming)).
  { unfold streaming_prefixes in Hp. rewrite !elem_of_cons, elem_of_nil in Hp.
    destruct Hp as [->|[->|[->|[->|[->|[]]]]]]; [by exists 9%nat|by exists 10%nat|by exists 11%nat|by exists 12%nat|by exists 13%nat]. }
  destruct Hj as [j Hj]. exists j. split; [rewrite list_lookup_fmap; exact (f_equal (fmap fst) Hj)|]. split; [done|].
  unfold streaming_prefixes in Hp. rewrite !elem_of_cons, elem_of_nil in Hp.
  destruct Hp as [->|[->|[->|[->|[->|[]]]]]]; (split; [by apply wild_match|by vm_compute]).
Qed.
(** No other route with as long a literal part takes such a path. *)
Lemma other_routes p method rest i r e w : p ∈ streaming_prefixes -> newRouter !! i = Some (r, e) -> route_match r method (p +:+ rest) = Some w -> 5 <= slen (literal r.2) ->
  e = to_streaming.
Proof.
  intros Hp Hi Hw Hl. unfold streaming_prefixes in Hp. rewrite !elem_of_cons, elem_of_nil in Hp. apply list_elem_of_lookup_2 in Hi.
  unfold newRouter in Hi. cbn [map app] in Hi. rewrite !elem_of_cons, elem_of_nil in Hi.
  repeat (destruct Hi as [Hi|Hi]; [injection Hi as -> ->; first [done|exfalso]|]); [..|done].
  all: unfold route_match in Hw; cbn [fst snd from_option] in Hw.
  all: lazymatch type of Hw with context [String.eqb ?m "GET"] => destruct (String.eqb m "GET"); [|done] | _ => revert Hl; vm_compute; intros Hl; by apply Hl end.
  all: destruct Hp as [->|[->|[->|[->|[->|[]]]]]]; discriminate Hw.
Qed.
(** Requests to stream are refused: whatever the method, the path below and
    the router's choice among the routes it may choose, [exec], [attach],
    [portforward], [run] and [cri] are answered 400 with the same text. *)
Theorem streaming_is_refused : forall n method p rest verbose, p ∈ streaming_prefixes ->
  serve n method (p +:+ rest) verbose = streamingRefused.
Proof.
  intros n method p rest verbose Hp. destruct (streaming_route p method rest Hp) as (j & Hj & Hjr & Hm & Hl). unfold serve.
  destruct (echo_find (map fst newRouter) method (p +:+ rest)) as [[i w]|] eqn:E.
  - destruct (echo_sound _ _ _ _ _ E) as (r & Hr & Hw & Hbest). specialize (Hbest _ _ _ Hj Hm). cbn [snd] in Hbest.
    change (map fst newRouter) with (fst <$> newRouter) in Hr. rewrite list_lookup_fmap in Hr. destruct (newRouter !! i) as [[r' e]|] eqn:Ei; [|done]. injection Hr as ->.
    cbn [fmap option_fmap option_map snd from_option]. by rewrite (other_routes p method rest i r e w Hp Ei Hw ltac:(lia)).
  - by destruct (echo_complete _ _ _ _ _ _ Hj Hm E).
Qed.

(** ** Logs *)
Definition has_slash (s : string) : bool := negb (all_bytes (fun x => negb (Ascii.eqb x (chr 47))) s).
Lemma podExists_workload n namespace name : podExists n namespace name = existsb (fun '(m, ns, _, _) => String.eqb ns namespace && String.eqb m name) workload.
Proof. reflexivity. Qed.
Lemma workload_exists n namespace name : podExists n namespace name = true <-> exists image offset, (name, namespace, image, offset) ∈ workload.
Proof.
  rewrite podExists_workload, existsb_exists. split.
  - intros ([[[m ns] image] offset] & Hin%list_elem_of_In & Hb). apply andb_true_iff in Hb as [->%String.eqb_eq ->%String.eqb_eq]. by exists image, offset.
  - intros (image & offset & Hin). exists (name, namespace, image, offset). split; [by apply list_elem_of_In|]. by rewrite !String.eqb_refl.
Qed.
Lemma workload_no_slash : Forall (fun '(name, namespace, _, _) => has_slash name = false /\ has_slash namespace = false) workload.
Proof. repeat constructor. Qed.
(** Logs exist exactly for the pods of the node: the path names one of
    them, by namespace and name, and any container. *)
Theorem logs_exist_for_the_pods : forall n param, wr_code (containerLogs n param) = 200 <->
  exists name namespace image offset container, (name, namespace, image, offset) ∈ workload /\ has_slash container = false /\
    trim_prefix param "/" = join [namespace; name; container] "/".
Proof.
  intros n param. unfold containerLogs. set (t := trim_prefix param "/"). clearbody t. split.
  - intros Hc. assert (Hf := split_free (chr 47) t). assert (Hj := join_split (chr 47) t).
    destruct (split (chr 47) t) as [|namespace [|name [|container [|]]]]; try discriminate Hc. destruct (podExists n namespace name) eqn:E; [|discriminate Hc].
    apply workload_exists in E as (image & offset & Hin). exists name, namespace, image, offset, container. split; [done|]. split; [|by rewrite <- Hj].
    apply Forall_cons in Hf as [_ [_ [Hk _]%Forall_cons]%Forall_cons]. unfold has_slash. by rewrite Hk.
  - intros (name & namespace & image & offset & container & Hin & Hk & ->). pose proof workload_no_slash as Hw. rewrite Forall_forall in Hw.
    destruct (Hw _ Hin) as [H1 H2]. unfold has_slash in *. rewrite negb_false_iff in *. change "/" with (str1 (chr 47)).
    rewrite split_join; [|done|by repeat constructor]. assert (He : podExists n namespace name = true) by (apply workload_exists; by exists image, offset). by rewrite He.
Qed.
End kubelet.

(** ** The node and the API server *)
Definition pod_image (o : object) : string := stringField (objectMap (default VNil (head (objectList (idx (objectMap (idx o "spec")) "containers"))))) "image".
Definition pod_ip (o : object) : string := stringField (objectMap (idx o "status")) "podIP".
(** Where the configured base is a dotted quad with third octet 0, both sides
    derive addresses from the same two octets. *)
Definition plain_base (base : string) : Prop :=
  trim_space base = base /\ exists a b d, 0 <= a <= 255 /\ 0 <= b <= 255 /\ 0 <= d <= 255 /\ split (chr 46) base = [itoa a; itoa b; "0"; itoa d].
Lemma atoi_octet a : 0 <= a <= 255 -> atoi (itoa a) = Some a.
Proof. intros Ha. apply atoi_itoa. unfold min_int64, max_int64. lia. Qed.
Lemma kubelet_address n base offset : k_IPBase (c_K8S (nv_cfg n)) = base -> plain_base base -> podIP n offset = podAddress base 2 offset.
Proof.
  intros Hb [Ht (a & b & d & Ha & Hb' & Hd & Hs)]. unfold podIP, podAddress, addressParts. rewrite Hb, Ht, Hs.
  destruct (String.eqb_spec base "") as [->|_]; [discriminate Hs|]. rewrite Hs, !atoi_octet by done. change (atoi "0") with (Some 0).
  assert (Ho : forall x, 0 <= x <= 255 -> (x <? 0) || (255 <? x) = false) by (intros x Hx; apply orb_false_iff; rewrite !Z.ltb_ge; lia).
  rewrite !Ho by lia. reflexivity.
Qed.
(** The pods the kubelet shows are those the API server is seeded with
    when both namespaces are generated: the same names, namespaces and images.
    Their addresses are not, though both are derived from the configured base:
    the API server gives each pod the address after the one the kubelet shows. *)
Theorem kubelet_pods_are_seeded : forall `{Env} n w w' sys rnd, let base := k_IPBase (c_K8S (nv_cfg n)) in plain_base base ->
  (kube_system_requests base w).2 = Some sys -> (random_requests base w').2 = Some rnd ->
  Forall (fun '(name, namespace, image, offset) =>
    (exists p, p ∈ nodePods n /\ idx (metadata p) "name" = VStr name /\ idx (metadata p) "namespace" = VStr namespace /\ pod_image p = image /\
       pod_ip p = podAddress base 2 offset) /\
    (exists req, req ∈ sys ++ rnd /\ sr_resource req = "pods" /\ sr_namespace req = namespace /\ sr_name req = name /\ pod_image (sr_object req) = image /\
       pod_ip (sr_object req) = podAddress base 2 (offset + 1))) workload.
Proof.
  intros E n w w' sys rnd base Hb Hs Hr.
  assert (Ha : Forall (fun '(name, namespace, image, offset) => exists req, req ∈ sys ++ rnd /\ sr_resource req = "pods" /\ sr_namespace req = namespace /\ sr_name req = name /\
    pod_image (sr_object req) = image /\ pod_ip (sr_object req) = podAddress base 2 (offset + 1)) workload).
  { unfold workload. rewrite !Forall_cons. split_and!; [..|done]; eexists.
    1: split; [apply elem_of_app; left; injection Hs as <-; right; by left|]. 2: split; [apply elem_of_app; left; injection Hs as <-; do 2 right; by left|].
    3: split; [apply elem_of_app; right; injection Hr as <-; right; by left|]. 4: split; [apply elem_of_app; right; injection Hr as <-; do 2 right; by left|].
    all: by split_and!. }
  rewrite Forall_forall in Ha. apply Forall_forall. intros [[[name namespace] image] offset] Hin. split; [|exact (Ha _ Hin)].
  exists (pod n name namespace image (nodeName n) offset). split_and!; try done.
  - unfold nodePods. apply list_elem_of_fmap. by exists (name, namespace, image, offset).
  - by apply kubelet_address.
Qed.
Definition plain_node : nodeView := {| nv_cfg := Defaults; nv_startedAt := 1790254262 |}.
Lemma kubelet_pods_are_seeded_witness : exists sys rnd, (@kube_system_requests test_env "10.42.0.0" (fresh_world 0)).2 = Some sys /\
  (@random_requests test_env "10.42.0.0" (fresh_world 0)).2 = Some rnd /\
  (exists p, p ∈ nodePods plain_node /\ pod_ip p = "10.42.2.41") /\ (exists req, req ∈ sys ++ rnd /\ sr_name req = "redis-0" /\ pod_ip (sr_object req) = "10.42.2.42").
Proof.
  eexists _, _. split; [reflexivity|]. split; [reflexivity|].
  assert (Hb : plain_base (k_IPBase (c_K8S (nv_cfg plain_node)))).
  { split; [vm_compute; reflexivity|]. exists 10, 42, 0. split; [lia|]. split; [lia|]. split; [lia|]. vm_compute. reflexivity. }
  pose proof (@kubelet_pods_are_seeded test_env plain_node (fresh_world 0) (fresh_world 0) _ _ Hb eq_refl eq_refl) as HF.
  do 3 apply Forall_cons_1, proj2 in HF. apply Forall_cons_1, proj1 in HF as [(p & Hp & _ & _ & _ & E1) (req & Hr & _ & _ & E2 & _ & E3)].
  split; [exists p; split; [exact Hp|rewrite E1; vm_compute; reflexivity]|exists req; split; [exact Hr|split; [exact E2|rewrite E3; vm_compute; reflexivity]]].
Defined.
Lemma logs_example : wr_code (@containerLogs ascii_tables plain_node "default/redis-0/redis") = 200 /\ wr_code (@containerLogs ascii_tables plain_node "default/coredns/x") = 404.
Proof. vm_compute. split; reflexivity. Qed.
Lemma streaming_is_refused_witness :
  "/exec/" ∈ streaming_prefixes /\ @serve ascii_tables longest_router {| nv_cfg := Defaults; nv_startedAt := 0 |} "GET" "/exec/default/redis-0/redis" "" = streamingRefused.
Proof.
  assert (Hp : "/exec/" ∈ streaming_prefixes) by (unfold streaming_prefixes; set_solver). split; [exact Hp|].
  exact (@streaming_is_refused ascii_tables longest_router {| nv_cfg := Defaults; nv_startedAt := 0 |} "GET" "/exec/" "default/redis-0/redis" "" Hp).
Defined.
