(* ===== verification/Sensors.v ===== *)
(** * The TCP, UDP and HTTP sensors, and the dispatcher

    tcp.go: goroutines that interleave, as steps of a machine; udp.go: a loop
    over what the socket gives; http.go: one answer to everything; defense.go;
    server.go: which sensor a configuration starts. *)
From S2P Require Import Prelude GoStrings GoCodec Names ConfigModel Config ConfigProps Echo.

#[local] Set Warnings "-clear-no-such-hyp,-notation-for-abbreviation".
#[local] Open Scope string_scope.
#[local] Open Scope list_scope.
#[local] Open Scope Z_scope.

Definition sensor_event (sensor remote : string) (received : Z) : Event :=
  {| ev_Timestamp := ""; ev_EventID := ""; ev_Sensor := sensor; ev_SessionID := ""; ev_Action := ""; ev_Outcome := ""; ev_Profile := ""; ev_Target := "";
     ev_RemoteAddr := remote; ev_ClientAddr := ""; ev_Method := ""; ev_Path := ""; ev_StatusCode := 0; ev_BytesReceived := received; ev_BytesSent := 0;
     ev_UserAgent := ""; ev_Detail := "" |}.

(** ** TCP *)
Definition maxTCPInput : Z := 64 * 1024.
Definition maxTCPConnections : Z := 128.
(** Where the accept loop is: at the [select], in [Accept], out of the loop
    with a result, or returned. *)
Inductive tcp_phase := at_select | in_accept | leaving (failed : bool) | returned (failed : bool).
(** A handler has yet to read, has written its event, or has given its slot
    back. *)
Inductive tcp_stage := reading | logged (n : Z) | finished (n : Z).
Record tcp_conn := { tc_remote : string; tc_stage : tcp_stage }.
Record tcp_state := {
  ts_phase : tcp_phase; ts_cancelled : bool; ts_closed : bool; ts_slots : Z; ts_conns : gmap nat tcp_conn; ts_events : list Event;
}.
Definition tcp_start : tcp_state :=
  {| ts_phase := at_select; ts_cancelled := false; ts_closed := false; ts_slots := 0; ts_conns := ∅; ts_events := [] |}.
Definition set_phase (s : tcp_state) (p : tcp_phase) (slots : Z) : tcp_state :=
  {| ts_phase := p; ts_cancelled := ts_cancelled s; ts_closed := ts_closed s; ts_slots := slots; ts_conns := ts_conns s; ts_events := ts_events s |}.
Definition set_conn (s : tcp_state) (id : nat) (c : tcp_conn) (slots : Z) (events : list Event) : tcp_state :=
  {| ts_phase := ts_phase s; ts_cancelled := ts_cancelled s; ts_closed := ts_closed s; ts_slots := slots; ts_conns := <[id := c]> (ts_conns s); ts_events := events |}.
Definition is_finished (c : tcp_conn) : bool := match tc_stage c with finished _ => true | _ => false end.

Inductive tcp_action :=
  | tcp_acquire                          (** the [select] sends on [connections] *)
  | tcp_stopped                          (** the [select] sees the cancelled context *)
  | tcp_accepted (id : nat) (remote : string)
  | tcp_accept_failed
  | tcp_cancel                           (** the context is cancelled *)
  | tcp_close                            (** the watcher closes the listener *)
  | tcp_read (id : nat) (n : Z)          (** [readOneConnection]: the one read, and the event *)
  | tcp_release (id : nat)               (** the handler gives its slot back and is done *)
  | tcp_return.                          (** [handlers.Wait] and the return *)
Definition tcp_step (a : tcp_action) (s : tcp_state) : option tcp_state :=
  match a with
  | tcp_acquire =>
      match ts_phase s with at_select => if ts_slots s <? maxTCPConnections then Some (set_phase s in_accept (ts_slots s + 1)) else None | _ => None end
  | tcp_stopped =>
      match ts_phase s with at_select => if ts_cancelled s then Some (set_phase s (leaving false) (ts_slots s)) else None | _ => None end
  | tcp_accepted id remote =>
      match ts_phase s, ts_conns s !! id with
      | in_accept, None =>
          if ts_closed s then None
          else Some (set_conn (set_phase s at_select (ts_slots s)) id {| tc_remote := remote; tc_stage := reading |} (ts_slots s) (ts_events s))
      | _, _ => None
      end
  | tcp_accept_failed =>
      match ts_phase s with
      | in_accept => if 0 <? ts_slots s then Some (set_phase s (leaving (negb (ts_cancelled s))) (ts_slots s - 1)) else None
      | _ => None
      end
  | tcp_cancel =>
      Some {| ts_phase := ts_phase s; ts_cancelled := true; ts_closed := ts_closed s; ts_slots := ts_slots s; ts_conns := ts_conns s; ts_events := ts_events s |}
  | tcp_close =>
      if ts_cancelled s
      then Some {| ts_phase := ts_phase s; ts_cancelled := true; ts_closed := true; ts_slots := ts_slots s; ts_conns := ts_conns s; ts_events := ts_events s |}
      else None
  | tcp_read id n =>
      match ts_conns s !! id with
      | Some c =>
          match tc_stage c with
          | reading =>
              if (0 <=? n) && (n <=? maxTCPInput)
              then Some (set_conn s id {| tc_remote := tc_remote c; tc_stage := logged n |} (ts_slots s) (ts_events s ++ [sensor_event "tcp" (tc_remote c) n]))
              else None
          | _ => None
          end
      | None => None
      end
  | tcp_release id =>
      match ts_conns s !! id with
      | Some c =>
          match tc_stage c with
          | logged n => if 0 <? ts_slots s then Some (set_conn s id {| tc_remote := tc_remote c; tc_stage := finished n |} (ts_slots s - 1) (ts_events s)) else None
          | _ => None
          end
      | None => None
      end
  | tcp_return =>
      match ts_phase s with
      | leaving failed => if forallb (fun kv => is_finished kv.2) (map_to_list (ts_conns s)) then Some (set_phase s (returned failed) (ts_slots s)) else None
      | _ => None
      end
  end.
Fixpoint tcp_run (l : list tcp_action) (s : tcp_state) : option tcp_state :=
  match l with [] => Some s | a :: l => s' ← tcp_step a s; tcp_run l s' end.

(** ** UDP *)
Definition maxUDPDatagramSize : Z := 65535.
Inductive udp_read := datagram (remote : string) (size : Z) | read_timeout | read_failed.
(** One turn of the loop: was the context cancelled before it, did setting the
    deadline fail, what did the read give, and was the context cancelled by
    then. *)
Record udp_turn := { ut_cancelled : bool; ut_deadline_failed : bool; ut_read : udp_read; ut_cancelled_after : bool }.
(** The loop over the turns: the events, and whether it ended and how.  A read
    takes no more of a datagram than the buffer holds. *)
Fixpoint udp_loop (l : list udp_turn) : list Event * option bool :=
  match l with
  | [] => ([], None)
  | t :: l =>
      if ut_cancelled t then ([], Some true)
      else if ut_deadline_failed t then ([], Some false)
      else match ut_read t with
      | datagram remote size =>
          let '(events, result) := udp_loop l in (sensor_event "udp" remote (Z.min size maxUDPDatagramSize) :: events, result)
      | read_timeout => if ut_cancelled_after t then ([], Some true) else udp_loop l
      | read_failed => if ut_cancelled_after t then ([], Some true) else ([], Some false)
      end
  end.

(** ** HTTP *)
Section http.
Context `{EchoRouter}.
Definition http_handler : web_reply := web_String 200 "OK".
Definition http_routes : list route := [(None, "/"); (None, "/*")].
Definition http_serve (method path : string) : web_reply :=
  match echo_find http_routes method path with Some _ => http_handler | None => web_NoContent (default 404 (error_status false 404)) end.
End http.
Definition StartDefenseHoneypot : option string := Some "active-defense mode is disabled".

(** ** The dispatcher *)
Section server.
Context `{UnicodeTables}.
Definition run_modes : list string := ["ai"; "docker"; "k8s"; "http"; "tcp"; "udp"; "kubelet"].
(** [StartHoneypot]: what [ctx.Err] gives before and after the configuration is
    loaded, the loading, and the sensors, each of which runs until it has a
    result. *)
Definition StartHoneypot (err_before : option string) (load : result Config) (err_after : option string) (sensors : string -> Config -> option string) : option string :=
  match err_before with
  | Some e => Some e
  | None =>
      match load with
      | inr e => Some ("load configuration: " +:+ e)
      | inl cfg =>
          match err_after with
          | Some e => Some e
          | None =>
              let mode := rm_RunMode (c_RunMode cfg) in
              if bool_decide (mode ∈ run_modes)
              then match sensors mode cfg with Some e => Some (mode +:+ " honeypot: " +:+ e) | None => None end
              else Some ("unsupported run mode " +:+ go_quote mode)
          end
      end
  end.
End server.
