(* ===== verification/SensorsProps.v ===== *)
(** * The TCP, UDP and HTTP sensors, and the dispatcher: properties *)
From S2P Require Import Prelude GoStrings GoCodec Names ConfigModel Config ConfigProps ConfigSeed Echo Sensors.

#[local] Set Warnings "-clear-no-such-hyp,-notation-for-abbreviation".
#[local] Open Scope string_scope.
#[local] Open Scope list_scope.
#[local] Open Scope Z_scope.
#[local] Arguments map_sum : simpl never.

(** ** TCP: one event per connection, a bounded number at a time *)
Definition holds_slot (c : tcp_conn) : Z := if is_finished c then 0 else 1.
Definition conn_event (c : tcp_conn) : option Event :=
  match tc_stage c with reading => None | logged n | finished n => Some (sensor_event "tcp" (tc_remote c) n) end.
Definition recorded (s : tcp_state) : list Event := (map_to_list (omap conn_event (ts_conns s))).*2.
Definition accepting (s : tcp_state) : Z := match ts_phase s with in_accept => 1 | _ => 0 end.
Record tcp_inv (s : tcp_state) : Prop := {
  ti_slots : ts_slots s = accepting s + map_sum holds_slot (ts_conns s);
  ti_bound : ts_slots s <= maxTCPConnections;
  ti_events : ts_events s ≡ₚ recorded s;
  ti_sizes : Forall (fun e => 0 <= ev_BytesReceived e <= maxTCPInput) (ts_events s);
  ti_returned : forall failed, ts_phase s = returned failed -> forall id c, ts_conns s !! id = Some c -> is_finished c = true;
}.
Lemma recorded_new s id c : ts_conns s !! id = None -> conn_event c = None ->
  (map_to_list (omap conn_event (<[id := c]> (ts_conns s)))).*2 = recorded s.
Proof. intros Hid Hc. unfold recorded. rewrite omap_insert, Hc. rewrite delete_id; [done|]. by rewrite lookup_omap, Hid. Qed.
Lemma recorded_read s id c c' e : ts_conns s !! id = Some c -> conn_event c = None -> conn_event c' = Some e ->
  (map_to_list (omap conn_event (<[id := c']> (ts_conns s)))).*2 ≡ₚ recorded s ++ [e].
Proof.
  intros Hid Hc Hc'. unfold recorded. rewrite omap_insert, Hc'. rewrite map_to_list_insert by by rewrite lookup_omap, Hid.
  rewrite fmap_cons. cbn [snd]. by rewrite Permutation_app_comm.
Qed.
Lemma recorded_same s id c c' : ts_conns s !! id = Some c -> conn_event c' = conn_event c ->
  (map_to_list (omap conn_event (<[id := c']> (ts_conns s)))).*2 = recorded s.
Proof.
  intros Hid Hc. unfold recorded. do 2 f_equal. apply map_eq. intros j. rewrite !lookup_omap. destruct (decide (j = id)) as [->|Hne].
  - rewrite lookup_insert_eq, Hid. done.
  - by rewrite lookup_insert_ne.
Qed.
Lemma holds_nonneg (m : gmap nat tcp_conn) : 0 <= map_sum holds_slot m.
Proof. apply map_sum_nonneg. intros c. unfold holds_slot. by destruct (is_finished c). Qed.
Lemma tcp_start_inv : tcp_inv tcp_start.
Proof. by split. Qed.
Lemma tcp_step_inv a s s' : tcp_inv s -> tcp_step a s = Some s' -> tcp_inv s'.
Proof.
  intros [Hs Hb He Hz Hr] Hstep. pose proof (holds_nonneg (ts_conns s)) as Hn. unfold accepting in Hs.
  destruct a as [| |id remote| | | |id n|id|]; cbn [tcp_step] in Hstep.
  - destruct (ts_phase s) eqn:Ep; try done. destruct (Z.ltb_spec (ts_slots s) maxTCPConnections); [|done]. injection Hstep as <-.
    split; cbn; try done; lia.
  - destruct (ts_phase s) eqn:Ep; try done. destruct (ts_cancelled s); [|done]. injection Hstep as <-. by split.
  - destruct (ts_phase s) eqn:Ep; try done. destruct (ts_conns s !! id) as [|] eqn:Ec; [done|]. destruct (ts_closed s); [done|]. injection Hstep as <-.
    split; cbn; try done; [unfold accepting; cbn; rewrite map_sum_insert by done; unfold holds_slot at 1, is_finished; cbn; lia|]. unfold recorded. cbn. by rewrite (recorded_new s).
  - destruct (ts_phase s) eqn:Ep; try done. destruct (0 <? ts_slots s); [|done]. injection Hstep as <-. split; cbn; try done; lia.
  - injection Hstep as <-. by split.
  - destruct (ts_cancelled s); [|done]. injection Hstep as <-. by split.
  - destruct (ts_conns s !! id) as [c|] eqn:Ec; [|done]. destruct (tc_stage c) eqn:Et; try done. destruct (_ && _) eqn:E; [|done]. injection Hstep as <-.
    apply andb_true_iff in E as [E1%Z.leb_le E2%Z.leb_le]. split; cbn; try done.
    + assert (E0 : holds_slot c = 1) by (unfold holds_slot, is_finished; by rewrite Et). unfold accepting. cbn [set_conn ts_phase].
      rewrite (map_sum_overwrite _ _ _ _ _ Ec), E0. change (holds_slot {| tc_remote := _; tc_stage := logged n |}) with 1. lia.
    + unfold recorded. cbn. erewrite recorded_read; [by rewrite He|done|by unfold conn_event; rewrite Et|done].
    + apply Forall_app. split; [done|]. by repeat constructor.
    + intros failed Hp i c' Hc'. exfalso. pose proof (Hr failed Hp id c Ec) as Hx. unfold is_finished in Hx. by rewrite Et in Hx.
  - destruct (ts_conns s !! id) as [c|] eqn:Ec; [|done]. destruct (tc_stage c) eqn:Et; try done. destruct (0 <? ts_slots s); [|done]. injection Hstep as <-.
    split; cbn; try done.
    + assert (E0 : holds_slot c = 1) by (unfold holds_slot, is_finished; by rewrite Et). unfold accepting. cbn [set_conn ts_phase].
      rewrite (map_sum_overwrite _ _ _ _ _ Ec), E0. change (holds_slot {| tc_remote := _; tc_stage := finished n |}) with 0. lia.
    + lia.
    + unfold recorded. cbn. rewrite (recorded_same s id c); [done|done|]. unfold conn_event. by rewrite Et.
    + intros failed Hp i c' [[<- <-]|[_ Hc']]%lookup_insert_Some; [done|by eapply Hr].
  - destruct (ts_phase s) eqn:Ep; try done. destruct (forallb _ _) eqn:Ef; [|done]. injection Hstep as <-. split; cbn; try done.
    intros f _ id c Hc. rewrite forallb_forall in Ef. apply (Ef (id, c)), list_elem_of_In. by apply elem_of_map_to_list.
Qed.
Lemma tcp_run_inv l s s' : tcp_inv s -> tcp_run l s = Some s' -> tcp_inv s'.
Proof.
  revert s. induction l as [|a l IH]; cbn [tcp_run]; intros s Hs; [by intros [= <-]|]. destruct (tcp_step a s) as [s1|] eqn:E; [|done].
  cbn. intros Hr. by apply (IH s1); [eapply tcp_step_inv|].
Qed.

Lemma size_omap_all (m : gmap nat tcp_conn) : (forall id c, m !! id = Some c -> is_Some (conn_event c)) -> size (omap conn_event m) = size m.
Proof.
  induction m as [|id c m Hid IH] using map_ind; intros Hall; [done|]. destruct (Hall id c (lookup_insert_eq _ _ _)) as [e He].
  rewrite omap_insert, He, !map_size_insert_None; [|done|by rewrite lookup_omap, Hid]. rewrite IH; [done|]. intros j d Hj. apply (Hall j).
  rewrite lookup_insert_ne; [done|congruence].
Qed.

(** C40. In every interleaving of the accept loop, the watcher and the handlers
    no more than 128 connections are served at once, and the events are those
    of the connections that have been read, one each, with at most 64 KiB; when
    the sensor has returned, every connection it accepted has its event. *)
Theorem tcp_records_each_connection : forall l s, tcp_run l tcp_start = Some s ->
  map_sum holds_slot (ts_conns s) <= maxTCPConnections /\ ts_events s ≡ₚ recorded s /\
  Forall (fun e => 0 <= ev_BytesReceived e <= maxTCPInput) (ts_events s) /\
  (forall failed, ts_phase s = returned failed -> length (ts_events s) = size (ts_conns s)).
Proof.
  intros l s Hl. pose proof (tcp_run_inv _ _ _ tcp_start_inv Hl) as [Hs Hb He Hz Hr]. split; [unfold accepting in Hs; destruct (ts_phase s); lia|].
  split; [done|]. split; [done|]. intros failed Hp. rewrite He. unfold recorded. rewrite length_fmap, length_map_to_list.
  apply size_omap_all. intros id c Hc. specialize (Hr _ Hp _ _ Hc). unfold is_finished in Hr. unfold conn_event. destruct (tc_stage c); [done|done|by eexists].
Qed.
Definition two_clients : list tcp_action :=
  [tcp_acquire; tcp_accepted 1 "192.0.2.1:1"; tcp_acquire; tcp_accepted 2 "192.0.2.2:2"; tcp_read 2 70; tcp_acquire; tcp_cancel; tcp_close; tcp_accept_failed;
   tcp_read 1 0; tcp_release 1; tcp_release 2; tcp_return].
Lemma two_clients_return : exists s, tcp_run two_clients tcp_start = Some s /\ ts_phase s = returned false.
Proof. eexists. split; vm_compute; reflexivity. Qed.
Lemma tcp_records_each_connection_witness : exists s, tcp_run two_clients tcp_start = Some s /\ length (ts_events s) = size (ts_conns s).
Proof.
  destruct two_clients_return as (s & E & Hp). exists s. split; [exact E|].
  exact (proj2 (proj2 (proj2 (tcp_records_each_connection two_clients s E))) false Hp).
Defined.

(** ** UDP *)
Definition udp_event (t : udp_turn) : list Event :=
  match ut_read t with datagram remote size => [sensor_event "udp" remote (Z.min size maxUDPDatagramSize)] | _ => [] end.
(** A turn after which the loop goes on. *)
Definition goes_on (t : udp_turn) : bool :=
  negb (ut_cancelled t) && negb (ut_deadline_failed t) &&
  match ut_read t with datagram _ _ => true | read_timeout => negb (ut_cancelled_after t) | read_failed => false end.
(** The UDP sensor records every datagram it reads, in order, until the
    turn that ends it: with no error exactly where the context was cancelled.
    No turn is lost to a timeout, and a longer datagram counts as the 65535
    bytes the buffer holds. *)
Theorem udp_records_each_datagram : forall l before t after, l = before ++ t :: after -> forallb goes_on before = true -> goes_on t = false ->
  udp_loop l = (flat_map udp_event before, Some (ut_cancelled t || negb (ut_deadline_failed t) && ut_cancelled_after t)).
Proof.
  intros l before t after -> Hb Ht. induction before as [|b before IH]; cbn [app udp_loop flat_map].
  - unfold goes_on in Ht. destruct (ut_cancelled t); [done|]. destruct (ut_deadline_failed t); [done|]. cbn [negb andb] in *.
    destruct (ut_read t); [done| |by destruct (ut_cancelled_after t)]. by destruct (ut_cancelled_after t).
  - cbn [forallb] in Hb. apply andb_true_iff in Hb as [Hg Hb]. specialize (IH Hb). unfold goes_on in Hg. rewrite !andb_true_iff, !negb_true_iff in Hg.
    destruct Hg as [[-> ->] Hg]. unfold udp_event at 1. rewrite IH. destruct (ut_read b); [done| |done]. apply negb_true_iff in Hg. by rewrite Hg.
Qed.
Lemma udp_records_each_datagram_witness :
  let turn r c := {| ut_cancelled := false; ut_deadline_failed := false; ut_read := r; ut_cancelled_after := c |} in
  let before := [turn (datagram "192.0.2.1:9" 70000) false; turn read_timeout false; turn (datagram "192.0.2.2:9" 3) false] in
  forallb goes_on before = true /\ udp_loop (before ++ [turn read_timeout true]) = ([sensor_event "udp" "192.0.2.1:9" 65535; sensor_event "udp" "192.0.2.2:9" 3], Some true).
Proof. intros turn before. split; [reflexivity|]. exact (udp_records_each_datagram _ before (turn read_timeout true) [] eq_refl eq_refl eq_refl). Defined.

(** ** HTTP *)
Theorem http_always_answers `{EchoRouter} : forall method rest, http_serve method ("/" +:+ rest) = web_String 200 "OK".
Proof.
  intros method rest. unfold http_serve. destruct (echo_find http_routes method ("/" +:+ rest)) eqn:E; [done|].
  assert (Hm : route_match (None, "/*") method ("/" +:+ rest) = Some rest).
  { unfold route_match. cbn [fst snd from_option]. change (is_wild "/*") with true. change (literal "/*") with "/". cbn iota. rewrite has_prefix_app. by rewrite trim_prefix_app. }
  by destruct (echo_complete http_routes method _ 1%nat _ _ eq_refl Hm E).
Qed.

(** ** The dispatcher *)
Section server.
Context `{UnicodeTables} `{RangeOrder} `{UrlPackage}.
(** The dispatcher is closed over the modes validation accepts: once a
    configuration is loaded and the context still stands, the sensor of its mode
    is started and its result is the result. *)
Theorem loaded_modes_are_started : forall LookupEnv toml_Decode open file cfg sensors, NewConfig LookupEnv toml_Decode open file = inl cfg ->
  rm_RunMode (c_RunMode cfg) ∈ run_modes /\
  StartHoneypot None (NewConfig LookupEnv toml_Decode open file) None sensors =
    (fun e => rm_RunMode (c_RunMode cfg) +:+ " honeypot: " +:+ e) <$> sensors (rm_RunMode (c_RunMode cfg)) cfg.
Proof.
  intros LookupEnv toml_Decode open file cfg sensors E. assert (Hv : Validate (Some cfg) = None).
  { unfold NewConfig in E. cbv zeta in E. match type of E with rbind ?m _ = _ => destruct m as [c|] end; [|discriminate E]. cbn [rbind] in E.
    destruct (applyEnvironment LookupEnv c) as [c'|]; [|discriminate E]. cbn [rbind] in E. destruct (Validate (Some (normalize c'))) eqn:Ev; [discriminate E|].
    by injection E as <-. }
  assert (Hm : rm_RunMode (c_RunMode cfg) ∈ run_modes).
  { cbn [Validate] in Hv. destruct (run_mode_address cfg) as [p|] eqn:Ea; [|done]. unfold run_mode_address in Ea. cbv zeta in Ea.
    repeat (case_hyp Ea; [match goal with Hq : String.eqb _ _ = true |- _ => apply String.eqb_eq in Hq as ->; unfold run_modes; set_solver end|]). done. }
  split; [done|]. unfold StartHoneypot. rewrite E. cbv zeta. rewrite bool_decide_eq_true_2 by done. by destruct (sensors _ _).
Qed.
End server.
Definition udp_environment (name : string) : option string := if String.eqb name "HELIX_RUN_MODE" then Some " UDP " else None.
Definition no_file (name : string) : config_file := file_missing.
Definition no_toml (text : string) (c : Config) : option Config := None.
Definition udp_load : result Config := @NewConfig ascii_tables key_order test_url udp_environment no_toml no_file "".
Definition failing_sensors (mode : string) (c : Config) : option string := Some ("listen " +:+ mode).
Lemma udp_is_loaded : exists cfg, udp_load = inl cfg /\ rm_RunMode (c_RunMode cfg) = "udp".
Proof. eexists. split; vm_compute; reflexivity. Qed.
Lemma loaded_modes_are_started_witness : @StartHoneypot ascii_tables None udp_load None failing_sensors = Some "udp honeypot: listen udp".
Proof.
  destruct udp_is_loaded as (cfg & E & Hm).
  destruct (@loaded_modes_are_started ascii_tables key_order test_url udp_environment no_toml no_file "" cfg failing_sensors E) as [_ Hs].
  rewrite Hm in Hs. exact Hs.
Defined.
