(* ===== verification/Server.v ===== *)
(** * The API server as a whole

    [NewAPIContext] of api.go: what a configuration and a schema become; the
    documents of discovery, so that every path of [ServeHTTP] has its answer;
    and the chain of handlers k8s.go puts around it, with what the logger's
    middleware records of a request. *)
From S2P Require Import Prelude GoStrings GoCodec ConfigModel Value Json Http Names Netip Selector Catalog Store World Controllers Seed Patch Proto Request OpenApi Api Logger Echo.

#[local] Set Warnings "-clear-no-such-hyp,-notation-for-abbreviation".
#[local] Open Scope string_scope.
#[local] Open Scope list_scope.
#[local] Open Scope Z_scope.

(** The instance: the fields of [API] that do not change, the documents, the
    world of the handlers and the slot and cache of the OpenAPI handlers. *)
Record server := { sv_api : API; sv_documents : documents; sv_world : world; sv_openapi : openapi_state }.

(** ** [NewAPIContext] *)
Definition check_decoys (k : K8SConfig) : option string :=
  if 128 <? Z.of_nat (length (k_TokenValues k)) then Some "Kubernetes honeypot supports at most 128 decoy tokens"
  else if existsb (fun token => 4096 <? slen token) (k_TokenValues k) then Some "Kubernetes decoy token values must be 4 KiB or smaller"
  else if existsb (fun name => negb (String.eqb name "") && negb (validObjectName name)) (k_TokenNames k)
  then Some "Kubernetes decoy secret names must be valid DNS subdomains"
  else None.
(** What [SchemaProfileForVersion] parses, as its error quotes it. *)
Definition profile_version `{UnicodeTables} (version : string) : string :=
  let version := trim_space version in
  let version := if String.eqb version "" then "v1.37" else version in
  if has_prefix version "1." then "v" +:+ version else version.
(** [SetEmitter]. *)
Definition SetEmitter (s : server) : server :=
  let a := sv_api s in
  {| sv_api := {| a_version := a_version a; a_startedAt := a_startedAt a; a_resources := a_resources a; a_ipBase := a_ipBase a;
                  a_serverAddress := a_serverAddress a; a_emits := true |};
     sv_documents := sv_documents s; sv_world := sv_world s; sv_openapi := sv_openapi s |}.

Section construct.
Context `{Env} `{Gzip} {document : Type} (parse_document : string -> option document) (proto_marshal : document -> option string).
(** What the context says before and after the download, the client, the
    embedded files and [gzip.NewReader] on them; the two readings of the clock,
    in seconds.  [None] is a panic. *)
Definition NewAPIContext (ctx_err ctx_err_after : option string) (client : string -> schema_response + string)
    (embedded : string -> option string) (inflate : string -> option body) (startedAt storeStartedAt : Z) (cfg : option Config) : option (server + string) :=
  match cfg with
  | None => Some (inr "Kubernetes API configuration is required")
  | Some cfg =>
      let k := c_K8S cfg in
      match SchemaProfileForVersion (k_APIVersion k) with
      | None => Some (inr ("unsupported Kubernetes schema profile " +:+ go_quote (profile_version (k_APIVersion k)) +:+ ": use v1.19 through v1.37"))
      | Some profile =>
          let version := sp_Version profile in
          let m := catalogue (default 0 (parseKubernetesVersion version)) in
          match check_decoys k with
          | Some e => Some (inr e)
          | None =>
              match loadOpenAPISchema parse_document ctx_err ctx_err_after client embedded inflate profile (k_SchemaOffline k) with
              | inr e => Some (inr e)
              | inl (fixture, doc) =>
                  match proto_marshal doc with
                  | None => Some (inr ("encode OpenAPI v2 schema for " +:+ version))
                  | Some binaryDoc =>
                      match build_documents version m fixture binaryDoc with
                      | None => Some (inr (if bool_decide (gzip fixture = None) then "compress OpenAPI JSON" else "compress OpenAPI protobuf"))
                      | Some d =>
                          let '(w, seeded) := seed_api version k (fresh_world storeStartedAt) in
                          _ ← seeded;
                          Some (inl {| sv_api := {| a_version := version; a_startedAt := startedAt; a_resources := m; a_ipBase := k_IPBase k;
                                                    a_serverAddress := nodeAddress (k_IPBase k) 10 +:+ ":443"; a_emits := false |};
                                       sv_documents := d; sv_world := w; sv_openapi := openapi_start |})
                      end
                  end
              end
          end
      end
  end.
End construct.

(** ** The documents of discovery

    The members of a struct are written in the order of its fields, which
    [json_marshal] keeps; members that are empty and marked so are left out. *)
Definition omit_strs (name : string) (l : list string) : object := match l with [] => [] | _ => [(name, VStrList l)] end.
Definition omit_str (name s : string) : object := if String.eqb s "" then [] else [(name, VStr s)].
Definition resource_json (r : apiResource) : val :=
  VMap ([("name", VStr (r_name r)); ("singularName", VStr (r_singular r)); ("kind", VStr (r_kind r)); ("namespaced", VBool (r_namespaced r)); ("verbs", VStrList (r_verbs r))]
        ++ omit_strs "shortNames" (r_shortNames r) ++ omit_strs "categories" (r_categories r) ++ omit_str "group" (r_group r) ++ omit_str "version" (r_version r)).
Definition resourceList_doc (l : string * list apiResource) : val :=
  lit [("kind", VStr "APIResourceList"); ("apiVersion", VStr "v1"); ("groupVersion", VStr l.1); ("resources", VList (map resource_json l.2))].
Definition version_entry (group version : string) : val := strs [("groupVersion", group +:+ "/" +:+ version); ("version", version)].
Definition group_members (g : api_group) : list (string * val) :=
  [("name", VStr (ag_name g)); ("versions", VList (map (version_entry (ag_name g)) (ag_versions g))); ("preferredVersion", version_entry (ag_name g) (ag_preferred g))].
Definition groupList_doc (l : list api_group) : val :=
  lit [("kind", VStr "APIGroupList"); ("apiVersion", VStr "v1"); ("groups", VMapList (map (fun g => of_pairs (group_members g)) l))].
Definition group_doc (g : api_group) : val := lit ([("kind", VStr "APIGroup"); ("apiVersion", VStr "v1")] ++ group_members g).
Definition root_doc (m : resources) (d : documents) : val :=
  lit [("paths", VStrList (rootDiscovery m (negb (String.eqb (do_json d) "")) (negb (String.eqb (do_schemas d) ""))))].

Section server.
Context `{Env} `{Protowire} `{Yaml} `{Gzip}.

Definition serve_document (m : resources) (d : documents) (rq : Request) (h : oa_headers_in) (r : Api.route) (s : openapi_state) : openapi_state * oa_answer :=
  let found v := (s, oa_reply (json 200 v)) in
  let missing := (s, oa_reply (notFound rq)) in
  match r with
  | to_openapi_v2 => serveOpenAPIV2 d h s
  | to_openapi_v3_index => serveOpenAPIV3Index d s
  | to_openapi_v3 segments => serveOpenAPIV3Doc d (notFound rq) h segments s
  | to_root => found (root_doc m d)
  | to_core_resources => found (resourceList_doc (resourceList m core_gv))
  | to_groups => found (groupList_doc (apiGroupList m))
  | to_group group => from_option (fun g => found (group_doc g)) missing (serveGroup m group)
  | to_group_version gv => from_option (fun l => found (resourceList_doc l)) missing (serveGroupVersion m gv)
  | _ => missing
  end.
Inductive served := answers (a : oa_answer) | streams (s : watch_stream).
(** [ServeHTTP]; [None] is a panic.  The documents take nothing of the world,
    so the slot of the request is given back before or after them alike. *)
Definition serve_http (s : server) (rq : Request) (h : oa_headers_in) : server * option served :=
  let '(w, r) := Api.ServeHTTP (sv_api s) rq (sv_world s) in
  let s := {| sv_api := sv_api s; sv_documents := sv_documents s; sv_world := w; sv_openapi := sv_openapi s |} in
  match r with
  | None => (s, None)
  | Some (answered (replied r)) => (s, Some (answers (oa_reply r)))
  | Some (answered (streaming t)) => (s, Some (streams t))
  | Some (document r) =>
      let '(os, a) := serve_document (a_resources (sv_api s)) (sv_documents s) rq h r (sv_openapi s) in
      ({| sv_api := sv_api s; sv_documents := sv_documents s; sv_world := sv_world s; sv_openapi := os |}, Some (answers a))
  end.
End server.

(** ** The handlers around it

    What a handler leaves of a request: the status the response is committed
    to, where it is; the bytes of its body; and whether it returned, without or
    with an error of some status, or panicked. *)
Inductive ending := returned (err : option Z) | panicked.
Record handled := { hn_status : option Z; hn_size : Z; hn_ending : ending }.
(** A request: its address, method and path, its [User-Agent] and
    [X-Forwarded-For] lines, and the length of its body. *)
Record arrival := { ar_remoteAddr : string; ar_method : string; ar_path : string; ar_userAgent : string; ar_forwarded : list string; ar_body : Z }.
Definition maxHTTPBody : Z := 64 * 1024.
Definition maxHTTPBodyBytes : Z := 64 * 2 ^ 10.

(** [limitRequestBody] of k8s.go and kubelet.go: what it lets through. *)
Definition limitRequestBody (r : arrival) : arrival :=
  {| ar_remoteAddr := ar_remoteAddr r; ar_method := ar_method r; ar_path := ar_path r; ar_userAgent := ar_userAgent r; ar_forwarded := ar_forwarded r;
     ar_body := Z.min (ar_body r) maxHTTPBodyBytes |}.
(** [HTTPMiddleware]: an error becomes a status, what is left of the body is
    read, and the event is recorded; nothing of this happens after a panic. *)
Definition HTTPMiddleware (l : EventLogger) (sensor : string) (r : arrival) (next : arrival -> handled) : handled * option (Event * string) :=
  let done := next r in
  match hn_ending done with
  | panicked => (done, None)
  | returned err =>
      let status := match err, hn_status done with
                    | Some status, None => error_status false status
                    | _, committed => committed
                    end in
      ({| hn_status := status; hn_size := hn_size done; hn_ending := returned None |},
       Some (HTTPMiddleware_event l sensor
         {| fin_remoteAddr := ar_remoteAddr r; fin_method := ar_method r; fin_path := ar_path r; fin_status := Some (default 200 status); fin_size := hn_size done;
            fin_received := Z.min (ar_body r) maxHTTPBody; fin_userAgent := ar_userAgent r; fin_forwarded := ar_forwarded r |}))
  end.
(** [recoverPanics]: the answer 500, or its document after what was committed. *)
Definition panic_doc : val :=
  lit [("apiVersion", VStr "v1"); ("kind", VStr "Status"); ("status", VStr "Failure"); ("message", VStr "the simulated API server encountered an internal error");
       ("reason", VStr "InternalError"); ("code", VInt 500)].
Definition recoverPanics (done : handled) : handled :=
  match hn_ending done with
  | returned _ => done
  | panicked => {| hn_status := Some (default 500 (hn_status done)); hn_size := hn_size done + slen (wr_body (web_JSON 500 panic_doc)); hn_ending := returned None |}
  end.
(** The chain of [StartK8SHoneypot]: the first handler installed is the
    outermost. *)
Definition chain (l : EventLogger) (r : arrival) (next : arrival -> handled) : handled * option (Event * string) :=
  let '(done, event) := HTTPMiddleware l "kubernetes" (limitRequestBody r) next in (recoverPanics done, event).

(** [listenAddress]; [net.JoinHostPort] puts brackets around a host with a
    colon. *)
Definition JoinHostPort (host port : string) : string :=
  if str_in (chr 58) host then "[" +:+ host +:+ "]:" +:+ port else host +:+ ":" +:+ port.
Fixpoint trim_left_by (p : ascii -> bool) (s : string) : string :=
  match s with "" => "" | String c t => if p c then trim_left_by p t else s end.
Fixpoint trim_right_by (p : ascii -> bool) (s : string) : string :=
  match s with "" => "" | String c t => let t := trim_right_by p t in if String.eqb t "" && p c then "" else String c t end.
Definition is_bracket (c : ascii) : bool := any_byte (Ascii.eqb c) "[]".
Definition trim_brackets (s : string) : string := trim_right_by is_bracket (trim_left_by is_bracket s).
Section address.
Context `{UnicodeTables}.
Definition listenAddress (host port : string) : string + string :=
  let host := trim_space host in
  let port := trim_space port in
  if String.eqb port "" then inr "Kubernetes API port is required"
  else if str_in (chr 58) port || str_in (chr 47) port then inr ("invalid Kubernetes API port " +:+ go_quote port)
  else inl (JoinHostPort (trim_brackets host) port).
End address.
