(* ===== verification/ServerProps.v ===== *)
(** * The API server as a whole: properties

    What validation accepts, the server starts with; every path it advertises
    it serves; which requests are recorded. *)
From S2P Require Import Prelude GoStrings GoCodec ConfigModel Value Json Http Names Netip NetipProps Config ConfigProps Selector Catalog Store StoreFacts StoreProps World Controllers Seed SeedProps Patch Proto Request OpenApi OpenApiProps Api Logger Echo ConfigSeed Server.

#[local] Set Warnings "-clear-no-such-hyp,-notation-for-abbreviation".
#[local] Open Scope string_scope.
#[local] Open Scope list_scope.
#[local] Open Scope Z_scope.

(** ** Starting *)
Section start.
Context `{Env}.
Definition profile_ok (z : Z) : bool :=
  let version := "v1." +:+ itoa (19 + z) in
  match SchemaProfileForVersion version with
  | Some p => String.eqb (sp_Version p) version && bool_decide (parseKubernetesVersion version = Some (19 + z))
  | None => false
  end.
Lemma valid_version_profile version : valid_version version -> exists minor profile, 19 <= minor <= 37 /\
  SchemaProfileForVersion version = Some profile /\ sp_Version profile = version /\ parseKubernetesVersion version = Some minor.
Proof.
  intros (minor & Hm & ->). assert (G : forall z, 0 <= z < Z.of_nat 19 -> profile_ok z = true) by by_evaluation 19%nat.
  specialize (G (minor - 19) ltac:(lia)). unfold profile_ok in G. replace (19 + (minor - 19)) with minor in G by lia. cbv zeta in G.
  destruct (SchemaProfileForVersion _) as [p|] eqn:E; [|done]. bool_to_prop. exists minor, p.
  split; [done|]. split; [done|]. by split.
Qed.
End start.

Lemma existsb_none {A} (p : A -> bool) l : Forall (fun x => p x = false) l -> existsb p l = false.
Proof. induction 1 as [|x l Hx Hl IH]; [done|]. cbn [existsb]. by rewrite Hx. Qed.

Lemma valid_port_plain port : valid_port port -> trim_space port = port /\ port <> "" /\ str_in (chr 58) port = false /\ str_in (chr 47) port = false.
Proof.
  intros (n & Hn & ->). destruct (itoa_digits n) as [Hd Hne]; [lia|].
  assert (Hd' : all_bytes (fun c => (48 <=? code c) && (code c <=? 57)) (itoa n) = true) by exact Hd.
  split; [|split; [done|split; by apply (all_bytes_str_in (fun c => (48 <=? c) && (c <=? 57)))]].
  apply trim_space_id. revert Hd'. apply all_bytes_weaken. intros c Hc. bool_to_prop. apply andb_true_iff. rewrite Z.leb_le, Z.ltb_lt. lia.
Qed.
Lemma valid_check_decoys k : valid_k8s k -> check_decoys k = None.
Proof.
  intros Hv. pose proof (vk_counts _ Hv) as (Ht & _). unfold len in Ht. unfold check_decoys. rewrite (proj2 (Z.ltb_ge _ _)) by lia.
  assert (E1 : existsb (fun token => 4096 <? slen token) (k_TokenValues k) = false).
  { apply existsb_none. pose proof (vk_values _ Hv) as Hf. eapply Forall_impl; [exact Hf|]. intros v [_ Hlen]. apply Z.ltb_ge. lia. }
  assert (E2 : existsb (fun name => negb (String.eqb name "") && negb (validObjectName name)) (k_TokenNames k) = false).
  { apply existsb_none. eapply Forall_impl; [exact (vk_names _ Hv)|]. intros n Hn. rewrite <- validTokenName_eq, Hn. by rewrite andb_false_r. }
  by rewrite E1, E2.
Qed.

Section starts.
Context `{Env} `{UrlPackage} `{Gzip} {doc_type : Type} (parse_document : string -> option doc_type) (proto_marshal : doc_type -> option string).
Record fresh_server (s : server) (minor : Z) : Prop := {
  fs_store : store_inv (w_store (sv_world s));
  fs_idle : w_requestSlots (sv_world s) = 0 /\ w_listSlots (sv_world s) = 0 /\ w_watchSlots (sv_world s) = 0 /\ os_slots (sv_openapi s) = 0;
  fs_silent : w_events (sv_world s) = [];
  fs_version : a_version (sv_api s) = "v1." +:+ itoa minor /\ 19 <= minor <= 37;
  fs_resources : a_resources (sv_api s) = catalogue minor /\ do_resources (sv_documents s) = catalogue minor;
}.
End starts.

(** The document of a small schema, and a server started with it. *)
Definition tiny_schema : string := q "{'swagger':'2.0','paths':{'/api/':{}},'definitions':{'io.k8s.api.core.v1.Pod':{}}}".
Definition tiny_client (url : string) : schema_response + string :=
  if has_suffix url "/v1.37.0/api/openapi-spec/swagger.json" then inl {| sr_status := 200; sr_contentLength := -1; sr_body := body_all tiny_schema |} else inr "no such host".
Definition tiny_inflate (z : string) : option body := body_all <$> @gunzip marking_gzip z.

(** ** What discovery advertises is served *)
Definition plain_headers : oa_headers_in := {| oh_accept := ""; oh_acceptEncoding := ""; oh_ifNoneMatch := "" |}.
Definition found {A} (o : option A) : bool := match o with Some _ => true | None => false end.
(** Where a path leads, there is a document. *)
Definition leads_somewhere (m : resources) (v2 v3 : bool) (path : string) : bool :=
  match route_of path with
  | to_health | to_version | to_api_versions | to_core_resources | to_groups => true
  | to_openapi_v2 => v2
  | to_openapi_v3_index => v3
  | to_group group => found (serveGroup m group)
  | to_group_version gv => found (serveGroupVersion m gv)
  | _ => false
  end.
Definition all_lead (z : Z) : bool :=
  let m := catalogue (19 + z) in
  forallb (fun '(v2, v3) => forallb (leads_somewhere m v2 v3) (rootDiscovery m v2 v3)) [(false, false); (false, true); (true, false); (true, true)].
Lemma discovery_leads minor v2 v3 path : 19 <= minor <= 37 -> path ∈ rootDiscovery (catalogue minor) v2 v3 -> leads_somewhere (catalogue minor) v2 v3 path = true.
Proof.
  intros Hm Hp. assert (G : forall z, 0 <= z < Z.of_nat 19 -> all_lead z = true) by by_evaluation 19%nat.
  specialize (G (minor - 19) ltac:(lia)). unfold all_lead in G. replace (19 + (minor - 19)) with minor in G by lia. cbv zeta in G. cbn [forallb] in G.
  bool_to_prop. assert (E : forallb (leads_somewhere (catalogue minor) v2 v3) (rootDiscovery (catalogue minor) v2 v3) = true) by by destruct v2, v3.
  rewrite forallb_forall in E. by apply E, list_elem_of_In.
Qed.
Section advertised.
Context `{Env} `{Protowire} `{Yaml} `{Gzip}.
Definition answer_code (r : option served) : option Z :=
  match r with Some (answers (oa_reply r)) => Some (rp_code r) | Some (answers (oa_served r)) => Some (oa_code r) | _ => None end.
(** C32. Discovery keeps its word: on a server of any of the nineteen releases
    whose slots are free, every path of the root document, each group and each
    group version, with the OpenAPI documents where they are listed, is
    answered 200. *)
Theorem advertised_paths_are_served : forall s minor fixture binaryDoc rq,
  fresh_server s minor -> build_documents (a_version (sv_api s)) (catalogue minor) fixture binaryDoc = Some (sv_documents s) ->
  rq_path rq ∈ rootDiscovery (a_resources (sv_api s)) (negb (String.eqb (do_json (sv_documents s)) "")) (negb (String.eqb (do_schemas (sv_documents s)) "")) ->
  answer_code (serve_http s rq plain_headers).2 = Some 200.
Proof.
  intros s minor fixture binaryDoc rq [_ (Er & _ & _ & Eo) _ [_ Hm] [Em _]] Hd Hp. rewrite Em in Hp. apply (discovery_leads minor) in Hp; [|done].
  unfold serve_http, Api.ServeHTTP. rewrite Er. cbn [Z.ltb Z.compare requestSlots_capacity]. unfold Api.dispatch.
  unfold leads_somewhere in Hp. destruct (route_of (rq_path rq)) as [| | | | |segs| | | | |group|gv| | |]; try done; cbn [ret fst snd answer_code sv_api sv_documents sv_openapi serve_document];
    try (by rewrite ?Em).
  - unfold serveOpenAPIV2. apply negb_true_iff in Hp. rewrite Hp. unfold with_openapi_slot. rewrite Eo. cbn [Z.ltb Z.compare].
    change (v2_media (oh_accept plain_headers)) with (Some false). cbv zeta. change (acceptsGzip (oh_acceptEncoding plain_headers)) with false.
    cbn [v2_payload]. destruct (v2_tag _ _ _ _ _ false false (do_json (sv_documents s)) Hd eq_refl) as [-> _]. done.
  - unfold serveOpenAPIV3Index. apply negb_true_iff in Hp. rewrite Hp. unfold with_openapi_slot. rewrite Eo. done.
  - rewrite Em. by destruct (serveGroup (catalogue minor) group).
  - rewrite Em. by destruct (serveGroupVersion (catalogue minor) gv).
Qed.
End advertised.
Definition small_server : server :=
  {| sv_api := {| a_version := "v1.30"; a_startedAt := 0; a_resources := catalogue 30; a_ipBase := "10.42.0.0"; a_serverAddress := "10.42.0.10:443"; a_emits := true |};
     sv_documents := small_documents; sv_world := fresh_world 0; sv_openapi := openapi_start |}.
Definition get_request (path : string) : Request :=
  {| rq_method := "GET"; rq_path := path; rq_remoteAddr := "203.0.113.9:4444"; rq_contentType := ""; rq_accept := ""; rq_query := fun _ => ""; rq_body := body_nil |}.
Lemma small_server_fresh : fresh_server small_server 30.
Proof. split; [apply new_store_inv|by split_and!|done|split; [done|lia]|by split]. Qed.
Lemma advertised_paths_are_served_witness :
  answer_code (@serve_http test_env wire no_yaml marking_gzip small_server (get_request "/openapi/v2") plain_headers).2 = Some 200.
Proof.
  apply (@advertised_paths_are_served test_env wire no_yaml marking_gzip small_server 30 small_schema "pb" (get_request "/openapi/v2"));
    [exact small_server_fresh|exact small_documents_built|].
  apply (bool_decide_eq_true_1 (_ ∈ _)). vm_compute. reflexivity.
Defined.

(** ** What is recorded *)
(** C33. A request to the API server is always answered, but recorded only when
    the handlers return: the event then has the status and the size of the
    answer and at most 64 KiB as the size of the body, and a request that makes
    them panic leaves no record. *)
Theorem panics_are_not_recorded : forall l r next, let '(done, event) := chain l r next in
  hn_ending done = returned None /\
  (event = None <-> hn_ending (next (limitRequestBody r)) = panicked) /\
  (hn_ending (next (limitRequestBody r)) = panicked -> hn_status done = Some (default 500 (hn_status (next (limitRequestBody r))))) /\
  forall e client, event = Some (e, client) ->
    ev_Sensor e = "kubernetes" /\ ev_RemoteAddr e = ar_remoteAddr r /\ ev_Method e = ar_method r /\ ev_Path e = ar_path r /\
    (hn_status done <> Some 0 -> ev_StatusCode e = default 200 (hn_status done)) /\ ev_BytesSent e = hn_size done /\ ev_BytesReceived e <= 65536.
Proof.
  intros l r next. unfold chain, HTTPMiddleware. destruct (next (limitRequestBody r)) as [status size [err|]]; cbn [hn_ending hn_status hn_size].
  - split; [done|]. split; [done|]. split; [done|]. intros e client [= <- _]. cbn [ev_Sensor ev_RemoteAddr ev_Method ev_Path ev_StatusCode ev_BytesSent ev_BytesReceived HTTPMiddleware_event fst
      fin_remoteAddr fin_method fin_path fin_status fin_size fin_received recoverPanics hn_ending hn_status hn_size limitRequestBody ar_remoteAddr ar_method ar_path ar_body].
    split; [vm_compute; reflexivity|]. split; [done|]. split; [done|]. split; [done|]. split; [|split; [done|]].
    + intros Hs. set (st := match err with Some _ => _ | None => _ end) in *. destruct st as [c|]; cbn [default] in *; [|done].
      unfold id. destruct (Z.eqb_spec c 0) as [->|]; [by destruct Hs|done].
    + unfold maxHTTPBody, maxHTTPBodyBytes. lia.
  - split; [done|]. split; [by split|]. by split.
Qed.

(** A DaemonSet with a negative count panics where the names of its pods are
    collected, so the chain answers 500 and the request leaves no record. *)
Definition daemonset_request : Request :=
  {| rq_method := "POST"; rq_path := "/apis/apps/v1/namespaces/default/daemonsets"; rq_remoteAddr := "203.0.113.9:4444"; rq_contentType := "application/json"; rq_accept := "";
     rq_query := fun _ => ""; rq_body := body_data (q "{'apiVersion':'apps/v1','kind':'DaemonSet','metadata':{'name':'agent','namespace':'default'},'spec':{'replicas':-1,'template':{'spec':{'containers':[{'name':'a','image':'b'}]}}}}") |}.
Definition default_namespace : world := (@run_seeds test_env [namespace_request "default"] 0 (fresh_world 0)).1.
Definition seeded_server : server :=
  {| sv_api := sv_api small_server; sv_documents := small_documents; sv_world := default_namespace; sv_openapi := openapi_start |}.
Example daemonset_panics : let '(s, r) := @serve_http test_env wire no_yaml marking_gzip seeded_server daemonset_request plain_headers in
  r = None /\ w_requestSlots (sv_world s) = 0.
Proof. vm_compute. by split. Qed.
(** What the handler leaves of it, as [recoverPanics] finds it. *)
Definition handled_of (r : option served) : handled :=
  match r with
  | None => {| hn_status := None; hn_size := 0; hn_ending := panicked |}
  | Some _ => {| hn_status := Some 200; hn_size := 0; hn_ending := returned None |}
  end.
Lemma panics_are_not_recorded_witness :
  let l := @NewEventLoggerWithConfig ascii_tables key_order (c_Logging Defaults) [] in
  let next (_ : arrival) := handled_of (@serve_http test_env wire no_yaml marking_gzip seeded_server daemonset_request plain_headers).2 in
  let r := {| ar_remoteAddr := "203.0.113.9:4444"; ar_method := "POST"; ar_path := rq_path daemonset_request; ar_userAgent := ""; ar_forwarded := []; ar_body := 200 |} in
  let '(done, event) := chain l r next in event = None /\ hn_status done = Some 500.
Proof.
  intros l next r. assert (E : hn_ending (next (limitRequestBody r)) = panicked) by (vm_compute; reflexivity).
  assert (Es : hn_status (next (limitRequestBody r)) = None) by (vm_compute; reflexivity).
  pose proof (panics_are_not_recorded l r next) as G. destruct (chain l r next) as [done event].
  destruct G as (_ & Hn & Hs & _). split; [apply Hn; exact E|]. rewrite (Hs E), Es. reflexivity.
Defined.

(** A token whose name a honeytoken of [default] has is refused by the store:
    the honeytoken takes precedence. *)
Definition clashing : K8SConfig :=
  {| k_APIVersion := "v1.37"; k_SchemaOffline := true; k_IPBase := "10.42.0.0"; k_GenerateKubeSys := false; k_GenerateRand := false;
     k_Host := "127.0.0.1"; k_Port := "8080"; k_TLSEnabled := false; k_TLSCertFile := ""; k_TLSKeyFile := ""; k_Namespaces := [];
     k_Honeytokens := [{| ht_Name := "ci"; ht_Namespace := "default"; ht_Type := "Opaque"; ht_Data := [("password", "hunter2")] |}];
     k_TokenValues := ["ghp-0001"]; k_TokenNames := ["ci"] |}.
Example honeytokens_take_precedence :
  @validateKubernetesProfile ascii_tables clashing = None /\ validateTokens clashing = None /\ @validateHoneytokens key_order clashing = None /\
  (fun o => idx o "data") <$> get (w_store (@seed_api test_env "v1.37" clashing (fresh_world 0)).1)
     {| key_group := ""; key_version := "v1"; key_resource := "secrets"; key_namespace := "default"; key_name := "ci" |} =
  Some (VMap [("password", VStr "aHVudGVyMg==")]).
Proof. vm_compute. by split_and!. Qed.
