(* ===== verification/Startup.v ===== *)
(** * Starting a sensor

    The [Start...Honeypot] functions of the sensors, as what they open, close
    and serve, with [defer] as Go has it; tlsgen.go up to the cryptography; and
    [run] of main.go.  The operating system, the HTTP server and the
    cryptographic packages are the environment: what each call gives. *)
From S2P Require Import Prelude GoStrings ConfigModel Names Netip Config Netlimit Logger Server.

#[local] Set Warnings "-clear-no-such-hyp,-notation-for-abbreviation".
#[local] Open Scope string_scope.
#[local] Open Scope list_scope.
#[local] Open Scope Z_scope.

(** ** Certificates (tlsgen.go) *)
(** The template of [selfSigned]; its times are offsets from now, in seconds,
    and its key usages and constraints are constants. *)
Record template := { tp_CommonName : string; tp_NotBefore : Z; tp_NotAfter : Z; tp_DNSNames : list string; tp_IPAddresses : list Addr }.
Inductive certificate := operator_pair (certFile keyFile : string) | self_signed (t : template).
Definition loopback : list Addr := [Addr4 [127; 0; 0; 1]; Addr6 [0; 0; 0; 0; 0; 0; 0; 1] ""].
Definition service_names : list string :=
  ["localhost"; "kubernetes"; "kubernetes.default"; "kubernetes.default.svc"; "kubernetes.default.svc.cluster.local"].
Definition add_name (t : list string * list Addr) (name : string) : list string * list Addr :=
  let name := trim_brackets (trim_space name) in
  if bool_decide (name ∈ [""; "0.0.0.0"; "::"]) then t
  else match net_ParseIP name with
       | Some ip => (t.1, t.2 ++ [ip])
       | None => (t.1 ++ [name], t.2)
       end.
Definition sign_template (commonName host : string) : template :=
  let '(names, ips) := foldl add_name (service_names, loopback) (split (chr 44) host) in
  {| tp_CommonName := commonName; tp_NotBefore := - 3600; tp_NotAfter := 365 * 24 * 3600; tp_DNSNames := names; tp_IPAddresses := ips |}.
(** What making the key, the serial and the certificate and putting them
    together gives: the error of the first that fails, with its prefix. *)
Definition selfSigned (make : template -> option string) (commonName host : string) : certificate + string :=
  let t := sign_template commonName host in
  match make t with Some e => inr e | None => inl (self_signed t) end.
(** [tls.LoadX509KeyPair]: the number of certificates, or an error. *)
Definition Certificate (load : string -> string -> Z + string) (make : template -> option string) (certFile keyFile commonName host : string) : certificate + string :=
  let certFile := trim_space certFile in
  let keyFile := trim_space keyFile in
  if negb (String.eqb certFile "") || negb (String.eqb keyFile "") then
    if String.eqb certFile "" || String.eqb keyFile "" then inr "both TLS cert and key files are required"
    else match load certFile keyFile with
         | inr e => inr ("load TLS certificate pair: " +:+ e)
         | inl n => if n =? 0 then inr "TLS certificate file contains no certificates" else inl (operator_pair certFile keyFile)
         end
  else selfSigned make commonName host.

(** ** Functions with [defer] *)
Inductive effect := listens (address : string) | opens_events | serves | closes_listener | closes_events.
(** What was done, and what is deferred, the last first. *)
Record frame := { fr_done : list effect; fr_deferred : list effect }.
(** A value, or a return. *)
Definition startup (A : Type) : Type := frame -> frame * (A + option string).
Definition then_ {A B} (m : startup A) (k : A -> startup B) : startup B :=
  fun f => match m f with (f, inl a) => k a f | (f, inr r) => (f, inr r) end.
Definition does (e : effect) : startup unit := fun f => ({| fr_done := fr_done f ++ [e]; fr_deferred := fr_deferred f |}, inl tt).
Definition defers (e : effect) : startup unit := fun f => ({| fr_done := fr_done f; fr_deferred := e :: fr_deferred f |}, inl tt).
Definition returns {A} (r : option string) : startup A := fun f => (f, inr r).
Definition continues : startup unit := fun f => (f, inl tt).
Definition call {A} (prefix : string) (r : A + string) : startup A :=
  match r with inl a => fun f => (f, inl a) | inr e => returns (Some (prefix +:+ e)) end.
(** A return runs what is deferred. *)
Definition run_startup (m : startup unit) : list effect * option string :=
  let '(f, r) := m {| fr_done := []; fr_deferred := [] |} in
  (fr_done f ++ fr_deferred f, match r with inl _ => None | inr e => e end).
Declare Scope startup_scope.
Delimit Scope startup_scope with startup.
#[local] Notation "'let*' x := m 'in' k" := (then_ m (fun x => k)) (at level 10, x name, m at level 100, k at level 200) : startup_scope.
#[local] Notation "m ;; k" := (then_ m (fun _ => k)) (at level 100, right associativity) : startup_scope.
#[local] Open Scope startup_scope.

(** ** The sensors *)
(** How serving ends: the server was closed, or an error; and whether the
    context is cancelled by then. *)
Inductive serve_end := server_closed | serve_error (e : string).
Record system := {
  sy_ctx_nil : bool; sy_ctx_err : option string;
  sy_listen : string -> option string;
  sy_sinks : list LogSinkConfig -> list nat + string;
  sy_load : string -> string -> Z + string; sy_make : template -> option string;
  sy_api : option string;                     (** the error of [NewAPIContext] *)
  sy_serve : serve_end; sy_cancelled_after : bool;
}.
Section sensors.
Context `{UnicodeTables} `{RangeOrder} (sy : system).

Definition events_of (prefix : string) (cfg : Config) : startup unit :=
  let* _ := call prefix (NewEventLoggerFromConfig (sy_sinks sy) (Some cfg)) in does opens_events.
(** [net.Listen] *)
Definition listen (prefix address : string) : startup unit :=
  let* _ := call prefix (match sy_listen sy address with Some e => inr e | None => inl tt end) in does (listens address).
(** [netlimit.NewCappedListener]: where it fails the listener is closed. *)
Definition cap_errors (e : Z) : string := if e =? errors_listener_required then "listener is required" else "max connections must be positive".
Definition cap (prefix : string) (maxConnections : Z) : startup unit :=
  match NewCappedListener true maxConnections with
  | inl _ => continues
  | inr e => does closes_listener ;; returns (Some (prefix +:+ cap_errors e))
  end.
Definition secure (prefix certFile keyFile commonName host : string) : startup unit :=
  match Certificate (sy_load sy) (sy_make sy) certFile keyFile commonName host with
  | inl _ => continues
  | inr e => does closes_listener ;; returns (Some (prefix +:+ e))
  end.
(** [start.Start] and [http.ErrServerClosed]. *)
Definition serve_echo (prefix : string) : startup unit :=
  does serves ;; match sy_serve sy with server_closed => returns None | serve_error e => returns (Some (prefix +:+ e)) end.
(** [server.Serve]: an error does not count once the context is cancelled. *)
Definition serve_plain : startup unit :=
  does serves ;; match sy_serve sy with server_closed => returns None | serve_error e => returns (if sy_cancelled_after sy then None else Some e) end.

Definition StartK8SHoneypot (cfg : option Config) : startup unit :=
  match cfg with
  | None => returns (Some "Kubernetes configuration is required")
  | Some cfg =>
      let k := c_K8S cfg in
      (let* _ := call "" (match sy_api sy with Some e => inr e | None => inl tt end) in
       let* address := call "" (listenAddress (k_Host k) (k_Port k)) in
       listen "listen for Kubernetes honeypot API: " address ;;
       cap "cap Kubernetes honeypot connections: " 64 ;;
       (if k_TLSEnabled k then secure "configure Kubernetes honeypot TLS: " (k_TLSCertFile k) (k_TLSKeyFile k) "kube-apiserver" (k_Host k) else continues) ;;
       defers closes_listener ;;
       events_of "configure event sinks: " cfg ;;
       defers closes_events ;;
       serve_echo "start Kubernetes honeypot API: ")
  end.
Definition StartKubeletHoneypot (cfg : option Config) : startup unit :=
  match cfg with
  | None => returns (Some "kubelet honeypot requires configuration")
  | Some cfg =>
      let k := c_Kubelet cfg in
      (events_of "configure event sinks: " cfg ;;
       defers closes_events ;;
       listen "listen kubelet honeypot: " (JoinHostPort (kl_Host k) (kl_Port k)) ;;
       cap "cap kubelet honeypot listener: " 128 ;;
       (if default true (kl_TLSEnabled k)
        then secure "configure kubelet honeypot TLS: " (kl_TLSCertFile k) (kl_TLSKeyFile k) ("system:node:" +:+ kl_NodeName k) (kl_Host k) else continues) ;;
       defers closes_listener ;;
       serve_echo "serve kubelet honeypot: ")
  end.
Definition StartHTTPHoneypot (cfg : option Config) : startup unit :=
  match cfg with
  | None => returns (Some "HTTP honeypot requires configuration")
  | Some cfg =>
      (events_of "configure event sinks: " cfg ;;
       defers closes_events ;;
       listen "listen HTTP honeypot: " (JoinHostPort (http_Host (c_HTTP cfg)) (http_Port (c_HTTP cfg))) ;;
       cap "cap HTTP honeypot listener: " 128 ;;
       defers closes_listener ;;
       serve_echo "serve HTTP honeypot: ")
  end.
Definition StartDockerHoneypot (cfg : option Config) : startup unit :=
  match sy_ctx_nil sy, cfg with
  | false, Some cfg =>
      (events_of "" cfg ;;
       defers closes_events ;;
       listen "" (JoinHostPort (docker_Host (c_Docker cfg)) (docker_Port (c_Docker cfg))) ;;
       cap "" 64 ;;
       defers closes_listener ;;
       serve_plain)
  | _, _ => returns (Some "Docker sensor requires context and configuration")
  end.
Definition StartAIHoneypot (cfg : option Config) : startup unit :=
  match sy_ctx_nil sy, cfg with
  | false, Some cfg =>
      match sy_ctx_err sy with
      | Some e => returns (Some e)
      | None =>
          events_of "" cfg ;;
          defers closes_events ;;
          listen "" (JoinHostPort (ai_Host (c_AI cfg)) (ai_Port (c_AI cfg))) ;;
          cap "" 64 ;;
          defers closes_listener ;;
          serve_plain
      end
  | _, _ => returns (Some "AI sensor requires context and configuration")
  end.
(** The loops of TCP and UDP are those of [Sensors]; an error they end with
    has its prefix. *)
Definition serve_loop : startup unit :=
  does serves ;; match sy_serve sy with server_closed => returns None | serve_error e => returns (Some e) end.
Definition StartTCPHoneypot (cfg : option Config) : startup unit :=
  match cfg with
  | None => returns (Some "TCP honeypot requires configuration")
  | Some cfg =>
      (listen "listen TCP honeypot: " (JoinHostPort (tcp_Host (c_TCP cfg)) (tcp_Port (c_TCP cfg))) ;;
       defers closes_listener ;;
       events_of "configure event sinks: " cfg ;;
       defers closes_events ;;
       defers closes_listener ;;
       serve_loop)
  end.
Definition StartUDPHoneypot (cfg : option Config) : startup unit :=
  match cfg with
  | None => returns (Some "UDP honeypot requires configuration")
  | Some cfg =>
      (listen "listen UDP honeypot: " (JoinHostPort (udp_Host (c_UDP cfg)) (udp_Port (c_UDP cfg))) ;;
       defers closes_listener ;;
       events_of "configure event sinks: " cfg ;;
       defers closes_events ;;
       serve_loop)
  end.
(** The sensor of a mode, as [StartHoneypot] calls it. *)
Definition start_mode (mode : string) : option Config -> startup unit :=
  if String.eqb mode "ai" then StartAIHoneypot
  else if String.eqb mode "docker" then StartDockerHoneypot
  else if String.eqb mode "k8s" then StartK8SHoneypot
  else if String.eqb mode "http" then StartHTTPHoneypot
  else if String.eqb mode "tcp" then StartTCPHoneypot
  else if String.eqb mode "udp" then StartUDPHoneypot
  else if String.eqb mode "kubelet" then StartKubeletHoneypot
  else fun _ => returns None.
End sensors.

(** ** [run] of main.go *)
(** The error of [StartHoneypot] and whether it is [context.Canceled]. *)
Definition run (result : option (string * bool)) (cancelled : bool) : option string :=
  match result with
  | None => None
  | Some (e, is_canceled) => if cancelled && is_canceled then None else Some ("run honeypot: " +:+ e)
  end.
Definition exit_code (r : option string) : Z := match r with None => 0 | Some _ => 1 end.
