(* ===== verification/StartupProps.v ===== *)
(** * Starting a sensor: properties

    Whatever fails, what was opened is closed; a sensor serves only while its
    listener and its event sinks are open, on the address of its configuration. *)
From S2P Require Import Prelude GoStrings ConfigModel Names Netip Config ConfigProps ConfigSeed Netlimit Logger Server Sensors Startup.

#[local] Set Warnings "-clear-no-such-hyp,-notation-for-abbreviation".
#[local] Open Scope string_scope.
#[local] Open Scope list_scope.
#[local] Open Scope Z_scope.

(** The listener and the event sinks, as a sequence of effects opens and closes
    them: neither is opened twice, serving needs both, and closing what is
    closed does nothing. *)
Definition opened : Type := option string * bool.
Definition track (o : opened) (e : effect) : option opened :=
  match e with
  | listens a => if bool_decide (o.1 = None) then Some (Some a, o.2) else None
  | opens_events => if o.2 then None else Some (o.1, true)
  | serves => if bool_decide (o.1 = None) || negb o.2 then None else Some o
  | closes_listener => Some (None, o.2)
  | closes_events => Some (o.1, false)
  end.
Definition tracked (l : list effect) : option opened := foldl (fun o e => o ← o; track o e) (Some (None, false)) l.
Definition listened (l : list effect) : list string := omap (fun e => match e with listens a => Some a | _ => None end) l.

Section startup.
Context `{UnicodeTables} `{RangeOrder}.
(** The addresses a sensor may listen on: that of its mode, which the
    Kubernetes sensor trims. *)
Definition address_of (c : Config) (a : string) : Prop :=
  exists host port, run_mode_address c = Some (host, port) /\
    (a = JoinHostPort host port \/ rm_RunMode (c_RunMode c) = "k8s" /\ listenAddress host port = inl a).
Record clean (c : Config) (l : list effect) (r : option string) : Prop := {
  cl_balanced : tracked l = Some (None, false);
  cl_address : Forall (address_of c) (listened l);
  cl_served : r = None -> serves ∈ l;
}.
Lemma then_value {A B} (a : A) (k : A -> startup B) : then_ (fun f => (f, inl a)) k = k a.
Proof. reflexivity. Qed.
(** What each step may come to. *)
Lemma events_cases sy p c : events_of sy p c = does opens_events \/ exists e, events_of sy p c = returns (Some e).
Proof. unfold events_of, call. destruct (NewEventLoggerFromConfig _ _); [by left|right; by eexists]. Qed.
Lemma listen_cases sy p a : listen sy p a = does (listens a) \/ exists e, listen sy p a = returns (Some e).
Proof. unfold listen, call. destruct (sy_listen sy a); [right; by eexists|by left]. Qed.
Lemma secure_cases sy p cf kf n h : secure sy p cf kf n h = continues \/ exists e, secure sy p cf kf n h = then_ (does closes_listener) (fun _ => returns (Some e)).
Proof. unfold secure. destruct (Certificate _ _ _ _ _ _); [by left|right; by eexists]. Qed.
Lemma serve_echo_cases sy p : exists r, serve_echo sy p = then_ (does serves) (fun _ => returns r).
Proof. unfold serve_echo. destruct (sy_serve sy); by eexists. Qed.
Lemma serve_plain_cases sy : exists r, serve_plain sy = then_ (does serves) (fun _ => returns r).
Proof. unfold serve_plain. destruct (sy_serve sy); by eexists. Qed.
Lemma serve_loop_cases sy : exists r, serve_loop sy = then_ (does serves) (fun _ => returns r).
Proof. unfold serve_loop. destruct (sy_serve sy); by eexists. Qed.
Lemma cap_small p n : 1 <= n -> cap p n = continues.
Proof. intros Hn. unfold cap, NewCappedListener. cbn [negb]. by rewrite (proj2 (Z.ltb_ge n 1)). Qed.
Ltac steps :=
  rewrite ?cap_small by lia;
  repeat match goal with
  | |- context [events_of ?sy ?p ?c] => destruct (events_cases sy p c) as [->|[? ->]]
  | |- context [listen ?sy ?p ?a] => destruct (listen_cases sy p a) as [->|[? ->]]
  | |- context [secure ?sy ?p ?cf ?kf ?n ?h] => destruct (secure_cases sy p cf kf n h) as [->|[? ->]]
  | |- context [serve_echo ?sy ?p] => destruct (serve_echo_cases sy p) as [? ->]
  | |- context [serve_plain ?sy] => destruct (serve_plain_cases sy) as [? ->]
  | |- context [serve_loop ?sy] => destruct (serve_loop_cases sy) as [? ->]
  end.
Lemma mode_address c mode host port : rm_RunMode (c_RunMode c) = mode -> run_mode_address c = Some (host, port) -> address_of c (JoinHostPort host port).
Proof. intros Hm Ha. exists host, port. split; [done|]. by left. Qed.
Ltac finish :=
  cbv beta iota zeta delta [run_startup then_ does defers returns continues call fr_done fr_deferred app];
  split; [reflexivity|repeat constructor; first [by eapply mode_address | eexists _, _; split; [eassumption|right; by split]]|
          first [discriminate | intros _; cbn; repeat (apply elem_of_cons; first [by left | right])]].
(** C34. Starting is clean: in every environment, whichever step fails, a sensor
    closes the listener and the event sinks it opened, serves only while both are
    open, so that no request goes unrecorded for want of a sink, listens on no
    address but its own, and returns without an error only after it has served. *)
Theorem startup_is_clean : forall sy c, rm_RunMode (c_RunMode c) ∈ run_modes ->
  let '(effects, r) := run_startup (start_mode sy (rm_RunMode (c_RunMode c)) (Some c)) in clean c effects r.
Proof.
  intros sy c Hm. unfold run_modes in Hm. set (mode := rm_RunMode (c_RunMode c)) in *. pose proof (eq_refl : rm_RunMode (c_RunMode c) = mode) as Em. clearbody mode.
  repeat (apply elem_of_cons in Hm as [->|Hm]); [..|by apply elem_of_nil in Hm];
    assert (exists host port, run_mode_address c = Some (host, port)) as (host & port & Ea) by (unfold run_mode_address; rewrite Em; cbn; eauto);
    pose proof Ea as Ea'; unfold run_mode_address in Ea; rewrite Em in Ea; cbn in Ea; injection Ea as <- <-;
    cbn [start_mode String.eqb Ascii.eqb Bool.eqb].
  - unfold StartAIHoneypot. destruct (sy_ctx_nil sy), (sy_ctx_err sy); steps; finish.
  - unfold StartDockerHoneypot. destruct (sy_ctx_nil sy); steps; finish.
  - unfold StartK8SHoneypot. destruct (sy_api sy); cbn [call]; [finish|]. destruct (listenAddress _ _) as [a|e] eqn:El; cbn [call]; [|finish].
    rewrite !then_value. destruct (k_TLSEnabled _); steps; finish.
  - unfold StartHTTPHoneypot. steps; finish.
  - unfold StartTCPHoneypot. steps; finish.
  - unfold StartUDPHoneypot. steps; finish.
  - unfold StartKubeletHoneypot. destruct (default true _); steps; finish.
Qed.
End startup.
(** The port is free, the certificate cannot be loaded. *)
Definition no_certificate : system :=
  {| sy_ctx_nil := false; sy_ctx_err := None; sy_listen := fun _ => None; sy_sinks := fun _ => inl [0%nat]; sy_load := fun _ _ => inr "no such file";
     sy_make := fun _ => Some "sign"; sy_api := None; sy_serve := server_closed; sy_cancelled_after := true |}.
Definition kubelet_cfg : Config :=
  {| c_AI := c_AI Defaults; c_Docker := c_Docker Defaults; c_HTTP := c_HTTP Defaults; c_UDP := c_UDP Defaults; c_TCP := c_TCP Defaults;
     c_Kubelet := {| kl_Host := "::1"; kl_Port := "10250"; kl_NodeName := "worker-01"; kl_TLSEnabled := Some true; kl_TLSCertFile := "a.pem"; kl_TLSKeyFile := "a.key" |};
     c_K8S := c_K8S Defaults; c_RunMode := {| rm_RunMode := "kubelet" |}; c_Logging := c_Logging Defaults |}.
Lemma startup_is_clean_witness :
  run_startup (@start_mode ascii_tables key_order no_certificate "kubelet" (Some kubelet_cfg)) =
    ([opens_events; listens "[::1]:10250"; closes_listener; closes_events], Some "configure kubelet honeypot TLS: load TLS certificate pair: no such file") /\
  tracked [opens_events; listens "[::1]:10250"; closes_listener; closes_events] = Some (None, false).
Proof.
  assert (E : run_startup (@start_mode ascii_tables key_order no_certificate "kubelet" (Some kubelet_cfg)) =
    ([opens_events; listens "[::1]:10250"; closes_listener; closes_events], Some "configure kubelet honeypot TLS: load TLS certificate pair: no such file")) by (vm_compute; reflexivity).
  split; [exact E|]. assert (Hm : rm_RunMode (c_RunMode kubelet_cfg) ∈ run_modes) by (apply (bool_decide_eq_true_1 (_ ∈ _)); vm_compute; reflexivity).
  pose proof (@startup_is_clean ascii_tables key_order no_certificate kubelet_cfg Hm) as G. change (rm_RunMode (c_RunMode kubelet_cfg)) with "kubelet" in G. rewrite E in G.
  exact (cl_balanced _ _ _ G).
Defined.
Example certificate_template :
  let t := sign_template "kube-apiserver" "[::1], 0.0.0.0,,10.1.2.3,honey.example" in
  tp_DNSNames t = service_names ++ ["honey.example"] /\ map Addr_String (tp_IPAddresses t) = ["127.0.0.1"; "::1"; "::1"; "10.1.2.3"].
Proof. vm_compute. by split. Qed.
